(** * TLS-over-TCP transport of the SP messaging library

    A shallow embedding of [src/sp/transport/tls/tls.c]: the pipe and
    endpoint structures, the negotiation, framing, queueing and
    endpoint life-cycle routines, written as state-passing programs
    that also log every call they make into the collaborators the
    transport is built on (stream provider, aio core, reap list). *)

From Stdlib Require Import ZArith List Lia Bool.
From Stdlib Require Import Strings.Byte.
From Stdlib Require Strings.String.
From stdpp Require Import base decidable option list gmap.

Import ListNotations.
Import Stdlib.Strings.String.StringSyntax.
Delimit Scope string_scope with string.
Local Open Scope Z_scope.

(** ** Result codes *)

(** Modelled from the spec: the result codes of [nng.h], which is not
    part of the sources at hand.  The transport only ever compares a
    result against zero and against named codes, so the numeric values
    are immaterial; [NNG_OK] stands for the result 0. *)
Inductive nng_err : Type :=
| NNG_OK
| NNG_ENOMEM
| NNG_EINVAL
| NNG_EBUSY
| NNG_ETIMEDOUT
| NNG_ECONNREFUSED
| NNG_ECLOSED
| NNG_EAGAIN
| NNG_ENOTSUP
| NNG_EADDRINUSE
| NNG_ESTATE
| NNG_ENOENT
| NNG_EPROTO
| NNG_EADDRINVAL
| NNG_EMSGSIZE
| NNG_ECANCELED
| NNG_ENOFILES
| NNG_ECRYPTO
| NNG_EPEERAUTH
| NNG_EBADTYPE
| NNG_ECONNSHUT.

#[global] Instance nng_err_eq_dec : EqDecision nng_err.
Proof. solve_decision. Defined.

(** ** Bytes and the wire encodings *)

Definition byte_to_Z (b : byte) : Z := Z.of_N (Byte.to_N b).

Definition Z_to_byte (z : Z) : byte :=
  match Byte.of_N (Z.to_N (z mod 256)) with
  | Some b => b
  | None => x00
  end.

#[global] Instance byte_eq_dec' : EqDecision byte := Byte.byte_eq_dec.

Definition uint16_max : Z := 2 ^ 16.
Definition uint64_max : Z := 2 ^ 64.

(** [size_t] and [uint64_t] are both taken to be 64 bits wide (LP64);
    additions on them wrap. *)
Definition size_add (x y : Z) : Z := (x + y) mod uint64_max.
Definition size_sub (x y : Z) : Z := (x - y) mod uint64_max.

(** Modelled from the spec: the macros [NNI_PUT16], [NNI_GET16],
    [NNI_PUT64] and [NNI_GET64] of [core/defs.h] (absent from the
    sources at hand), which store and load an integer in network
    (big-endian) byte order. *)
Definition NNI_PUT16 (u : Z) : list byte :=
  [Z_to_byte (Z.shiftr (u mod uint16_max) 8); Z_to_byte (u mod uint16_max)].

Definition NNI_GET16 (ptr : list byte) : Z :=
  (Z.shiftl (byte_to_Z (nth 0 ptr x00)) 8 + byte_to_Z (nth 1 ptr x00))
    mod uint16_max.

Definition NNI_PUT64 (u : Z) : list byte :=
  let u := u mod uint64_max in
  [Z_to_byte (Z.shiftr u 56); Z_to_byte (Z.shiftr u 48);
   Z_to_byte (Z.shiftr u 40); Z_to_byte (Z.shiftr u 32);
   Z_to_byte (Z.shiftr u 24); Z_to_byte (Z.shiftr u 16);
   Z_to_byte (Z.shiftr u 8); Z_to_byte u].

Definition NNI_GET64 (ptr : list byte) : Z :=
  (Z.shiftl (byte_to_Z (nth 0 ptr x00)) 56
   + Z.shiftl (byte_to_Z (nth 1 ptr x00)) 48
   + Z.shiftl (byte_to_Z (nth 2 ptr x00)) 40
   + Z.shiftl (byte_to_Z (nth 3 ptr x00)) 32
   + Z.shiftl (byte_to_Z (nth 4 ptr x00)) 24
   + Z.shiftl (byte_to_Z (nth 5 ptr x00)) 16
   + Z.shiftl (byte_to_Z (nth 6 ptr x00)) 8
   + byte_to_Z (nth 7 ptr x00)) mod uint64_max.

(** The character constants of the negotiation header. *)
Definition char_S : byte := x53.
Definition char_P : byte := x50.

(** ** Messages, io vectors and aios *)

(** Modelled from the spec: [nni_msg] (core/message.c is absent): a
    header and a body, each a byte string. *)
Record nni_msg : Type := mk_msg {
  msg_header : list byte;
  msg_body : list byte
}.

Definition nni_msg_header_len (m : nni_msg) : Z := Z.of_nat (length (msg_header m)).
Definition nni_msg_len (m : nni_msg) : Z := Z.of_nat (length (msg_body m)).

(** Modelled from the spec: [nni_msg_alloc] yields a message with an
    empty header and a body of the requested size. *)
Definition msg_of_size (sz : Z) : nni_msg :=
  mk_msg [] (repeat x00 (Z.to_nat sz)).

(** The memory regions an io vector of this transport can point into. *)
Inductive buf : Type :=
| buf_txlen            (* p->txlen *)
| buf_rxlen            (* p->rxlen *)
| buf_msg_header (aio : nat)  (* nni_msg_header of the message of a user aio *)
| buf_msg_body (aio : nat)    (* nni_msg_body of the message of a user aio *)
| buf_rxmsg_body.      (* nni_msg_body (p->rxmsg) *)

#[global] Instance buf_eq_dec : EqDecision buf.
Proof. solve_decision. Defined.

Record nni_iov : Type := mk_iov {
  iov_buf : buf;
  iov_off : Z;    (* how far iov_buf has been advanced into the region *)
  iov_len : Z
}.

#[global] Instance nni_iov_eq_dec : EqDecision nni_iov.
Proof. solve_decision. Defined.

(** An aio owned by the transport (a pipe's txaio, rxaio and negoaio,
    an endpoint's connaio and timeaio).  [a_result], [a_count] and
    [a_output] are what the provider left in it when it completed. *)
Record nni_aio : Type := mk_aio {
  a_result : nng_err;
  a_count : Z;
  a_iov : list nni_iov;
  a_output : option nat;
  a_timeout : option Z
}.

Definition aio_init : nni_aio := mk_aio NNG_OK 0 [] None None.

Definition nni_aio_set_iov (iov : list nni_iov) (a : nni_aio) : nni_aio :=
  mk_aio (a_result a) (a_count a) iov (a_output a) (a_timeout a).

Definition nni_aio_set_timeout (ms : Z) (a : nni_aio) : nni_aio :=
  mk_aio (a_result a) (a_count a) (a_iov a) (a_output a) (Some ms).

(** Modelled from the spec ("advance the iov by the byte count"):
    [nni_aio_iov_advance] of core/aio.c consumes [n] bytes from the
    front of the vector, dropping the entries it exhausts. *)
Fixpoint iov_advance (n : Z) (v : list nni_iov) : list nni_iov :=
  match v with
  | [] => []
  | e :: rest =>
      if decide (n <= 0) then v
      else if decide (n < iov_len e)
      then mk_iov (iov_buf e) (iov_off e + n) (iov_len e - n) :: rest
      else iov_advance (n - iov_len e) rest
  end.

Definition nni_aio_iov_advance (n : Z) (a : nni_aio) : nni_aio :=
  nni_aio_set_iov (iov_advance n (a_iov a)) a.

(** Modelled from the spec: [nni_aio_iov_count], the bytes that
    remain to be moved. *)
Definition iov_count (v : list nni_iov) : Z :=
  fold_right (fun e acc => iov_len e + acc) 0 v.

Definition nni_aio_iov_count (a : nni_aio) : Z := iov_count (a_iov a).

(** A user aio, handed in by the layer above.  [ua_begin] and
    [ua_schedule] are what [nni_aio_begin] and [nni_aio_schedule] of
    the aio core (absent from the sources) answer for it; [ua_msg] is
    the message it carries on a send. *)
Record user_aio : Type := mk_uaio {
  ua_id : nat;
  ua_begin : nng_err;
  ua_schedule : nng_err;
  ua_msg : nni_msg
}.

Definition nni_aio_begin (aio : user_aio) : nng_err := ua_begin aio.
Definition nni_aio_schedule (aio : user_aio) : nng_err := ua_schedule aio.
Definition nni_aio_get_msg (aio : user_aio) : nni_msg := ua_msg aio.

(** ** The pipe and endpoint structures *)

(** There is one endpoint in the state we model; a pipe's [ep] field
    is either NULL or points at it. *)
Inductive ep_ref : Type := the_ep.

(** [struct tlstran_pipe].  The mutex, the list and reap nodes and the
    [closed] flag (which no routine reads or writes) are left out. *)
Record tlstran_pipe : Type := mk_pipe {
  p_tls : option nat;   (* the stream, NULL before start *)
  p_npipe : nat;   (* handle of the socket-level pipe *)
  p_peer : Z;
  p_proto : Z;
  p_rcvmax : Z;
  p_sendq : list user_aio;
  p_recvq : list user_aio;
  p_ep : option ep_ref;   (* back reference to the endpoint *)
  p_reaped : bool;
  p_txlen : list byte;
  p_rxlen : list byte;
  p_gottxhead : Z;
  p_gotrxhead : Z;
  p_wanttxhead : Z;
  p_wantrxhead : Z;
  p_txaio : nni_aio;
  p_rxaio : nni_aio;
  p_negoaio : nni_aio;
  p_rxmsg : option nni_msg
}.

Definition set_p_tls (v : option nat) (p : tlstran_pipe) : tlstran_pipe :=
  mk_pipe v (p_npipe p) (p_peer p) (p_proto p) (p_rcvmax p) (p_sendq p)
    (p_recvq p) (p_ep p) (p_reaped p) (p_txlen p) (p_rxlen p)
    (p_gottxhead p) (p_gotrxhead p) (p_wanttxhead p) (p_wantrxhead p)
    (p_txaio p) (p_rxaio p) (p_negoaio p) (p_rxmsg p).

Definition set_p_npipe (v : nat) (p : tlstran_pipe) : tlstran_pipe :=
  mk_pipe (p_tls p) v (p_peer p) (p_proto p) (p_rcvmax p) (p_sendq p)
    (p_recvq p) (p_ep p) (p_reaped p) (p_txlen p) (p_rxlen p)
    (p_gottxhead p) (p_gotrxhead p) (p_wanttxhead p) (p_wantrxhead p)
    (p_txaio p) (p_rxaio p) (p_negoaio p) (p_rxmsg p).

Definition set_p_peer (v : Z) (p : tlstran_pipe) : tlstran_pipe :=
  mk_pipe (p_tls p) (p_npipe p) v (p_proto p) (p_rcvmax p) (p_sendq p)
    (p_recvq p) (p_ep p) (p_reaped p) (p_txlen p) (p_rxlen p)
    (p_gottxhead p) (p_gotrxhead p) (p_wanttxhead p) (p_wantrxhead p)
    (p_txaio p) (p_rxaio p) (p_negoaio p) (p_rxmsg p).

Definition set_p_proto (v : Z) (p : tlstran_pipe) : tlstran_pipe :=
  mk_pipe (p_tls p) (p_npipe p) (p_peer p) v (p_rcvmax p) (p_sendq p)
    (p_recvq p) (p_ep p) (p_reaped p) (p_txlen p) (p_rxlen p)
    (p_gottxhead p) (p_gotrxhead p) (p_wanttxhead p) (p_wantrxhead p)
    (p_txaio p) (p_rxaio p) (p_negoaio p) (p_rxmsg p).

Definition set_p_rcvmax (v : Z) (p : tlstran_pipe) : tlstran_pipe :=
  mk_pipe (p_tls p) (p_npipe p) (p_peer p) (p_proto p) v (p_sendq p)
    (p_recvq p) (p_ep p) (p_reaped p) (p_txlen p) (p_rxlen p)
    (p_gottxhead p) (p_gotrxhead p) (p_wanttxhead p) (p_wantrxhead p)
    (p_txaio p) (p_rxaio p) (p_negoaio p) (p_rxmsg p).

Definition set_p_sendq (v : list user_aio) (p : tlstran_pipe) : tlstran_pipe :=
  mk_pipe (p_tls p) (p_npipe p) (p_peer p) (p_proto p) (p_rcvmax p) v
    (p_recvq p) (p_ep p) (p_reaped p) (p_txlen p) (p_rxlen p)
    (p_gottxhead p) (p_gotrxhead p) (p_wanttxhead p) (p_wantrxhead p)
    (p_txaio p) (p_rxaio p) (p_negoaio p) (p_rxmsg p).

Definition set_p_recvq (v : list user_aio) (p : tlstran_pipe) : tlstran_pipe :=
  mk_pipe (p_tls p) (p_npipe p) (p_peer p) (p_proto p) (p_rcvmax p)
    (p_sendq p) v (p_ep p) (p_reaped p) (p_txlen p) (p_rxlen p)
    (p_gottxhead p) (p_gotrxhead p) (p_wanttxhead p) (p_wantrxhead p)
    (p_txaio p) (p_rxaio p) (p_negoaio p) (p_rxmsg p).

Definition set_p_ep (v : option ep_ref) (p : tlstran_pipe) : tlstran_pipe :=
  mk_pipe (p_tls p) (p_npipe p) (p_peer p) (p_proto p) (p_rcvmax p)
    (p_sendq p) (p_recvq p) v (p_reaped p) (p_txlen p) (p_rxlen p)
    (p_gottxhead p) (p_gotrxhead p) (p_wanttxhead p) (p_wantrxhead p)
    (p_txaio p) (p_rxaio p) (p_negoaio p) (p_rxmsg p).

Definition set_p_reaped (v : bool) (p : tlstran_pipe) : tlstran_pipe :=
  mk_pipe (p_tls p) (p_npipe p) (p_peer p) (p_proto p) (p_rcvmax p)
    (p_sendq p) (p_recvq p) (p_ep p) v (p_txlen p) (p_rxlen p)
    (p_gottxhead p) (p_gotrxhead p) (p_wanttxhead p) (p_wantrxhead p)
    (p_txaio p) (p_rxaio p) (p_negoaio p) (p_rxmsg p).

Definition set_p_txlen (v : list byte) (p : tlstran_pipe) : tlstran_pipe :=
  mk_pipe (p_tls p) (p_npipe p) (p_peer p) (p_proto p) (p_rcvmax p)
    (p_sendq p) (p_recvq p) (p_ep p) (p_reaped p) v (p_rxlen p)
    (p_gottxhead p) (p_gotrxhead p) (p_wanttxhead p) (p_wantrxhead p)
    (p_txaio p) (p_rxaio p) (p_negoaio p) (p_rxmsg p).

Definition set_p_rxlen (v : list byte) (p : tlstran_pipe) : tlstran_pipe :=
  mk_pipe (p_tls p) (p_npipe p) (p_peer p) (p_proto p) (p_rcvmax p)
    (p_sendq p) (p_recvq p) (p_ep p) (p_reaped p) (p_txlen p) v
    (p_gottxhead p) (p_gotrxhead p) (p_wanttxhead p) (p_wantrxhead p)
    (p_txaio p) (p_rxaio p) (p_negoaio p) (p_rxmsg p).

Definition set_p_gottxhead (v : Z) (p : tlstran_pipe) : tlstran_pipe :=
  mk_pipe (p_tls p) (p_npipe p) (p_peer p) (p_proto p) (p_rcvmax p)
    (p_sendq p) (p_recvq p) (p_ep p) (p_reaped p) (p_txlen p) (p_rxlen p) v
    (p_gotrxhead p) (p_wanttxhead p) (p_wantrxhead p) (p_txaio p)
    (p_rxaio p) (p_negoaio p) (p_rxmsg p).

Definition set_p_gotrxhead (v : Z) (p : tlstran_pipe) : tlstran_pipe :=
  mk_pipe (p_tls p) (p_npipe p) (p_peer p) (p_proto p) (p_rcvmax p)
    (p_sendq p) (p_recvq p) (p_ep p) (p_reaped p) (p_txlen p) (p_rxlen p)
    (p_gottxhead p) v (p_wanttxhead p) (p_wantrxhead p) (p_txaio p)
    (p_rxaio p) (p_negoaio p) (p_rxmsg p).

Definition set_p_wanttxhead (v : Z) (p : tlstran_pipe) : tlstran_pipe :=
  mk_pipe (p_tls p) (p_npipe p) (p_peer p) (p_proto p) (p_rcvmax p)
    (p_sendq p) (p_recvq p) (p_ep p) (p_reaped p) (p_txlen p) (p_rxlen p)
    (p_gottxhead p) (p_gotrxhead p) v (p_wantrxhead p) (p_txaio p)
    (p_rxaio p) (p_negoaio p) (p_rxmsg p).

Definition set_p_wantrxhead (v : Z) (p : tlstran_pipe) : tlstran_pipe :=
  mk_pipe (p_tls p) (p_npipe p) (p_peer p) (p_proto p) (p_rcvmax p)
    (p_sendq p) (p_recvq p) (p_ep p) (p_reaped p) (p_txlen p) (p_rxlen p)
    (p_gottxhead p) (p_gotrxhead p) (p_wanttxhead p) v (p_txaio p)
    (p_rxaio p) (p_negoaio p) (p_rxmsg p).

Definition set_p_txaio (v : nni_aio) (p : tlstran_pipe) : tlstran_pipe :=
  mk_pipe (p_tls p) (p_npipe p) (p_peer p) (p_proto p) (p_rcvmax p)
    (p_sendq p) (p_recvq p) (p_ep p) (p_reaped p) (p_txlen p) (p_rxlen p)
    (p_gottxhead p) (p_gotrxhead p) (p_wanttxhead p) (p_wantrxhead p) v
    (p_rxaio p) (p_negoaio p) (p_rxmsg p).

Definition set_p_rxaio (v : nni_aio) (p : tlstran_pipe) : tlstran_pipe :=
  mk_pipe (p_tls p) (p_npipe p) (p_peer p) (p_proto p) (p_rcvmax p)
    (p_sendq p) (p_recvq p) (p_ep p) (p_reaped p) (p_txlen p) (p_rxlen p)
    (p_gottxhead p) (p_gotrxhead p) (p_wanttxhead p) (p_wantrxhead p)
    (p_txaio p) v (p_negoaio p) (p_rxmsg p).

Definition set_p_negoaio (v : nni_aio) (p : tlstran_pipe) : tlstran_pipe :=
  mk_pipe (p_tls p) (p_npipe p) (p_peer p) (p_proto p) (p_rcvmax p)
    (p_sendq p) (p_recvq p) (p_ep p) (p_reaped p) (p_txlen p) (p_rxlen p)
    (p_gottxhead p) (p_gotrxhead p) (p_wanttxhead p) (p_wantrxhead p)
    (p_txaio p) (p_rxaio p) v (p_rxmsg p).

Definition set_p_rxmsg (v : option nni_msg) (p : tlstran_pipe) : tlstran_pipe :=
  mk_pipe (p_tls p) (p_npipe p) (p_peer p) (p_proto p) (p_rcvmax p)
    (p_sendq p) (p_recvq p) (p_ep p) (p_reaped p) (p_txlen p) (p_rxlen p)
    (p_gottxhead p) (p_gotrxhead p) (p_wanttxhead p) (p_wantrxhead p)
    (p_txaio p) (p_rxaio p) (p_negoaio p) v.

(** [struct tlstran_ep].  The url, host, socket address and statistics
    item play no part in the routines below. *)
Record tlstran_ep : Type := mk_ep {
  ep_proto : Z;
  ep_rcvmax : Z;
  ep_started : bool;
  ep_closed : bool;
  ep_fini : bool;
  ep_refcnt : Z;
  ep_dialer : bool;   (* whether ep->dialer is non-NULL *)
  ep_listener : bool;   (* whether ep->listener is non-NULL *)
  ep_useraio : option user_aio;
  ep_connaio : nni_aio;
  ep_timeaio : nni_aio;
  ep_busypipes : list nat;   (* pipes passed to the socket *)
  ep_waitpipes : list nat;   (* pipes waiting to match *)
  ep_negopipes : list nat   (* pipes busy negotiating *)
}.

Definition set_ep_proto (v : Z) (e : tlstran_ep) : tlstran_ep :=
  mk_ep v (ep_rcvmax e) (ep_started e) (ep_closed e) (ep_fini e)
    (ep_refcnt e) (ep_dialer e) (ep_listener e) (ep_useraio e)
    (ep_connaio e) (ep_timeaio e) (ep_busypipes e) (ep_waitpipes e)
    (ep_negopipes e).

Definition set_ep_rcvmax (v : Z) (e : tlstran_ep) : tlstran_ep :=
  mk_ep (ep_proto e) v (ep_started e) (ep_closed e) (ep_fini e)
    (ep_refcnt e) (ep_dialer e) (ep_listener e) (ep_useraio e)
    (ep_connaio e) (ep_timeaio e) (ep_busypipes e) (ep_waitpipes e)
    (ep_negopipes e).

Definition set_ep_started (v : bool) (e : tlstran_ep) : tlstran_ep :=
  mk_ep (ep_proto e) (ep_rcvmax e) v (ep_closed e) (ep_fini e) (ep_refcnt e)
    (ep_dialer e) (ep_listener e) (ep_useraio e) (ep_connaio e)
    (ep_timeaio e) (ep_busypipes e) (ep_waitpipes e) (ep_negopipes e).

Definition set_ep_closed (v : bool) (e : tlstran_ep) : tlstran_ep :=
  mk_ep (ep_proto e) (ep_rcvmax e) (ep_started e) v (ep_fini e)
    (ep_refcnt e) (ep_dialer e) (ep_listener e) (ep_useraio e)
    (ep_connaio e) (ep_timeaio e) (ep_busypipes e) (ep_waitpipes e)
    (ep_negopipes e).

Definition set_ep_fini (v : bool) (e : tlstran_ep) : tlstran_ep :=
  mk_ep (ep_proto e) (ep_rcvmax e) (ep_started e) (ep_closed e) v
    (ep_refcnt e) (ep_dialer e) (ep_listener e) (ep_useraio e)
    (ep_connaio e) (ep_timeaio e) (ep_busypipes e) (ep_waitpipes e)
    (ep_negopipes e).

Definition set_ep_refcnt (v : Z) (e : tlstran_ep) : tlstran_ep :=
  mk_ep (ep_proto e) (ep_rcvmax e) (ep_started e) (ep_closed e) (ep_fini e)
    v (ep_dialer e) (ep_listener e) (ep_useraio e) (ep_connaio e)
    (ep_timeaio e) (ep_busypipes e) (ep_waitpipes e) (ep_negopipes e).

Definition set_ep_dialer (v : bool) (e : tlstran_ep) : tlstran_ep :=
  mk_ep (ep_proto e) (ep_rcvmax e) (ep_started e) (ep_closed e) (ep_fini e)
    (ep_refcnt e) v (ep_listener e) (ep_useraio e) (ep_connaio e)
    (ep_timeaio e) (ep_busypipes e) (ep_waitpipes e) (ep_negopipes e).

Definition set_ep_listener (v : bool) (e : tlstran_ep) : tlstran_ep :=
  mk_ep (ep_proto e) (ep_rcvmax e) (ep_started e) (ep_closed e) (ep_fini e)
    (ep_refcnt e) (ep_dialer e) v (ep_useraio e) (ep_connaio e)
    (ep_timeaio e) (ep_busypipes e) (ep_waitpipes e) (ep_negopipes e).

Definition set_ep_useraio (v : option user_aio) (e : tlstran_ep) : tlstran_ep :=
  mk_ep (ep_proto e) (ep_rcvmax e) (ep_started e) (ep_closed e) (ep_fini e)
    (ep_refcnt e) (ep_dialer e) (ep_listener e) v (ep_connaio e)
    (ep_timeaio e) (ep_busypipes e) (ep_waitpipes e) (ep_negopipes e).

Definition set_ep_connaio (v : nni_aio) (e : tlstran_ep) : tlstran_ep :=
  mk_ep (ep_proto e) (ep_rcvmax e) (ep_started e) (ep_closed e) (ep_fini e)
    (ep_refcnt e) (ep_dialer e) (ep_listener e) (ep_useraio e) v
    (ep_timeaio e) (ep_busypipes e) (ep_waitpipes e) (ep_negopipes e).

Definition set_ep_timeaio (v : nni_aio) (e : tlstran_ep) : tlstran_ep :=
  mk_ep (ep_proto e) (ep_rcvmax e) (ep_started e) (ep_closed e) (ep_fini e)
    (ep_refcnt e) (ep_dialer e) (ep_listener e) (ep_useraio e)
    (ep_connaio e) v (ep_busypipes e) (ep_waitpipes e) (ep_negopipes e).

Definition set_ep_busypipes (v : list nat) (e : tlstran_ep) : tlstran_ep :=
  mk_ep (ep_proto e) (ep_rcvmax e) (ep_started e) (ep_closed e) (ep_fini e)
    (ep_refcnt e) (ep_dialer e) (ep_listener e) (ep_useraio e)
    (ep_connaio e) (ep_timeaio e) v (ep_waitpipes e) (ep_negopipes e).

Definition set_ep_waitpipes (v : list nat) (e : tlstran_ep) : tlstran_ep :=
  mk_ep (ep_proto e) (ep_rcvmax e) (ep_started e) (ep_closed e) (ep_fini e)
    (ep_refcnt e) (ep_dialer e) (ep_listener e) (ep_useraio e)
    (ep_connaio e) (ep_timeaio e) (ep_busypipes e) v (ep_negopipes e).

Definition set_ep_negopipes (v : list nat) (e : tlstran_ep) : tlstran_ep :=
  mk_ep (ep_proto e) (ep_rcvmax e) (ep_started e) (ep_closed e) (ep_fini e)
    (ep_refcnt e) (ep_dialer e) (ep_listener e) (ep_useraio e)
    (ep_connaio e) (ep_timeaio e) (ep_busypipes e) (ep_waitpipes e) v.

(** ** Calls into the collaborators *)

(** The aios the transport owns. *)
Inductive owned_aio : Type := TXAIO | RXAIO | NEGOAIO | CONNAIO | TIMEAIO.

#[global] Instance owned_aio_eq_dec : EqDecision owned_aio.
Proof. solve_decision. Defined.

(** Every call the transport makes into code outside tls.c is logged,
    in program order, as one [call].  A user aio is named by its id, a
    stream by the handle stored in [p->tls]. *)
Inductive call : Type :=
| c_nng_stream_send (tls : option nat) (aio : owned_aio) (iov : list nni_iov)
| c_nng_stream_recv (tls : option nat) (aio : owned_aio) (iov : list nni_iov)
| c_nng_stream_close (tls : option nat)
| c_nng_stream_free (tls : option nat)
| c_nni_aio_close (aio : owned_aio)
| c_nni_aio_stop (aio : owned_aio)
| c_nni_aio_free (aio : owned_aio)
| c_nni_aio_abort (aio : owned_aio) (rv : nng_err)
| c_nni_aio_set_output (aio : nat) (index : Z) (pipe : nat)
| c_nni_aio_set_msg (aio : nat) (msg : option nni_msg)
| c_nni_aio_finish (aio : nat) (rv : nng_err) (count : Z)
| c_nni_aio_finish_sync (aio : nat) (rv : nng_err) (count : Z)
| c_nni_aio_finish_error (aio : nat) (rv : nng_err)
| c_nni_msg_free (msg : option nni_msg)
| c_nni_pipe_bump_tx (npipe : nat) (n : Z)
| c_nni_pipe_bump_rx (npipe : nat) (n : Z)
| c_nni_pipe_bump_error (npipe : nat) (rv : nng_err)
| c_nng_log_warn (len rcvmax : Z)
| c_nng_sleep_aio (ms : Z) (aio : owned_aio)
| c_nng_stream_listener_accept (aio : owned_aio)
| c_nng_stream_listener_close
| c_nng_stream_listener_free
| c_nng_stream_dialer_dial (aio : owned_aio)
| c_nng_stream_dialer_close
| c_nng_stream_dialer_free
| c_nni_reap_pipe (pipe : nat)      (* nni_reap (&tlstran_pipe_reap_list, p) *)
| c_nni_reap_ep                     (* nni_reap (&tlstran_ep_reap_list, ep) *)
| c_free_pipe                       (* NNI_FREE_STRUCT (p) *)
| c_free_ep                         (* NNI_FREE_STRUCT (ep) *)
| c_on_pipe (pipe : nat) (c : call). (* a call made by a pipe routine run on [pipe] *)

(** ** A state monad that logs calls and can crash *)

(** A routine maps the state to [None] when it dereferences NULL or
    fails an assertion, and otherwise to its result, the new state, and
    the calls it made. *)
Definition M (S A : Type) : Type := S -> option (A * S * list call).

Definition ret {S A} (x : A) : M S A := fun s => Some (x, s, []).

Definition bind {S A B} (m : M S A) (k : A -> M S B) : M S B :=
  fun s =>
    match m s with
    | None => None
    | Some (x, s1, t1) =>
        match k x s1 with
        | None => None
        | Some (y, s2, t2) => Some (y, s2, t1 ++ t2)
        end
    end.

Definition get {S} : M S S := fun s => Some (s, s, []).
Definition modify {S} (f : S -> S) : M S unit := fun s => Some (tt, f s, []).
Definition emit {S} (c : call) : M S unit := fun s => Some (tt, s, [c]).
Definition crash {S A} : M S A := fun _ => None.

(** [NNI_ASSERT]. *)
Definition NNI_ASSERT {S} (b : bool) : M S unit :=
  if b then ret tt else crash.

Declare Scope tls_scope.
Delimit Scope tls_scope with tls.
Notation "'let*' x ':=' m 'in' k" := (bind m (fun x => k))
  (at level 10, x name, m at level 100, k at level 200) : tls_scope.
Notation "m '>>' k" := (bind m (fun _ => k))
  (at level 100, k at level 200, right associativity) : tls_scope.
Local Open Scope tls_scope.

(** ** Lists of user aios (modelled from the spec: core/list.c) *)

Definition nni_list_first {A} (l : list A) : option A := head l.

(** [nni_aio_list_remove]: unlink the aio from the list it is on. *)
Fixpoint nni_aio_list_remove (aio : user_aio) (q : list user_aio) : list user_aio :=
  match q with
  | [] => []
  | a :: rest =>
      if decide (ua_id a = ua_id aio) then rest
      else a :: nni_aio_list_remove aio rest
  end.

(** [nni_aio_list_active], for an aio that can only be on queue [q]. *)
Definition nni_aio_list_active (aio : user_aio) (q : list user_aio) : bool :=
  existsb (fun a => bool_decide (ua_id a = ua_id aio)) q.

(** [nni_list_first (q) == aio]. *)
Definition is_first (aio : user_aio) (q : list user_aio) : bool :=
  match nni_list_first q with
  | Some a => bool_decide (ua_id a = ua_id aio)
  | None => false
  end.

(** Dereferencing a possibly-NULL aio pointer. *)
Definition deref {S A} (o : option A) : M S A :=
  match o with
  | Some a => ret a
  | None => crash
  end.

(** ** Pipe routines: close and stop *)

Definition tlstran_pipe_close : M tlstran_pipe unit :=
  emit (c_nni_aio_close RXAIO) >>
  emit (c_nni_aio_close TXAIO) >>
  emit (c_nni_aio_close NEGOAIO) >>
  let* p := get in
  emit (c_nng_stream_close (p_tls p)).

Definition tlstran_pipe_stop : M tlstran_pipe unit :=
  emit (c_nni_aio_stop RXAIO) >>
  emit (c_nni_aio_stop TXAIO) >>
  emit (c_nni_aio_stop NEGOAIO).

(** ** Pipe routines: sending *)

Definition tlstran_pipe_send_start : M tlstran_pipe unit :=
  let* p := get in
  match nni_list_first (p_sendq p) with
  | None => ret tt
  | Some aio =>
      let msg := nni_aio_get_msg aio in
      let len := size_add (nni_msg_len msg) (nni_msg_header_len msg) in
      modify (set_p_txlen (NNI_PUT64 len)) >>
      let iov0 := [mk_iov buf_txlen 0 8] in
      let iov1 :=
        if decide (nni_msg_header_len msg > 0)
        then iov0 ++ [mk_iov (buf_msg_header (ua_id aio)) 0 (nni_msg_header_len msg)]
        else iov0 in
      let iov2 :=
        if decide (nni_msg_len msg > 0)
        then iov1 ++ [mk_iov (buf_msg_body (ua_id aio)) 0 (nni_msg_len msg)]
        else iov1 in
      modify (fun p => set_p_txaio (nni_aio_set_iov iov2 (p_txaio p)) p) >>
      let* p := get in
      emit (c_nng_stream_send (p_tls p) TXAIO (a_iov (p_txaio p)))
  end.

Definition tlstran_pipe_send_cb : M tlstran_pipe unit :=
  let* p := get in
  let txaio := p_txaio p in
  let aio := nni_list_first (p_sendq p) in
  let rv := a_result txaio in
  if decide (rv <> NNG_OK) then
    (* Intentionally we do not queue up another transfer. *)
    let* aio := deref aio in
    modify (set_p_sendq (nni_aio_list_remove aio (p_sendq p))) >>
    emit (c_nni_aio_finish_error (ua_id aio) rv) >>
    emit (c_nni_pipe_bump_error (p_npipe p) rv)
  else
    let n := a_count txaio in
    modify (set_p_txaio (nni_aio_iov_advance n txaio)) >>
    let* p := get in
    if decide (nni_aio_iov_count (p_txaio p) > 0) then
      emit (c_nng_stream_send (p_tls p) TXAIO (a_iov (p_txaio p)))
    else
      let* aio := deref aio in
      modify (set_p_sendq (nni_aio_list_remove aio (p_sendq p))) >>
      tlstran_pipe_send_start >>
      let msg := nni_aio_get_msg aio in
      let n := nni_msg_len msg in
      emit (c_nni_pipe_bump_tx (p_npipe p) n) >>
      emit (c_nni_aio_set_msg (ua_id aio) None) >>
      emit (c_nni_msg_free (Some msg)) >>
      emit (c_nni_aio_finish_sync (ua_id aio) NNG_OK n).

Definition tlstran_pipe_send_cancel (aio : user_aio) (rv : nng_err)
  : M tlstran_pipe unit :=
  let* p := get in
  if negb (nni_aio_list_active aio (p_sendq p)) then ret tt
  else if is_first aio (p_sendq p) then
    (* the callback on the txaio will cancel the user aio too *)
    emit (c_nni_aio_abort TXAIO rv)
  else
    modify (set_p_sendq (nni_aio_list_remove aio (p_sendq p))) >>
    emit (c_nni_aio_finish_error (ua_id aio) rv).

Definition tlstran_pipe_send (aio : user_aio) : M tlstran_pipe unit :=
  if decide (nni_aio_begin aio <> NNG_OK) then
    emit (c_nni_msg_free (Some (nni_aio_get_msg aio))) >>
    emit (c_nni_aio_set_msg (ua_id aio) None)
  else
    let rv := nni_aio_schedule aio in
    if decide (rv <> NNG_OK) then
      emit (c_nni_aio_finish_error (ua_id aio) rv)
    else
      modify (fun p => set_p_sendq (p_sendq p ++ [aio]) p) >>
      let* p := get in
      if is_first aio (p_sendq p) then tlstran_pipe_send_start else ret tt.

(** ** Pipe routines: receiving *)

Definition tlstran_pipe_recv_start : M tlstran_pipe unit :=
  let* p := get in
  NNI_ASSERT (bool_decide (p_rxmsg p = None)) >>
  (* Schedule a read of the header. *)
  modify (set_p_rxaio (nni_aio_set_iov [mk_iov buf_rxlen 0 8] (p_rxaio p))) >>
  let* p := get in
  emit (c_nng_stream_recv (p_tls p) RXAIO (a_iov (p_rxaio p))).

(** The [recv_error] label of [tlstran_pipe_recv_cb]. *)
Definition recv_error (aio : option user_aio) (rv : nng_err) : M tlstran_pipe unit :=
  let* aio := deref aio in
  let* p := get in
  modify (set_p_recvq (nni_aio_list_remove aio (p_recvq p))) >>
  let msg := p_rxmsg p in
  modify (set_p_rxmsg None) >>
  emit (c_nni_pipe_bump_error (p_npipe p) rv) >>
  (* Intentionally, we do not queue up another receive. *)
  emit (c_nni_msg_free msg) >>
  emit (c_nni_aio_finish_error (ua_id aio) rv).

(** The tail of [tlstran_pipe_recv_cb]: a message was read completely. *)
Definition recv_deliver (aio : option user_aio) : M tlstran_pipe unit :=
  let* aio := deref aio in
  let* p := get in
  modify (set_p_recvq (nni_aio_list_remove aio (p_recvq p))) >>
  let* msg := deref (p_rxmsg p) in
  modify (set_p_rxmsg None) >>
  let n := nni_msg_len msg in
  let* p := get in
  (if negb (bool_decide (p_recvq p = [])) then tlstran_pipe_recv_start else ret tt) >>
  emit (c_nni_pipe_bump_rx (p_npipe p) n) >>
  emit (c_nni_aio_set_msg (ua_id aio) (Some msg)) >>
  emit (c_nni_aio_finish_sync (ua_id aio) NNG_OK n).

(** [alloc_rv] is what [nni_msg_alloc] answers should the callback
    come to allocate the receive message. *)
Definition tlstran_pipe_recv_cb (alloc_rv : nng_err) : M tlstran_pipe unit :=
  let* p := get in
  let rxaio := p_rxaio p in
  let aio := nni_list_first (p_recvq p) in
  let rv := a_result rxaio in
  if decide (rv <> NNG_OK) then recv_error aio rv
  else
    let n := a_count rxaio in
    modify (set_p_rxaio (nni_aio_iov_advance n rxaio)) >>
    let* p := get in
    if decide (nni_aio_iov_count (p_rxaio p) > 0) then
      (* Was this a partial read?  If so then resubmit for the rest. *)
      emit (c_nng_stream_recv (p_tls p) RXAIO (a_iov (p_rxaio p)))
    else
      match p_rxmsg p with
      | None =>
          (* We should have gotten a message header. *)
          let len := NNI_GET64 (p_rxlen p) in
          (* Make sure the message payload is not too big. *)
          if bool_decide (len > p_rcvmax p) && bool_decide (p_rcvmax p > 0) then
            emit (c_nng_log_warn len (p_rcvmax p)) >>
            recv_error aio NNG_EMSGSIZE
          else if decide (alloc_rv <> NNG_OK) then recv_error aio alloc_rv
          else
            modify (set_p_rxmsg (Some (msg_of_size len))) >>
            (* Submit the rest of the data for a read. *)
            if decide (len <> 0) then
              modify (fun p => set_p_rxaio
                         (nni_aio_set_iov [mk_iov buf_rxmsg_body 0 len] (p_rxaio p)) p) >>
              let* p := get in
              emit (c_nng_stream_recv (p_tls p) RXAIO (a_iov (p_rxaio p)))
            else recv_deliver aio
      | Some _ => recv_deliver aio
      end.

Definition tlstran_pipe_recv_cancel (aio : user_aio) (rv : nng_err)
  : M tlstran_pipe unit :=
  let* p := get in
  if negb (nni_aio_list_active aio (p_recvq p)) then ret tt
  else if is_first aio (p_recvq p) then
    (* the callback on the rxaio will cancel the user aio too *)
    emit (c_nni_aio_abort RXAIO rv)
  else
    modify (set_p_recvq (nni_aio_list_remove aio (p_recvq p))) >>
    emit (c_nni_aio_finish_error (ua_id aio) rv).

Definition tlstran_pipe_recv (aio : user_aio) : M tlstran_pipe unit :=
  if decide (nni_aio_begin aio <> NNG_OK) then ret tt
  else
    let rv := nni_aio_schedule aio in
    if decide (rv <> NNG_OK) then
      emit (c_nni_aio_finish_error (ua_id aio) rv)
    else
      modify (fun p => set_p_recvq (p_recvq p ++ [aio]) p) >>
      let* p := get in
      if is_first aio (p_recvq p) then tlstran_pipe_recv_start else ret tt.

Definition tlstran_pipe_peer (p : tlstran_pipe) : Z := p_peer p.

(** ** The endpoint together with its pipes *)

(** The endpoint structure, the pipe structures that are currently
    allocated (keyed by their address), and whether the endpoint
    structure has been freed. *)
Record tlstran_world : Type := mk_world {
  w_ep : tlstran_ep;
  w_pipes : gmap nat tlstran_pipe;
  w_ep_freed : bool
}.

Definition set_w_ep (v : tlstran_ep) (w : tlstran_world) : tlstran_world :=
  mk_world v (w_pipes w) (w_ep_freed w).

Definition set_w_pipes (v : gmap nat tlstran_pipe) (w : tlstran_world)
  : tlstran_world :=
  mk_world (w_ep w) v (w_ep_freed w).

Definition set_w_ep_freed (v : bool) (w : tlstran_world) : tlstran_world :=
  mk_world (w_ep w) (w_pipes w) v.

(** Run an endpoint-only computation on [ep]. *)
Definition on_ep {A} (m : M tlstran_ep A) : M tlstran_world A :=
  fun w =>
    match m (w_ep w) with
    | None => None
    | Some (x, e, t) => Some (x, set_w_ep e w, t)
    end.

(** Run a pipe routine on the pipe structure at address [p]; a
    dangling [p] crashes. *)
Definition on_pipe {A} (p : nat) (m : M tlstran_pipe A) : M tlstran_world A :=
  fun w =>
    match w_pipes w !! p with
    | None => None
    | Some pp =>
        match m pp with
        | None => None
        | Some (x, pp', t) =>
            Some (x, set_w_pipes (<[p := pp']> (w_pipes w)) w, map (c_on_pipe p) t)
        end
    end.

Definition get_ep : M tlstran_world tlstran_ep :=
  fun w => Some (w_ep w, w, []).

(** Read the pipe structure at address [p]. *)
Definition get_pipe (p : nat) : M tlstran_world tlstran_pipe :=
  fun w =>
    match w_pipes w !! p with
    | None => None
    | Some pp => Some (pp, w, [])
    end.
Definition modify_ep (f : tlstran_ep -> tlstran_ep) : M tlstran_world unit :=
  on_ep (modify f).
Definition modify_pipe (p : nat) (f : tlstran_pipe -> tlstran_pipe)
  : M tlstran_world unit :=
  on_pipe p (modify f).

(** Lists of pipes (modelled from the spec: core/list.c). *)
Fixpoint nni_list_remove (p : nat) (l : list nat) : list nat :=
  match l with
  | [] => []
  | q :: rest => if decide (q = p) then rest else q :: nni_list_remove p rest
  end.

Definition nni_list_append (p : nat) (l : list nat) : list nat := l ++ [p].

(** [nni_list_node_remove (&p->node)]: unlink the pipe from whichever
    endpoint list it is on. *)
Definition nni_list_node_remove (p : nat) (e : tlstran_ep) : tlstran_ep :=
  set_ep_busypipes (nni_list_remove p (ep_busypipes e))
    (set_ep_waitpipes (nni_list_remove p (ep_waitpipes e))
       (set_ep_negopipes (nni_list_remove p (ep_negopipes e)) e)).

(** [NNI_LIST_FOREACH]. *)
Fixpoint NNI_LIST_FOREACH {S} (l : list nat) (body : nat -> M S unit) : M S unit :=
  match l with
  | [] => ret tt
  | p :: rest => body p >> NNI_LIST_FOREACH rest body
  end.

(** [NNI_ALLOC_STRUCT] returns zeroed memory. *)
Definition pipe_zero : tlstran_pipe :=
  mk_pipe None 0%nat 0 0 0 [] [] None false (repeat x00 8) (repeat x00 8)
    0 0 0 0 aio_init aio_init aio_init None.

Definition ep_zero : tlstran_ep :=
  mk_ep 0 0 false false false 0 false false None aio_init aio_init [] [] [].

(** ** Pipe life cycle *)

Definition tlstran_pipe_init (p : nat) (npipe : nat) : M tlstran_world nng_err :=
  modify_pipe p (set_p_npipe npipe) >>
  ret NNG_OK.

Definition tlstran_pipe_fini (p : nat) : M tlstran_world unit :=
  on_pipe p tlstran_pipe_stop >>
  let* pp := get_pipe p in
  match p_ep pp with
  | Some the_ep =>
      modify_ep (nni_list_node_remove p) >>
      modify_ep (fun e => set_ep_refcnt (ep_refcnt e - 1) e) >>
      let* ep := get_ep in
      if ep_fini ep && bool_decide (ep_refcnt ep = 0)
      then emit c_nni_reap_ep
      else ret tt
  | None => ret tt
  end >>
  on_pipe p (emit (c_nng_stream_free (p_tls pp)) >>
             emit (c_nni_aio_free RXAIO) >>
             emit (c_nni_aio_free TXAIO) >>
             emit (c_nni_aio_free NEGOAIO) >>
             emit (c_nni_msg_free (p_rxmsg pp)) >>
             emit c_free_pipe) >>
  modify (fun w => set_w_pipes (delete p (w_pipes w)) w).

(** What the allocator answers inside [tlstran_pipe_alloc]: the
    address of the new structure (or NULL), and the first non-zero
    result of the three [nni_aio_alloc] calls (or 0). *)
Record alloc_env : Type := mk_alloc {
  new_struct : option nat;
  new_aio_rv : nng_err
}.

Definition tlstran_pipe_alloc (env : alloc_env)
  : M tlstran_world (nng_err * option nat) :=
  match new_struct env with
  | None => ret (NNG_ENOMEM, None)
  | Some p =>
      modify (fun w => set_w_pipes (<[p := pipe_zero]> (w_pipes w)) w) >>
      let rv := new_aio_rv env in
      if decide (rv <> NNG_OK) then
        tlstran_pipe_fini p >>
        ret (rv, None)
      else
        on_pipe p (modify (set_p_recvq []) >>
                   modify (set_p_sendq []) >>
                   modify (set_p_reaped false)) >>
        ret (NNG_OK, Some p)
  end.

Definition tlstran_pipe_reap (p : nat) : M tlstran_world unit :=
  let* pp := get_pipe p in
  modify_pipe p (set_p_reaped true) >>
  if negb (p_reaped pp) then
    (if bool_decide (p_tls pp <> None)
     then emit (c_nng_stream_close (p_tls pp))
     else ret tt) >>
    emit (c_nni_reap_pipe p)
  else ret tt.

(** ** Matching and negotiation *)

Definition tlstran_ep_match : M tlstran_world unit :=
  let* ep := get_ep in
  match ep_useraio ep, nni_list_first (ep_waitpipes ep) with
  | Some aio, Some p =>
      modify_ep (fun e => set_ep_waitpipes (nni_list_remove p (ep_waitpipes e)) e) >>
      modify_ep (fun e => set_ep_busypipes (nni_list_append p (ep_busypipes e)) e) >>
      modify_ep (set_ep_useraio None) >>
      modify_pipe p (set_p_rcvmax (ep_rcvmax ep)) >>
      emit (c_nni_aio_set_output (ua_id aio) 0 p) >>
      emit (c_nni_aio_finish (ua_id aio) NNG_OK 0)
  | _, _ => ret tt
  end.

(** The [error] label of [tlstran_pipe_nego_cb]. *)
Definition nego_error (p : nat) (rv : nng_err) : M tlstran_world unit :=
  (* If the connection is closed, we need to pass back a different
     error code. *)
  let rv := if decide (rv = NNG_ECLOSED) then NNG_ECONNSHUT else rv in
  modify_ep (fun e => set_ep_negopipes (nni_list_remove p (ep_negopipes e)) e) >>
  let* pp := get_pipe p in
  emit (c_nng_stream_close (p_tls pp)) >>
  let* ep := get_ep in
  match ep_useraio ep with
  | Some uaio =>
      modify_ep (set_ep_useraio None) >>
      emit (c_nni_aio_finish_error (ua_id uaio) rv)
  | None => ret tt
  end >>
  tlstran_pipe_reap p.

(** The first step of the callback: account for the bytes moved.  We
    start transmitting before we receive. *)
Definition nego_count (pp : tlstran_pipe) : tlstran_pipe :=
  if decide (p_gottxhead pp < p_wanttxhead pp) then
    set_p_gottxhead (size_add (p_gottxhead pp) (a_count (p_negoaio pp))) pp
  else if decide (p_gotrxhead pp < p_wantrxhead pp) then
    set_p_gotrxhead (size_add (p_gotrxhead pp) (a_count (p_negoaio pp))) pp
  else pp.

(** The test on the received header. *)
Definition nego_header_bad (rxlen : list byte) : bool :=
  bool_decide (nth 0 rxlen x00 <> x00) || bool_decide (nth 1 rxlen x00 <> char_S) ||
  bool_decide (nth 2 rxlen x00 <> char_P) || bool_decide (nth 3 rxlen x00 <> x00) ||
  bool_decide (nth 6 rxlen x00 <> x00) || bool_decide (nth 7 rxlen x00 <> x00).

Definition tlstran_pipe_nego_cb (p : nat) : M tlstran_world unit :=
  let* pp := get_pipe p in
  let* _ := deref (p_ep pp) in
  let rv := a_result (p_negoaio pp) in
  if decide (rv <> NNG_OK) then nego_error p rv
  else
    modify_pipe p nego_count >>
    let* pp := get_pipe p in
    if decide (p_gottxhead pp < p_wanttxhead pp) then
      let iov := mk_iov buf_txlen (p_gottxhead pp)
                   (size_sub (p_wanttxhead pp) (p_gottxhead pp)) in
      on_pipe p (modify (set_p_negoaio (nni_aio_set_iov [iov] (p_negoaio pp))) >>
                 (* send it down... *)
                 emit (c_nng_stream_send (p_tls pp) NEGOAIO [iov]))
    else if decide (p_gotrxhead pp < p_wantrxhead pp) then
      let iov := mk_iov buf_rxlen (p_gotrxhead pp)
                   (size_sub (p_wantrxhead pp) (p_gotrxhead pp)) in
      on_pipe p (modify (set_p_negoaio (nni_aio_set_iov [iov] (p_negoaio pp))) >>
                 emit (c_nng_stream_recv (p_tls pp) NEGOAIO [iov]))
    else if nego_header_bad (p_rxlen pp) then
      (* We have both sent and received the headers. *)
      nego_error p NNG_EPROTO
    else
      modify_pipe p (set_p_peer (NNI_GET16 (drop 4 (p_rxlen pp)))) >>
      (* We are ready now.  We put this in the wait list, and then try
         to run the matcher. *)
      modify_ep (fun e => set_ep_negopipes (nni_list_remove p (ep_negopipes e)) e) >>
      modify_ep (fun e => set_ep_waitpipes (nni_list_append p (ep_waitpipes e)) e) >>
      tlstran_ep_match.

Definition tlstran_pipe_start (p : nat) (conn : option nat) : M tlstran_world unit :=
  modify_ep (fun e => set_ep_refcnt (ep_refcnt e + 1) e) >>
  let* ep := get_ep in
  on_pipe p (
    modify (set_p_tls conn) >>
    modify (set_p_ep (Some the_ep)) >>
    modify (set_p_proto (ep_proto ep)) >>
    modify (fun pp =>
      set_p_txlen ([x00; char_S; char_P; x00]
                   ++ NNI_PUT16 (p_proto pp) ++ NNI_PUT16 0) pp) >>
    modify (set_p_gotrxhead 0) >>
    modify (set_p_gottxhead 0) >>
    modify (set_p_wantrxhead 8) >>
    modify (set_p_wanttxhead 8) >>
    modify (fun pp =>
      set_p_negoaio (nni_aio_set_iov [mk_iov buf_txlen 0 8] (p_negoaio pp)) pp)) >>
  modify_ep (fun e => set_ep_negopipes (nni_list_append p (ep_negopipes e)) e) >>
  on_pipe p (
    (* 10 sec timeout to negotiate *)
    modify (fun pp => set_p_negoaio (nni_aio_set_timeout 10000 (p_negoaio pp)) pp) >>
    let* pp := get in
    emit (c_nng_stream_send (p_tls pp) NEGOAIO (a_iov (p_negoaio pp)))).

(** ** Endpoint routines *)

Definition tlstran_ep_fini : M tlstran_world unit :=
  modify_ep (set_ep_fini true) >>
  let* ep := get_ep in
  if decide (ep_refcnt ep <> 0) then ret tt
  else
    emit (c_nni_aio_stop TIMEAIO) >>
    emit (c_nni_aio_stop CONNAIO) >>
    emit c_nng_stream_dialer_free >>
    emit c_nng_stream_listener_free >>
    emit (c_nni_aio_free TIMEAIO) >>
    emit (c_nni_aio_free CONNAIO) >>
    emit c_free_ep >>
    modify (set_w_ep_freed true).

Definition tlstran_ep_close : M tlstran_world unit :=
  modify_ep (set_ep_closed true) >>
  emit (c_nni_aio_close TIMEAIO) >>
  let* ep := get_ep in
  (if ep_dialer ep then emit c_nng_stream_dialer_close else ret tt) >>
  (if ep_listener ep then emit c_nng_stream_listener_close else ret tt) >>
  NNI_LIST_FOREACH (ep_negopipes ep) (fun p => on_pipe p tlstran_pipe_close) >>
  NNI_LIST_FOREACH (ep_waitpipes ep) (fun p => on_pipe p tlstran_pipe_close) >>
  NNI_LIST_FOREACH (ep_busypipes ep) (fun p => on_pipe p tlstran_pipe_close) >>
  match ep_useraio ep with
  | Some aio =>
      emit (c_nni_aio_finish_error (ua_id aio) NNG_ECLOSED) >>
      modify_ep (set_ep_useraio None)
  | None => ret tt
  end.

Definition tlstran_timer_cb : M tlstran_world unit :=
  let* ep := get_ep in
  if decide (a_result (ep_timeaio ep) = NNG_OK)
  then emit (c_nng_stream_listener_accept CONNAIO)
  else ret tt.

(** The [error] label of [tlstran_accept_cb]. *)
Definition accept_error (rv : nng_err) : M tlstran_world unit :=
  (* When an error here occurs, let's send a notice up to the
     consumer.  That way it can be reported properly. *)
  let* ep := get_ep in
  match ep_useraio ep with
  | Some aio =>
      modify_ep (set_ep_useraio None) >>
      emit (c_nni_aio_finish_error (ua_id aio) rv)
  | None => ret tt
  end >>
  match rv with
  | NNG_ENOMEM | NNG_ENOFILES =>
      (* We need to cool down here, to avoid spinning. *)
      emit (c_nng_sleep_aio 10 TIMEAIO)
  | _ =>
      (* Start another accept. *)
      if negb (ep_closed ep)
      then emit (c_nng_stream_listener_accept CONNAIO)
      else ret tt
  end.

Definition tlstran_accept_cb (env : alloc_env) : M tlstran_world unit :=
  let* ep := get_ep in
  let aio := ep_connaio ep in
  let rv := a_result aio in
  if decide (rv <> NNG_OK) then accept_error rv
  else
    let conn := a_output aio in
    let* r := tlstran_pipe_alloc env in
    let rv := fst r in
    if decide (rv <> NNG_OK) then
      emit (c_nng_stream_free conn) >>
      accept_error rv
    else
      let* p := deref (snd r) in
      if ep_closed ep then
        tlstran_pipe_fini p >>
        emit (c_nng_stream_free conn) >>
        accept_error NNG_ECLOSED
      else
        tlstran_pipe_start p conn >>
        emit (c_nng_stream_listener_accept CONNAIO).

(** The [error] label of [tlstran_dial_cb]. *)
Definition dial_error (rv : nng_err) : M tlstran_world unit :=
  (* Error connecting.  We need to pass this straight back to the user. *)
  let* ep := get_ep in
  match ep_useraio ep with
  | Some aio =>
      modify_ep (set_ep_useraio None) >>
      emit (c_nni_aio_finish_error (ua_id aio) rv)
  | None => ret tt
  end.

Definition tlstran_dial_cb (env : alloc_env) : M tlstran_world unit :=
  let* ep := get_ep in
  let aio := ep_connaio ep in
  let rv := a_result aio in
  if decide (rv <> NNG_OK) then dial_error rv
  else
    let conn := a_output aio in
    let* r := tlstran_pipe_alloc env in
    let rv := fst r in
    if decide (rv <> NNG_OK) then
      emit (c_nng_stream_free conn) >>
      dial_error rv
    else
      let* p := deref (snd r) in
      if ep_closed ep then
        tlstran_pipe_fini p >>
        emit (c_nng_stream_free conn) >>
        dial_error NNG_ECLOSED
      else tlstran_pipe_start p conn.

(** [tlstran_ep_init]: a zeroed endpoint with its protocol id set; the
    url is not modelled. *)
Definition tlstran_ep_init (proto : Z) : tlstran_ep :=
  set_ep_proto (proto mod uint16_max) ep_zero.

Definition tlstran_ep_cancel (aio : user_aio) (rv : nng_err) : M tlstran_world unit :=
  let* ep := get_ep in
  match ep_useraio ep with
  | Some u =>
      if decide (ua_id u = ua_id aio) then
        modify_ep (set_ep_useraio None) >>
        emit (c_nni_aio_finish_error (ua_id aio) rv)
      else ret tt
  | None => ret tt
  end.

Definition tlstran_ep_connect (aio : user_aio) : M tlstran_world unit :=
  if decide (nni_aio_begin aio <> NNG_OK) then ret tt
  else
    let* ep := get_ep in
    if ep_closed ep then
      emit (c_nni_aio_finish_error (ua_id aio) NNG_ECLOSED)
    else if bool_decide (ep_useraio ep <> None) then
      emit (c_nni_aio_finish_error (ua_id aio) NNG_EBUSY)
    else
      let rv := nni_aio_schedule aio in
      if decide (rv <> NNG_OK) then
        emit (c_nni_aio_finish_error (ua_id aio) rv)
      else
        modify_ep (set_ep_useraio (Some aio)) >>
        emit (c_nng_stream_dialer_dial CONNAIO).

Definition tlstran_ep_accept (aio : user_aio) : M tlstran_world unit :=
  if decide (nni_aio_begin aio <> NNG_OK) then ret tt
  else
    let* ep := get_ep in
    if ep_closed ep then
      emit (c_nni_aio_finish_error (ua_id aio) NNG_ECLOSED)
    else if bool_decide (ep_useraio ep <> None) then
      emit (c_nni_aio_finish_error (ua_id aio) NNG_EBUSY)
    else
      let rv := nni_aio_schedule aio in
      if decide (rv <> NNG_OK) then
        emit (c_nni_aio_finish_error (ua_id aio) rv)
      else
        modify_ep (set_ep_useraio (Some aio)) >>
        if negb (ep_started ep) then
          modify_ep (set_ep_started true) >>
          emit (c_nng_stream_listener_accept CONNAIO)
        else tlstran_ep_match.

(** [tlstran_ep_set_recvmaxsz]; [copyin] is the result of
    [nni_copyin_size], which validates the value. *)
Definition tlstran_ep_set_recvmaxsz (copyin : nng_err) (val : Z)
  : M tlstran_world nng_err :=
  (if decide (copyin = NNG_OK) then modify_ep (set_ep_rcvmax val) else ret tt) >>
  ret copyin.

(** ** The stream provider's side *)

(** The bytes a memory region holds, seen from pipe [p]. *)
Definition region (p : tlstran_pipe) (b : buf) : list byte :=
  match b with
  | buf_txlen => p_txlen p
  | buf_rxlen => p_rxlen p
  | buf_msg_header id =>
      match find (fun a => bool_decide (ua_id a = id)) (p_sendq p) with
      | Some a => msg_header (ua_msg a)
      | None => []
      end
  | buf_msg_body id =>
      match find (fun a => bool_decide (ua_id a = id)) (p_sendq p) with
      | Some a => msg_body (ua_msg a)
      | None => []
      end
  | buf_rxmsg_body =>
      match p_rxmsg p with
      | Some m => msg_body m
      | None => []
      end
  end.

Definition iov_bytes (p : tlstran_pipe) (e : nni_iov) : list byte :=
  take (Z.to_nat (iov_len e)) (drop (Z.to_nat (iov_off e)) (region p (iov_buf e))).

(** What a scatter-gather send of vector [v] puts on the wire. *)
Definition gather (p : tlstran_pipe) (v : list nni_iov) : list byte :=
  flat_map (iov_bytes p) v.

(** Overwrite [region] with [data] from offset [off] on. *)
Definition write_at (off : nat) (data region : list byte) : list byte :=
  take off region ++ data ++ drop (off + length data) region.

(** A completion left in a transport-owned aio by its provider. *)
Definition aio_complete (rv : nng_err) (n : Z) (out : option nat) (a : nni_aio)
  : nni_aio :=
  mk_aio rv n (a_iov a) out (a_timeout a).

(** The stream completes the receive submitted on [rxaio]: on success
    it has stored [data] where the first entry of the vector points. *)
Definition stream_recv_done (rv : nng_err) (data : list byte) (p : tlstran_pipe)
  : tlstran_pipe :=
  if decide (rv <> NNG_OK) then set_p_rxaio (aio_complete rv 0 None (p_rxaio p)) p
  else
    let p1 := set_p_rxaio (aio_complete NNG_OK (Z.of_nat (length data)) None (p_rxaio p)) p in
    match a_iov (p_rxaio p) with
    | e :: _ =>
        match iov_buf e with
        | buf_rxlen =>
            set_p_rxlen (write_at (Z.to_nat (iov_off e)) data (p_rxlen p1)) p1
        | buf_rxmsg_body =>
            match p_rxmsg p1 with
            | Some m =>
                set_p_rxmsg
                  (Some (mk_msg (msg_header m)
                                (write_at (Z.to_nat (iov_off e)) data (msg_body m)))) p1
            | None => p1
            end
        | _ => p1
        end
    | [] => p1
    end.

(** Feed the receive callback a run of successful completions, one
    per chunk of bytes; [alloc_rv] is the allocator's answer throughout. *)
Fixpoint rx_run (alloc_rv : nng_err) (chunks : list (list byte)) : M tlstran_pipe unit :=
  match chunks with
  | [] => ret tt
  | c :: rest =>
      modify (stream_recv_done NNG_OK c) >>
      tlstran_pipe_recv_cb alloc_rv >>
      rx_run alloc_rv rest
  end.

(** ** The frame a message is sent as *)

(** The io vector the framing rule asks for: the length prefix, then
    the header if it is not empty, then the body if it is not empty. *)
Definition frame_iov (aio : user_aio) : list nni_iov :=
  let h := msg_header (ua_msg aio) in
  let b := msg_body (ua_msg aio) in
  [mk_iov buf_txlen 0 8]
  ++ (if decide (h = []) then []
      else [mk_iov (buf_msg_header (ua_id aio)) 0 (Z.of_nat (length h))])
  ++ (if decide (b = []) then []
      else [mk_iov (buf_msg_body (ua_id aio)) 0 (Z.of_nat (length b))]).

(** ** The receive side of a pipe as a transition system *)

(** A pipe together with the one fact about the stream that the
    receive path depends on: whether [rxaio] is submitted and has not
    completed yet. *)
Record pipe_sys : Type := mk_sys {
  sys_pipe : tlstran_pipe;
  sys_rx_inflight : bool
}.

Definition is_rx_submit (c : call) : bool :=
  match c with
  | c_nng_stream_recv _ RXAIO _ => true
  | _ => false
  end.

Definition is_header_read (c : call) : bool :=
  match c with
  | c_nng_stream_recv _ RXAIO [e] =>
      bool_decide (iov_buf e = buf_rxlen) && bool_decide (iov_off e = 0)
  | _ => false
  end.

Inductive rx_event : Type :=
| rx_post (aio : user_aio)                       (* tlstran_pipe_recv *)
| rx_cancel (aio : user_aio) (rv : nng_err)      (* tlstran_pipe_recv_cancel *)
| rx_done (rv : nng_err) (data : list byte) (alloc_rv : nng_err).
                               (* rxaio completes: tlstran_pipe_recv_cb *)

(** The constraints on the surroundings: a completion is reported for
    [rxaio] only while it is submitted, and an aio that is posted is
    not already on the queue. *)
Definition rx_enabled (e : rx_event) (s : pipe_sys) : Prop :=
  match e with
  | rx_done _ _ _ => sys_rx_inflight s = true
  | rx_post aio =>
      forall a, a ∈ p_recvq (sys_pipe s) -> ua_id a <> ua_id aio
  | rx_cancel _ _ => True
  end.

Definition rx_routine (e : rx_event) : M tlstran_pipe unit :=
  match e with
  | rx_post aio => tlstran_pipe_recv aio
  | rx_cancel aio rv => tlstran_pipe_recv_cancel aio rv
  | rx_done rv data alloc_rv =>
      modify (stream_recv_done rv data) >> tlstran_pipe_recv_cb alloc_rv
  end.

Definition rx_inflight_after (e : rx_event) (before : bool) (t : list call) : bool :=
  existsb is_rx_submit t ||
  match e with
  | rx_done _ _ _ => false
  | _ => before
  end.

Inductive rx_reachable : pipe_sys -> Prop :=
| rx_reach_init p :
    p_recvq p = [] -> p_rxmsg p = None ->
    rx_reachable (mk_sys p false)
| rx_reach_step s e p' t :
    rx_reachable s -> rx_enabled e s ->
    rx_routine e (sys_pipe s) = Some (tt, p', t) ->
    rx_reachable (mk_sys p' (rx_inflight_after e (sys_rx_inflight s) t)).

(** ** The endpoint and its pipes as a transition system *)

(** Everything that can happen to an endpoint: the calls the socket
    layer makes into the transport, the completions the providers
    report, and the destructors run by the reap worker. *)
Inductive world_event : Type :=
| wev_connect (aio : user_aio)
| wev_accept (aio : user_aio)
| wev_cancel (aio : user_aio) (rv : nng_err)
| wev_close
| wev_fini
| wev_set_recvmaxsz (copyin : nng_err) (val : Z)
| wev_accept_done (rv : nng_err) (conn : option nat) (env : alloc_env)
| wev_dial_done (rv : nng_err) (conn : option nat) (env : alloc_env)
| wev_timer_done (rv : nng_err)
| wev_nego_done (p : nat) (rv : nng_err) (count : Z) (rxlen : list byte)
| wev_pipe_fini (p : nat)
| wev_pipe_local (p : nat) (f : tlstran_pipe -> tlstran_pipe).
   (* any activity confined to one pipe: sending, receiving, init *)

Definition world_routine (e : world_event) : M tlstran_world unit :=
  match e with
  | wev_connect aio => tlstran_ep_connect aio
  | wev_accept aio => tlstran_ep_accept aio
  | wev_cancel aio rv => tlstran_ep_cancel aio rv
  | wev_close => tlstran_ep_close
  | wev_fini => tlstran_ep_fini
  | wev_set_recvmaxsz copyin val =>
      let* _ := tlstran_ep_set_recvmaxsz copyin val in ret tt
  | wev_accept_done rv conn env =>
      modify_ep (fun e => set_ep_connaio (aio_complete rv 0 conn (ep_connaio e)) e) >>
      tlstran_accept_cb env
  | wev_dial_done rv conn env =>
      modify_ep (fun e => set_ep_connaio (aio_complete rv 0 conn (ep_connaio e)) e) >>
      tlstran_dial_cb env
  | wev_timer_done rv =>
      modify_ep (fun e => set_ep_timeaio (aio_complete rv 0 None (ep_timeaio e)) e) >>
      tlstran_timer_cb
  | wev_nego_done p rv count rxlen =>
      modify_pipe p (fun pp =>
        set_p_rxlen rxlen (set_p_negoaio (aio_complete rv count None (p_negoaio pp)) pp)) >>
      tlstran_pipe_nego_cb p
  | wev_pipe_fini p => tlstran_pipe_fini p
  | wev_pipe_local p f => modify_pipe p f
  end.

(** What the surroundings guarantee: nothing touches a freed endpoint,
    the allocator hands out unused addresses, a negotiation completion
    is for a negotiating pipe, and pipe-local activity leaves the back
    reference alone. *)
Definition world_enabled (e : world_event) (w : tlstran_world) : Prop :=
  w_ep_freed w = false /\
  match e with
  | wev_accept_done _ _ env | wev_dial_done _ _ env =>
      forall p, new_struct env = Some p -> w_pipes w !! p = None
  | wev_nego_done p _ _ rxlen =>
      p ∈ ep_negopipes (w_ep w) /\ length rxlen = 8%nat
  | wev_pipe_local p f => forall pp, p_ep (f pp) = p_ep pp
  | _ => True
  end.

Definition world_init (proto : Z) (dialer : bool) : tlstran_world :=
  mk_world
    (set_ep_listener (negb dialer) (set_ep_dialer dialer (tlstran_ep_init proto)))
    ∅ false.

Inductive reachable : tlstran_world -> Prop :=
| reach_init proto dialer : reachable (world_init proto dialer)
| reach_step w e w' t :
    reachable w -> world_enabled e w ->
    world_routine e w = Some (tt, w', t) ->
    reachable w'.

Definition ep_all_pipes (e : tlstran_ep) : list nat :=
  ep_negopipes e ++ ep_waitpipes e ++ ep_busypipes e.

(** The structural invariant of reachable states. *)
Record world_wf (w : tlstran_world) : Prop := mk_wf {
  wf_nodup : NoDup (ep_all_pipes (w_ep w));
  wf_live : forall p, p ∈ ep_all_pipes (w_ep w) -> is_Some (w_pipes w !! p);
  wf_backref : forall p pp, w_pipes w !! p = Some pp -> p_ep pp = Some the_ep;
  wf_refcnt : ep_refcnt (w_ep w) = Z.of_nat (size (w_pipes w));
  wf_closed : ep_closed (w_ep w) = true -> ep_useraio (w_ep w) = None;
  wf_freed : w_ep_freed w = true ->
             ep_fini (w_ep w) = true /\ ep_refcnt (w_ep w) = 0
}.

(** ** Observations on the outcome of a routine *)

(** The received negotiation header is [00 'S' 'P' 00 xx xx 00 00]. *)
Definition nego_header_valid (rxlen : list byte) : Prop :=
  rxlen !! 0%nat = Some x00 /\ rxlen !! 1%nat = Some char_S /\
  rxlen !! 2%nat = Some char_P /\ rxlen !! 3%nat = Some x00 /\
  rxlen !! 6%nat = Some x00 /\ rxlen !! 7%nat = Some x00.

(** The big-endian 16-bit word at positions 4 and 5. *)
Definition peer_word (rxlen : list byte) : Z :=
  256 * byte_to_Z (nth 4 rxlen x00) + byte_to_Z (nth 5 rxlen x00).

(** Negotiation of pipe [p] succeeded: it left the negotiating list
    for the waiting list (or was matched at once and is busy). *)
Definition nego_succeeded (p : nat) (w' : tlstran_world) : Prop :=
  (p ∉ ep_negopipes (w_ep w')) /\
  (p ∈ ep_waitpipes (w_ep w') \/ p ∈ ep_busypipes (w_ep w')).

(** Negotiation of pipe [p] failed with [rv]: the pipe is on no list,
    its stream was closed, the pipe was handed to the reaper, and a
    posted user aio was completed with [rv]. *)
Definition nego_failed (p : nat) (rv : nng_err) (w w' : tlstran_world)
  (t : list call) : Prop :=
  (p ∉ ep_all_pipes (w_ep w')) /\
  (exists tls, c_nng_stream_close tls ∈ t) /\
  (forall pp, w_pipes w !! p = Some pp -> p_reaped pp = false ->
              c_nni_reap_pipe p ∈ t) /\
  ep_useraio (w_ep w') = None /\
  (forall u, ep_useraio (w_ep w) = Some u ->
             c_nni_aio_finish_error (ua_id u) rv ∈ t).

(** A message was delivered to a user aio. *)
Definition delivers (t : list call) (aio : user_aio) (m : nni_msg) : Prop :=
  c_nni_aio_set_msg (ua_id aio) (Some m) ∈ t /\
  c_nni_aio_finish_sync (ua_id aio) NNG_OK (nni_msg_len m) ∈ t.

Definition is_error_completion (c : call) : bool :=
  match c with
  | c_nni_aio_finish_error _ _ => true
  | _ => false
  end.

Definition is_stream_send (c : call) : bool :=
  match c with
  | c_nng_stream_send _ _ _ => true
  | _ => false
  end.

(** The pipe once the head's transfer is complete and the head is
    unlinked from the send queue. *)
Definition after_head_sent (p : tlstran_pipe) (rest : list user_aio) : tlstran_pipe :=
  set_p_sendq rest
    (set_p_txaio (nni_aio_iov_advance (a_count (p_txaio p)) (p_txaio p)) p).

(** The length prefix is completely read: [rxaio] completed without
    error, its vector is used up, and no message is allocated yet. *)
Definition prefix_read (p : tlstran_pipe) : Prop :=
  p_rxmsg p = None /\
  a_result (p_rxaio p) = NNG_OK /\
  nni_aio_iov_count (nni_aio_iov_advance (a_count (p_rxaio p)) (p_rxaio p)) <= 0.

Definition oversize (p : tlstran_pipe) : Prop :=
  NNI_GET64 (p_rxlen p) > p_rcvmax p /\ p_rcvmax p > 0.

(** The pipe once the prefix is accounted for. *)
Definition after_prefix (p : tlstran_pipe) : tlstran_pipe :=
  set_p_rxaio (nni_aio_iov_advance (a_count (p_rxaio p)) (p_rxaio p)) p.

(** ** Concrete states used in the examples *)

Definition demo_msg : nni_msg := mk_msg [x01; x02] [x0a; x0b; x0c].
Definition demo_aio : user_aio := mk_uaio 7 NNG_OK NNG_OK demo_msg.
Definition demo_aio2 : user_aio := mk_uaio 8 NNG_OK NNG_OK (mk_msg [] [x2a]).
Definition demo_pipe : tlstran_pipe := set_p_tls (Some 3%nat) pipe_zero.

(** The framing rule read literally: after the prefix, every frame
    that is not oversize has its message allocated (and is on its way
    to delivery, or delivered), whatever the allocator answers. *)
Definition recv_always_allocates : Prop :=
  forall (alloc_rv : nng_err) (p : tlstran_pipe) (aio : user_aio)
         (rest : list user_aio),
    p_recvq p = aio :: rest -> prefix_read p -> ~ oversize p ->
    exists p' t,
      tlstran_pipe_recv_cb alloc_rv p = Some (tt, p', t) /\
      ((exists m, p_rxmsg p' = Some m /\ nni_msg_len m = NNI_GET64 (p_rxlen p)) \/
       (exists m, delivers t aio m /\ nni_msg_len m = NNI_GET64 (p_rxlen p))).

(** A pipe that has just read the prefix of an empty frame. *)
Definition demo_rx_pipe : tlstran_pipe :=
  set_p_rxaio (mk_aio NNG_OK 8 [mk_iov buf_rxlen 0 8] None None)
    (set_p_recvq [demo_aio] demo_pipe).

(** The invariant of the receive side. *)
Record rx_inv (s : pipe_sys) : Prop := mk_rx_inv {
  rx_idle_no_msg : p_recvq (sys_pipe s) = [] -> p_rxmsg (sys_pipe s) = None;
  rx_inflight_head : sys_rx_inflight s = true -> p_recvq (sys_pipe s) <> [];
  rx_body_iov : p_rxmsg (sys_pipe s) <> None ->
                Forall (fun e => iov_buf e = buf_rxmsg_body)
                       (a_iov (p_rxaio (sys_pipe s)))
}.

(** A pipe whose head send has been transmitted in full, with a
    second send queued behind it. *)
Definition demo_tx_pipe : tlstran_pipe :=
  set_p_txaio (mk_aio NNG_OK 13 (frame_iov demo_aio) None None)
    (set_p_sendq [demo_aio; demo_aio2] demo_pipe).

(** The receive side after one receive was posted on an idle pipe. *)
Definition demo_rx_posted : tlstran_pipe :=
  set_p_rxaio (nni_aio_set_iov [mk_iov buf_rxlen 0 8] aio_init)
    (set_p_recvq [demo_aio] demo_pipe).

Definition demo_sys : pipe_sys := mk_sys demo_rx_posted true.

(** The calls [tlstran_pipe_reap] makes for a pipe found in state [pp]. *)
Definition reap_calls (p : nat) (pp : tlstran_pipe) : list call :=
  if p_reaped pp then []
  else (if bool_decide (p_tls pp <> None)
        then [c_nng_stream_close (p_tls pp)] else [])
       ++ [c_nni_reap_pipe p].

(** The code a negotiation error is reported as. *)
Definition nego_surfaced (rv : nng_err) : nng_err :=
  if decide (rv = NNG_ECLOSED) then NNG_ECONNSHUT else rv.

(** Both headers are through once the byte counts are brought up to date. *)
Definition nego_headers_done (pp : tlstran_pipe) : Prop :=
  ~ p_gottxhead (nego_count pp) < p_wanttxhead (nego_count pp) /\
  ~ p_gotrxhead (nego_count pp) < p_wantrxhead (nego_count pp).

(** The pipe structure as [tlstran_pipe_start] leaves it. *)
Definition pipe_started (conn : option nat) (proto : Z) (pp : tlstran_pipe)
  : tlstran_pipe :=
  set_p_negoaio
    (nni_aio_set_timeout 10000 (nni_aio_set_iov [mk_iov buf_txlen 0 8] (p_negoaio pp)))
    (set_p_wanttxhead 8
       (set_p_wantrxhead 8
          (set_p_gottxhead 0
             (set_p_gotrxhead 0
                (set_p_txlen ([x00; char_S; char_P; x00]
                              ++ NNI_PUT16 proto ++ NNI_PUT16 0)
                   (set_p_proto proto
                      (set_p_ep (Some the_ep) (set_p_tls conn pp)))))))).

(** The calls the [error] label of [tlstran_accept_cb] makes. *)
Definition accept_error_calls (rv : nng_err) (e : tlstran_ep) : list call :=
  match ep_useraio e with
  | Some aio => [c_nni_aio_finish_error (ua_id aio) rv]
  | None => []
  end
  ++ match rv with
     | NNG_ENOMEM | NNG_ENOFILES => [c_nng_sleep_aio 10 TIMEAIO]
     | _ => if negb (ep_closed e)
            then [c_nng_stream_listener_accept CONNAIO] else []
     end.

(** The calls [tlstran_pipe_fini] makes for a pipe that was never started. *)
Definition fini_unstarted_calls (p : nat) : list call :=
  map (c_on_pipe p)
    [c_nni_aio_stop RXAIO; c_nni_aio_stop TXAIO; c_nni_aio_stop NEGOAIO;
     c_nng_stream_free None; c_nni_aio_free RXAIO; c_nni_aio_free TXAIO;
     c_nni_aio_free NEGOAIO; c_nni_msg_free None; c_free_pipe].

(** The calls with which [tlstran_ep_fini] tears the endpoint down. *)
Definition ep_teardown_calls : list call :=
  [c_nni_aio_stop TIMEAIO; c_nni_aio_stop CONNAIO;
   c_nng_stream_dialer_free; c_nng_stream_listener_free;
   c_nni_aio_free TIMEAIO; c_nni_aio_free CONNAIO; c_free_ep].

(** ** Runs of completions *)

(** The stream completes the send submitted on [txaio] with [n] bytes
    accepted, and the send callback runs. *)
Definition tx_done (n : Z) : M tlstran_pipe unit :=
  modify (fun p => set_p_txaio (aio_complete NNG_OK n None (p_txaio p)) p) >>
  tlstran_pipe_send_cb.

Fixpoint tx_run (counts : list Z) : M tlstran_pipe unit :=
  match counts with
  | [] => ret tt
  | n :: rest => tx_done n >> tx_run rest
  end.

(** The completions of user aios found in a call log, in order: the
    aio and the result it was completed with. *)
Definition completion_of (c : call) : option (nat * nng_err) :=
  match c with
  | c_nni_aio_finish aio rv _ => Some (aio, rv)
  | c_nni_aio_finish_sync aio rv _ => Some (aio, rv)
  | c_nni_aio_finish_error aio rv => Some (aio, rv)
  | _ => None
  end.

Definition completions (t : list call) : list (nat * nng_err) :=
  omap completion_of t.

(** The number of bytes of the frame of a queued send. *)
Definition frame_len (aio : user_aio) : Z :=
  8 + nni_msg_header_len (ua_msg aio) + nni_msg_len (ua_msg aio).

(** A way the stream may split the transfer of one frame: every
    completion moves at least one byte and together they move the frame. *)
Definition split_of (total : Z) (counts : list Z) : Prop :=
  Forall (fun n => 0 < n) counts /\ fold_right Z.add 0 counts = total.

(** Every entry of the vector still has bytes to move. *)
Definition iov_pos (v : list nni_iov) : Prop := Forall (fun e => 0 < iov_len e) v.

(** Every entry of the vector lies inside the region it points into. *)
Definition iov_exact (p : tlstran_pipe) (v : list nni_iov) : Prop :=
  Forall (fun e => 0 <= iov_off e /\ 0 < iov_len e /\
                   (Z.to_nat (iov_off e) + Z.to_nat (iov_len e)
                    <= length (region p (iov_buf e)))%nat) v.

(** The stream completes the send submitted on [txaio] with the error
    [rv] (an abort included), and the send callback runs. *)
Definition tx_failed (rv : nng_err) : M tlstran_pipe unit :=
  modify (fun p => set_p_txaio (aio_complete rv 0 None (p_txaio p)) p) >>
  tlstran_pipe_send_cb.

(** The stream completes the receive submitted on [rxaio] with the
    error [rv] (an abort included), and the receive callback runs. *)
Definition rx_failed (rv alloc_rv : nng_err) : M tlstran_pipe unit :=
  modify (stream_recv_done rv []) >> tlstran_pipe_recv_cb alloc_rv.

(** The ids of the user aios on a queue. *)
Definition queue_ids (q : list user_aio) : list nat := map ua_id q.

(** What the callers guarantee beyond [world_enabled].  The socket
    layer calls connect on dialers and accept on listeners only (the
    two ops tables); [tlstran_dial_cb] is the callback of a dialer's
    connaio, [tlstran_accept_cb] and [tlstran_timer_cb] are those of a
    listener's connaio and timeaio (a dialer has no timeaio); and a
    pipe routine is handed a pipe structure that is allocated. *)
Definition world_callable (e : world_event) (w : tlstran_world) : Prop :=
  world_enabled e w /\
  match e with
  | wev_connect _ | wev_dial_done _ _ _ => ep_dialer (w_ep w) = true
  | wev_accept _ | wev_accept_done _ _ _ | wev_timer_done _ =>
      ep_listener (w_ep w) = true
  | wev_pipe_fini p | wev_pipe_local p _ => is_Some (w_pipes w !! p)
  | _ => True
  end.

(** The calls [tlstran_pipe_close] makes on the pipe at address [p]. *)
Definition pipe_close_calls (ps : gmap nat tlstran_pipe) (p : nat) : list call :=
  match ps !! p with
  | Some pp =>
      map (c_on_pipe p)
        [c_nni_aio_close RXAIO; c_nni_aio_close TXAIO;
         c_nni_aio_close NEGOAIO; c_nng_stream_close (p_tls pp)]
  | None => []
  end.

(** The calls [tlstran_ep_close] makes. *)
Definition ep_close_calls (w : tlstran_world) : list call :=
  [c_nni_aio_close TIMEAIO]
  ++ (if ep_dialer (w_ep w) then [c_nng_stream_dialer_close] else [])
  ++ (if ep_listener (w_ep w) then [c_nng_stream_listener_close] else [])
  ++ flat_map (pipe_close_calls (w_pipes w)) (ep_all_pipes (w_ep w))
  ++ match ep_useraio (w_ep w) with
     | Some aio => [c_nni_aio_finish_error (ua_id aio) NNG_ECLOSED]
     | None => []
     end.

(** The parts of the endpoint that no routine takes back: the closed,
    fini and started flags once set, the protocol id, and which of
    dialer and listener the endpoint is. *)
Definition ep_flags_kept (e e' : tlstran_ep) : Prop :=
  (ep_closed e = true -> ep_closed e' = true) /\
  (ep_fini e = true -> ep_fini e' = true) /\
  (ep_started e = true -> ep_started e' = true) /\
  ep_proto e' = ep_proto e /\
  ep_dialer e' = ep_dialer e /\
  ep_listener e' = ep_listener e.

(** The calls the [error] label of [tlstran_dial_cb] makes. *)
Definition dial_error_calls (rv : nng_err) (e : tlstran_ep) : list call :=
  match ep_useraio e with
  | Some aio => [c_nni_aio_finish_error (ua_id aio) rv]
  | None => []
  end.

(** ** Concrete endpoints used in the examples *)

(** The state a computation leaves, and the calls it makes. *)
Definition state_after {S A} (m : M S A) (s : S) : S :=
  match m s with
  | Some (_, s', _) => s'
  | None => s
  end.

Definition calls_of {S A} (m : M S A) (s : S) : list call :=
  match m s with
  | Some (_, _, t) => t
  | None => []
  end.

(** A user aio that the aio framework refuses to begin. *)
Definition demo_aio_refused : user_aio := mk_uaio 9 NNG_ECLOSED NNG_OK demo_msg.

Definition demo_env : alloc_env := mk_alloc (Some 1%nat) NNG_OK.

Definition demo_header : list byte :=
  [x00; char_S; char_P; x00; x00; x10; x00; x00].

(** A fresh dialer for protocol 16; with a connect posted; with the
    dial completed, so that pipe 1 is negotiating; with that pipe's
    header sent and the peer's header in its buffer. *)
Definition demo_world0 : tlstran_world := world_init 16 true.

Definition demo_world1 : tlstran_world :=
  state_after (world_routine (wev_connect demo_aio)) demo_world0.

Definition demo_world2 : tlstran_world :=
  state_after (world_routine (wev_dial_done NNG_OK (Some 3%nat) demo_env))
    demo_world1.

Definition demo_world3 : tlstran_world :=
  state_after (world_routine (wev_nego_done 1 NNG_OK 8 demo_header)) demo_world2.

(** The pipe structure at address 1 of a world. *)
Definition pipe_1 (w : tlstran_world) : tlstran_pipe :=
  match w_pipes w !! 1%nat with
  | Some pp => pp
  | None => pipe_zero
  end.

(** A freshly initialised endpoint released at once. *)
Definition demo_freed : tlstran_world :=
  state_after (world_routine wev_fini) demo_world0.

(** A listener with an accept posted and pipe 1 waiting to be matched. *)
Definition demo_wait_world : tlstran_world :=
  mk_world
    (set_ep_waitpipes [1%nat]
       (set_ep_useraio (Some demo_aio) (tlstran_ep_init 16)))
    (<[1%nat := demo_pipe]> ∅) false.

(** ** A negotiation under partial transfers *)

(** The negotiation aio of pipe [p] completes successfully, one
    completion per step: the byte count reported, and the contents of
    the receive buffer at that moment. *)
Fixpoint nego_run (p : nat) (steps : list (Z * list byte)) : M tlstran_world unit :=
  match steps with
  | [] => ret tt
  | (n, rxlen) :: rest =>
      world_routine (wev_nego_done p NNG_OK n rxlen) >> nego_run p rest
  end.

(** The vectors with which a transfer of 8 bytes into or out of [b] is
    resumed after each incomplete step, [got] bytes being through at
    the start. *)
Fixpoint resume_iovs (b : buf) (got : Z) (counts : list Z) : list nni_iov :=
  match counts with
  | [] => []
  | n :: rest =>
      if decide (got + n < 8)
      then mk_iov b (got + n) (8 - (got + n)) :: resume_iovs b (got + n) rest
      else []
  end.

(** ** Endpoint initialisation *)

(** [nng_url], as far as the transport looks at it. *)
Record nng_url : Type := mk_url {
  u_scheme : String.string;
  u_userinfo : option String.string;
  u_hostname : String.string;
  u_port : Z;
  u_path : String.string;
  u_query : option String.string;
  u_fragment : option String.string
}.

Inductive nng_af : Type := NNG_AF_UNSPEC | NNG_AF_INET | NNG_AF_INET6.

(** What the allocators and the resolver answer during the
    initialisation of an endpoint, and whether the build has
    [NNG_ENABLE_IPV6]. *)
Record init_env : Type := mk_init_env {
  ie_ep : bool;           (* NNI_ALLOC_STRUCT (ep) returned a structure *)
  ie_connaio : nng_err;   (* nni_aio_alloc (&ep->connaio, ...) *)
  ie_timeaio : nng_err;   (* nni_aio_alloc (&ep->timeaio, ...) *)
  ie_aio : nng_err;       (* nni_aio_alloc (&aio, NULL, NULL) *)
  ie_resolv : nng_err;    (* nni_aio_result after nni_resolv_ip *)
  ie_stream : nng_err;    (* nng_stream_dialer_alloc_url, nng_stream_listener_alloc_url *)
  ie_ipv6 : bool
}.

(** What an initialisation routine hands back: its result, the new
    endpoint (on success), the calls it made, the arguments of the name
    lookup it ran (host, port, family), and whether it returned with
    an endpoint structure allocated that it neither handed out nor
    freed. *)
Record init_result : Type := mk_init_result {
  ir_rv : nng_err;
  ir_ep : option tlstran_world;
  ir_calls : list call;
  ir_resolved : option (option String.string * Z * nng_af);
  ir_ep_left : bool
}.

Definition url_root : String.string := "/"%string.
Definition scheme_tls_tcp : String.string := "tls+tcp"%string.
Definition scheme_tls_tcp4 : String.string := "tls+tcp4"%string.
Definition scheme_tls_tcp6 : String.string := "tls+tcp6"%string.

Definition strlen (s : String.string) : Z := Z.of_nat (String.length s).

(** [strcmp (a, b) == 0]. *)
Definition streq (a b : String.string) : bool := String.eqb a b.

(** [tlstran_ep_fini] on an endpoint that was just set up. *)
Definition init_fini (rv : nng_err) (ep : tlstran_ep)
  (resolved : option (option String.string * Z * nng_af)) : init_result :=
  mk_init_result rv None (calls_of tlstran_ep_fini (mk_world ep ∅ false))
    resolved false.

(** [tlstran_ep_init_dialer]; [proto] is the protocol id of the
    dialer's socket. *)
Definition tlstran_ep_init_dialer (env : init_env) (url : nng_url) (proto : Z)
  : init_result :=
  (* Check for invalid URL components. *)
  if negb (strlen (u_path url) =? 0) && negb (streq (u_path url) url_root) then
    mk_init_result NNG_EADDRINVAL None [] None false
  else if bool_decide (u_fragment url <> None) || bool_decide (u_userinfo url <> None)
          || bool_decide (u_query url <> None) || (strlen (u_hostname url) =? 0)
          || (u_port url =? 0) then
    mk_init_result NNG_EADDRINVAL None [] None false
  else if negb (ie_ep env) then
    mk_init_result NNG_ENOMEM None [] None false
  else
    let ep := tlstran_ep_init proto in
    if decide (ie_connaio env <> NNG_OK) then
      (* return (rv), with no tlstran_ep_fini *)
      mk_init_result (ie_connaio env) None [] None true
    else if decide (ie_stream env <> NNG_OK) then
      init_fini (ie_stream env) ep None
    else
      mk_init_result NNG_OK (Some (mk_world (set_ep_dialer true ep) ∅ false)) []
        None false.

(** [tlstran_ep_init_listener].  The wait on the lookup aio and its
    release are not recorded. *)
Definition tlstran_ep_init_listener (env : init_env) (url : nng_url) (proto : Z)
  : init_result :=
  let host := u_hostname url in
  let af :=
    if streq (u_scheme url) scheme_tls_tcp then Some NNG_AF_UNSPEC
    else if streq (u_scheme url) scheme_tls_tcp4 then Some NNG_AF_INET
    else if ie_ipv6 env && streq (u_scheme url) scheme_tls_tcp6 then Some NNG_AF_INET6
    else None in
  match af with
  | None => mk_init_result NNG_EADDRINVAL None [] None false
  | Some af =>
      (* Check for invalid URL components. *)
      if negb (strlen (u_path url) =? 0) && negb (streq (u_path url) url_root) then
        mk_init_result NNG_EADDRINVAL None [] None false
      else if bool_decide (u_fragment url <> None)
              || bool_decide (u_userinfo url <> None)
              || bool_decide (u_query url <> None) then
        mk_init_result NNG_EADDRINVAL None [] None false
      else if negb (ie_ep env) then
        mk_init_result NNG_ENOMEM None [] None false
      else
        let ep := tlstran_ep_init proto in
        if decide (ie_connaio env <> NNG_OK) then
          mk_init_result (ie_connaio env) None [] None true
        else if decide (ie_timeaio env <> NNG_OK) then
          mk_init_result (ie_timeaio env) None [] None true
        else
          let host := if strlen host =? 0 then None else Some host in
          if decide (ie_aio env <> NNG_OK) then
            init_fini (ie_aio env) ep None
          else
            let resolved := Some (host, u_port url, af) in
            if decide (ie_resolv env <> NNG_OK) then
              init_fini (ie_resolv env) ep resolved
            else if decide (ie_stream env <> NNG_OK) then
              init_fini (ie_stream env) ep resolved
            else
              mk_init_result NNG_OK
                (Some (mk_world (set_ep_listener true ep) ∅ false)) []
                resolved false
  end.

(** The URLs a dialer takes. *)
Definition dialer_url_ok (url : nng_url) : Prop :=
  (u_path url = String.EmptyString \/ u_path url = url_root) /\
  u_fragment url = None /\ u_userinfo url = None /\ u_query url = None /\
  u_hostname url <> String.EmptyString /\ u_port url <> 0.

(** The URLs a listener takes. *)
Definition listener_url_ok (ipv6 : bool) (url : nng_url) : Prop :=
  (u_scheme url = scheme_tls_tcp \/ u_scheme url = scheme_tls_tcp4
   \/ (ipv6 = true /\ u_scheme url = scheme_tls_tcp6)) /\
  (u_path url = String.EmptyString \/ u_path url = url_root) /\
  u_fragment url = None /\ u_userinfo url = None /\ u_query url = None.

(** Every allocation and the lookup succeed. *)
Definition init_env_ok (env : init_env) : Prop :=
  ie_ep env = true /\ ie_connaio env = NNG_OK /\ ie_timeaio env = NNG_OK /\
  ie_aio env = NNG_OK /\ ie_resolv env = NNG_OK /\ ie_stream env = NNG_OK.

Definition demo_init_env : init_env :=
  mk_init_env true NNG_OK NNG_OK NNG_OK NNG_OK NNG_OK true.

Definition demo_url : nng_url :=
  mk_url scheme_tls_tcp None "example.org"%string 5555 url_root None None.

(** A listener URL for any interface and an ephemeral port. *)
Definition demo_wild_url : nng_url :=
  mk_url scheme_tls_tcp4 None String.EmptyString 0 String.EmptyString None None.

(** The allocation of the connect aio fails; the name lookup fails. *)
Definition demo_noaio_env : init_env :=
  mk_init_env true NNG_ENOMEM NNG_OK NNG_OK NNG_OK NNG_OK true.

Definition demo_noresolv_env : init_env :=
  mk_init_env true NNG_OK NNG_OK NNG_OK NNG_EADDRINVAL NNG_OK true.

(** ** Receiving with the stream's side checked *)

(** The stream completes a read only while one is submitted, with at
    least one byte and with no more bytes than the submitted vector
    asks for.  [rx_feed] feeds the receive callback one successful
    completion per chunk and keeps track of whether a read is
    outstanding; a chunk the stream could not have delivered ends the
    run with [None]. *)
Fixpoint rx_feed (alloc_rv : nng_err) (chunks : list (list byte)) (inflight : bool)
  : M tlstran_pipe unit :=
  match chunks with
  | [] => ret tt
  | c :: rest =>
      fun p =>
        if inflight && bool_decide (c <> [])
           && bool_decide (Z.of_nat (length c) <= nni_aio_iov_count (p_rxaio p))
        then
          match (modify (stream_recv_done NNG_OK c) >>
                 tlstran_pipe_recv_cb alloc_rv) p with
          | Some (_, p1, t1) =>
              match rx_feed alloc_rv rest (existsb is_rx_submit t1) p1 with
              | Some (y, p2, t2) => Some (y, p2, t1 ++ t2)
              | None => None
              end
          | None => None
          end
        else None
  end.

(** The vectors with which a read of [total] bytes into [b] is resumed
    after each short completion, [got] bytes being in at the start. *)
Fixpoint resume_reads (b : buf) (total got : Z) (counts : list Z) : list nni_iov :=
  match counts with
  | [] => []
  | n :: rest =>
      if decide (got + n < total)
      then mk_iov b (got + n) (total - (got + n))
           :: resume_reads b total (got + n) rest
      else []
  end.

Definition chunk_lens (chunks : list (list byte)) : list Z :=
  map (fun c => Z.of_nat (length c)) chunks.

(** The calls that hand message [m] to [aio]: the read of the next
    prefix if another receive is queued behind it, then the delivery. *)
Definition deliver_calls (tls : option nat) (npipe : nat) (aio : user_aio)
  (rest : list user_aio) (m : nni_msg) : list call :=
  match rest with
  | [] => []
  | _ :: _ => [c_nng_stream_recv tls RXAIO [mk_iov buf_rxlen 0 8]]
  end
  ++ [c_nni_pipe_bump_rx npipe (nni_msg_len m);
      c_nni_aio_set_msg (ua_id aio) (Some m);
      c_nni_aio_finish_sync (ua_id aio) NNG_OK (nni_msg_len m)].

(** The calls the receive side makes while a frame with the given
    payload arrives in the given chunks and is delivered to [aio]:
    the resumed reads of the prefix, the read of the body and its
    resumed reads, and the hand-over. *)
Definition frame_recv_calls (tls : option nat) (npipe : nat) (aio : user_aio)
  (rest : list user_aio) (payload : list byte)
  (hchunks bchunks : list (list byte)) : list call :=
  let len := Z.of_nat (length payload) in
  map (fun iov => c_nng_stream_recv tls RXAIO [iov])
    (resume_reads buf_rxlen 8 0 (chunk_lens hchunks))
  ++ (if decide (payload = []) then []
      else c_nng_stream_recv tls RXAIO [mk_iov buf_rxmsg_body 0 len]
           :: map (fun iov => c_nng_stream_recv tls RXAIO [iov])
                (resume_reads buf_rxmsg_body len 0 (chunk_lens bchunks)))
  ++ deliver_calls tls npipe aio rest (mk_msg [] payload).

(** Two receives posted on an idle pipe: the read of the prefix is
    outstanding for the first. *)
Definition demo_sys2 : pipe_sys :=
  mk_sys (set_p_recvq [demo_aio; demo_aio2] demo_rx_posted) true.

(** ** Two rules of the specification read literally *)

(** The one-aio rule read literally: whatever aio is posted by connect
    or accept while the slot is occupied is completed with busy, and
    nothing else happens. *)
Definition busy_whenever_occupied : Prop :=
  forall (w : tlstran_world) (aio u : user_aio),
    reachable w -> ep_useraio (w_ep w) = Some u ->
    tlstran_ep_connect aio w =
      Some (tt, w, [c_nni_aio_finish_error (ua_id aio) NNG_EBUSY])
    /\ tlstran_ep_accept aio w =
      Some (tt, w, [c_nni_aio_finish_error (ua_id aio) NNG_EBUSY]).

(** The back-off rule read literally: an accept that fails for lack
    of memory or of files is not surfaced, that is, no user aio is
    completed by the accept callback. *)
Definition accept_backoff_silent : Prop :=
  forall (w : tlstran_world) (rv : nng_err) (conn : option nat) (env : alloc_env),
    reachable w -> ep_listener (w_ep w) = true ->
    rv = NNG_ENOMEM \/ rv = NNG_ENOFILES ->
    exists w' t,
      world_routine (wev_accept_done rv conn env) w = Some (tt, w', t)
      /\ completions t = [].

(** A fresh listener for protocol 16; with an accept posted. *)
Definition demo_listener0 : tlstran_world := world_init 16 false.

Definition demo_listener1 : tlstran_world :=
  state_after (world_routine (wev_accept demo_aio)) demo_listener0.

(** The dialer of [demo_world2] released while its pipe exists. *)
Definition demo_fini_world : tlstran_world :=
  state_after (world_routine wev_fini) demo_world2.


(** * Properties *)

(** ** Bytes and the wire encodings *)

Lemma byte_to_Z_range (b : byte) : 0 <= byte_to_Z b < 256.
Proof. unfold byte_to_Z. pose proof (Byte.to_N_bounded b). lia. Qed.

Lemma byte_to_Z_of_Z (z : Z) : byte_to_Z (Z_to_byte z) = z mod 256.
Proof.
  unfold byte_to_Z, Z_to_byte.
  pose proof (Z.mod_pos_bound z 256 ltac:(lia)) as Hr.
  destruct (Byte.of_N (Z.to_N (z mod 256))) as [b|] eqn:E.
  - apply Byte.to_of_N in E. rewrite E. lia.
  - apply Byte.of_N_None_iff in E. lia.
Qed.

Lemma Z_to_byte_to_Z (b : byte) : Z_to_byte (byte_to_Z b) = b.
Proof.
  unfold Z_to_byte, byte_to_Z.
  pose proof (Byte.to_N_bounded b).
  rewrite Z.mod_small by lia. rewrite N2Z.id. now rewrite Byte.of_to_N.
Qed.

Lemma NNI_PUT64_length (u : Z) : length (NNI_PUT64 u) = 8%nat.
Proof. reflexivity. Qed.

Lemma NNI_GET64_PUT64 (u : Z) : NNI_GET64 (NNI_PUT64 u) = u mod uint64_max.
Proof.
  unfold NNI_GET64, NNI_PUT64. cbn [nth].
  rewrite !byte_to_Z_of_Z.
  set (v := u mod uint64_max).
  assert (0 <= v < uint64_max) by (apply Z.mod_pos_bound; reflexivity).
  unfold uint64_max in *.
  rewrite !Z.shiftl_mul_pow2, !Z.shiftr_div_pow2 by lia.
  change (2^56) with 72057594037927936. change (2^48) with 281474976710656.
  change (2^40) with 1099511627776. change (2^32) with 4294967296.
  change (2^24) with 16777216. change (2^16) with 65536. change (2^8) with 256.
  change (2^64) with 18446744073709551616 in *.
  Z.div_mod_to_equations; lia.
Qed.

Lemma NNI_GET16_PUT16 (u : Z) : NNI_GET16 (NNI_PUT16 u) = u mod uint16_max.
Proof.
  unfold NNI_GET16, NNI_PUT16. cbn [nth].
  rewrite !byte_to_Z_of_Z.
  set (v := u mod uint16_max).
  assert (0 <= v < uint16_max) by (apply Z.mod_pos_bound; reflexivity).
  unfold uint16_max in *.
  rewrite !Z.shiftl_mul_pow2, !Z.shiftr_div_pow2 by lia.
  change (2^8) with 256. change (2^16) with 65536 in *.
  Z.div_mod_to_equations; lia.
Qed.

(** The word [NNI_GET16] loads is the first byte times 256 plus the
    second. *)
Lemma NNI_GET16_word (b4 b5 : byte) (rest : list byte) :
  NNI_GET16 (b4 :: b5 :: rest) = 256 * byte_to_Z b4 + byte_to_Z b5.
Proof.
  unfold NNI_GET16. cbn [nth].
  pose proof (byte_to_Z_range b4). pose proof (byte_to_Z_range b5).
  rewrite Z.shiftl_mul_pow2 by lia. change (2^8) with 256.
  unfold uint16_max. change (2^16) with 65536.
  rewrite Z.mod_small; lia.
Qed.

(** ** Running the monad *)

Ltac munfold :=
  unfold modify_ep, modify_pipe, get_ep, get_pipe, on_ep, on_pipe,
         bind, ret, get, modify, emit, crash, deref, NNI_ASSERT in *.

Lemma length_pos_nil {A} (l : list A) : Z.of_nat (length l) > 0 <-> l <> [].
Proof. destruct l; simpl; split; intros; try lia; congruence. Qed.

(** ** Sending *)

Lemma send_start_head (p : tlstran_pipe) (aio : user_aio) (rest : list user_aio) :
  p_sendq p = aio :: rest ->
  tlstran_pipe_send_start p =
    Some (tt,
          set_p_txaio (nni_aio_set_iov (frame_iov aio) (p_txaio p))
            (set_p_txlen (NNI_PUT64 (size_add (nni_msg_len (ua_msg aio))
                                       (nni_msg_header_len (ua_msg aio)))) p),
          [c_nng_stream_send (p_tls p) TXAIO (frame_iov aio)]).
Proof.
  intros Hq. unfold tlstran_pipe_send_start, frame_iov. munfold.
  rewrite Hq. cbn [nni_list_first head].
  unfold nni_aio_get_msg, nni_msg_len, nni_msg_header_len.
  destruct (ua_msg aio) as [h b]; cbn [msg_header msg_body].
  repeat case_decide;
    try (exfalso; rewrite ?length_pos_nil in *; tauto);
    try (exfalso; rewrite <- ?length_pos_nil in *; tauto);
    cbn; reflexivity.
Qed.

Lemma send_start_idle (p : tlstran_pipe) :
  p_sendq p = [] -> tlstran_pipe_send_start p = Some (tt, p, []).
Proof.
  intros Hq. unfold tlstran_pipe_send_start. munfold. now rewrite Hq.
Qed.

Lemma take_length_all {A} (l : list A) : take (Z.to_nat (Z.of_nat (length l))) l = l.
Proof. rewrite Nat2Z.id. apply firstn_all. Qed.

Lemma gather_frame (p : tlstran_pipe) (aio : user_aio) (rest : list user_aio) :
  p_sendq p = aio :: rest ->
  length (p_txlen p) = 8%nat ->
  gather p (frame_iov aio) =
    p_txlen p ++ msg_header (ua_msg aio) ++ msg_body (ua_msg aio).
Proof.
  intros Hq Hl. unfold gather, frame_iov.
  rewrite !flat_map_app. f_equal; [|f_equal].
  - cbn. unfold iov_bytes. cbn. rewrite app_nil_r.
    change (Z.to_nat 8) with 8%nat. change (Z.to_nat 0) with 0%nat.
    rewrite <- Hl. apply firstn_all.
  - case_decide as Hh; [now rewrite Hh|].
    cbn. unfold iov_bytes. cbn. rewrite Hq. cbn.
    rewrite bool_decide_eq_true_2 by reflexivity.
    rewrite app_nil_r. apply take_length_all.
  - case_decide as Hb; [now rewrite Hb|].
    cbn. unfold iov_bytes. cbn. rewrite Hq. cbn.
    rewrite bool_decide_eq_true_2 by reflexivity.
    rewrite app_nil_r. apply take_length_all.
Qed.

(** C4: for the message at the head of the send queue the pipe starts
    exactly one scatter-gather send on its stream, and the vector it
    submits is the 8-byte big-endian prefix holding header length plus
    body length, then the header if it is not empty, then the body if
    it is not empty. *)
Theorem send_start_frames_head
  (p : tlstran_pipe) (aio : user_aio) (rest : list user_aio) :
  p_sendq p = aio :: rest ->
  nni_msg_header_len (ua_msg aio) + nni_msg_len (ua_msg aio) < uint64_max ->
  exists p',
    tlstran_pipe_send_start p =
      Some (tt, p', [c_nng_stream_send (p_tls p) TXAIO (frame_iov aio)])
    /\ a_iov (p_txaio p') = frame_iov aio
    /\ p_sendq p' = aio :: rest
    /\ length (p_txlen p') = 8%nat
    /\ NNI_GET64 (p_txlen p') =
         nni_msg_header_len (ua_msg aio) + nni_msg_len (ua_msg aio)
    /\ gather p' (frame_iov aio) =
         NNI_PUT64 (nni_msg_header_len (ua_msg aio) + nni_msg_len (ua_msg aio))
         ++ msg_header (ua_msg aio) ++ msg_body (ua_msg aio).
Proof.
  intros Hq Hlen.
  assert (Hsum : size_add (nni_msg_len (ua_msg aio)) (nni_msg_header_len (ua_msg aio))
                 = nni_msg_header_len (ua_msg aio) + nni_msg_len (ua_msg aio)).
  { unfold size_add. rewrite Z.mod_small; [lia|].
    unfold nni_msg_len, nni_msg_header_len in *. lia. }
  eexists. split; [apply (send_start_head p aio rest Hq)|].
  rewrite Hsum.
  repeat split.
  - destruct p; cbn in *. exact Hq.
  - destruct p; cbn. rewrite NNI_GET64_PUT64. apply Z.mod_small.
    unfold nni_msg_len, nni_msg_header_len in *. lia.
  - rewrite (gather_frame _ aio rest).
    + destruct p; reflexivity.
    + destruct p; cbn in *. exact Hq.
    + destruct p; reflexivity.
Qed.

Lemma send_start_frames_head_witness :
  p_sendq (set_p_sendq [demo_aio] demo_pipe) = [demo_aio] /\
  nni_msg_header_len demo_msg + nni_msg_len demo_msg < uint64_max /\
  exists p',
    tlstran_pipe_send_start (set_p_sendq [demo_aio] demo_pipe) =
      Some (tt, p', [c_nng_stream_send (Some 3%nat) TXAIO
                       [mk_iov buf_txlen 0 8; mk_iov (buf_msg_header 7) 0 2;
                        mk_iov (buf_msg_body 7) 0 3]])
    /\ a_iov (p_txaio p') = frame_iov demo_aio
    /\ p_sendq p' = [demo_aio]
    /\ length (p_txlen p') = 8%nat
    /\ NNI_GET64 (p_txlen p') = 5
    /\ gather p' (frame_iov demo_aio) =
         [x00; x00; x00; x00; x00; x00; x00; x05; x01; x02; x0a; x0b; x0c].
Proof.
  split; [reflexivity|]. split; [vm_compute; reflexivity|].
  apply (send_start_frames_head (set_p_sendq [demo_aio] demo_pipe) demo_aio []).
  - reflexivity.
  - vm_compute. reflexivity.
Defined.

#[local] Arguments tlstran_pipe_send_start : simpl never.
#[local] Arguments tlstran_pipe_recv_start : simpl never.

Lemma aio_list_remove_head (aio : user_aio) (rest : list user_aio) :
  nni_aio_list_remove aio (aio :: rest) = rest.
Proof. cbn. now rewrite decide_True. Qed.

Lemma send_cb_failure (p : tlstran_pipe) (aio : user_aio) (rest : list user_aio) :
  p_sendq p = aio :: rest ->
  a_result (p_txaio p) <> NNG_OK ->
  tlstran_pipe_send_cb p =
    Some (tt, set_p_sendq rest p,
          [c_nni_aio_finish_error (ua_id aio) (a_result (p_txaio p));
           c_nni_pipe_bump_error (p_npipe p) (a_result (p_txaio p))]).
Proof.
  intros Hq Hrv. unfold tlstran_pipe_send_cb. munfold.
  rewrite decide_True by exact Hrv.
  destruct p; cbn in *. subst. cbn.
  rewrite decide_True by reflexivity. reflexivity.
Qed.

Lemma send_cb_success (p : tlstran_pipe) (aio : user_aio) (rest : list user_aio) :
  p_sendq p = aio :: rest ->
  a_result (p_txaio p) = NNG_OK ->
  nni_aio_iov_count (nni_aio_iov_advance (a_count (p_txaio p)) (p_txaio p)) <= 0 ->
  tlstran_pipe_send_cb p =
    match tlstran_pipe_send_start (after_head_sent p rest) with
    | Some (_, p', t) =>
        Some (tt, p',
              t ++ [c_nni_pipe_bump_tx (p_npipe p) (nni_msg_len (ua_msg aio));
                    c_nni_aio_set_msg (ua_id aio) None;
                    c_nni_msg_free (Some (ua_msg aio));
                    c_nni_aio_finish_sync (ua_id aio) NNG_OK (nni_msg_len (ua_msg aio))])
    | None => None
    end.
Proof.
  intros Hq Hrv Hcnt. unfold tlstran_pipe_send_cb, after_head_sent. munfold.
  rewrite decide_False by (rewrite Hrv; tauto).
  destruct p; cbn in *. subst.
  rewrite decide_False by lia.
  cbn. rewrite decide_True by reflexivity.
  match goal with |- context [tlstran_pipe_send_start ?q] =>
    destruct (tlstran_pipe_send_start q) as [[[[] p'] t]|] end; reflexivity.
Qed.

(** C8: [tlstran_pipe_send_cb] with a send at the head of the queue.
    When the transmit aio completed with an error, the head is taken
    off the queue and completed with that error, the pipe's error
    count is bumped, and nothing else is called: no send of a queued
    aio is started and the transmit aio is left as it was.  When it
    completed successfully with nothing left to transmit, the head is
    taken off the queue and completed with the length of its message,
    and, before that completion, the frame of the next queued aio (if
    there is one) is handed to the stream. *)
Theorem send_cb_head_completion
  (p : tlstran_pipe) (aio : user_aio) (rest : list user_aio) :
  p_sendq p = aio :: rest ->
  (a_result (p_txaio p) <> NNG_OK ->
   exists p',
     tlstran_pipe_send_cb p =
       Some (tt, p',
             [c_nni_aio_finish_error (ua_id aio) (a_result (p_txaio p));
              c_nni_pipe_bump_error (p_npipe p) (a_result (p_txaio p))])
     /\ p_sendq p' = rest
     /\ p_txaio p' = p_txaio p)
  /\
  (a_result (p_txaio p) = NNG_OK ->
   nni_aio_iov_count (nni_aio_iov_advance (a_count (p_txaio p)) (p_txaio p)) <= 0 ->
   exists p' t,
     tlstran_pipe_send_cb p =
       Some (tt, p',
             t ++ [c_nni_pipe_bump_tx (p_npipe p) (nni_msg_len (ua_msg aio));
                   c_nni_aio_set_msg (ua_id aio) None;
                   c_nni_msg_free (Some (ua_msg aio));
                   c_nni_aio_finish_sync (ua_id aio) NNG_OK
                     (nni_msg_len (ua_msg aio))])
     /\ p_sendq p' = rest
     /\ match rest with
        | [] => t = []
        | next :: _ =>
            t = [c_nng_stream_send (p_tls p) TXAIO (frame_iov next)]
            /\ a_iov (p_txaio p') = frame_iov next
        end).
Proof.
  intros Hq. split.
  - intros Hrv. eexists. split; [apply (send_cb_failure p aio rest Hq Hrv)|].
    destruct p; split; reflexivity.
  - intros Hrv Hcnt. rewrite (send_cb_success p aio rest Hq Hrv Hcnt).
    destruct rest as [|next rest'].
    + rewrite send_start_idle by (destruct p; reflexivity).
      eexists _, []. split; [reflexivity|]. split; [destruct p; reflexivity|reflexivity].
    + rewrite (send_start_head _ next rest') by (destruct p; reflexivity).
      eexists _, _. split; [reflexivity|].
      split; [destruct p; reflexivity|].
      split; [destruct p; reflexivity|destruct p; reflexivity].
Qed.
(** ** Receiving *)

Lemma recv_start_ok (p : tlstran_pipe) :
  p_rxmsg p = None ->
  tlstran_pipe_recv_start p =
    Some (tt, set_p_rxaio (nni_aio_set_iov [mk_iov buf_rxlen 0 8] (p_rxaio p)) p,
          [c_nng_stream_recv (p_tls p) RXAIO [mk_iov buf_rxlen 0 8]]).
Proof.
  intros H. unfold tlstran_pipe_recv_start. munfold. rewrite H.
  destruct p; reflexivity.
Qed.

Lemma recv_start_crash (p : tlstran_pipe) (m : nni_msg) :
  p_rxmsg p = Some m -> tlstran_pipe_recv_start p = None.
Proof.
  intros H. unfold tlstran_pipe_recv_start. munfold. rewrite H. reflexivity.
Qed.

Lemma recv_error_head (p : tlstran_pipe) (aio : user_aio) (rest : list user_aio)
  (rv : nng_err) :
  p_recvq p = aio :: rest ->
  recv_error (Some aio) rv p =
    Some (tt, set_p_rxmsg None (set_p_recvq rest p),
          [c_nni_pipe_bump_error (p_npipe p) rv;
           c_nni_msg_free (p_rxmsg p);
           c_nni_aio_finish_error (ua_id aio) rv]).
Proof.
  intros Hq. unfold recv_error. munfold. destruct p; cbn in *; subst. cbn.
  rewrite decide_True by reflexivity. reflexivity.
Qed.

(** The pipe as [recv_deliver] leaves it before it may restart reading. *)
Lemma recv_deliver_head (p : tlstran_pipe) (aio : user_aio) (rest : list user_aio)
  (m : nni_msg) :
  p_recvq p = aio :: rest ->
  p_rxmsg p = Some m ->
  recv_deliver (Some aio) p =
    Some (tt,
          match rest with
          | [] => set_p_rxmsg None (set_p_recvq rest p)
          | _ :: _ =>
              set_p_rxaio (nni_aio_set_iov [mk_iov buf_rxlen 0 8] (p_rxaio p))
                (set_p_rxmsg None (set_p_recvq rest p))
          end,
          match rest with
          | [] => []
          | _ :: _ => [c_nng_stream_recv (p_tls p) RXAIO [mk_iov buf_rxlen 0 8]]
          end
          ++ [c_nni_pipe_bump_rx (p_npipe p) (nni_msg_len m);
              c_nni_aio_set_msg (ua_id aio) (Some m);
              c_nni_aio_finish_sync (ua_id aio) NNG_OK (nni_msg_len m)]).
Proof.
  intros Hq Hm. unfold recv_deliver. munfold. destruct p; cbn in *; subst. cbn.
  rewrite decide_True by reflexivity.
  destruct rest as [|b rest']; cbn; [reflexivity|].
  rewrite recv_start_ok by reflexivity. reflexivity.
Qed.

Lemma recv_cb_failure (alloc_rv : nng_err) (p : tlstran_pipe) (aio : user_aio)
  (rest : list user_aio) :
  p_recvq p = aio :: rest ->
  a_result (p_rxaio p) <> NNG_OK ->
  tlstran_pipe_recv_cb alloc_rv p =
    Some (tt, set_p_rxmsg None (set_p_recvq rest p),
          [c_nni_pipe_bump_error (p_npipe p) (a_result (p_rxaio p));
           c_nni_msg_free (p_rxmsg p);
           c_nni_aio_finish_error (ua_id aio) (a_result (p_rxaio p))]).
Proof.
  intros Hq Hrv. unfold tlstran_pipe_recv_cb. munfold.
  rewrite decide_True by exact Hrv. rewrite Hq. cbn [nni_list_first head].
  fold (@deref tlstran_pipe user_aio (Some aio)).
  apply (recv_error_head p aio rest _ Hq).
Qed.

#[local] Arguments recv_error : simpl never.
#[local] Arguments recv_deliver : simpl never.

Lemma bind_ret_tt_l {S} (m : M S unit) (s : S) :
  match m s with
  | Some (y, s2, t2) => Some (y, s2, [] ++ t2)
  | None => None
  end = m s.
Proof. destruct (m s) as [[[[] s2] t2]|]; reflexivity. Qed.

Lemma recv_cb_partial (alloc_rv : nng_err) (p : tlstran_pipe) :
  a_result (p_rxaio p) = NNG_OK ->
  nni_aio_iov_count (nni_aio_iov_advance (a_count (p_rxaio p)) (p_rxaio p)) > 0 ->
  tlstran_pipe_recv_cb alloc_rv p =
    Some (tt, after_prefix p,
          [c_nng_stream_recv (p_tls p) RXAIO
             (iov_advance (a_count (p_rxaio p)) (a_iov (p_rxaio p)))]).
Proof.
  intros Hrv Hcnt. unfold tlstran_pipe_recv_cb, after_prefix. munfold.
  rewrite decide_False by (rewrite Hrv; tauto).
  destruct p; cbn in *.
  rewrite decide_True by lia. reflexivity.
Qed.

Lemma recv_cb_oversize (alloc_rv : nng_err) (p : tlstran_pipe) (aio : user_aio)
  (rest : list user_aio) :
  p_recvq p = aio :: rest ->
  prefix_read p -> oversize p ->
  tlstran_pipe_recv_cb alloc_rv p =
    Some (tt, set_p_recvq rest (after_prefix p),
          [c_nng_log_warn (NNI_GET64 (p_rxlen p)) (p_rcvmax p);
           c_nni_pipe_bump_error (p_npipe p) NNG_EMSGSIZE;
           c_nni_msg_free None;
           c_nni_aio_finish_error (ua_id aio) NNG_EMSGSIZE]).
Proof.
  intros Hq (Hm & Hrv & Hcnt) (Hbig & Hmax).
  unfold tlstran_pipe_recv_cb, after_prefix. munfold.
  rewrite decide_False by (rewrite Hrv; tauto).
  destruct p; cbn in *. subst.
  rewrite decide_False by lia.
  rewrite !bool_decide_eq_true_2 by lia. cbn.
  rewrite (recv_error_head _ aio rest) by reflexivity. reflexivity.
Qed.

Lemma not_oversize_test (p : tlstran_pipe) :
  ~ oversize p ->
  bool_decide (NNI_GET64 (p_rxlen p) > p_rcvmax p) && bool_decide (p_rcvmax p > 0)
  = false.
Proof.
  intros H. unfold oversize in H.
  apply andb_false_iff.
  destruct (decide (NNI_GET64 (p_rxlen p) > p_rcvmax p)).
  - right. apply bool_decide_eq_false_2. tauto.
  - left. now apply bool_decide_eq_false_2.
Qed.

Lemma recv_cb_alloc_fail (alloc_rv : nng_err) (p : tlstran_pipe) (aio : user_aio)
  (rest : list user_aio) :
  p_recvq p = aio :: rest ->
  prefix_read p -> ~ oversize p -> alloc_rv <> NNG_OK ->
  tlstran_pipe_recv_cb alloc_rv p =
    Some (tt, set_p_recvq rest (after_prefix p),
          [c_nni_pipe_bump_error (p_npipe p) alloc_rv;
           c_nni_msg_free None;
           c_nni_aio_finish_error (ua_id aio) alloc_rv]).
Proof.
  intros Hq (Hm & Hrv & Hcnt) Hfit Ha.
  apply not_oversize_test in Hfit.
  unfold tlstran_pipe_recv_cb, after_prefix. munfold.
  rewrite decide_False by (rewrite Hrv; tauto).
  destruct p; cbn in *. subst.
  rewrite decide_False by lia.
  rewrite Hfit. rewrite decide_True by exact Ha.
  rewrite (recv_error_head _ aio rest) by reflexivity. reflexivity.
Qed.

Lemma recv_cb_zero (p : tlstran_pipe) (aio : user_aio) (rest : list user_aio) :
  p_recvq p = aio :: rest ->
  prefix_read p -> ~ oversize p -> NNI_GET64 (p_rxlen p) = 0 ->
  tlstran_pipe_recv_cb NNG_OK p =
    recv_deliver (Some aio) (set_p_rxmsg (Some (msg_of_size 0)) (after_prefix p)).
Proof.
  intros Hq (Hm & Hrv & Hcnt) Hfit HL.
  apply not_oversize_test in Hfit.
  unfold tlstran_pipe_recv_cb, after_prefix. munfold.
  rewrite decide_False by (rewrite Hrv; tauto).
  destruct p; cbn in *. subst.
  rewrite decide_False by lia.
  rewrite Hfit, HL. cbn.
  rewrite !decide_False by (intros H; now apply H). cbn.
  match goal with |- context [recv_deliver ?a ?q] =>
    destruct (recv_deliver a q) as [[[[] q'] t]|] end; reflexivity.
Qed.

Lemma recv_cb_body (p : tlstran_pipe) :
  prefix_read p -> ~ oversize p -> NNI_GET64 (p_rxlen p) <> 0 ->
  tlstran_pipe_recv_cb NNG_OK p =
    Some (tt,
          set_p_rxaio
            (nni_aio_set_iov [mk_iov buf_rxmsg_body 0 (NNI_GET64 (p_rxlen p))]
               (p_rxaio (after_prefix p)))
            (set_p_rxmsg (Some (msg_of_size (NNI_GET64 (p_rxlen p)))) (after_prefix p)),
          [c_nng_stream_recv (p_tls p) RXAIO
             [mk_iov buf_rxmsg_body 0 (NNI_GET64 (p_rxlen p))]]).
Proof.
  intros (Hm & Hrv & Hcnt) Hfit HL.
  apply not_oversize_test in Hfit.
  unfold tlstran_pipe_recv_cb, after_prefix. munfold.
  rewrite decide_False by (rewrite Hrv; tauto).
  destruct p; cbn in *. subst.
  rewrite decide_False by lia.
  rewrite Hfit. cbn.
  rewrite decide_False by (intros H; now apply H).
  rewrite decide_True by exact HL. reflexivity.
Qed.

Lemma recv_cb_body_done (alloc_rv : nng_err) (p : tlstran_pipe) (aio : user_aio)
  (rest : list user_aio) (m : nni_msg) :
  p_recvq p = aio :: rest ->
  p_rxmsg p = Some m ->
  a_result (p_rxaio p) = NNG_OK ->
  nni_aio_iov_count (nni_aio_iov_advance (a_count (p_rxaio p)) (p_rxaio p)) <= 0 ->
  tlstran_pipe_recv_cb alloc_rv p = recv_deliver (Some aio) (after_prefix p).
Proof.
  intros Hq Hm Hrv Hcnt.
  unfold tlstran_pipe_recv_cb, after_prefix. munfold.
  rewrite decide_False by (rewrite Hrv; tauto).
  destruct p; cbn in *. subst.
  rewrite decide_False by lia.
  cbn [nni_list_first head].
  match goal with |- context [recv_deliver ?a ?q] =>
    destruct (recv_deliver a q) as [[[[] q'] t]|] end; reflexivity.
Qed.

Lemma write_at_split (pre c suf : list byte) :
  (length c <= length suf)%nat ->
  write_at (length pre) c (pre ++ suf) = pre ++ c ++ drop (length c) suf.
Proof.
  intros Hle. unfold write_at.
  rewrite take_app_length. f_equal. f_equal.
  rewrite drop_app_ge by lia. f_equal. lia.
Qed.

#[local] Arguments tlstran_pipe_recv_cb : simpl never.
#[local] Arguments iov_advance : simpl never.

Lemma iov_advance_within (e : nni_iov) (n : Z) :
  0 < n < iov_len e ->
  iov_advance n [e] = [mk_iov (iov_buf e) (iov_off e + n) (iov_len e - n)].
Proof.
  intros H. unfold iov_advance.
  rewrite decide_False by lia. now rewrite decide_True by lia.
Qed.

Lemma iov_advance_all (e : nni_iov) (n : Z) :
  0 < n -> n = iov_len e -> iov_advance n [e] = [].
Proof.
  intros H1 H2. unfold iov_advance.
  rewrite decide_False by lia. now rewrite decide_False by lia.
Qed.

Lemma rx_run_body (alloc_rv : nng_err) (chunks : list (list byte)) :
  forall (q : tlstran_pipe) (aio : user_aio) (rest : list user_aio)
         (hdr pre suf : list byte),
    p_recvq q = aio :: rest ->
    p_rxmsg q = Some (mk_msg hdr (pre ++ suf)) ->
    a_iov (p_rxaio q) =
      [mk_iov buf_rxmsg_body (Z.of_nat (length pre)) (Z.of_nat (length suf))] ->
    suf <> [] ->
    Forall (fun c => c <> []) chunks ->
    length (concat chunks) = length suf ->
    exists q' t,
      rx_run alloc_rv chunks q = Some (tt, q', t)
      /\ delivers t aio (mk_msg hdr (pre ++ concat chunks))
      /\ Forall (fun c => is_error_completion c = false) t
      /\ p_rxmsg q' = None
      /\ p_recvq q' = rest.
Proof.
  induction chunks as [|c cs IH]; intros q aio rest hdr pre suf Hq Hm Hiov Hsuf Hne Hlen.
  - destruct suf; [congruence | discriminate].
  - apply Forall_cons in Hne as [Hc Hcs].
    cbn [concat] in Hlen. rewrite length_app in Hlen.
    assert (Hcpos : (0 < length c)%nat) by (destruct c; [congruence | cbn; lia]).
    set (q1 := stream_recv_done NNG_OK c q).
    assert (Hq1 : q1 = set_p_rxmsg (Some (mk_msg hdr (pre ++ c ++ drop (length c) suf)))
                         (set_p_rxaio (aio_complete NNG_OK (Z.of_nat (length c)) None (p_rxaio q)) q)).
    { unfold q1, stream_recv_done. rewrite decide_False by (intros H; now apply H).
      rewrite Hiov. cbn [iov_buf iov_off].
      destruct q; cbn in *. subst. cbn.
      rewrite Nat2Z.id. rewrite write_at_split by lia. reflexivity. }
    cbn [rx_run]. unfold bind at 1 2. unfold modify at 1. fold q1.
    destruct (decide (length c < length suf)%nat) as [Hlt|Hge].
    + (* a partial read of the body: resubmit *)
      rewrite recv_cb_partial; cycle 1.
      { rewrite Hq1. destruct q; reflexivity. }
      { rewrite Hq1. unfold nni_aio_iov_count, nni_aio_iov_advance.
        destruct q; cbn in *. rewrite Hiov.
        rewrite iov_advance_within by (cbn; lia). cbn. lia. }
      destruct (IH (after_prefix q1) aio rest hdr (pre ++ c) (drop (length c) suf))
        as (q' & t & Hrun & Hdel & Hok & Hm' & Hq').
      * rewrite Hq1. destruct q; exact Hq.
      * rewrite Hq1. destruct q; cbn. now rewrite <- app_assoc.
      * rewrite Hq1. unfold after_prefix, nni_aio_iov_advance.
        destruct q; cbn in *. rewrite Hiov.
        rewrite iov_advance_within by (cbn; lia). cbn.
        rewrite length_app, length_drop. do 2 f_equal; lia.
      * intros Hnil. apply (f_equal length) in Hnil.
        rewrite length_drop in Hnil. cbn in Hnil. lia.
      * exact Hcs.
      * rewrite length_drop. lia.
      * rewrite Hrun. eexists _, _. split; [reflexivity|].
        split; [|split; [|split; assumption]].
        -- unfold delivers in *. cbn [concat]. rewrite (app_assoc pre).
           destruct Hdel as [Hd1 Hd2].
           split; cbn; apply elem_of_cons; right; assumption.
        -- cbn. apply Forall_cons. split; [reflexivity | exact Hok].
    + (* the last bytes of the body *)
      assert (Hcs_nil : cs = []).
      { destruct cs as [|c' cs']; [reflexivity|].
        apply Forall_cons in Hcs as [Hc' _].
        cbn in Hlen. rewrite length_app in Hlen.
        destruct c'; [congruence|]. cbn in Hlen. lia. }
      subst cs. cbn in Hlen.
      assert (Hfull : length c = length suf) by lia.
      rewrite (recv_cb_body_done alloc_rv q1 aio rest
                 (mk_msg hdr (pre ++ c ++ drop (length c) suf))); cycle 1.
      { rewrite Hq1. destruct q; exact Hq. }
      { rewrite Hq1. destruct q; reflexivity. }
      { rewrite Hq1. destruct q; reflexivity. }
      { rewrite Hq1. unfold nni_aio_iov_count, nni_aio_iov_advance.
        destruct q; cbn in *. rewrite Hiov.
        rewrite iov_advance_all by (cbn; lia). cbn. lia. }
      rewrite (recv_deliver_head _ aio rest
                 (mk_msg hdr (pre ++ c ++ drop (length c) suf))); cycle 1.
      { rewrite Hq1. destruct q; exact Hq. }
      { rewrite Hq1. destruct q; reflexivity. }
      assert (Hbody : pre ++ c ++ drop (length c) suf = pre ++ concat [c]).
      { rewrite Hfull, drop_all. cbn. reflexivity. }
      rewrite Hbody. cbn [rx_run]. unfold ret.
      eexists _, _. split; [reflexivity|].
      split; [|split; [|split]].
      * unfold delivers.
        split; destruct rest; cbn; rewrite !elem_of_cons; auto 10.
      * destruct rest; cbn; repeat constructor.
      * rewrite Hq1. destruct rest, q; reflexivity.
      * rewrite Hq1. destruct rest, q; reflexivity.
Qed.

Lemma NNI_GET64_range (l : list byte) : 0 <= NNI_GET64 l < uint64_max.
Proof. unfold NNI_GET64. apply Z.mod_pos_bound. reflexivity. Qed.

Lemma msg_of_size_len (n : Z) : 0 <= n -> nni_msg_len (msg_of_size n) = n.
Proof.
  intros H. unfold nni_msg_len, msg_of_size. cbn.
  rewrite repeat_length. lia.
Qed.

(** C2 (amended): once the 8-byte prefix is read and decoded as L, an
    oversize frame (L > rcvmax > 0) completes the user aio with
    message-too-large and delivers nothing; otherwise a message of L
    bytes is allocated, and if that allocation fails the user aio is
    completed with the allocator's error; an empty message is
    delivered at once; for L > 0 a read of L body bytes is started, and
    when those bytes arrive without error the message of exactly L
    bytes, holding them, is delivered. *)
Theorem recv_cb_after_prefix
  (alloc_rv : nng_err) (p : tlstran_pipe) (aio : user_aio) (rest : list user_aio) :
  p_recvq p = aio :: rest ->
  prefix_read p ->
  (oversize p ->
   exists p',
     tlstran_pipe_recv_cb alloc_rv p =
       Some (tt, p',
             [c_nng_log_warn (NNI_GET64 (p_rxlen p)) (p_rcvmax p);
              c_nni_pipe_bump_error (p_npipe p) NNG_EMSGSIZE;
              c_nni_msg_free None;
              c_nni_aio_finish_error (ua_id aio) NNG_EMSGSIZE])
     /\ p_recvq p' = rest /\ p_rxmsg p' = None)
  /\
  (~ oversize p -> alloc_rv <> NNG_OK ->
   exists p',
     tlstran_pipe_recv_cb alloc_rv p =
       Some (tt, p',
             [c_nni_pipe_bump_error (p_npipe p) alloc_rv;
              c_nni_msg_free None;
              c_nni_aio_finish_error (ua_id aio) alloc_rv])
     /\ p_recvq p' = rest /\ p_rxmsg p' = None)
  /\
  (~ oversize p -> alloc_rv = NNG_OK -> NNI_GET64 (p_rxlen p) = 0 ->
   exists p' t,
     tlstran_pipe_recv_cb alloc_rv p = Some (tt, p', t)
     /\ delivers t aio (msg_of_size 0)
     /\ nni_msg_len (msg_of_size 0) = 0
     /\ Forall (fun c => is_error_completion c = false) t
     /\ p_recvq p' = rest /\ p_rxmsg p' = None)
  /\
  (~ oversize p -> alloc_rv = NNG_OK -> NNI_GET64 (p_rxlen p) <> 0 ->
   exists p1,
     tlstran_pipe_recv_cb alloc_rv p =
       Some (tt, p1,
             [c_nng_stream_recv (p_tls p) RXAIO
                [mk_iov buf_rxmsg_body 0 (NNI_GET64 (p_rxlen p))]])
     /\ p_rxmsg p1 = Some (msg_of_size (NNI_GET64 (p_rxlen p)))
     /\ nni_msg_len (msg_of_size (NNI_GET64 (p_rxlen p))) = NNI_GET64 (p_rxlen p)
     /\ p_recvq p1 = aio :: rest
     /\ forall chunks : list (list byte),
          Forall (fun c => c <> []) chunks ->
          Z.of_nat (length (concat chunks)) = NNI_GET64 (p_rxlen p) ->
          exists p2 t,
            rx_run alloc_rv chunks p1 = Some (tt, p2, t)
            /\ delivers t aio (mk_msg [] (concat chunks))
            /\ nni_msg_len (mk_msg [] (concat chunks)) = NNI_GET64 (p_rxlen p)
            /\ Forall (fun c => is_error_completion c = false) t
            /\ p_recvq p2 = rest /\ p_rxmsg p2 = None).
Proof.
  intros Hq Hpre.
  pose proof (NNI_GET64_range (p_rxlen p)) as HL.
  split; [|split; [|split]].
  - intros Hbig. eexists. split; [apply (recv_cb_oversize _ p aio rest Hq Hpre Hbig)|].
    destruct Hpre as (Hm & _). destruct p; cbn in *. auto.
  - intros Hfit Ha. eexists.
    split; [apply (recv_cb_alloc_fail _ p aio rest Hq Hpre Hfit Ha)|].
    destruct Hpre as (Hm & _). destruct p; cbn in *. auto.
  - intros Hfit -> H0.
    rewrite (recv_cb_zero p aio rest Hq Hpre Hfit H0).
    rewrite (recv_deliver_head _ aio rest (msg_of_size 0))
      by (destruct p; cbn in *; auto).
    eexists _, _. split; [reflexivity|].
    split; [|split; [reflexivity|split; [|split]]].
    + unfold delivers. split; destruct rest; cbn; rewrite !elem_of_cons; auto 10.
    + destruct rest; cbn; repeat constructor.
    + destruct rest, p; reflexivity.
    + destruct rest, p; reflexivity.
  - intros Hfit -> Hnz.
    rewrite (recv_cb_body p Hpre Hfit Hnz).
    eexists. split; [reflexivity|].
    split; [destruct p; reflexivity|].
    split; [apply msg_of_size_len; lia|].
    split; [destruct p; cbn in *; exact Hq|].
    intros chunks Hne Hlen.
    set (L := NNI_GET64 (p_rxlen p)) in *.
    match goal with |- context [rx_run _ _ ?q] => set (p1 := q) end.
    destruct (rx_run_body NNG_OK chunks p1 aio rest [] [] (repeat x00 (Z.to_nat L)))
      as (p2 & t & Hrun & Hdel & Hok & Hm2 & Hq2).
    + unfold p1. destruct p; cbn in *; exact Hq.
    + unfold p1. destruct p; reflexivity.
    + unfold p1. destruct p; cbn. rewrite repeat_length.
      rewrite Z2Nat.id by lia. reflexivity.
    + intros Hnil. apply (f_equal length) in Hnil.
      rewrite repeat_length in Hnil. cbn in Hnil. lia.
    + exact Hne.
    + rewrite repeat_length. lia.
    + exists p2, t. split; [exact Hrun|]. split; [exact Hdel|].
      split; [unfold nni_msg_len; cbn; exact Hlen|]. auto.
Qed.

(** C2 as stated does not hold: with the prefix of an empty frame read
    and no size limit set, an allocator that answers out-of-memory
    makes the callback complete the user aio with that error; no
    message is allocated or delivered. *)
Lemma recv_cb_alloc_failure_counterexample :
  prefix_read demo_rx_pipe /\ ~ oversize demo_rx_pipe /\
  tlstran_pipe_recv_cb NNG_ENOMEM demo_rx_pipe =
    Some (tt, set_p_recvq [] (after_prefix demo_rx_pipe),
          [c_nni_pipe_bump_error 0 NNG_ENOMEM;
           c_nni_msg_free None;
           c_nni_aio_finish_error 7 NNG_ENOMEM]) /\
  ~ recv_always_allocates.
Proof.
  assert (Hpre : prefix_read demo_rx_pipe).
  { repeat split. vm_compute. discriminate. }
  assert (Hfit : ~ oversize demo_rx_pipe).
  { intros [_ H]. vm_compute in H. discriminate. }
  assert (Hrun : tlstran_pipe_recv_cb NNG_ENOMEM demo_rx_pipe =
                 Some (tt, set_p_recvq [] (after_prefix demo_rx_pipe),
                       [c_nni_pipe_bump_error 0 NNG_ENOMEM;
                        c_nni_msg_free None;
                        c_nni_aio_finish_error 7 NNG_ENOMEM])).
  { vm_compute. reflexivity. }
  split; [exact Hpre | split; [exact Hfit | split; [exact Hrun|]]].
  intros Hclaim.
  destruct (Hclaim NNG_ENOMEM demo_rx_pipe demo_aio [] eq_refl Hpre Hfit)
    as (p' & t & Hcb & Hout).
  rewrite Hrun in Hcb. injection Hcb as <- <-.
  destruct Hout as [(m & Hm & _) | (m & [Hd _] & _)].
  - vm_compute in Hm. discriminate.
  - rewrite !elem_of_cons in Hd.
    destruct Hd as [Hd | [Hd | [Hd | Hd]]]; try discriminate.
    inversion Hd.
Qed.
(** ** The receive side never restarts with a message in hand *)

Lemma stream_recv_done_recvq rv data p :
  p_recvq (stream_recv_done rv data p) = p_recvq p.
Proof.
  unfold stream_recv_done. case_decide; [destruct p; reflexivity|].
  destruct (a_iov (p_rxaio p)) as [|e ?]; [destruct p; reflexivity|].
  destruct (iov_buf e); try (destruct p; reflexivity).
  destruct p as [? ? ? ? ? ? ? ? ? ? ? ? ? ? ? ? ? ? m]; cbn.
  destruct m; reflexivity.
Qed.

Lemma stream_recv_done_result rv data p :
  a_result (p_rxaio (stream_recv_done rv data p)) = rv.
Proof.
  unfold stream_recv_done. case_decide as H; [destruct p; reflexivity|].
  assert (rv = NNG_OK) as -> by (destruct (decide (rv = NNG_OK)); tauto).
  destruct (a_iov (p_rxaio p)) as [|e ?]; [destruct p; reflexivity|].
  destruct (iov_buf e); try (destruct p; reflexivity).
  destruct p as [? ? ? ? ? ? ? ? ? ? ? ? ? ? ? ? ? ? m]; cbn.
  destruct m; reflexivity.
Qed.

Lemma stream_recv_done_iov rv data p :
  a_iov (p_rxaio (stream_recv_done rv data p)) = a_iov (p_rxaio p).
Proof.
  unfold stream_recv_done. case_decide; [destruct p; reflexivity|].
  destruct (a_iov (p_rxaio p)) as [|e ?] eqn:E; [destruct p; cbn in *; exact E|].
  destruct (iov_buf e); try (destruct p; cbn in *; exact E).
  destruct p as [? ? ? ? ? ? ? ? ? ? ? ? ? ? ? ? ? ? m]; cbn in *.
  destruct m; exact E.
Qed.

Lemma stream_recv_done_rxmsg rv data p :
  p_rxmsg (stream_recv_done rv data p) = None <-> p_rxmsg p = None.
Proof.
  unfold stream_recv_done. case_decide; [destruct p; reflexivity|].
  destruct (a_iov (p_rxaio p)) as [|e ?]; [destruct p; reflexivity|].
  destruct (iov_buf e); try (destruct p; reflexivity).
  destruct p as [? ? ? ? ? ? ? ? ? ? ? ? ? ? ? ? ? ? m]; cbn.
  destruct m; cbn; split; congruence.
Qed.

Lemma stream_recv_done_tls rv data p :
  p_tls (stream_recv_done rv data p) = p_tls p.
Proof.
  unfold stream_recv_done. case_decide; [destruct p; reflexivity|].
  destruct (a_iov (p_rxaio p)) as [|e ?]; [destruct p; reflexivity|].
  destruct (iov_buf e); try (destruct p; reflexivity).
  destruct p as [? ? ? ? ? ? ? ? ? ? ? ? ? ? ? ? ? ? m]; cbn.
  destruct m; reflexivity.
Qed.

Lemma iov_advance_bufs (b : buf) (v : list nni_iov) :
  forall n, Forall (fun e => iov_buf e = b) v ->
            Forall (fun e => iov_buf e = b) (iov_advance n v).
Proof.
  induction v as [|e v IH]; intros n H; [constructor|].
  apply Forall_cons in H as [He Hv].
  unfold iov_advance; fold iov_advance.
  case_decide; [now constructor|].
  case_decide; [constructor; [exact He | exact Hv]|].
  now apply IH.
Qed.

Lemma aio_list_remove_other (aio a : user_aio) (rest : list user_aio) :
  ua_id a <> ua_id aio ->
  nni_aio_list_remove aio (a :: rest) = a :: nni_aio_list_remove aio rest.
Proof. intros H. cbn. now rewrite decide_False. Qed.

Lemma is_first_snoc_nonempty (aio a : user_aio) (q : list user_aio) :
  ua_id a <> ua_id aio -> is_first aio ((a :: q) ++ [aio]) = false.
Proof. intros H. unfold is_first. cbn. now apply bool_decide_eq_false_2. Qed.

(** One step keeps the invariant, does not crash, and when it starts
    the read of a frame header no message is in hand. *)
Lemma rx_step (s : pipe_sys) (e : rx_event) :
  rx_inv s -> rx_enabled e s ->
  exists p' t,
    rx_routine e (sys_pipe s) = Some (tt, p', t)
    /\ rx_inv (mk_sys p' (rx_inflight_after e (sys_rx_inflight s) t))
    /\ (existsb is_header_read t = true -> p_rxmsg p' = None).
Proof.
  destruct s as [p fl]. intros [Hidle Hhead Hbody] Hen. cbn in *.
  destruct e as [aio | aio rv | rv data alloc_rv]; cbn [rx_routine]; cbn in Hen.
  - (* a receive is posted *)
    unfold tlstran_pipe_recv.
    case_decide as Hb.
    { eexists _, _. split; [reflexivity|]. cbn. split; [constructor; auto|discriminate]. }
    case_decide as Hs.
    { eexists _, _. split; [reflexivity|]. cbn. split; [constructor; auto|discriminate]. }
    munfold.
    destruct (p_recvq p) as [|a q] eqn:Hq.
    + assert (Hm : p_rxmsg p = None) by auto.
      destruct p; cbn in *. subst. cbn.
      rewrite bool_decide_eq_true_2 by reflexivity.
      rewrite recv_start_ok by reflexivity. cbn.
      eexists _, _. split; [reflexivity|].
      split; [|reflexivity].
      constructor; cbn; intros; congruence.
    + assert (Hne : ua_id a <> ua_id aio) by (apply Hen; left).
      destruct p; cbn in *. subst. cbn.
      rewrite bool_decide_eq_false_2 by exact Hne.
      eexists _, _. split; [reflexivity|]. cbn.
      split; [|discriminate].
      constructor; cbn; intros; try congruence; auto.
  - (* a posted receive is cancelled *)
    unfold tlstran_pipe_recv_cancel. munfold.
    destruct (nni_aio_list_active aio (p_recvq p)) eqn:Hact.
    2:{ eexists _, _. split; [reflexivity|]. cbn. split; [constructor; auto|discriminate]. }
    cbn [negb].
    destruct (is_first aio (p_recvq p)) eqn:Hf.
    { eexists _, _. split; [reflexivity|]. cbn. split; [constructor; auto|discriminate]. }
    eexists _, _. split; [reflexivity|]. cbn.
    split; [|discriminate].
    destruct (p_recvq p) as [|a q] eqn:Hq; [discriminate|].
    unfold is_first in Hf. cbn in Hf. apply bool_decide_eq_false_1 in Hf.
    destruct p; cbn in *. subst. cbn.
    rewrite decide_False by exact Hf.
    constructor; cbn; intros; try congruence; auto.
  - (* rxaio completes *)
    unfold bind at 1. unfold modify at 1.
    set (q1 := stream_recv_done rv data p).
    assert (Hq1 : p_recvq q1 = p_recvq p) by apply stream_recv_done_recvq.
    assert (Hr1 : a_result (p_rxaio q1) = rv) by apply stream_recv_done_result.
    assert (Hi1 : a_iov (p_rxaio q1) = a_iov (p_rxaio p)) by apply stream_recv_done_iov.
    assert (Hm1 : p_rxmsg q1 = None <-> p_rxmsg p = None) by apply stream_recv_done_rxmsg.
    destruct (p_recvq p) as [|aio rest] eqn:Hq; [now apply Hhead in Hen|].
    clearbody q1.
    destruct (decide (rv = NNG_OK)) as [->|Hrv].
    2:{ rewrite (recv_cb_failure alloc_rv q1 aio rest Hq1) by (rewrite Hr1; exact Hrv).
        eexists _, _. split; [reflexivity|]. cbn.
        split; [|discriminate].
        destruct q1; constructor; cbn; intros; congruence. }
    destruct (decide (nni_aio_iov_count
                (nni_aio_iov_advance (a_count (p_rxaio q1)) (p_rxaio q1)) > 0))
      as [Hpart|Hfull].
    { rewrite (recv_cb_partial alloc_rv q1 Hr1 Hpart).
      eexists _, _. split; [reflexivity|].
      assert (Hb1 : p_rxmsg q1 <> None ->
                    Forall (fun e => iov_buf e = buf_rxmsg_body)
                      (iov_advance (a_count (p_rxaio q1)) (a_iov (p_rxaio q1)))).
      { intros Hm. apply iov_advance_bufs. rewrite Hi1. apply Hbody.
        intros Hn. apply Hm, Hm1, Hn. }
      split.
      - destruct q1; constructor; cbn in *; intros; try congruence; auto.
      - cbn. intros Hh.
        destruct (p_rxmsg q1) as [m|] eqn:Hm; [|destruct q1; cbn in *; congruence].
        exfalso. specialize (Hb1 ltac:(congruence)).
        destruct (iov_advance (a_count (p_rxaio q1)) (a_iov (p_rxaio q1)))
          as [|e [|? ?]]; try discriminate.
        apply Forall_cons in Hb1 as [He _].
        rewrite He in Hh. cbn in Hh. discriminate. }
    assert (Hcnt : nni_aio_iov_count
                (nni_aio_iov_advance (a_count (p_rxaio q1)) (p_rxaio q1)) <= 0) by lia.
    destruct (p_rxmsg q1) as [m|] eqn:Hm.
    { (* the body is complete *)
      rewrite (recv_cb_body_done alloc_rv q1 aio rest m Hq1 Hm Hr1 Hcnt).
      rewrite (recv_deliver_head _ aio rest m)
        by (destruct q1; cbn in *; assumption).
      eexists _, _. split; [reflexivity|].
      split.
      - destruct rest, q1; constructor; cbn in *; intros; congruence.
      - intros _. destruct rest, q1; reflexivity. }
    assert (Hpre : prefix_read q1) by (repeat split; assumption).
    destruct (decide (oversize q1)) as [Hbig|Hfit].
    { rewrite (recv_cb_oversize alloc_rv q1 aio rest Hq1 Hpre Hbig).
      eexists _, _. split; [reflexivity|]. cbn.
      split; [|discriminate].
      destruct q1; constructor; cbn in *; intros; congruence. }
    destruct (decide (alloc_rv = NNG_OK)) as [->|Ha].
    2:{ rewrite (recv_cb_alloc_fail alloc_rv q1 aio rest Hq1 Hpre Hfit Ha).
        eexists _, _. split; [reflexivity|]. cbn.
        split; [|discriminate].
        destruct q1; constructor; cbn in *; intros; congruence. }
    destruct (decide (NNI_GET64 (p_rxlen q1) = 0)) as [H0|Hnz].
    + rewrite (recv_cb_zero q1 aio rest Hq1 Hpre Hfit H0).
      rewrite (recv_deliver_head _ aio rest (msg_of_size 0))
        by (destruct q1; cbn in *; auto).
      eexists _, _. split; [reflexivity|].
      split.
      * destruct rest, q1; constructor; cbn in *; intros; congruence.
      * intros _. destruct rest, q1; reflexivity.
    + rewrite (recv_cb_body q1 Hpre Hfit Hnz).
      eexists _, _. split; [reflexivity|].
      split.
      * destruct q1; constructor; cbn in *; intros; try congruence.
        repeat constructor.
      * cbn. discriminate.
Qed.

Lemma rx_reachable_inv (s : pipe_sys) : rx_reachable s -> rx_inv s.
Proof.
  induction 1 as [p Hq Hm | s e p' t Hreach IH Hen Hrun].
  - constructor; cbn; intros; congruence.
  - destruct (rx_step s e IH Hen) as (p'' & t'' & Hrun' & Hinv & _).
    rewrite Hrun in Hrun'. injection Hrun' as <- <-. exact Hinv.
Qed.

(** C10: in every state the receive side can reach, each routine runs
    to completion, so the assertion at the top of
    [tlstran_pipe_recv_start] (which fails exactly when a message is
    in hand) holds whenever it is evaluated; an empty receive queue
    implies an empty message slot; and after any step that starts the
    read of a fresh frame header the message slot is empty. *)
Theorem recv_start_precondition_holds (s : pipe_sys) (e : rx_event) :
  rx_reachable s -> rx_enabled e s ->
  (forall p m, p_rxmsg p = Some m -> tlstran_pipe_recv_start p = None)
  /\ (forall p, p_rxmsg p = None -> tlstran_pipe_recv_start p <> None)
  /\ (p_recvq (sys_pipe s) = [] -> p_rxmsg (sys_pipe s) = None)
  /\ exists p' t,
       rx_routine e (sys_pipe s) = Some (tt, p', t)
       /\ (existsb is_header_read t = true -> p_rxmsg p' = None).
Proof.
  intros Hreach Hen.
  pose proof (rx_reachable_inv s Hreach) as Hinv.
  split; [exact recv_start_crash|].
  split; [intros p Hm; rewrite (recv_start_ok p Hm); discriminate|].
  split; [apply (rx_idle_no_msg s Hinv)|].
  destruct (rx_step s e Hinv Hen) as (p' & t & Hrun & _ & Hhdr).
  exists p', t. split; assumption.
Qed.

Lemma recv_start_precondition_holds_witness :
  rx_reachable demo_sys2
  /\ rx_enabled (rx_done NNG_OK (repeat x00 8) NNG_OK) demo_sys2
  /\ existsb is_header_read
       (calls_of (rx_routine (rx_done NNG_OK (repeat x00 8) NNG_OK))
          (sys_pipe demo_sys2)) = true
  /\ (forall p m, p_rxmsg p = Some m -> tlstran_pipe_recv_start p = None)
  /\ (forall p, p_rxmsg p = None -> tlstran_pipe_recv_start p <> None)
  /\ (p_recvq (sys_pipe demo_sys2) = [] -> p_rxmsg (sys_pipe demo_sys2) = None)
  /\ exists p' t,
       rx_routine (rx_done NNG_OK (repeat x00 8) NNG_OK) (sys_pipe demo_sys2)
         = Some (tt, p', t)
       /\ (existsb is_header_read t = true -> p_rxmsg p' = None).
Proof.
  assert (Hreach1 : rx_reachable demo_sys).
  { refine (rx_reach_step (mk_sys demo_pipe false) (rx_post demo_aio) _
              [c_nng_stream_recv (Some 3%nat) RXAIO [mk_iov buf_rxlen 0 8]] _ _ _).
    - apply rx_reach_init; reflexivity.
    - cbn. intros a Ha. inversion Ha.
    - vm_compute. reflexivity. }
  assert (Hreach : rx_reachable demo_sys2).
  { refine (rx_reach_step demo_sys (rx_post demo_aio2) _ [] Hreach1 _ _).
    - cbn. intros a Ha. apply list_elem_of_singleton in Ha. subst a.
      vm_compute. discriminate.
    - vm_compute. reflexivity. }
  split; [exact Hreach|].
  split; [reflexivity|].
  split; [vm_compute; reflexivity|].
  apply (recv_start_precondition_holds demo_sys2); [exact Hreach | reflexivity].
Defined.

Lemma recv_cb_after_prefix_witness :
  p_recvq demo_rx_pipe = [demo_aio]
  /\ prefix_read demo_rx_pipe
  /\ exists p' t,
       tlstran_pipe_recv_cb NNG_OK demo_rx_pipe = Some (tt, p', t)
       /\ delivers t demo_aio (msg_of_size 0)
       /\ nni_msg_len (msg_of_size 0) = 0
       /\ Forall (fun c => is_error_completion c = false) t
       /\ p_recvq p' = [] /\ p_rxmsg p' = None.
Proof.
  assert (Hpre : prefix_read demo_rx_pipe).
  { split; [reflexivity|]. split; [reflexivity|]. vm_compute. discriminate. }
  split; [reflexivity|]. split; [exact Hpre|].
  apply (recv_cb_after_prefix NNG_OK demo_rx_pipe demo_aio [] eq_refl Hpre).
  - intros [_ H]. vm_compute in H. discriminate.
  - reflexivity.
  - vm_compute. reflexivity.
Defined.

Lemma send_cb_head_completion_witness :
  p_sendq demo_tx_pipe = [demo_aio; demo_aio2]
  /\ exists p' t,
       tlstran_pipe_send_cb demo_tx_pipe =
         Some (tt, p',
               t ++ [c_nni_pipe_bump_tx 0 3;
                     c_nni_aio_set_msg 7 None;
                     c_nni_msg_free (Some demo_msg);
                     c_nni_aio_finish_sync 7 NNG_OK 3])
       /\ p_sendq p' = [demo_aio2]
       /\ t = [c_nng_stream_send (Some 3%nat) TXAIO (frame_iov demo_aio2)]
       /\ a_iov (p_txaio p') = frame_iov demo_aio2.
Proof.
  split; [reflexivity|].
  apply (send_cb_head_completion demo_tx_pipe demo_aio [demo_aio2] eq_refl).
  - reflexivity.
  - vm_compute. discriminate.
Defined.
(** ** Matching *)

Lemma ep_match_go (w : tlstran_world) (aio : user_aio) (p : nat) (rest : list nat)
  (pp : tlstran_pipe) :
  ep_useraio (w_ep w) = Some aio ->
  ep_waitpipes (w_ep w) = p :: rest ->
  w_pipes w !! p = Some pp ->
  tlstran_ep_match w =
    Some (tt,
          mk_world
            (set_ep_useraio None
               (set_ep_busypipes (ep_busypipes (w_ep w) ++ [p])
                  (set_ep_waitpipes rest (w_ep w))))
            (<[p := set_p_rcvmax (ep_rcvmax (w_ep w)) pp]> (w_pipes w))
            (w_ep_freed w),
          [c_nni_aio_set_output (ua_id aio) 0 p;
           c_nni_aio_finish (ua_id aio) NNG_OK 0]).
Proof.
  intros Hu Hw Hp. unfold tlstran_ep_match. munfold.
  destruct w as [e ps f]; destruct e; cbn in *. subst. cbn. rewrite Hp. cbn.
  rewrite decide_True by reflexivity. reflexivity.
Qed.

Lemma ep_match_noop (w : tlstran_world) :
  ep_useraio (w_ep w) = None \/ ep_waitpipes (w_ep w) = [] ->
  tlstran_ep_match w = Some (tt, w, []).
Proof.
  intros H. unfold tlstran_ep_match. munfold. destruct w as [e ps f]. cbn in *.
  destruct H as [H|H]; rewrite H; [reflexivity|]. destruct (ep_useraio e); reflexivity.
Qed.

(** C6: the match routine does nothing unless a user aio is posted and
    a pipe is waiting; when both hold it takes the first waiting pipe
    off the waiting list, appends it to the busy list, empties the
    useraio slot, copies the endpoint's rcvmax onto the pipe, stores
    the pipe in output slot 0 of the user aio and completes that aio
    with success. *)
Theorem ep_match_pairs_oldest (w : tlstran_world) :
  (ep_useraio (w_ep w) = None \/ ep_waitpipes (w_ep w) = [] ->
   tlstran_ep_match w = Some (tt, w, []))
  /\
  (forall aio p rest pp,
     ep_useraio (w_ep w) = Some aio ->
     ep_waitpipes (w_ep w) = p :: rest ->
     w_pipes w !! p = Some pp ->
     exists w',
       tlstran_ep_match w =
         Some (tt, w',
               [c_nni_aio_set_output (ua_id aio) 0 p;
                c_nni_aio_finish (ua_id aio) NNG_OK 0])
       /\ ep_waitpipes (w_ep w') = rest
       /\ ep_busypipes (w_ep w') = ep_busypipes (w_ep w) ++ [p]
       /\ ep_negopipes (w_ep w') = ep_negopipes (w_ep w)
       /\ ep_useraio (w_ep w') = None
       /\ w_pipes w' = <[p := set_p_rcvmax (ep_rcvmax (w_ep w)) pp]> (w_pipes w)
       /\ p_rcvmax <$> (w_pipes w' !! p) = Some (ep_rcvmax (w_ep w))
       /\ ep_rcvmax (w_ep w') = ep_rcvmax (w_ep w)
       /\ ep_refcnt (w_ep w') = ep_refcnt (w_ep w)
       /\ ep_closed (w_ep w') = ep_closed (w_ep w)
       /\ ep_fini (w_ep w') = ep_fini (w_ep w)).
Proof.
  split; [apply ep_match_noop|].
  intros aio p rest pp Hu Hw Hp.
  eexists. split; [apply (ep_match_go w aio p rest pp Hu Hw Hp)|].
  cbn. rewrite lookup_insert_eq.
  destruct w as [e ps f]; destruct e; cbn in *.
  repeat split; reflexivity.
Qed.

(** ** Negotiation *)

Lemma pipe_reap_eq (w : tlstran_world) (p : nat) (pp : tlstran_pipe) :
  w_pipes w !! p = Some pp ->
  tlstran_pipe_reap p w =
    Some (tt, set_w_pipes (<[p := set_p_reaped true pp]> (w_pipes w)) w,
          reap_calls p pp).
Proof.
  intros Hp. unfold tlstran_pipe_reap, reap_calls. munfold. rewrite Hp. cbn.
  rewrite Hp. cbn.
  destruct (p_reaped pp); cbn; [reflexivity|].
  destruct (bool_decide (p_tls pp <> None)); reflexivity.
Qed.

Lemma nego_error_eq (w : tlstran_world) (p : nat) (pp : tlstran_pipe) (rv : nng_err) :
  w_pipes w !! p = Some pp ->
  nego_error p rv w =
    Some (tt,
          mk_world
            (set_ep_useraio None
               (set_ep_negopipes (nni_list_remove p (ep_negopipes (w_ep w))) (w_ep w)))
            (<[p := set_p_reaped true pp]> (w_pipes w))
            (w_ep_freed w),
          [c_nng_stream_close (p_tls pp)]
          ++ match ep_useraio (w_ep w) with
             | Some u => [c_nni_aio_finish_error (ua_id u) (nego_surfaced rv)]
             | None => []
             end
          ++ reap_calls p pp).
Proof.
  intros Hp. unfold nego_error, nego_surfaced.
  unfold modify_ep, get_ep, get_pipe, on_ep, bind, ret, get, modify, emit.
  destruct w as [e ps f]. cbn in *. rewrite Hp.
  destruct e as [? ? ? ? ? ? ? ? ua ? ? ? ? ?]; cbn.
  destruct ua as [u|]; cbn.
  - rewrite (pipe_reap_eq _ p pp) by exact Hp. reflexivity.
  - rewrite (pipe_reap_eq _ p pp) by exact Hp. reflexivity.
Qed.

Lemma nego_cb_aio_error (w : tlstran_world) (p : nat) (pp : tlstran_pipe) :
  w_pipes w !! p = Some pp ->
  p_ep pp = Some the_ep ->
  a_result (p_negoaio pp) <> NNG_OK ->
  tlstran_pipe_nego_cb p w = nego_error p (a_result (p_negoaio pp)) w.
Proof.
  intros Hp Hep Hrv. unfold tlstran_pipe_nego_cb.
  unfold get_pipe, bind, deref, ret. rewrite Hp, Hep.
  rewrite decide_True by exact Hrv.
  destruct (nego_error p (a_result (p_negoaio pp)) w) as [[[[] ?] ?]|]; reflexivity.
Qed.

Lemma nego_header_bad_valid (rxlen : list byte) :
  length rxlen = 8%nat ->
  nego_header_bad rxlen = false <-> nego_header_valid rxlen.
Proof.
  intros Hl.
  destruct rxlen as [|b0 [|b1 [|b2 [|b3 [|b4 [|b5 [|b6 [|b7 [|? ?]]]]]]]]];
    try discriminate.
  unfold nego_header_bad, nego_header_valid. cbn.
  rewrite !orb_false_iff, !bool_decide_eq_false.
  split.
  - intros (((((H0 & H1) & H2) & H3) & H6) & H7).
    repeat split; f_equal;
      match goal with |- ?x = ?y => destruct (decide (x = y)); tauto end.
  - intros (H0 & H1 & H2 & H3 & H6 & H7).
    injection H0 as ->. injection H1 as ->. injection H2 as ->.
    injection H3 as ->. injection H6 as ->. injection H7 as ->.
    repeat split; intros H; now apply H.
Qed.

Lemma nego_peer_word (rxlen : list byte) :
  length rxlen = 8%nat -> NNI_GET16 (drop 4 rxlen) = peer_word rxlen.
Proof.
  intros Hl.
  destruct rxlen as [|b0 [|b1 [|b2 [|b3 [|b4 [|b5 [|b6 [|b7 [|? ?]]]]]]]]];
    try discriminate.
  cbn [drop]. rewrite NNI_GET16_word. reflexivity.
Qed.

Lemma nego_count_rxlen (pp : tlstran_pipe) : p_rxlen (nego_count pp) = p_rxlen pp.
Proof. unfold nego_count. repeat case_decide; destruct pp; reflexivity. Qed.

Lemma nego_count_tls (pp : tlstran_pipe) : p_tls (nego_count pp) = p_tls pp.
Proof. unfold nego_count. repeat case_decide; destruct pp; reflexivity. Qed.

Lemma nego_count_reaped (pp : tlstran_pipe) : p_reaped (nego_count pp) = p_reaped pp.
Proof. unfold nego_count. repeat case_decide; destruct pp; reflexivity. Qed.

Lemma nego_count_ep (pp : tlstran_pipe) : p_ep (nego_count pp) = p_ep pp.
Proof. unfold nego_count. repeat case_decide; destruct pp; reflexivity. Qed.

Lemma reap_calls_nego_count (p : nat) (pp : tlstran_pipe) :
  reap_calls p (nego_count pp) = reap_calls p pp.
Proof.
  unfold reap_calls. now rewrite nego_count_reaped, nego_count_tls.
Qed.

#[local] Arguments nego_error : simpl never.
#[local] Arguments tlstran_ep_match : simpl never.
#[local] Arguments nego_count : simpl never.
#[local] Arguments nego_header_bad : simpl never.

Lemma nego_cb_bad_header (w : tlstran_world) (p : nat) (pp : tlstran_pipe) :
  w_pipes w !! p = Some pp ->
  p_ep pp = Some the_ep ->
  a_result (p_negoaio pp) = NNG_OK ->
  nego_headers_done pp ->
  nego_header_bad (p_rxlen pp) = true ->
  tlstran_pipe_nego_cb p w =
    Some (tt,
          mk_world
            (set_ep_useraio None
               (set_ep_negopipes (nni_list_remove p (ep_negopipes (w_ep w))) (w_ep w)))
            (<[p := set_p_reaped true (nego_count pp)]> (w_pipes w))
            (w_ep_freed w),
          [c_nng_stream_close (p_tls pp)]
          ++ match ep_useraio (w_ep w) with
             | Some u => [c_nni_aio_finish_error (ua_id u) NNG_EPROTO]
             | None => []
             end
          ++ reap_calls p pp).
Proof.
  intros Hp Hep Hrv [Htx Hrx] Hbad. unfold tlstran_pipe_nego_cb.
  unfold modify_pipe, on_pipe, get_pipe, bind, deref, ret, modify. rewrite Hp, Hep.
  rewrite decide_False by (rewrite Hrv; intros H; now apply H).
  cbn. rewrite Hp. cbn. rewrite lookup_insert_eq.
  rewrite decide_False by exact Htx. rewrite decide_False by exact Hrx.
  rewrite nego_count_rxlen, Hbad.
  erewrite nego_error_eq by (cbn; apply lookup_insert_eq).
  cbn. rewrite insert_insert_eq, nego_count_tls, reap_calls_nego_count.
  destruct w; reflexivity.
Qed.

Lemma nego_cb_good_header (w : tlstran_world) (p : nat) (pp : tlstran_pipe) :
  w_pipes w !! p = Some pp ->
  p_ep pp = Some the_ep ->
  a_result (p_negoaio pp) = NNG_OK ->
  nego_headers_done pp ->
  nego_header_bad (p_rxlen pp) = false ->
  tlstran_pipe_nego_cb p w =
    tlstran_ep_match
      (mk_world
         (set_ep_waitpipes (ep_waitpipes (w_ep w) ++ [p])
            (set_ep_negopipes (nni_list_remove p (ep_negopipes (w_ep w))) (w_ep w)))
         (<[p := set_p_peer (NNI_GET16 (drop 4 (p_rxlen pp))) (nego_count pp)]>
            (w_pipes w))
         (w_ep_freed w)).
Proof.
  intros Hp Hep Hrv [Htx Hrx] Hgood. unfold tlstran_pipe_nego_cb.
  unfold modify_ep, on_ep, modify_pipe, on_pipe, get_pipe, bind, deref, ret, modify.
  rewrite Hp, Hep.
  rewrite decide_False by (rewrite Hrv; intros H; now apply H).
  cbn. rewrite Hp. cbn. rewrite lookup_insert_eq.
  rewrite decide_False by exact Htx. rewrite decide_False by exact Hrx.
  rewrite nego_count_rxlen, Hgood.
  cbn. rewrite lookup_insert_eq. cbn. rewrite insert_insert_eq.
  destruct w as [e ps f]; destruct e; cbn.
  lazymatch goal with |- ?L = tlstran_ep_match ?q2 =>
    match L with context [tlstran_ep_match ?q1] => change q1 with q2 end end.
  match goal with |- context [tlstran_ep_match ?q] =>
    destruct (tlstran_ep_match q) as [[[[] ?] ?]|] end; reflexivity.
Qed.

(** ** Lists of pipes *)

Lemma nni_list_remove_subset (p x : nat) (l : list nat) :
  x ∈ nni_list_remove p l -> x ∈ l.
Proof.
  induction l as [|q l IH]; cbn; [auto|].
  case_decide; rewrite !elem_of_cons; intuition.
Qed.

Lemma nni_list_remove_notin (p : nat) (l : list nat) :
  NoDup l -> p ∉ nni_list_remove p l.
Proof.
  induction 1 as [|q l Hq Hnd IH]; cbn; [apply not_elem_of_nil|].
  case_decide as Hd; [subst; exact Hq|].
  rewrite elem_of_cons. intros [->|H]; [now apply Hd | now apply IH].
Qed.

Lemma nni_list_remove_keeps (p x : nat) (l : list nat) :
  x <> p -> x ∈ l -> x ∈ nni_list_remove p l.
Proof.
  intros Hne. induction l as [|q l IH]; cbn; [auto|].
  rewrite elem_of_cons. intros [->|H].
  - rewrite decide_False by exact Hne. left.
  - case_decide; [exact H|]. right. now apply IH.
Qed.

Lemma nni_list_remove_NoDup (p : nat) (l : list nat) :
  NoDup l -> NoDup (nni_list_remove p l).
Proof.
  induction 1 as [|q l Hq Hnd IH]; cbn; [constructor|].
  case_decide; [exact Hnd|].
  constructor; [|exact IH].
  intros H'. apply Hq. eapply nni_list_remove_subset, H'.
Qed.

Lemma nni_list_remove_id (p : nat) (l : list nat) :
  p ∉ l -> nni_list_remove p l = l.
Proof.
  induction l as [|q l IH]; cbn; [auto|].
  rewrite not_elem_of_cons. intros [Hne Hl].
  rewrite decide_False by congruence. now rewrite IH.
Qed.

Lemma wf_nego_only (w : tlstran_world) (p : nat) :
  world_wf w -> p ∈ ep_negopipes (w_ep w) ->
  NoDup (ep_negopipes (w_ep w))
  /\ (p ∉ ep_waitpipes (w_ep w)) /\ (p ∉ ep_busypipes (w_ep w)).
Proof.
  intros Hwf Hin. pose proof (wf_nodup w Hwf) as Hnd.
  unfold ep_all_pipes in Hnd.
  apply NoDup_app in Hnd as (Hn & Hdisj & Hrest).
  split; [exact Hn|].
  specialize (Hdisj p Hin). rewrite elem_of_app in Hdisj. tauto.
Qed.

(** C1: for a pipe that has both sent and received the eight header
    bytes, the negotiation callback succeeds if and only if the bytes
    received at positions 0, 1, 2, 3, 6 and 7 are 00 'S' 'P' 00 00 00;
    on success the pipe's peer id is the big-endian word at positions
    4 and 5 and nothing is reported as an error; on a mismatch the
    negotiation fails with protocol-error. *)
Theorem nego_cb_checks_header (w : tlstran_world) (p : nat) (pp : tlstran_pipe) :
  world_wf w ->
  w_pipes w !! p = Some pp ->
  p ∈ ep_negopipes (w_ep w) ->
  length (p_rxlen pp) = 8%nat ->
  a_result (p_negoaio pp) = NNG_OK ->
  nego_headers_done pp ->
  exists w' t,
    tlstran_pipe_nego_cb p w = Some (tt, w', t)
    /\ (nego_header_valid (p_rxlen pp) <-> nego_succeeded p w')
    /\ (nego_header_valid (p_rxlen pp) ->
        p_peer <$> (w_pipes w' !! p) = Some (peer_word (p_rxlen pp))
        /\ Forall (fun c => is_error_completion c = false) t
        /\ c_nni_reap_pipe p ∉ t)
    /\ (~ nego_header_valid (p_rxlen pp) -> nego_failed p NNG_EPROTO w w' t).
Proof.
  intros Hwf Hp Hin Hlen Hrv Hdone.
  pose proof (wf_backref w Hwf p pp Hp) as Hep.
  destruct (wf_nego_only w p Hwf Hin) as (Hnd & Hnw & Hnb).
  pose proof (nego_header_bad_valid (p_rxlen pp) Hlen) as Hbv.
  destruct (nego_header_bad (p_rxlen pp)) eqn:Hbad.
  - (* mismatch *)
    assert (Hinv : ~ nego_header_valid (p_rxlen pp)).
    { intros Hv. apply Hbv in Hv. discriminate. }
    rewrite (nego_cb_bad_header w p pp Hp Hep Hrv Hdone Hbad).
    eexists _, _. split; [reflexivity|].
    assert (Hfail : nego_failed p NNG_EPROTO w
              (mk_world
                 (set_ep_useraio None
                    (set_ep_negopipes (nni_list_remove p (ep_negopipes (w_ep w)))
                       (w_ep w)))
                 (<[p := set_p_reaped true (nego_count pp)]> (w_pipes w))
                 (w_ep_freed w))
              ([c_nng_stream_close (p_tls pp)]
               ++ match ep_useraio (w_ep w) with
                  | Some u => [c_nni_aio_finish_error (ua_id u) NNG_EPROTO]
                  | None => []
                  end
               ++ reap_calls p pp)).
    { unfold nego_failed. split; [|split; [|split; [|split]]].
      - unfold ep_all_pipes. destruct w as [e ps f]; destruct e; cbn in *.
        rewrite !elem_of_app. intros [H|[H|H]]; [|tauto|tauto].
        now apply (nni_list_remove_notin p _ Hnd).
      - exists (p_tls pp). apply elem_of_app. left. left.
      - intros pp0 Hp0 Hr. rewrite Hp in Hp0. injection Hp0 as <-.
        rewrite !elem_of_app. right. right.
        unfold reap_calls. rewrite Hr. apply elem_of_app. right. left.
      - destruct w as [e ps f]; destruct e; reflexivity.
      - intros u Hu. rewrite Hu. rewrite !elem_of_app. right. left. left. }
    split; [|split; [tauto | intros _; exact Hfail]].
    split; [tauto|].
    intros [_ Hs]. exfalso. destruct Hfail as (Hno & _).
    apply Hno. unfold ep_all_pipes. rewrite !elem_of_app. tauto.
  - (* the header is the expected one *)
    assert (Hv : nego_header_valid (p_rxlen pp)) by (now apply Hbv).
    rewrite (nego_cb_good_header w p pp Hp Hep Hrv Hdone Hbad).
    rewrite (nego_peer_word _ Hlen).
    set (pp1 := set_p_peer (peer_word (p_rxlen pp)) (nego_count pp)).
    set (w1 := mk_world _ _ _).
    assert (Hnot : p ∉ nni_list_remove p (ep_negopipes (w_ep w)))
      by (now apply nni_list_remove_notin).
    destruct (ep_useraio (w_ep w)) as [u|] eqn:Hu.
    + (* a user aio is posted: the oldest waiting pipe is matched *)
      destruct (ep_waitpipes (w_ep w)) as [|q rest] eqn:Hw.
      * (* the pipe itself is the oldest *)
        rewrite (ep_match_go w1 u p [] pp1); cycle 1.
        { unfold w1. destruct w as [e ps f]; destruct e; cbn in *. exact Hu. }
        { unfold w1. destruct w as [e ps f]; destruct e; cbn in *.
          reflexivity. }
        { unfold w1. cbn. apply lookup_insert_eq. }
        eexists _, _. split; [reflexivity|].
        split; [|split; [intros _|tauto]].
        -- split; [intros _|intros _; exact Hv].
           unfold nego_succeeded, w1.
           destruct w as [e ps f]; destruct e; cbn in *.
           split; [exact Hnot|]. right. apply elem_of_app. right. left.
        -- split; [|split].
           ++ unfold w1. cbn. rewrite lookup_insert_eq. unfold pp1.
              cbn. destruct (nego_count pp); reflexivity.
           ++ repeat constructor.
           ++ rewrite !elem_of_cons. intros [H|[H|H]]; try discriminate.
              inversion H.
      * (* an older pipe is waiting *)
        assert (Hq : q ∈ ep_all_pipes (w_ep w)).
        { unfold ep_all_pipes. rewrite ?Hw, !elem_of_app. right. left. left. }
        destruct (wf_live w Hwf q Hq) as [pq Hpq].
        assert (Hqp : q <> p).
        { intros ->. apply Hnw. rewrite ?Hw. left. }
        rewrite (ep_match_go w1 u q (rest ++ [p]) pq); cycle 1.
        { unfold w1. destruct w as [e ps f]; destruct e; cbn in *. exact Hu. }
        { unfold w1. destruct w as [e ps f]; destruct e; cbn in *.
          reflexivity. }
        { unfold w1. cbn. rewrite lookup_insert_ne by congruence. exact Hpq. }
        eexists _, _. split; [reflexivity|].
        split; [|split; [intros _|tauto]].
        -- split; [intros _|intros _; exact Hv].
           unfold nego_succeeded, w1.
           destruct w as [e ps f]; destruct e; cbn in *.
           split; [exact Hnot|]. left. apply elem_of_app. right. left.
        -- split; [|split].
           ++ unfold w1. cbn. rewrite lookup_insert_ne by exact Hqp.
              rewrite lookup_insert_eq. unfold pp1.
              cbn. destruct (nego_count pp); reflexivity.
           ++ repeat constructor.
           ++ rewrite !elem_of_cons. intros [H|[H|H]]; try discriminate.
              inversion H.
    + (* nobody is waiting for a pipe: it stays on the waiting list *)
      rewrite (ep_match_noop w1); cycle 1.
      { left. unfold w1. destruct w as [e ps f]; destruct e; cbn in *. exact Hu. }
      eexists _, _. split; [reflexivity|].
      split; [|split; [intros _|tauto]].
      * split; [intros _|intros _; exact Hv].
        unfold nego_succeeded, w1.
        destruct w as [e ps f]; destruct e; cbn in *.
        split; [exact Hnot|]. left. apply elem_of_app. right. left.
      * split; [|split].
        -- unfold w1. cbn. rewrite lookup_insert_eq. unfold pp1.
           cbn. destruct (nego_count pp); reflexivity.
        -- constructor.
        -- apply not_elem_of_nil.
Qed.
(** ** Pipe life cycle *)

Lemma pipe_fini_eq (w : tlstran_world) (p : nat) (pp : tlstran_pipe) :
  w_pipes w !! p = Some pp ->
  tlstran_pipe_fini p w =
    Some (tt,
          mk_world
            (match p_ep pp with
             | Some _ =>
                 set_ep_refcnt (ep_refcnt (w_ep w) - 1)
                   (nni_list_node_remove p (w_ep w))
             | None => w_ep w
             end)
            (delete p (w_pipes w))
            (w_ep_freed w),
          map (c_on_pipe p)
            [c_nni_aio_stop RXAIO; c_nni_aio_stop TXAIO; c_nni_aio_stop NEGOAIO]
          ++ match p_ep pp with
             | Some _ =>
                 if ep_fini (w_ep w) && bool_decide (ep_refcnt (w_ep w) - 1 = 0)
                 then [c_nni_reap_ep] else []
             | None => []
             end
          ++ map (c_on_pipe p)
               [c_nng_stream_free (p_tls pp); c_nni_aio_free RXAIO;
                c_nni_aio_free TXAIO; c_nni_aio_free NEGOAIO;
                c_nni_msg_free (p_rxmsg pp); c_free_pipe]).
Proof.
  intros Hp. unfold tlstran_pipe_fini, tlstran_pipe_stop.
  unfold modify_ep, get_ep, get_pipe, on_ep, on_pipe, bind, ret, get, modify, emit.
  destruct w as [e ps f]; cbn in *.
  rewrite Hp. cbn. rewrite (insert_id ps p pp Hp). rewrite Hp. cbn.
  destruct (p_ep pp) as [[]|]; cbn.
  - destruct (ep_fini e && bool_decide (ep_refcnt e - 1 = 0)); cbn;
      rewrite Hp; cbn; rewrite (insert_id ps p pp Hp); reflexivity.
  - rewrite Hp. cbn. rewrite (insert_id ps p pp Hp). reflexivity.
Qed.

Lemma pipe_alloc_no_memory (env : alloc_env) (w : tlstran_world) :
  new_struct env = None ->
  tlstran_pipe_alloc env w = Some ((NNG_ENOMEM, None), w, []).
Proof. intros H. unfold tlstran_pipe_alloc. now rewrite H. Qed.

Lemma pipe_alloc_aio_failure (env : alloc_env) (w : tlstran_world) (p : nat) :
  new_struct env = Some p ->
  new_aio_rv env <> NNG_OK ->
  w_pipes w !! p = None ->
  tlstran_pipe_alloc env w =
    Some ((new_aio_rv env, None), w, fini_unstarted_calls p).
Proof.
  intros Hs Hrv Hfresh. unfold tlstran_pipe_alloc. rewrite Hs.
  rewrite decide_True by exact Hrv.
  unfold bind, modify, ret.
  erewrite (pipe_fini_eq _ p pipe_zero) by (cbn; apply lookup_insert_eq).
  cbn. rewrite delete_insert_eq, (delete_id _ _ Hfresh).
  destruct w; reflexivity.
Qed.

Lemma pipe_alloc_ok (env : alloc_env) (w : tlstran_world) (p : nat) :
  new_struct env = Some p ->
  new_aio_rv env = NNG_OK ->
  tlstran_pipe_alloc env w =
    Some ((NNG_OK, Some p), set_w_pipes (<[p := pipe_zero]> (w_pipes w)) w, []).
Proof.
  intros Hs Hrv. unfold tlstran_pipe_alloc. rewrite Hs.
  rewrite decide_False by (rewrite Hrv; intros H; now apply H).
  unfold on_pipe, bind, modify, ret. cbn.
  rewrite lookup_insert_eq. cbn. rewrite insert_insert_eq. reflexivity.
Qed.

Lemma pipe_start_eq (w : tlstran_world) (p : nat) (pp : tlstran_pipe)
  (conn : option nat) :
  w_pipes w !! p = Some pp ->
  tlstran_pipe_start p conn w =
    Some (tt,
          mk_world
            (set_ep_negopipes (ep_negopipes (w_ep w) ++ [p])
               (set_ep_refcnt (ep_refcnt (w_ep w) + 1) (w_ep w)))
            (<[p := pipe_started conn (ep_proto (w_ep w)) pp]> (w_pipes w))
            (w_ep_freed w),
          [c_on_pipe p (c_nng_stream_send conn NEGOAIO [mk_iov buf_txlen 0 8])]).
Proof.
  intros Hp. unfold tlstran_pipe_start, pipe_started.
  unfold modify_ep, get_ep, on_ep, on_pipe, bind, ret, get, modify, emit.
  destruct w as [e ps f]; cbn in *. rewrite Hp. cbn.
  rewrite lookup_insert_eq. cbn. rewrite insert_insert_eq.
  cbv [set_p_negoaio set_p_wanttxhead set_p_wantrxhead set_p_gottxhead
       set_p_gotrxhead set_p_txlen set_p_proto set_p_ep set_p_tls
       p_tls p_npipe p_peer p_proto p_rcvmax p_sendq p_recvq p_ep p_reaped
       p_txlen p_rxlen p_gottxhead p_gotrxhead p_wanttxhead p_wantrxhead
       p_txaio p_rxaio p_negoaio p_rxmsg
       set_ep_negopipes set_ep_refcnt nni_list_append
       nni_aio_set_timeout nni_aio_set_iov a_result a_count a_iov a_output a_timeout
       ep_proto ep_rcvmax ep_started ep_closed ep_fini ep_refcnt ep_dialer
       ep_listener ep_useraio ep_connaio ep_timeaio ep_busypipes ep_waitpipes
       ep_negopipes app].
  destruct e, pp; reflexivity.
Qed.

Lemma accept_error_eq (rv : nng_err) (w : tlstran_world) :
  accept_error rv w =
    Some (tt, set_w_ep (set_ep_useraio None (w_ep w)) w,
          accept_error_calls rv (w_ep w)).
Proof.
  unfold accept_error, accept_error_calls.
  unfold modify_ep, get_ep, on_ep, bind, ret, get, modify, emit.
  destruct w as [e ps f]; cbn.
  destruct e as [? ? ? cl ? ? ? ? ua ? ? ? ? ?]; cbn.
  destruct ua as [u|]; cbn; destruct rv; cbn; try reflexivity;
    destruct cl; reflexivity.
Qed.

Lemma dial_error_eq (rv : nng_err) (w : tlstran_world) :
  dial_error rv w =
    Some (tt, set_w_ep (set_ep_useraio None (w_ep w)) w,
          match ep_useraio (w_ep w) with
          | Some aio => [c_nni_aio_finish_error (ua_id aio) rv]
          | None => []
          end).
Proof.
  unfold dial_error.
  unfold modify_ep, get_ep, on_ep, bind, ret, get, modify, emit.
  destruct w as [e ps f]; cbn.
  destruct e as [? ? ? cl ? ? ? ? ua ? ? ? ? ?]; cbn.
  destruct ua as [u|]; reflexivity.
Qed.

(** ** The structural invariant *)

Lemma nni_list_remove_perm (p : nat) (l : list nat) :
  p ∈ l -> l ≡ₚ p :: nni_list_remove p l.
Proof.
  induction l as [|q l IH]; [intros H; inversion H|].
  cbn. case_decide as Hd; [subst; reflexivity|].
  rewrite elem_of_cons. intros [->|H]; [congruence|].
  rewrite (IH H) at 1. apply Permutation_swap.
Qed.

Lemma wf_perm (w : tlstran_world) (e' : tlstran_ep) (ps' : gmap nat tlstran_pipe) :
  world_wf w ->
  w_ep_freed w = false ->
  ep_all_pipes e' ≡ₚ ep_all_pipes (w_ep w) ->
  (forall p, is_Some (w_pipes w !! p) -> is_Some (ps' !! p)) ->
  (forall p pp, ps' !! p = Some pp -> p_ep pp = Some the_ep) ->
  ep_refcnt e' = Z.of_nat (size ps') ->
  (ep_closed e' = true -> ep_useraio e' = None) ->
  world_wf (mk_world e' ps' false).
Proof.
  intros Hwf Hfr Hperm Hlive Hback Hcnt Hcl.
  constructor; cbn.
  - rewrite Hperm. apply (wf_nodup w Hwf).
  - intros p Hin. rewrite Hperm in Hin. apply Hlive, (wf_live w Hwf p Hin).
  - exact Hback.
  - exact Hcnt.
  - exact Hcl.
  - discriminate.
Qed.

(** Changes confined to the fields of the endpoint that are neither a
    list nor the reference count. *)
Lemma wf_ep_fields (w : tlstran_world) (e' : tlstran_ep) :
  world_wf w ->
  w_ep_freed w = false ->
  ep_negopipes e' = ep_negopipes (w_ep w) ->
  ep_waitpipes e' = ep_waitpipes (w_ep w) ->
  ep_busypipes e' = ep_busypipes (w_ep w) ->
  ep_refcnt e' = ep_refcnt (w_ep w) ->
  (ep_closed e' = true -> ep_useraio e' = None) ->
  world_wf (mk_world e' (w_pipes w) false).
Proof.
  intros Hwf Hfr Hn Hw Hb Hrc Hcl.
  apply (wf_perm w); auto.
  - unfold ep_all_pipes. now rewrite Hn, Hw, Hb.
  - apply (wf_backref w Hwf).
  - rewrite Hrc. apply (wf_refcnt w Hwf).
Qed.

Lemma world_eta (w : tlstran_world) :
  w_ep_freed w = false -> w = mk_world (w_ep w) (w_pipes w) false.
Proof. destruct w; cbn; intros ->; reflexivity. Qed.

Lemma wf_pipe_update (w : tlstran_world) (p : nat) (pp pp' : tlstran_pipe) :
  world_wf w ->
  w_ep_freed w = false ->
  w_pipes w !! p = Some pp ->
  p_ep pp' = Some the_ep ->
  world_wf (mk_world (w_ep w) (<[p := pp']> (w_pipes w)) false).
Proof.
  intros Hwf Hfr Hp Hep.
  apply (wf_perm w); auto.
  - intros q [x Hq]. destruct (decide (p = q)) as [->|Hne].
    + rewrite lookup_insert_eq. eauto.
    + rewrite lookup_insert_ne by exact Hne. eauto.
  - intros q x. destruct (decide (p = q)) as [->|Hne].
    + rewrite lookup_insert_eq. intros [= <-]. exact Hep.
    + rewrite lookup_insert_ne by exact Hne. apply (wf_backref w Hwf).
  - rewrite map_size_insert_Some by eauto. apply (wf_refcnt w Hwf).
  - apply (wf_closed w Hwf).
Qed.

Lemma ep_match_wf (w w' : tlstran_world) (t : list call) :
  world_wf w -> w_ep_freed w = false ->
  tlstran_ep_match w = Some (tt, w', t) ->
  world_wf w' /\ w_ep_freed w' = false.
Proof.
  intros Hwf Hfr Hrun.
  destruct (ep_useraio (w_ep w)) as [u|] eqn:Hu.
  2:{ rewrite ep_match_noop in Hrun by auto. injection Hrun as <- <-. auto. }
  destruct (ep_waitpipes (w_ep w)) as [|p rest] eqn:Hw.
  { rewrite ep_match_noop in Hrun by auto. injection Hrun as <- <-. auto. }
  assert (Hin : p ∈ ep_all_pipes (w_ep w)).
  { unfold ep_all_pipes. rewrite Hw, !elem_of_app. right. left. left. }
  destruct (wf_live w Hwf p Hin) as [pp Hp].
  rewrite (ep_match_go w u p rest pp Hu Hw Hp) in Hrun.
  injection Hrun as <- <-. rewrite Hfr. split; [|reflexivity].
  pose proof (wf_pipe_update w p pp (set_p_rcvmax (ep_rcvmax (w_ep w)) pp)
                Hwf Hfr Hp) as Hwf1.
  specialize (Hwf1 ltac:(rewrite <- (wf_backref w Hwf p pp Hp); destruct pp; reflexivity)).
  apply (wf_perm _ _ _ Hwf1); cbn; auto.
  - unfold ep_all_pipes. destruct (w_ep w); cbn in *. subst.
    apply Permutation_app; [reflexivity|].
    rewrite app_assoc. rewrite <- Permutation_cons_append. reflexivity.
  - apply (wf_backref _ Hwf1).
  - pose proof (wf_refcnt _ Hwf1) as Hrc. cbn in Hrc. rewrite <- Hrc.
    destruct (w_ep w); reflexivity.
Qed.

(** ** Posting a connect or an accept *)

Lemma ep_connect_busy (aio u : user_aio) (w : tlstran_world) :
  nni_aio_begin aio = NNG_OK ->
  ep_closed (w_ep w) = false ->
  ep_useraio (w_ep w) = Some u ->
  tlstran_ep_connect aio w =
    Some (tt, w, [c_nni_aio_finish_error (ua_id aio) NNG_EBUSY]).
Proof.
  intros Hb Hc Hu. unfold tlstran_ep_connect.
  rewrite decide_False by (rewrite Hb; intros H; now apply H).
  unfold get_ep, bind, emit. rewrite Hc, Hu. reflexivity.
Qed.

Lemma ep_accept_busy (aio u : user_aio) (w : tlstran_world) :
  nni_aio_begin aio = NNG_OK ->
  ep_closed (w_ep w) = false ->
  ep_useraio (w_ep w) = Some u ->
  tlstran_ep_accept aio w =
    Some (tt, w, [c_nni_aio_finish_error (ua_id aio) NNG_EBUSY]).
Proof.
  intros Hb Hc Hu. unfold tlstran_ep_accept.
  rewrite decide_False by (rewrite Hb; intros H; now apply H).
  unfold get_ep, bind, emit. rewrite Hc, Hu. reflexivity.
Qed.

Lemma ep_connect_not_begun (aio : user_aio) (w : tlstran_world) :
  nni_aio_begin aio <> NNG_OK -> tlstran_ep_connect aio w = Some (tt, w, []).
Proof. intros Hb. unfold tlstran_ep_connect. now rewrite decide_True. Qed.

Lemma ep_accept_not_begun (aio : user_aio) (w : tlstran_world) :
  nni_aio_begin aio <> NNG_OK -> tlstran_ep_accept aio w = Some (tt, w, []).
Proof. intros Hb. unfold tlstran_ep_accept. now rewrite decide_True. Qed.

Lemma ep_connect_effect (aio : user_aio) (w w' : tlstran_world) (t : list call) :
  tlstran_ep_connect aio w = Some (tt, w', t) ->
  w' = w \/
  (ep_closed (w_ep w) = false /\
   w' = set_w_ep (set_ep_useraio (Some aio) (w_ep w)) w).
Proof.
  unfold tlstran_ep_connect.
  unfold modify_ep, get_ep, on_ep, bind, ret, modify, emit.
  case_decide; [intros [= <- <-]; auto|].
  destruct (ep_closed (w_ep w)) eqn:Hc; [intros [= <- <-]; auto|].
  destruct (bool_decide (ep_useraio (w_ep w) <> None)); [intros [= <- <-]; auto|].
  case_decide; [intros [= <- <-]; auto|].
  cbn. intros [= <- <-]. right. auto.
Qed.

Lemma ep_accept_effect (aio : user_aio) (w w' : tlstran_world) (t : list call) :
  tlstran_ep_accept aio w = Some (tt, w', t) ->
  w' = w \/
  (ep_closed (w_ep w) = false /\
   (w' = set_w_ep (set_ep_started true (set_ep_useraio (Some aio) (w_ep w))) w
    \/ exists t',
         tlstran_ep_match (set_w_ep (set_ep_useraio (Some aio) (w_ep w)) w)
           = Some (tt, w', t'))).
Proof.
  unfold tlstran_ep_accept.
  unfold modify_ep, get_ep, on_ep, bind, ret, modify, emit.
  case_decide; [intros [= <- <-]; auto|].
  destruct (ep_closed (w_ep w)) eqn:Hc; [intros [= <- <-]; auto|].
  destruct (bool_decide (ep_useraio (w_ep w) <> None)); [intros [= <- <-]; auto|].
  case_decide; [intros [= <- <-]; auto|].
  cbn. destruct (ep_started (w_ep w)); cbn.
  - destruct (tlstran_ep_match _) as [[[[] w1] t1]|] eqn:Hm; [|discriminate].
    intros [= <- <-]. right. split; [reflexivity|]. right. eauto.
  - intros [= <- <-]. right. auto.
Qed.

Lemma ep_cancel_effect (aio : user_aio) (rv : nng_err) (w w' : tlstran_world)
  (t : list call) :
  tlstran_ep_cancel aio rv w = Some (tt, w', t) ->
  w' = w \/ w' = set_w_ep (set_ep_useraio None (w_ep w)) w.
Proof.
  unfold tlstran_ep_cancel.
  unfold modify_ep, get_ep, on_ep, bind, ret, modify, emit.
  destruct (ep_useraio (w_ep w)) as [u|]; [|intros [= <- <-]; auto].
  case_decide; cbn; intros [= <- <-]; auto.
Qed.

Lemma wf_set_useraio (w : tlstran_world) (o : option user_aio) :
  world_wf w -> w_ep_freed w = false ->
  (ep_closed (w_ep w) = true -> o = None) ->
  world_wf (set_w_ep (set_ep_useraio o (w_ep w)) w).
Proof.
  intros Hwf Hfr Hc. unfold set_w_ep. rewrite Hfr.
  apply (wf_ep_fields w); auto; destruct (w_ep w); auto.
Qed.

(** ** Closing and releasing the endpoint *)

Lemma on_pipe_close (w : tlstran_world) (p : nat) (pp : tlstran_pipe) :
  w_pipes w !! p = Some pp ->
  on_pipe p tlstran_pipe_close w =
    Some (tt, w,
          map (c_on_pipe p)
            [c_nni_aio_close RXAIO; c_nni_aio_close TXAIO;
             c_nni_aio_close NEGOAIO; c_nng_stream_close (p_tls pp)]).
Proof.
  intros Hp. unfold on_pipe, tlstran_pipe_close, bind, emit, get.
  rewrite Hp. cbn. rewrite (insert_id _ _ _ Hp). destruct w; reflexivity.
Qed.

Lemma foreach_close (l : list nat) (w : tlstran_world) :
  (forall p, p ∈ l -> is_Some (w_pipes w !! p)) ->
  exists t,
    NNI_LIST_FOREACH l (fun p => on_pipe p tlstran_pipe_close) w = Some (tt, w, t).
Proof.
  induction l as [|p l IH]; intros Hlive.
  - exists []. reflexivity.
  - destruct (Hlive p ltac:(left)) as [pp Hp].
    destruct IH as [t Ht]; [intros q Hq; apply Hlive; now right|].
    cbn [NNI_LIST_FOREACH]. unfold bind at 1.
    rewrite (on_pipe_close w p pp Hp), Ht. eauto.
Qed.

Lemma ep_close_eq (w : tlstran_world) :
  (forall p, p ∈ ep_all_pipes (w_ep w) -> is_Some (w_pipes w !! p)) ->
  exists t,
    tlstran_ep_close w =
      Some (tt, set_w_ep (set_ep_useraio None (set_ep_closed true (w_ep w))) w, t).
Proof.
  intros Hlive. unfold tlstran_ep_close.
  set (w1 := set_w_ep (set_ep_closed true (w_ep w)) w).
  assert (Hl1 : forall l : list nat,
                (forall p, p ∈ l -> p ∈ ep_all_pipes (w_ep w)) ->
                forall p, p ∈ l -> is_Some (w_pipes w1 !! p)).
  { intros l Hsub p Hp. unfold w1. destruct w; cbn in *. auto. }
  destruct (foreach_close (ep_negopipes (w_ep w)) w1) as [t1 H1].
  { apply Hl1. intros p Hp. unfold ep_all_pipes. rewrite !elem_of_app. auto. }
  destruct (foreach_close (ep_waitpipes (w_ep w)) w1) as [t2 H2].
  { apply Hl1. intros p Hp. unfold ep_all_pipes. rewrite !elem_of_app. auto. }
  destruct (foreach_close (ep_busypipes (w_ep w)) w1) as [t3 H3].
  { apply Hl1. intros p Hp. unfold ep_all_pipes. rewrite !elem_of_app. auto. }
  unfold modify_ep, get_ep, on_ep, bind, ret, modify, emit.
  change (set_w_ep (set_ep_closed true (w_ep w)) w) with w1.
  assert (He : w_ep w1 = set_ep_closed true (w_ep w)) by (destruct w; reflexivity).
  rewrite He.
  replace (ep_negopipes (set_ep_closed true (w_ep w))) with (ep_negopipes (w_ep w))
    by (destruct (w_ep w); reflexivity).
  replace (ep_waitpipes (set_ep_closed true (w_ep w))) with (ep_waitpipes (w_ep w))
    by (destruct (w_ep w); reflexivity).
  replace (ep_busypipes (set_ep_closed true (w_ep w))) with (ep_busypipes (w_ep w))
    by (destruct (w_ep w); reflexivity).
  replace (ep_useraio (set_ep_closed true (w_ep w))) with (ep_useraio (w_ep w))
    by (destruct (w_ep w); reflexivity).
  destruct (ep_dialer (set_ep_closed true (w_ep w)));
    destruct (ep_listener (set_ep_closed true (w_ep w)));
    rewrite H1, H2, H3;
    destruct (ep_useraio (w_ep w)) as [u|] eqn:Hu.
  all: eexists;
    unfold w1; destruct w as [e ps f]; destruct e; cbn in *; subst; reflexivity.
Qed.

Lemma ep_fini_eq (w : tlstran_world) :
  tlstran_ep_fini w =
    Some (tt,
          (if decide (ep_refcnt (w_ep w) <> 0)
           then set_w_ep (set_ep_fini true (w_ep w)) w
           else set_w_ep_freed true (set_w_ep (set_ep_fini true (w_ep w)) w)),
          if decide (ep_refcnt (w_ep w) <> 0) then [] else ep_teardown_calls).
Proof.
  unfold tlstran_ep_fini.
  unfold modify_ep, get_ep, on_ep, bind, ret, modify, emit.
  destruct w as [e ps f]; destruct e as [? ? ? ? ? rc ? ? ? ? ? ? ? ?]; cbn.
  destruct (decide (rc <> 0)); reflexivity.
Qed.

Lemma timer_cb_eq (w : tlstran_world) :
  tlstran_timer_cb w =
    Some (tt, w,
          if decide (a_result (ep_timeaio (w_ep w)) = NNG_OK)
          then [c_nng_stream_listener_accept CONNAIO] else []).
Proof.
  unfold tlstran_timer_cb, get_ep, bind, ret, emit.
  destruct (decide (a_result (ep_timeaio (w_ep w)) = NNG_OK)); reflexivity.
Qed.

(** ** Accepting and dialing *)

#[local] Arguments accept_error : simpl never.
#[local] Arguments dial_error : simpl never.
#[local] Arguments tlstran_pipe_alloc : simpl never.
#[local] Arguments tlstran_pipe_fini : simpl never.
#[local] Arguments tlstran_pipe_start : simpl never.

Lemma accept_cb_aio_error (env : alloc_env) (w : tlstran_world) :
  a_result (ep_connaio (w_ep w)) <> NNG_OK ->
  tlstran_accept_cb env w =
    Some (tt, set_w_ep (set_ep_useraio None (w_ep w)) w,
          accept_error_calls (a_result (ep_connaio (w_ep w))) (w_ep w)).
Proof.
  intros Hrv. unfold tlstran_accept_cb, get_ep, bind.
  rewrite decide_True by exact Hrv. now rewrite accept_error_eq.
Qed.

Lemma accept_cb_alloc_error (env : alloc_env) (w : tlstran_world) :
  a_result (ep_connaio (w_ep w)) = NNG_OK ->
  (forall p, new_struct env = Some p -> w_pipes w !! p = None) ->
  new_struct env = None \/ new_aio_rv env <> NNG_OK ->
  exists t rv,
    tlstran_accept_cb env w =
      Some (tt, set_w_ep (set_ep_useraio None (w_ep w)) w,
            t ++ [c_nng_stream_free (a_output (ep_connaio (w_ep w)))]
              ++ accept_error_calls rv (w_ep w))
    /\ rv <> NNG_OK
    /\ (new_struct env = None -> rv = NNG_ENOMEM /\ t = [])
    /\ (forall p, new_struct env = Some p ->
                  rv = new_aio_rv env /\ t = fini_unstarted_calls p).
Proof.
  intros Hrv Hfresh Hfail. unfold tlstran_accept_cb, get_ep, bind.
  rewrite decide_False by (rewrite Hrv; intros H; now apply H).
  destruct (new_struct env) as [p|] eqn:Hs.
  - destruct Hfail as [|Ha]; [discriminate|].
    rewrite (pipe_alloc_aio_failure env w p Hs Ha (Hfresh p eq_refl)).
    cbn [fst snd]. rewrite decide_True by exact Ha.
    unfold emit. rewrite accept_error_eq.
    exists (fini_unstarted_calls p), (new_aio_rv env).
    split; [reflexivity|]. split; [exact Ha|].
    split; [discriminate|]. intros ? [= <-]. auto.
  - rewrite (pipe_alloc_no_memory env w Hs).
    cbn [fst snd]. rewrite decide_True by discriminate.
    unfold emit. rewrite accept_error_eq.
    exists [], NNG_ENOMEM.
    split; [reflexivity|]. split; [discriminate|].
    split; [auto|discriminate].
Qed.

Lemma fini_fresh_pipe (w : tlstran_world) (p : nat) :
  w_pipes w !! p = None ->
  tlstran_pipe_fini p (set_w_pipes (<[p := pipe_zero]> (w_pipes w)) w) =
    Some (tt, w, fini_unstarted_calls p).
Proof.
  intros Hfresh.
  erewrite (pipe_fini_eq _ p pipe_zero) by (cbn; apply lookup_insert_eq).
  cbn. rewrite delete_insert_eq, (delete_id _ _ Hfresh).
  destruct w; reflexivity.
Qed.

Lemma accept_cb_closed (env : alloc_env) (w : tlstran_world) (p : nat) :
  a_result (ep_connaio (w_ep w)) = NNG_OK ->
  new_struct env = Some p -> new_aio_rv env = NNG_OK ->
  w_pipes w !! p = None ->
  ep_closed (w_ep w) = true ->
  tlstran_accept_cb env w =
    Some (tt, set_w_ep (set_ep_useraio None (w_ep w)) w,
          fini_unstarted_calls p
          ++ [c_nng_stream_free (a_output (ep_connaio (w_ep w)))]
          ++ accept_error_calls NNG_ECLOSED (w_ep w)).
Proof.
  intros Hrv Hs Ha Hfresh Hc. unfold tlstran_accept_cb, get_ep, bind.
  rewrite decide_False by (rewrite Hrv; intros H; now apply H).
  rewrite (pipe_alloc_ok env w p Hs Ha).
  cbn [fst snd]. rewrite decide_False by (intros H; now apply H).
  unfold deref, ret. rewrite Hc.
  rewrite (fini_fresh_pipe w p Hfresh).
  unfold emit. rewrite accept_error_eq. reflexivity.
Qed.

Lemma accept_cb_started (env : alloc_env) (w : tlstran_world) (p : nat) :
  a_result (ep_connaio (w_ep w)) = NNG_OK ->
  new_struct env = Some p -> new_aio_rv env = NNG_OK ->
  ep_closed (w_ep w) = false ->
  tlstran_accept_cb env w =
    Some (tt,
          mk_world
            (set_ep_negopipes (ep_negopipes (w_ep w) ++ [p])
               (set_ep_refcnt (ep_refcnt (w_ep w) + 1) (w_ep w)))
            (<[p := pipe_started (a_output (ep_connaio (w_ep w)))
                      (ep_proto (w_ep w)) pipe_zero]> (w_pipes w))
            (w_ep_freed w),
          [c_on_pipe p (c_nng_stream_send (a_output (ep_connaio (w_ep w))) NEGOAIO
                          [mk_iov buf_txlen 0 8]);
           c_nng_stream_listener_accept CONNAIO]).
Proof.
  intros Hrv Hs Ha Hc. unfold tlstran_accept_cb, get_ep, bind.
  rewrite decide_False by (rewrite Hrv; intros H; now apply H).
  rewrite (pipe_alloc_ok env w p Hs Ha).
  cbn [fst snd]. rewrite decide_False by (intros H; now apply H).
  unfold deref, ret. rewrite Hc.
  erewrite (pipe_start_eq _ p pipe_zero) by (cbn; apply lookup_insert_eq).
  unfold emit. cbn. rewrite insert_insert_eq.
  destruct w; reflexivity.
Qed.

Lemma dial_cb_aio_error (env : alloc_env) (w : tlstran_world) :
  a_result (ep_connaio (w_ep w)) <> NNG_OK ->
  exists t,
    tlstran_dial_cb env w =
      Some (tt, set_w_ep (set_ep_useraio None (w_ep w)) w, t).
Proof.
  intros Hrv. unfold tlstran_dial_cb, get_ep, bind.
  rewrite decide_True by exact Hrv. rewrite dial_error_eq. eauto.
Qed.

Lemma dial_cb_alloc_error (env : alloc_env) (w : tlstran_world) :
  a_result (ep_connaio (w_ep w)) = NNG_OK ->
  (forall p, new_struct env = Some p -> w_pipes w !! p = None) ->
  new_struct env = None \/ new_aio_rv env <> NNG_OK ->
  exists t,
    tlstran_dial_cb env w =
      Some (tt, set_w_ep (set_ep_useraio None (w_ep w)) w, t).
Proof.
  intros Hrv Hfresh Hfail. unfold tlstran_dial_cb, get_ep, bind.
  rewrite decide_False by (rewrite Hrv; intros H; now apply H).
  destruct (new_struct env) as [p|] eqn:Hs.
  - destruct Hfail as [|Ha]; [discriminate|].
    rewrite (pipe_alloc_aio_failure env w p Hs Ha (Hfresh p eq_refl)).
    cbn [fst snd]. rewrite decide_True by exact Ha.
    unfold emit. rewrite dial_error_eq. eauto.
  - rewrite (pipe_alloc_no_memory env w Hs).
    cbn [fst snd]. rewrite decide_True by discriminate.
    unfold emit. rewrite dial_error_eq. eauto.
Qed.

Lemma dial_cb_closed (env : alloc_env) (w : tlstran_world) (p : nat) :
  a_result (ep_connaio (w_ep w)) = NNG_OK ->
  new_struct env = Some p -> new_aio_rv env = NNG_OK ->
  w_pipes w !! p = None ->
  ep_closed (w_ep w) = true ->
  exists t,
    tlstran_dial_cb env w =
      Some (tt, set_w_ep (set_ep_useraio None (w_ep w)) w, t).
Proof.
  intros Hrv Hs Ha Hfresh Hc. unfold tlstran_dial_cb, get_ep, bind.
  rewrite decide_False by (rewrite Hrv; intros H; now apply H).
  rewrite (pipe_alloc_ok env w p Hs Ha).
  cbn [fst snd]. rewrite decide_False by (intros H; now apply H).
  unfold deref, ret. rewrite Hc.
  rewrite (fini_fresh_pipe w p Hfresh).
  unfold emit. rewrite dial_error_eq. eauto.
Qed.

Lemma dial_cb_started (env : alloc_env) (w : tlstran_world) (p : nat) :
  a_result (ep_connaio (w_ep w)) = NNG_OK ->
  new_struct env = Some p -> new_aio_rv env = NNG_OK ->
  ep_closed (w_ep w) = false ->
  tlstran_dial_cb env w =
    Some (tt,
          mk_world
            (set_ep_negopipes (ep_negopipes (w_ep w) ++ [p])
               (set_ep_refcnt (ep_refcnt (w_ep w) + 1) (w_ep w)))
            (<[p := pipe_started (a_output (ep_connaio (w_ep w)))
                      (ep_proto (w_ep w)) pipe_zero]> (w_pipes w))
            (w_ep_freed w),
          [c_on_pipe p (c_nng_stream_send (a_output (ep_connaio (w_ep w))) NEGOAIO
                          [mk_iov buf_txlen 0 8])]).
Proof.
  intros Hrv Hs Ha Hc. unfold tlstran_dial_cb, get_ep, bind.
  rewrite decide_False by (rewrite Hrv; intros H; now apply H).
  rewrite (pipe_alloc_ok env w p Hs Ha).
  cbn [fst snd]. rewrite decide_False by (intros H; now apply H).
  unfold deref, ret. rewrite Hc.
  erewrite (pipe_start_eq _ p pipe_zero) by (cbn; apply lookup_insert_eq).
  cbn. rewrite insert_insert_eq.
  destruct w; reflexivity.
Qed.

(** ** Reachable states are well formed *)

Lemma nego_cb_partial (w : tlstran_world) (p : nat) (pp : tlstran_pipe) :
  w_pipes w !! p = Some pp ->
  p_ep pp = Some the_ep ->
  a_result (p_negoaio pp) = NNG_OK ->
  ~ nego_headers_done pp ->
  exists pp' t,
    tlstran_pipe_nego_cb p w =
      Some (tt, set_w_pipes (<[p := pp']> (w_pipes w)) w, t)
    /\ p_ep pp' = Some the_ep.
Proof.
  intros Hp Hep Hrv Hnd. unfold tlstran_pipe_nego_cb.
  unfold modify_pipe, on_pipe, get_pipe, bind, deref, ret, modify, emit.
  rewrite Hp, Hep.
  rewrite decide_False by (rewrite Hrv; intros H; now apply H).
  cbn. rewrite Hp. cbn. rewrite lookup_insert_eq.
  unfold nego_headers_done in Hnd.
  destruct (decide (p_gottxhead (nego_count pp) < p_wanttxhead (nego_count pp)))
    as [Htx|Htx].
  - cbn. rewrite lookup_insert_eq. cbn. rewrite insert_insert_eq.
    eexists _, _. split; [reflexivity|].
    rewrite <- Hep, <- (nego_count_ep pp). destruct (nego_count pp); reflexivity.
  - destruct (decide (p_gotrxhead (nego_count pp) < p_wantrxhead (nego_count pp)))
      as [Hrx|Hrx]; [|tauto].
    cbn. rewrite lookup_insert_eq. cbn. rewrite insert_insert_eq.
    eexists _, _. split; [reflexivity|].
    rewrite <- Hep, <- (nego_count_ep pp). destruct (nego_count pp); reflexivity.
Qed.

Lemma wf_not_listed (w : tlstran_world) (p : nat) :
  world_wf w -> w_pipes w !! p = None -> p ∉ ep_all_pipes (w_ep w).
Proof.
  intros Hwf Hfresh Hin. destruct (wf_live w Hwf p Hin) as [pp Hp]. congruence.
Qed.

Lemma wf_started (w : tlstran_world) (p : nat) (pp' : tlstran_pipe) :
  world_wf w -> w_ep_freed w = false ->
  w_pipes w !! p = None ->
  p_ep pp' = Some the_ep ->
  world_wf
    (mk_world
       (set_ep_negopipes (ep_negopipes (w_ep w) ++ [p])
          (set_ep_refcnt (ep_refcnt (w_ep w) + 1) (w_ep w)))
       (<[p := pp']> (w_pipes w)) false).
Proof.
  intros Hwf Hfr Hfresh Hep.
  pose proof (wf_not_listed w p Hwf Hfresh) as Hnot.
  constructor; cbn.
  - assert (Hperm : ep_all_pipes
              (set_ep_negopipes (ep_negopipes (w_ep w) ++ [p])
                 (set_ep_refcnt (ep_refcnt (w_ep w) + 1) (w_ep w)))
            ≡ₚ p :: ep_all_pipes (w_ep w)).
    { unfold ep_all_pipes. destruct (w_ep w); cbn.
      rewrite <- app_assoc. cbn. rewrite <- Permutation_middle. reflexivity. }
    rewrite Hperm. constructor; [exact Hnot | apply (wf_nodup w Hwf)].
  - intros q Hq.
    assert (Hq' : q = p \/ q ∈ ep_all_pipes (w_ep w)).
    { unfold ep_all_pipes in *. destruct (w_ep w); cbn in *.
      rewrite !elem_of_app, elem_of_cons, elem_of_nil in Hq.
      rewrite !elem_of_app. tauto. }
    destruct Hq' as [->|Hq'].
    + rewrite lookup_insert_eq. eauto.
    + destruct (decide (p = q)) as [->|Hne]; [rewrite lookup_insert_eq; eauto|].
      rewrite lookup_insert_ne by exact Hne. apply (wf_live w Hwf q Hq').
  - intros q x. destruct (decide (p = q)) as [->|Hne].
    + rewrite lookup_insert_eq. intros [= <-]. exact Hep.
    + rewrite lookup_insert_ne by exact Hne. apply (wf_backref w Hwf).
  - rewrite map_size_insert_None by exact Hfresh.
    pose proof (wf_refcnt w Hwf) as Hrc. destruct (w_ep w); cbn in *. lia.
  - pose proof (wf_closed w Hwf) as Hc. destruct (w_ep w); cbn in *. exact Hc.
  - discriminate.
Qed.

Lemma pipe_started_ep (conn : option nat) (proto : Z) (pp : tlstran_pipe) :
  p_ep (pipe_started conn proto pp) = Some the_ep.
Proof. destruct pp; reflexivity. Qed.

Lemma wf_nego_removed (w : tlstran_world) (p : nat) (pp pp' : tlstran_pipe) :
  world_wf w -> w_ep_freed w = false ->
  w_pipes w !! p = Some pp ->
  p_ep pp' = Some the_ep ->
  world_wf
    (mk_world
       (set_ep_useraio None
          (set_ep_negopipes (nni_list_remove p (ep_negopipes (w_ep w))) (w_ep w)))
       (<[p := pp']> (w_pipes w)) false).
Proof.
  intros Hwf Hfr Hp Hep.
  pose proof (wf_pipe_update w p pp pp' Hwf Hfr Hp Hep) as Hwf1.
  pose proof (wf_nodup w Hwf) as Hnd. unfold ep_all_pipes in Hnd.
  apply NoDup_app in Hnd as (Hn & Hdisj & Hrest).
  constructor; cbn.
  - unfold ep_all_pipes. destruct (w_ep w); cbn in *.
    apply NoDup_app. split; [now apply nni_list_remove_NoDup|].
    split; [|exact Hrest].
    intros x Hx. apply Hdisj. eapply nni_list_remove_subset, Hx.
  - intros q Hq. apply (wf_live _ Hwf1). cbn.
    unfold ep_all_pipes in *. destruct (w_ep w); cbn in *.
    rewrite !elem_of_app in *. destruct Hq as [Hq|Hq]; [|tauto].
    left. eapply nni_list_remove_subset, Hq.
  - apply (wf_backref _ Hwf1).
  - pose proof (wf_refcnt _ Hwf1) as Hrc. cbn in Hrc. rewrite <- Hrc.
    destruct (w_ep w); reflexivity.
  - intros _. destruct (w_ep w); reflexivity.
  - discriminate.
Qed.

Lemma wf_nego_to_wait (w : tlstran_world) (p : nat) (pp pp' : tlstran_pipe) :
  world_wf w -> w_ep_freed w = false ->
  w_pipes w !! p = Some pp ->
  p ∈ ep_negopipes (w_ep w) ->
  p_ep pp' = Some the_ep ->
  world_wf
    (mk_world
       (set_ep_waitpipes (ep_waitpipes (w_ep w) ++ [p])
          (set_ep_negopipes (nni_list_remove p (ep_negopipes (w_ep w))) (w_ep w)))
       (<[p := pp']> (w_pipes w)) false).
Proof.
  intros Hwf Hfr Hp Hin Hep.
  pose proof (wf_pipe_update w p pp pp' Hwf Hfr Hp Hep) as Hwf1.
  apply (wf_perm _ _ _ Hwf1); cbn; auto.
  - unfold ep_all_pipes. destruct (w_ep w); cbn in *.
    rewrite (nni_list_remove_perm p _ Hin) at 2.
    rewrite <- !app_assoc. cbn.
    rewrite (app_assoc (nni_list_remove _ _)).
    rewrite <- Permutation_middle. rewrite <- app_assoc. reflexivity.
  - apply (wf_backref _ Hwf1).
  - pose proof (wf_refcnt _ Hwf1) as Hrc. cbn in Hrc. rewrite <- Hrc.
    destruct (w_ep w); reflexivity.
  - pose proof (wf_closed w Hwf) as Hc. destruct (w_ep w); cbn in *. exact Hc.
Qed.

Lemma wf_pipe_gone (w : tlstran_world) (p : nat) (pp : tlstran_pipe) :
  world_wf w -> w_ep_freed w = false ->
  w_pipes w !! p = Some pp ->
  world_wf
    (mk_world
       (set_ep_refcnt (ep_refcnt (w_ep w) - 1) (nni_list_node_remove p (w_ep w)))
       (delete p (w_pipes w)) false).
Proof.
  intros Hwf Hfr Hp.
  pose proof (wf_nodup w Hwf) as Hnd. unfold ep_all_pipes in Hnd.
  apply NoDup_app in Hnd as (Hn & Hd1 & Hnd2).
  apply NoDup_app in Hnd2 as (Hw & Hd2 & Hb).
  assert (Hsub : forall q,
            q ∈ ep_all_pipes
                  (set_ep_refcnt (ep_refcnt (w_ep w) - 1)
                     (nni_list_node_remove p (w_ep w))) ->
            q ∈ ep_all_pipes (w_ep w) /\ q <> p).
  { intros q. unfold ep_all_pipes, nni_list_node_remove.
    destruct (w_ep w); cbn in *. rewrite !elem_of_app.
    intros [H|[H|H]];
      (split; [pose proof (nni_list_remove_subset p q _ H); tauto|]);
      intros ->; revert H; apply nni_list_remove_notin; assumption. }
  constructor; cbn.
  - unfold ep_all_pipes, nni_list_node_remove. destruct (w_ep w); cbn in *.
    apply NoDup_app. split; [now apply nni_list_remove_NoDup|].
    split.
    + intros x Hx Hx'. apply (Hd1 x); [eapply nni_list_remove_subset, Hx|].
      rewrite elem_of_app in *.
      destruct Hx' as [H|H]; [left|right]; eapply nni_list_remove_subset, H.
    + apply NoDup_app. split; [now apply nni_list_remove_NoDup|].
      split; [|now apply nni_list_remove_NoDup].
      intros x Hx Hx'. apply (Hd2 x); eapply nni_list_remove_subset; eauto.
  - intros q Hq. destruct (Hsub q Hq) as [Hin Hne].
    rewrite lookup_delete_ne by congruence. apply (wf_live w Hwf q Hin).
  - intros q x Hq. destruct (decide (p = q)) as [->|Hne].
    + rewrite lookup_delete_eq in Hq. discriminate.
    + rewrite lookup_delete_ne in Hq by exact Hne. apply (wf_backref w Hwf q x Hq).
  - rewrite map_size_delete_Some by eauto.
    pose proof (wf_refcnt w Hwf) as Hrc.
    assert (size (w_pipes w) <> 0%nat).
    { intros H0. apply map_size_empty_inv in H0. rewrite H0 in Hp.
      rewrite lookup_empty in Hp. discriminate. }
    unfold nni_list_node_remove. destruct (w_ep w); cbn in *. lia.
  - pose proof (wf_closed w Hwf) as Hc.
    unfold nni_list_node_remove. destruct (w_ep w); cbn in *. exact Hc.
  - discriminate.
Qed.

Lemma wf_connaio (w : tlstran_world) (a : nni_aio) :
  world_wf w -> w_ep_freed w = false ->
  world_wf (set_w_ep (set_ep_connaio a (w_ep w)) w).
Proof.
  intros Hwf Hfr. unfold set_w_ep. rewrite Hfr.
  apply (wf_ep_fields w); auto; try (destruct (w_ep w); reflexivity).
  pose proof (wf_closed w Hwf) as Hc. destruct (w_ep w); exact Hc.
Qed.

Lemma after_modify_ep {A} (f : tlstran_ep -> tlstran_ep) (m : M tlstran_world A)
  (w : tlstran_world) :
  (modify_ep f >> m)%tls w = m (set_w_ep (f (w_ep w)) w).
Proof.
  unfold modify_ep, on_ep, bind, modify. cbn.
  destruct (m _) as [[[x s] t]|]; reflexivity.
Qed.

Lemma after_modify_pipe {A} (p : nat) (f : tlstran_pipe -> tlstran_pipe)
  (m : M tlstran_world A) (w : tlstran_world) (pp : tlstran_pipe) :
  w_pipes w !! p = Some pp ->
  (modify_pipe p f >> m)%tls w = m (set_w_pipes (<[p := f pp]> (w_pipes w)) w).
Proof.
  intros Hp. unfold modify_pipe, on_pipe, bind, modify. rewrite Hp. cbn.
  destruct (m _) as [[[x s] t]|]; reflexivity.
Qed.

Ltac freed_false H :=
  match goal with
  | |- world_wf (mk_world _ _ ?f) => replace f with false by (symmetry; exact H)
  end.

Lemma world_step_wf (w w' : tlstran_world) (e : world_event) (t : list call) :
  world_wf w -> world_enabled e w ->
  world_routine e w = Some (tt, w', t) ->
  world_wf w'.
Proof.
  intros Hwf [Hfr Hen] Hrun.
  destruct e as [aio | aio | aio rv | | | copyin val | rv conn env | rv conn env
                 | rv | p rv count rxlen | p | p f]; cbn [world_routine] in Hrun.
  - (* connect *)
    apply ep_connect_effect in Hrun as [->|[Hc ->]]; [exact Hwf|].
    apply wf_set_useraio; auto. congruence.
  - (* accept *)
    apply ep_accept_effect in Hrun as [->|[Hc [->|[t' Hm]]]]; [exact Hwf| |].
    + unfold set_w_ep. rewrite Hfr.
      apply (wf_ep_fields w); auto; destruct (w_ep w); cbn in *; congruence.
    + eapply ep_match_wf; [| |exact Hm].
      * apply wf_set_useraio; auto. congruence.
      * destruct w; exact Hfr.
  - (* cancel *)
    apply ep_cancel_effect in Hrun as [->| ->]; [exact Hwf|].
    apply wf_set_useraio; auto.
  - (* close *)
    destruct (ep_close_eq w (wf_live w Hwf)) as [t' Ht'].
    rewrite Ht' in Hrun. injection Hrun as <- <-.
    unfold set_w_ep. rewrite Hfr.
    apply (wf_ep_fields w); auto; destruct (w_ep w); reflexivity.
  - (* fini *)
    rewrite ep_fini_eq in Hrun. injection Hrun as <- <-.
    pose proof (wf_refcnt w Hwf) as Hrc.
    destruct (decide (ep_refcnt (w_ep w) <> 0)) as [Hn|Hz].
    + unfold set_w_ep. rewrite Hfr.
      apply (wf_ep_fields w); auto; try (destruct (w_ep w); reflexivity).
      pose proof (wf_closed w Hwf) as Hc. destruct (w_ep w); exact Hc.
    + assert (H0 : ep_refcnt (w_ep w) = 0) by lia.
      destruct Hwf as [H1 H2 H3 H4 H5 H6].
      destruct w as [e ps f]; destruct e; cbn in *.
      constructor; cbn; auto.
  - (* set_recvmaxsz *)
    unfold tlstran_ep_set_recvmaxsz, modify_ep, on_ep, bind, ret, modify in Hrun.
    case_decide; cbn in Hrun; injection Hrun as <- <-; [|destruct w; exact Hwf].
    unfold set_w_ep. rewrite Hfr.
    apply (wf_ep_fields w); auto; try (destruct (w_ep w); reflexivity).
    pose proof (wf_closed w Hwf) as Hc. destruct (w_ep w); exact Hc.
  - (* the listener's accept completes *)
    rewrite after_modify_ep in Hrun.
    set (w0 := set_w_ep _ w) in Hrun.
    assert (Hwf0 : world_wf w0) by (apply wf_connaio; assumption).
    assert (Hfr0 : w_ep_freed w0 = false) by (destruct w; exact Hfr).
    assert (Hps0 : w_pipes w0 = w_pipes w) by (destruct w; reflexivity).
    rename Hrun into Hcb. clearbody w0.
    destruct (decide (a_result (ep_connaio (w_ep w0)) = NNG_OK)) as [Hok|Herr].
    2:{ rewrite (accept_cb_aio_error env w0 Herr) in Hcb. injection Hcb as <- <-.
        apply (wf_set_useraio w0 None); auto. }
    destruct (new_struct env) as [q|] eqn:Hs.
    2:{ destruct (accept_cb_alloc_error env w0 Hok) as (t2 & rv2 & Heq & _); auto.
        { intros q Hq. rewrite Hs in Hq. discriminate. }
        rewrite Heq in Hcb. injection Hcb as <- <-.
        apply (wf_set_useraio w0 None); auto. }
    assert (Hfresh : w_pipes w0 !! q = None) by (rewrite Hps0; now apply Hen).
    destruct (decide (new_aio_rv env = NNG_OK)) as [Ha|Ha].
    2:{ destruct (accept_cb_alloc_error env w0 Hok) as (t2 & rv2 & Heq & _); auto.
        { intros q' Hq'. rewrite Hs in Hq'. injection Hq' as <-. exact Hfresh. }
        rewrite Heq in Hcb. injection Hcb as <- <-.
        apply (wf_set_useraio w0 None); auto. }
    destruct (ep_closed (w_ep w0)) eqn:Hc.
    + rewrite (accept_cb_closed env w0 q Hok Hs Ha Hfresh Hc) in Hcb.
      injection Hcb as <- <-. apply (wf_set_useraio w0 None); auto.
    + rewrite (accept_cb_started env w0 q Hok Hs Ha Hc) in Hcb.
      injection Hcb as <- <-. freed_false Hfr0.
      apply wf_started; auto using pipe_started_ep.
  - (* the dialer's connect completes *)
    rewrite after_modify_ep in Hrun.
    set (w0 := set_w_ep _ w) in Hrun.
    assert (Hwf0 : world_wf w0) by (apply wf_connaio; assumption).
    assert (Hfr0 : w_ep_freed w0 = false) by (destruct w; exact Hfr).
    assert (Hps0 : w_pipes w0 = w_pipes w) by (destruct w; reflexivity).
    rename Hrun into Hcb. clearbody w0.
    destruct (decide (a_result (ep_connaio (w_ep w0)) = NNG_OK)) as [Hok|Herr].
    2:{ destruct (dial_cb_aio_error env w0 Herr) as [t2 Heq].
        rewrite Heq in Hcb. injection Hcb as <- <-.
        apply (wf_set_useraio w0 None); auto. }
    destruct (new_struct env) as [q|] eqn:Hs.
    2:{ destruct (dial_cb_alloc_error env w0 Hok) as (t2 & Heq); auto.
        { intros q Hq. rewrite Hs in Hq. discriminate. }
        rewrite Heq in Hcb. injection Hcb as <- <-.
        apply (wf_set_useraio w0 None); auto. }
    assert (Hfresh : w_pipes w0 !! q = None) by (rewrite Hps0; now apply Hen).
    destruct (decide (new_aio_rv env = NNG_OK)) as [Ha|Ha].
    2:{ destruct (dial_cb_alloc_error env w0 Hok) as (t2 & Heq); auto.
        { intros q' Hq'. rewrite Hs in Hq'. injection Hq' as <-. exact Hfresh. }
        rewrite Heq in Hcb. injection Hcb as <- <-.
        apply (wf_set_useraio w0 None); auto. }
    destruct (ep_closed (w_ep w0)) eqn:Hc.
    + destruct (dial_cb_closed env w0 q Hok Hs Ha Hfresh Hc) as [t2 Heq].
      rewrite Heq in Hcb. injection Hcb as <- <-. apply (wf_set_useraio w0 None); auto.
    + rewrite (dial_cb_started env w0 q Hok Hs Ha Hc) in Hcb.
      injection Hcb as <- <-. freed_false Hfr0.
      apply wf_started; auto using pipe_started_ep.
  - (* the back-off sleep completes *)
    rewrite after_modify_ep in Hrun.
    rewrite timer_cb_eq in Hrun. injection Hrun as <- <-.
    unfold set_w_ep. rewrite Hfr.
    apply (wf_ep_fields w); auto; try (destruct (w_ep w); reflexivity).
    pose proof (wf_closed w Hwf) as Hc. destruct (w_ep w); exact Hc.
  - (* the negotiation aio of a pipe completes *)
    destruct Hen as [Hin Hlen].
    assert (Hall : p ∈ ep_all_pipes (w_ep w)).
    { unfold ep_all_pipes. rewrite !elem_of_app. auto. }
    destruct (wf_live w Hwf p Hall) as [pp Hp].
    pose proof (wf_backref w Hwf p pp Hp) as Hep.
    rewrite (after_modify_pipe p _ _ w pp Hp) in Hrun.
    set (pp0 := set_p_rxlen rxlen _) in Hrun.
    set (w0 := set_w_pipes _ w) in Hrun.
    assert (Hep0 : p_ep pp0 = Some the_ep).
    { rewrite <- Hep. unfold pp0. destruct pp; reflexivity. }
    assert (Hw0 : w0 = mk_world (w_ep w) (<[p := pp0]> (w_pipes w)) false).
    { unfold w0. destruct w; cbn in *. now subst. }
    assert (Hwf0 : world_wf w0).
    { rewrite Hw0. apply (wf_pipe_update w p pp pp0); assumption. }
    assert (Hp0 : w_pipes w0 !! p = Some pp0).
    { rewrite Hw0. cbn. apply lookup_insert_eq. }
    assert (Hfr0 : w_ep_freed w0 = false) by (rewrite Hw0; reflexivity).
    assert (Hin0 : p ∈ ep_negopipes (w_ep w0)) by (rewrite Hw0; exact Hin).
    rename Hrun into Hcb. clear Hw0. clearbody w0 pp0.
    destruct (decide (a_result (p_negoaio pp0) = NNG_OK)) as [Hok|Herr].
    2:{ rewrite (nego_cb_aio_error w0 p pp0 Hp0 Hep0 Herr) in Hcb.
        rewrite (nego_error_eq w0 p pp0 _ Hp0) in Hcb. injection Hcb as <- <-.
        rewrite Hfr0. apply (wf_nego_removed w0 p pp0); auto;
          try (rewrite <- Hep0; destruct pp0; reflexivity). }
    destruct (decide (p_gottxhead (nego_count pp0) < p_wanttxhead (nego_count pp0)))
      as [Htx|Htx].
    { destruct (nego_cb_partial w0 p pp0 Hp0 Hep0 Hok) as (pp' & t' & Heq & Hep').
      { intros [H _]. tauto. }
      rewrite Heq in Hcb. injection Hcb as <- <-.
      unfold set_w_pipes. freed_false Hfr0.
      apply (wf_pipe_update w0 p pp0 pp'); assumption. }
    destruct (decide (p_gotrxhead (nego_count pp0) < p_wantrxhead (nego_count pp0)))
      as [Hrx|Hrx].
    { destruct (nego_cb_partial w0 p pp0 Hp0 Hep0 Hok) as (pp' & t' & Heq & Hep').
      { intros [_ H]. tauto. }
      rewrite Heq in Hcb. injection Hcb as <- <-.
      unfold set_w_pipes. freed_false Hfr0.
      apply (wf_pipe_update w0 p pp0 pp'); assumption. }
    assert (Hdone : nego_headers_done pp0) by (split; assumption).
    destruct (nego_header_bad (p_rxlen pp0)) eqn:Hbad.
    + rewrite (nego_cb_bad_header w0 p pp0 Hp0 Hep0 Hok Hdone Hbad) in Hcb.
      injection Hcb as <- <-. freed_false Hfr0.
      apply (wf_nego_removed w0 p pp0); auto;
        try (rewrite <- Hep0, <- (nego_count_ep pp0);
             destruct (nego_count pp0); reflexivity).
    + rewrite (nego_cb_good_header w0 p pp0 Hp0 Hep0 Hok Hdone Hbad) in Hcb.
      replace (w_ep_freed w0) with false in Hcb by (symmetry; exact Hfr0).
      eapply ep_match_wf; [| |exact Hcb]; [|reflexivity].
      apply (wf_nego_to_wait w0 p pp0); auto;
        try (rewrite <- Hep0, <- (nego_count_ep pp0);
             destruct (nego_count pp0); reflexivity).
  - (* a pipe is destroyed *)
    destruct (w_pipes w !! p) as [pp|] eqn:Hp.
    2:{ unfold tlstran_pipe_fini, on_pipe, bind in Hrun. rewrite Hp in Hrun.
        discriminate. }
    rewrite (pipe_fini_eq w p pp Hp) in Hrun. injection Hrun as <- <-.
    rewrite (wf_backref w Hwf p pp Hp), Hfr.
    apply (wf_pipe_gone w p pp); assumption.
  - (* activity confined to one pipe *)
    unfold modify_pipe, on_pipe, modify in Hrun.
    destruct (w_pipes w !! p) as [pp|] eqn:Hp; [|discriminate].
    injection Hrun as <- <-.
    unfold set_w_pipes. rewrite Hfr.
    apply (wf_pipe_update w p pp (f pp)); auto.
    rewrite Hen. apply (wf_backref w Hwf p pp Hp).
Qed.

Lemma world_init_wf (proto : Z) (dialer : bool) :
  world_wf (world_init proto dialer).
Proof.
  constructor; cbn.
  - constructor.
  - intros p Hp. inversion Hp.
  - intros p pp Hp. rewrite lookup_empty in Hp. discriminate.
  - reflexivity.
  - reflexivity.
  - discriminate.
Qed.

Lemma reachable_wf (w : tlstran_world) : reachable w -> world_wf w.
Proof.
  induction 1 as [proto dialer | w e w' t Hreach IH Hen Hrun].
  - apply world_init_wf.
  - exact (world_step_wf w w' e t IH Hen Hrun).
Qed.


(** ** Partial transfers *)

Lemma iov_count_nonneg (v : list nni_iov) : iov_pos v -> 0 <= iov_count v.
Proof.
  induction 1 as [|e v He Hv IH]; cbn; [lia|]. unfold iov_count in IH. lia.
Qed.

Lemma iov_count_cons (e : nni_iov) (v : list nni_iov) :
  iov_count (e :: v) = iov_len e + iov_count v.
Proof. reflexivity. Qed.

Lemma iov_advance_cons (n : Z) (e : nni_iov) (v : list nni_iov) :
  iov_advance n (e :: v) =
    if decide (n <= 0) then e :: v
    else if decide (n < iov_len e)
         then mk_iov (iov_buf e) (iov_off e + n) (iov_len e - n) :: v
         else iov_advance (n - iov_len e) v.
Proof. reflexivity. Qed.

Lemma iov_advance_zero (v : list nni_iov) : iov_advance 0 v = v.
Proof. destruct v; [reflexivity|]. rewrite iov_advance_cons. now rewrite decide_True. Qed.

Lemma iov_advance_count (v : list nni_iov) :
  iov_pos v -> forall n, 0 <= n <= iov_count v ->
  iov_count (iov_advance n v) = iov_count v - n
  /\ iov_pos (iov_advance n v).
Proof.
  induction 1 as [|e v He Hv IH]; intros n Hn.
  - change (iov_advance n []) with (@nil nni_iov). cbn in *.
    split; [lia|constructor].
  - rewrite iov_count_cons in Hn. rewrite iov_advance_cons.
    case_decide as H0.
    + assert (n = 0) by lia. subst. rewrite iov_count_cons.
      split; [lia|now constructor].
    + case_decide as H1.
      * rewrite !iov_count_cons. cbn. split; [lia|].
        constructor; [cbn; lia|exact Hv].
      * rewrite iov_count_cons.
        destruct (IH (n - iov_len e)) as [Hc Hp]; [lia|].
        split; [lia|exact Hp].
Qed.

Lemma iov_exact_pos (p : tlstran_pipe) (v : list nni_iov) :
  iov_exact p v -> iov_pos v.
Proof.
  intros H. eapply Forall_impl; [exact H|]. intros e (_ & He & _). exact He.
Qed.

Lemma iov_bytes_length (p : tlstran_pipe) (e : nni_iov) :
  (Z.to_nat (iov_off e) + Z.to_nat (iov_len e)
   <= length (region p (iov_buf e)))%nat ->
  length (iov_bytes p e) = Z.to_nat (iov_len e).
Proof.
  intros H. unfold iov_bytes. rewrite length_take, length_drop. lia.
Qed.

Lemma gather_cons (p : tlstran_pipe) (e : nni_iov) (v : list nni_iov) :
  gather p (e :: v) = iov_bytes p e ++ gather p v.
Proof. reflexivity. Qed.

Lemma gather_length (p : tlstran_pipe) (v : list nni_iov) :
  iov_exact p v -> Z.of_nat (length (gather p v)) = iov_count v.
Proof.
  induction 1 as [|e v (Ho & Hl & Hr) Hv IH]; [reflexivity|].
  rewrite gather_cons, length_app, iov_count_cons, iov_bytes_length by exact Hr.
  lia.
Qed.

(** Advancing the vector by [n] bytes leaves exactly the bytes after
    the first [n]. *)
Lemma gather_advance (p : tlstran_pipe) (v : list nni_iov) :
  iov_exact p v -> forall n, 0 <= n <= iov_count v ->
  gather p (iov_advance n v) = drop (Z.to_nat n) (gather p v)
  /\ iov_exact p (iov_advance n v).
Proof.
  induction 1 as [|e v (Ho & Hl & Hr) Hv IH]; intros n Hn.
  - change (iov_advance n []) with (@nil nni_iov). cbn.
    rewrite drop_nil. split; [reflexivity|constructor].
  - rewrite iov_count_cons in Hn. rewrite iov_advance_cons.
    pose proof (iov_count_nonneg v (iov_exact_pos p v Hv)) as Hnn.
    case_decide as H0.
    + assert (n = 0) by lia. subst. cbn [Z.to_nat drop].
      split; [reflexivity|]. constructor; [auto|exact Hv].
    + case_decide as H1.
      * rewrite !gather_cons.
        rewrite drop_app_le by (rewrite iov_bytes_length by exact Hr; lia).
        split.
        -- f_equal. unfold iov_bytes. cbn [iov_buf iov_off iov_len].
           replace (Z.to_nat (iov_len e))
             with (Z.to_nat n + Z.to_nat (iov_len e - n))%nat by lia.
           rewrite <- take_drop_commute, drop_drop.
           do 2 f_equal. lia.
        -- constructor; [|exact Hv]. cbn [iov_buf iov_off iov_len].
           split; [lia|]. split; [lia|]. lia.
      * destruct (IH (n - iov_len e)) as [Hg He]; [lia|].
        rewrite gather_cons, Hg.
        rewrite drop_app_ge by (rewrite iov_bytes_length by exact Hr; lia).
        rewrite iov_bytes_length by exact Hr.
        split; [|exact He]. f_equal. lia.
Qed.

Lemma send_cb_partial (p : tlstran_pipe) :
  a_result (p_txaio p) = NNG_OK ->
  nni_aio_iov_count (nni_aio_iov_advance (a_count (p_txaio p)) (p_txaio p)) > 0 ->
  tlstran_pipe_send_cb p =
    Some (tt,
          set_p_txaio (nni_aio_iov_advance (a_count (p_txaio p)) (p_txaio p)) p,
          [c_nng_stream_send (p_tls p) TXAIO
             (iov_advance (a_count (p_txaio p)) (a_iov (p_txaio p)))]).
Proof.
  intros Hrv Hcnt. unfold tlstran_pipe_send_cb. munfold.
  rewrite decide_False by (rewrite Hrv; intros H; now apply H).
  destruct p; cbn in *.
  rewrite decide_True by lia. reflexivity.
Qed.

Lemma gather_same_regions (p p' : tlstran_pipe) (v : list nni_iov) :
  (forall b, region p' b = region p b) -> gather p' v = gather p v.
Proof.
  intros H. unfold gather. induction v as [|e v IH]; [reflexivity|].
  cbn. unfold iov_bytes at 1 3. now rewrite H, IH.
Qed.

Lemma iov_exact_same_regions (p p' : tlstran_pipe) (v : list nni_iov) :
  (forall b, region p' b = region p b) -> iov_exact p v -> iov_exact p' v.
Proof.
  intros H Hv. eapply Forall_impl; [exact Hv|]. intros e. cbn. now rewrite H.
Qed.

Lemma region_set_txaio (a : nni_aio) (p : tlstran_pipe) (b : buf) :
  region (set_p_txaio a p) b = region p b.
Proof. destruct p, b; reflexivity. Qed.

(** X1: When the stream accepts only part of what was submitted, the send
    callback resubmits exactly the bytes that were not accepted yet,
    completes no user aio and leaves the send queue as it is. *)
Theorem send_partial_resubmits_rest (p : tlstran_pipe) (n : Z) :
  iov_exact p (a_iov (p_txaio p)) ->
  0 < n < iov_count (a_iov (p_txaio p)) ->
  exists p',
    tx_done n p =
      Some (tt, p', [c_nng_stream_send (p_tls p) TXAIO (a_iov (p_txaio p'))])
    /\ gather p' (a_iov (p_txaio p')) =
         drop (Z.to_nat n) (gather p (a_iov (p_txaio p)))
    /\ iov_count (a_iov (p_txaio p')) = iov_count (a_iov (p_txaio p)) - n
    /\ iov_exact p' (a_iov (p_txaio p'))
    /\ p_sendq p' = p_sendq p
    /\ p_txlen p' = p_txlen p.
Proof.
  intros Hex Hn.
  pose proof (iov_exact_pos _ _ Hex) as Hpos.
  destruct (iov_advance_count _ Hpos n ltac:(lia)) as [Hc Hp'].
  destruct (gather_advance p _ Hex n ltac:(lia)) as [Hg He].
  unfold tx_done, bind at 1. unfold modify at 1.
  set (p1 := set_p_txaio _ p).
  assert (Hv1 : a_iov (p_txaio p1) = a_iov (p_txaio p)) by (destruct p; reflexivity).
  assert (Hn1 : a_count (p_txaio p1) = n) by (destruct p; reflexivity).
  rewrite (send_cb_partial p1); cycle 1.
  { destruct p; reflexivity. }
  { unfold nni_aio_iov_count, nni_aio_iov_advance.
    rewrite Hn1. cbn [a_iov nni_aio_set_iov]. rewrite Hv1. lia. }
  rewrite Hn1, Hv1.
  exists (set_p_txaio (nni_aio_iov_advance n (p_txaio p1)) p1).
  assert (Hreg : forall b,
            region (set_p_txaio (nni_aio_iov_advance n (p_txaio p1)) p1) b
            = region p b).
  { intros b. unfold p1. now rewrite !region_set_txaio. }
  assert (Hiov : a_iov (p_txaio (set_p_txaio (nni_aio_iov_advance n (p_txaio p1)) p1))
                 = iov_advance n (a_iov (p_txaio p))).
  { rewrite <- Hv1. destruct p1; reflexivity. }
  rewrite Hiov.
  split; [replace (p_tls p1) with (p_tls p) by (destruct p; reflexivity);
          reflexivity|].
  split; [rewrite (gather_same_regions p _ _ Hreg); exact Hg|].
  split; [exact Hc|].
  split; [apply (iov_exact_same_regions p _ _ Hreg), He|].
  split; destruct p; reflexivity.
Qed.

(** ** Draining the send queue *)

Lemma frame_iov_pos (a : user_aio) : iov_pos (frame_iov a).
Proof.
  unfold frame_iov, iov_pos.
  destruct (ua_msg a) as [h b]; cbn [msg_header msg_body].
  repeat case_decide; repeat constructor; cbn;
    try (destruct h; [congruence|cbn; lia]);
    try (destruct b; [congruence|cbn; lia]).
Qed.

Lemma frame_iov_count (a : user_aio) : iov_count (frame_iov a) = frame_len a.
Proof.
  unfold frame_iov, frame_len, nni_msg_header_len, nni_msg_len.
  destruct (ua_msg a) as [h b]; cbn [msg_header msg_body].
  repeat case_decide; subst; cbn; lia.
Qed.

Lemma completions_app (t1 t2 : list call) :
  completions (t1 ++ t2) = completions t1 ++ completions t2.
Proof. unfold completions. apply omap_app. Qed.

Lemma tx_run_app (c1 c2 : list Z) (p : tlstran_pipe) :
  tx_run (c1 ++ c2) p = (tx_run c1 >> tx_run c2) p.
Proof.
  revert p. induction c1 as [|n c1 IH]; intros p.
  - cbn. unfold bind, ret. destruct (tx_run c2 p) as [[[[] ?] ?]|]; reflexivity.
  - cbn [app tx_run]. unfold bind.
    destruct (tx_done n p) as [[[[] p1] t1]|]; [|reflexivity].
    rewrite IH. unfold bind.
    destruct (tx_run c1 p1) as [[[[] p2] t2]|]; [|reflexivity].
    destruct (tx_run c2 p2) as [[[[] p3] t3]|]; [|reflexivity].
    now rewrite app_assoc.
Qed.

Lemma split_of_cons (total n : Z) (cs : list Z) :
  split_of total (n :: cs) ->
  0 < n /\ split_of (total - n) cs /\ (cs = [] -> n = total) /\ (cs <> [] -> n < total).
Proof.
  intros [Hpos Hsum]. inversion Hpos as [|? ? Hn Hcs]; subst. cbn in *.
  split; [exact Hn|]. split; [split; [exact Hcs|lia]|].
  split.
  - intros ->. cbn. lia.
  - intros Hne. destruct cs as [|c cs]; [congruence|].
    inversion Hcs as [|? ? Hc Hcs']; subst. cbn.
    assert (0 <= fold_right Z.add 0 cs).
    { clear -Hcs'. induction Hcs'; cbn; lia. }
    lia.
Qed.

(** One frame, however the stream splits it: the head of the send queue
    is completed once, with success, after the last byte, and the next
    queued message (if any) is framed and submitted. *)
Lemma tx_run_frame (counts : list Z) :
  forall (p : tlstran_pipe) (a : user_aio) (rest : list user_aio),
  p_sendq p = a :: rest ->
  iov_pos (a_iov (p_txaio p)) ->
  split_of (iov_count (a_iov (p_txaio p))) counts ->
  counts <> [] ->
  exists p' t,
    tx_run counts p = Some (tt, p', t)
    /\ completions t = [(ua_id a, NNG_OK)]
    /\ p_sendq p' = rest
    /\ p_npipe p' = p_npipe p
    /\ (forall next rest', rest = next :: rest' ->
          a_iov (p_txaio p') = frame_iov next).
Proof.
  induction counts as [|n cs IH]; intros p a rest Hq Hpos Hsplit Hne; [congruence|].
  apply split_of_cons in Hsplit as (Hn & Hcs & Hlast & Hmore).
  cbn [tx_run]. unfold bind at 1. unfold tx_done, bind at 1, modify at 1.
  set (p1 := set_p_txaio _ p).
  assert (Hv1 : a_iov (p_txaio p1) = a_iov (p_txaio p)) by (destruct p; reflexivity).
  assert (Hn1 : a_count (p_txaio p1) = n) by (destruct p; reflexivity).
  assert (Hr1 : a_result (p_txaio p1) = NNG_OK) by (destruct p; reflexivity).
  assert (Hq1 : p_sendq p1 = a :: rest) by (rewrite <- Hq; destruct p; reflexivity).
  assert (Hnp1 : p_npipe p1 = p_npipe p) by (destruct p; reflexivity).
  destruct cs as [|c cs].
  - (* the last completion of the frame *)
    specialize (Hlast eq_refl).
    rewrite (send_cb_success p1 a rest Hq1 Hr1); cycle 1.
    { unfold nni_aio_iov_count, nni_aio_iov_advance. cbn [a_iov nni_aio_set_iov].
      rewrite Hn1, Hv1.
      destruct (iov_advance_count _ Hpos n ltac:(lia)) as [-> _]. lia. }
    destruct rest as [|next rest'].
    + rewrite send_start_idle by (destruct p1; reflexivity).
      cbn [tx_run ret app].
      do 2 eexists. split; [reflexivity|].
      split; [reflexivity|].
      split; [destruct p1; reflexivity|].
      split; [rewrite <- Hnp1; destruct p1; reflexivity|].
      intros ? ? [=].
    + rewrite (send_start_head _ next rest') by (destruct p1; reflexivity).
      cbn [tx_run ret app].
      do 2 eexists. split; [reflexivity|].
      split; [reflexivity|].
      split; [destruct p1; reflexivity|].
      split; [rewrite <- Hnp1; destruct p1; reflexivity|].
      intros ? ? [= <- <-]. destruct p1; reflexivity.
  - (* more of the frame remains *)
    specialize (Hmore ltac:(congruence)).
    destruct (iov_advance_count _ Hpos n ltac:(lia)) as [Hc Hp'].
    rewrite (send_cb_partial p1); cycle 1.
    { exact Hr1. }
    { unfold nni_aio_iov_count, nni_aio_iov_advance. cbn [a_iov nni_aio_set_iov].
      rewrite Hn1, Hv1. lia. }
    rewrite Hn1, Hv1.
    set (p2 := set_p_txaio _ p1).
    assert (Hv2 : a_iov (p_txaio p2) = iov_advance n (a_iov (p_txaio p))).
    { rewrite <- Hv1. destruct p1; reflexivity. }
    destruct (IH p2 a rest) as (p' & t & Hrun & Hcomp & Hq' & Hnp' & Hnext).
    { rewrite <- Hq1. destruct p1; reflexivity. }
    { now rewrite Hv2. }
    { now rewrite Hv2, Hc. }
    { congruence. }
    rewrite Hrun. do 2 eexists. split; [reflexivity|].
    split; [rewrite completions_app, Hcomp; reflexivity|].
    split; [exact Hq'|].
    split; [rewrite Hnp', <- Hnp1; destruct p1; reflexivity|exact Hnext].
Qed.

(** X2: However the stream splits the transfers, the queued sends complete
    in the order they were queued, each exactly once and with success,
    and the queue ends up empty. *)
Theorem send_queue_drains_in_order (q : list user_aio) :
  forall (p : tlstran_pipe) (splits : list (list Z)),
  p_sendq p = q ->
  (forall a rest, q = a :: rest -> a_iov (p_txaio p) = frame_iov a) ->
  Forall2 (fun a cs => split_of (frame_len a) cs) q splits ->
  exists p' t,
    tx_run (concat splits) p = Some (tt, p', t)
    /\ completions t = map (fun a => (ua_id a, NNG_OK)) q
    /\ p_sendq p' = [].
Proof.
  induction q as [|a rest IH]; intros p splits Hq Hhead Hsp.
  - inversion Hsp; subst. cbn. do 2 eexists. split; [reflexivity|].
    split; [reflexivity|exact Hq].
  - inversion Hsp as [|? cs ? splits' Hcs Hrest]; subst.
    specialize (Hhead a rest eq_refl).
    assert (Hne : cs <> []).
    { intros ->. destruct Hcs as [_ Hsum]. cbn in Hsum.
      unfold frame_len, nni_msg_header_len, nni_msg_len in Hsum. lia. }
    destruct (tx_run_frame cs p a rest Hq) as (p1 & t1 & Hrun & Hcomp & Hq1 & _ & Hnext).
    { rewrite Hhead. apply frame_iov_pos. }
    { now rewrite Hhead, frame_iov_count. }
    { exact Hne. }
    destruct (IH p1 splits' Hq1 Hnext Hrest) as (p' & t & Hrun' & Hcomp' & Hq').
    cbn [concat]. rewrite tx_run_app. unfold bind. rewrite Hrun, Hrun'.
    do 2 eexists. split; [reflexivity|].
    split; [|exact Hq'].
    rewrite completions_app, Hcomp, Hcomp'. reflexivity.
Qed.



(** ** Receiving a whole frame *)

Lemma nonempty_chunks_nil (cs : list (list byte)) :
  Forall (fun c => c <> []) cs -> concat cs = [] -> cs = [].
Proof.
  intros H Hc. destruct cs as [|c cs]; [reflexivity|].
  apply Forall_cons in H as [Hne _]. cbn in Hc.
  apply app_eq_nil in Hc as [-> _]. congruence.
Qed.

(** One completion the stream may report, and the callback's answer. *)
Lemma rx_feed_cons (alloc_rv : nng_err) (c : list byte) (cs : list (list byte))
  (q p1 : tlstran_pipe) (t1 : list call) :
  c <> [] ->
  Z.of_nat (length c) <= nni_aio_iov_count (p_rxaio q) ->
  tlstran_pipe_recv_cb alloc_rv (stream_recv_done NNG_OK c q) = Some (tt, p1, t1) ->
  rx_feed alloc_rv (c :: cs) true q =
    match rx_feed alloc_rv cs (existsb is_rx_submit t1) p1 with
    | Some (y, p2, t2) => Some (y, p2, t1 ++ t2)
    | None => None
    end.
Proof.
  intros Hc Hle Hcb. cbn [rx_feed].
  rewrite bool_decide_eq_true_2 by exact Hc.
  rewrite bool_decide_eq_true_2 by exact Hle.
  cbn [andb]. unfold bind at 1. unfold modify at 1. rewrite Hcb.
  reflexivity.
Qed.

Lemma rx_feed_body (alloc_rv : nng_err) (chunks : list (list byte)) :
  forall (q : tlstran_pipe) (aio : user_aio) (rest : list user_aio)
         (hdr pre suf : list byte) (total got : Z),
    p_recvq q = aio :: rest ->
    p_rxmsg q = Some (mk_msg hdr (pre ++ suf)) ->
    got = Z.of_nat (length pre) ->
    total = got + Z.of_nat (length suf) ->
    a_iov (p_rxaio q) = [mk_iov buf_rxmsg_body got (total - got)] ->
    suf <> [] ->
    Forall (fun c => c <> []) chunks ->
    length (concat chunks) = length suf ->
    exists q',
      rx_feed alloc_rv chunks true q =
        Some (tt, q',
              map (fun iov => c_nng_stream_recv (p_tls q) RXAIO [iov])
                (resume_reads buf_rxmsg_body total got (chunk_lens chunks))
              ++ deliver_calls (p_tls q) (p_npipe q) aio rest
                   (mk_msg hdr (pre ++ concat chunks)))
      /\ p_rxmsg q' = None
      /\ p_recvq q' = rest.
Proof.
  induction chunks as [|c cs IH];
    intros q aio rest hdr pre suf total got Hq Hm Hgot Htot Hiov0 Hsuf Hne Hlen.
  - destruct suf; [congruence | discriminate].
  - apply Forall_cons in Hne as [Hc Hcs].
    cbn [concat] in Hlen. rewrite length_app in Hlen.
    assert (Hcpos : (0 < length c)%nat) by (destruct c; [congruence | cbn; lia]).
    assert (Hiov : a_iov (p_rxaio q) =
              [mk_iov buf_rxmsg_body (Z.of_nat (length pre)) (Z.of_nat (length suf))]).
    { rewrite Hiov0. do 2 f_equal; lia. }
    assert (Hle : Z.of_nat (length c) <= nni_aio_iov_count (p_rxaio q)).
    { unfold nni_aio_iov_count. rewrite Hiov. cbn. lia. }
    set (q1 := stream_recv_done NNG_OK c q).
    assert (Hq1 : q1 = set_p_rxmsg (Some (mk_msg hdr (pre ++ c ++ drop (length c) suf)))
                         (set_p_rxaio (aio_complete NNG_OK (Z.of_nat (length c)) None (p_rxaio q)) q)).
    { unfold q1, stream_recv_done. rewrite decide_False by (intros H; now apply H).
      rewrite Hiov. cbn [iov_buf iov_off].
      destruct q; cbn in *. subst. cbn.
      rewrite Nat2Z.id. rewrite write_at_split by lia. reflexivity. }
    assert (Htls : p_tls q1 = p_tls q) by (rewrite Hq1; destruct q; reflexivity).
    assert (Hnp : p_npipe q1 = p_npipe q) by (rewrite Hq1; destruct q; reflexivity).
    destruct (decide (length c < length suf)%nat) as [Hlt|Hge].
    + (* a partial read of the body: resubmit *)
      assert (Hstep : tlstran_pipe_recv_cb alloc_rv q1 =
                Some (tt, after_prefix q1,
                      [c_nng_stream_recv (p_tls q) RXAIO
                         [mk_iov buf_rxmsg_body (got + Z.of_nat (length c))
                            (total - (got + Z.of_nat (length c)))]])).
      { rewrite recv_cb_partial; cycle 1.
        { rewrite Hq1. destruct q; reflexivity. }
        { rewrite Hq1. unfold nni_aio_iov_count, nni_aio_iov_advance.
          destruct q; cbn in *. rewrite Hiov.
          rewrite iov_advance_within by (cbn; lia). cbn. lia. }
        rewrite Htls. do 3 f_equal.
        rewrite Hq1. destruct q; cbn in *. rewrite Hiov.
        rewrite iov_advance_within by (cbn; lia). cbn.
        do 3 f_equal; lia. }
      rewrite (rx_feed_cons alloc_rv c cs q _ _ Hc Hle Hstep).
      cbn [existsb is_rx_submit orb].
      destruct (IH (after_prefix q1) aio rest hdr (pre ++ c) (drop (length c) suf)
                  total (got + Z.of_nat (length c)))
        as (q' & Hrun & Hm' & Hq').
      * rewrite Hq1. destruct q; exact Hq.
      * rewrite Hq1. destruct q; cbn. now rewrite <- app_assoc.
      * rewrite length_app. lia.
      * rewrite length_drop. lia.
      * rewrite Hq1. unfold after_prefix, nni_aio_iov_advance.
        destruct q; cbn in *. rewrite Hiov.
        rewrite iov_advance_within by (cbn; lia). cbn.
        do 2 f_equal; lia.
      * intros Hnil. apply (f_equal length) in Hnil.
        rewrite length_drop in Hnil. cbn in Hnil. lia.
      * exact Hcs.
      * rewrite length_drop. lia.
      * rewrite Hrun. exists q'. split; [|split; assumption].
        replace (p_tls (after_prefix q1)) with (p_tls q)
          by (rewrite Hq1; destruct q; reflexivity).
        replace (p_npipe (after_prefix q1)) with (p_npipe q)
          by (rewrite Hq1; destruct q; reflexivity).
        unfold chunk_lens. cbn [map resume_reads concat].
        rewrite decide_True by lia. cbn [map app].
        rewrite (app_assoc pre). reflexivity.
    + (* the last bytes of the body *)
      assert (Hcs_nil : cs = []).
      { destruct cs as [|c' cs']; [reflexivity|].
        apply Forall_cons in Hcs as [Hc' _].
        cbn in Hlen. rewrite length_app in Hlen.
        destruct c'; [congruence|]. cbn in Hlen. lia. }
      subst cs. cbn in Hlen.
      assert (Hfull : length c = length suf) by lia.
      assert (Hbody : pre ++ c ++ drop (length c) suf = pre ++ concat [c]).
      { rewrite Hfull, drop_all. cbn. reflexivity. }
      assert (Hstep : tlstran_pipe_recv_cb alloc_rv q1 =
                recv_deliver (Some aio) (after_prefix q1)).
      { apply (recv_cb_body_done alloc_rv q1 aio rest
                 (mk_msg hdr (pre ++ c ++ drop (length c) suf))).
        { rewrite Hq1. destruct q; exact Hq. }
        { rewrite Hq1. destruct q; reflexivity. }
        { rewrite Hq1. destruct q; reflexivity. }
        { rewrite Hq1. unfold nni_aio_iov_count, nni_aio_iov_advance.
          destruct q; cbn in *. rewrite Hiov.
          rewrite iov_advance_all by (cbn; lia). cbn. lia. } }
      rewrite (recv_deliver_head _ aio rest
                 (mk_msg hdr (pre ++ c ++ drop (length c) suf))) in Hstep; cycle 1.
      { rewrite Hq1. destruct q; exact Hq. }
      { rewrite Hq1. destruct q; reflexivity. }
      rewrite (rx_feed_cons alloc_rv c [] q _ _ Hc Hle Hstep).
      cbn [rx_feed]. unfold ret.
      eexists. split; [|split].
      * unfold chunk_lens. cbn [map resume_reads].
        rewrite decide_False by lia. cbn [map app].
        rewrite app_nil_r. unfold deliver_calls.
        rewrite Hbody.
        replace (p_tls (after_prefix q1)) with (p_tls q)
          by (rewrite Hq1; destruct q; reflexivity).
        replace (p_npipe (after_prefix q1)) with (p_npipe q)
          by (rewrite Hq1; destruct q; reflexivity).
        reflexivity.
      * rewrite Hq1. destruct rest, q; reflexivity.
      * rewrite Hq1. destruct rest, q; reflexivity.
Qed.

Lemma rx_feed_frame (hchunks : list (list byte)) :
  forall (q : tlstran_pipe) (aio : user_aio) (rest : list user_aio)
         (pre suf payload : list byte) (bchunks : list (list byte)) (got : Z),
    p_recvq q = aio :: rest ->
    p_rxmsg q = None ->
    p_rxlen q = pre ++ suf ->
    got = Z.of_nat (length pre) ->
    8 = got + Z.of_nat (length suf) ->
    a_iov (p_rxaio q) = [mk_iov buf_rxlen got (8 - got)] ->
    suf <> [] ->
    Forall (fun c => c <> []) hchunks ->
    length (concat hchunks) = length suf ->
    pre ++ concat hchunks = NNI_PUT64 (Z.of_nat (length payload)) ->
    Z.of_nat (length payload) < uint64_max ->
    ~ (Z.of_nat (length payload) > p_rcvmax q /\ p_rcvmax q > 0) ->
    Forall (fun c => c <> []) bchunks ->
    concat bchunks = payload ->
    exists q',
      rx_feed NNG_OK (hchunks ++ bchunks) true q =
        Some (tt, q',
              map (fun iov => c_nng_stream_recv (p_tls q) RXAIO [iov])
                (resume_reads buf_rxlen 8 got (chunk_lens hchunks))
              ++ (if decide (payload = []) then []
                  else c_nng_stream_recv (p_tls q) RXAIO
                         [mk_iov buf_rxmsg_body 0 (Z.of_nat (length payload))]
                       :: map (fun iov => c_nng_stream_recv (p_tls q) RXAIO [iov])
                            (resume_reads buf_rxmsg_body (Z.of_nat (length payload)) 0
                               (chunk_lens bchunks)))
              ++ deliver_calls (p_tls q) (p_npipe q) aio rest (mk_msg [] payload))
      /\ p_rxmsg q' = None
      /\ p_recvq q' = rest.
Proof.
  induction hchunks as [|c cs IH];
    intros q aio rest pre suf payload bchunks got Hq Hm Hlenbuf Hgot Htot Hiov0 Hsuf
           Hne Hlen Hwire Hsz Hmax Hbne Hb.
  - destruct suf; [congruence | discriminate].
  - apply Forall_cons in Hne as [Hc Hcs].
    cbn [concat] in Hlen, Hwire. rewrite length_app in Hlen.
    assert (Hcpos : (0 < length c)%nat) by (destruct c; [congruence | cbn; lia]).
    assert (Hiov : a_iov (p_rxaio q) =
              [mk_iov buf_rxlen (Z.of_nat (length pre)) (Z.of_nat (length suf))]).
    { rewrite Hiov0. do 2 f_equal; lia. }
    assert (Hle : Z.of_nat (length c) <= nni_aio_iov_count (p_rxaio q)).
    { unfold nni_aio_iov_count. rewrite Hiov. cbn. lia. }
    set (q1 := stream_recv_done NNG_OK c q).
    assert (Hq1 : q1 = set_p_rxlen (pre ++ c ++ drop (length c) suf)
                         (set_p_rxaio (aio_complete NNG_OK (Z.of_nat (length c)) None (p_rxaio q)) q)).
    { unfold q1, stream_recv_done. rewrite decide_False by (intros H; now apply H).
      rewrite Hiov. cbn [iov_buf iov_off].
      destruct q; cbn in *. subst. cbn.
      rewrite Nat2Z.id. rewrite write_at_split by lia. reflexivity. }
    assert (Htls : p_tls q1 = p_tls q) by (rewrite Hq1; destruct q; reflexivity).
    assert (Hnp : p_npipe q1 = p_npipe q) by (rewrite Hq1; destruct q; reflexivity).
    destruct (decide (length c < length suf)%nat) as [Hlt|Hge].
    + (* a partial read of the prefix: resubmit *)
      assert (Hstep : tlstran_pipe_recv_cb NNG_OK q1 =
                Some (tt, after_prefix q1,
                      [c_nng_stream_recv (p_tls q) RXAIO
                         [mk_iov buf_rxlen (got + Z.of_nat (length c))
                            (8 - (got + Z.of_nat (length c)))]])).
      { rewrite recv_cb_partial; cycle 1.
        { rewrite Hq1. destruct q; reflexivity. }
        { rewrite Hq1. unfold nni_aio_iov_count, nni_aio_iov_advance.
          destruct q; cbn in *. rewrite Hiov.
          rewrite iov_advance_within by (cbn; lia). cbn. lia. }
        rewrite Htls. do 3 f_equal.
        rewrite Hq1. destruct q; cbn in *. rewrite Hiov.
        rewrite iov_advance_within by (cbn; lia). cbn.
        do 3 f_equal; lia. }
      cbn [app].
      rewrite (rx_feed_cons NNG_OK c (cs ++ bchunks) q _ _ Hc Hle Hstep).
      cbn [existsb is_rx_submit orb].
      destruct (IH (after_prefix q1) aio rest (pre ++ c) (drop (length c) suf)
                  payload bchunks (got + Z.of_nat (length c)))
        as (q' & Hrun & Hm' & Hq').
      * rewrite Hq1. destruct q; exact Hq.
      * rewrite Hq1. destruct q; exact Hm.
      * rewrite Hq1. destruct q; cbn. now rewrite <- app_assoc.
      * rewrite length_app. lia.
      * rewrite length_drop. lia.
      * rewrite Hq1. unfold after_prefix, nni_aio_iov_advance.
        destruct q; cbn in *. rewrite Hiov.
        rewrite iov_advance_within by (cbn; lia). cbn.
        do 2 f_equal; lia.
      * intros Hnil. apply (f_equal length) in Hnil.
        rewrite length_drop in Hnil. cbn in Hnil. lia.
      * exact Hcs.
      * rewrite length_drop. lia.
      * rewrite <- app_assoc. exact Hwire.
      * exact Hsz.
      * rewrite Hq1. destruct q; exact Hmax.
      * exact Hbne.
      * exact Hb.
      * rewrite Hrun. exists q'. split; [|split; assumption].
        replace (p_tls (after_prefix q1)) with (p_tls q)
          by (rewrite Hq1; destruct q; reflexivity).
        replace (p_npipe (after_prefix q1)) with (p_npipe q)
          by (rewrite Hq1; destruct q; reflexivity).
        unfold chunk_lens. cbn [map resume_reads].
        destruct (decide (got + Z.of_nat (length c) < 8)) as [_|Hn]; [|lia].
        cbn [map app]. reflexivity.
    + (* the last bytes of the prefix *)
      assert (Hcs_nil : cs = []).
      { destruct cs as [|c' cs']; [reflexivity|].
        apply Forall_cons in Hcs as [Hc' _].
        cbn in Hlen. rewrite length_app in Hlen.
        destruct c'; [congruence|]. cbn in Hlen. lia. }
      subst cs. cbn in Hlen, Hwire. rewrite app_nil_r in Hwire.
      assert (Hfull : length c = length suf) by lia.
      assert (Hbuf : p_rxlen q1 = NNI_PUT64 (Z.of_nat (length payload))).
      { rewrite Hq1. destruct q; cbn. rewrite Hfull, drop_all, app_nil_r.
        exact Hwire. }
      assert (Hget : NNI_GET64 (p_rxlen q1) = Z.of_nat (length payload)).
      { rewrite Hbuf, NNI_GET64_PUT64. apply Z.mod_small. lia. }
      assert (Hpr : prefix_read q1).
      { rewrite Hq1. unfold prefix_read, nni_aio_iov_count, nni_aio_iov_advance.
        destruct q; cbn in *. rewrite Hiov.
        rewrite iov_advance_all by (cbn; lia). cbn. repeat split; [exact Hm|lia]. }
      assert (Hno : ~ oversize q1).
      { unfold oversize. rewrite Hget.
        replace (p_rcvmax q1) with (p_rcvmax q) by (rewrite Hq1; destruct q; reflexivity).
        exact Hmax. }
      assert (Hrq1 : p_recvq q1 = aio :: rest) by (rewrite Hq1; destruct q; exact Hq).
      unfold chunk_lens at 1. cbn [map resume_reads].
      destruct (decide (got + Z.of_nat (length c) < 8)) as [Hn|_]; [lia|].
      cbn [map app].
      destruct (decide (payload = [])) as [Hnil|Hpay].
      * (* an empty message is delivered at once *)
        assert (Hbn : bchunks = []).
        { apply nonempty_chunks_nil; [exact Hbne|now rewrite Hb]. }
        subst bchunks. cbn in Hb. subst payload.
        assert (Hstep : tlstran_pipe_recv_cb NNG_OK q1 =
                  recv_deliver (Some aio)
                    (set_p_rxmsg (Some (msg_of_size 0)) (after_prefix q1))).
        { apply (recv_cb_zero q1 aio rest Hrq1 Hpr Hno). rewrite Hget. reflexivity. }
        rewrite (recv_deliver_head _ aio rest (msg_of_size 0)) in Hstep; cycle 1.
        { unfold after_prefix. destruct q1; exact Hrq1. }
        { unfold after_prefix. destruct q1; reflexivity. }
        rewrite (rx_feed_cons NNG_OK c [] q _ _ Hc Hle Hstep).
        cbn [rx_feed]. unfold ret.
        eexists. split; [|split].
        -- rewrite app_nil_r. unfold deliver_calls.
           replace (p_tls (set_p_rxmsg (Some (msg_of_size 0)) (after_prefix q1)))
             with (p_tls q) by (rewrite Hq1; destruct q; reflexivity).
           replace (p_npipe (set_p_rxmsg (Some (msg_of_size 0)) (after_prefix q1)))
             with (p_npipe q) by (rewrite Hq1; destruct q; reflexivity).
           reflexivity.
        -- unfold after_prefix. destruct rest, q1; reflexivity.
        -- unfold after_prefix. destruct rest, q1; reflexivity.
      * (* the body is read next *)
        assert (Hnz : NNI_GET64 (p_rxlen q1) <> 0).
        { rewrite Hget. destruct payload; [congruence|cbn; lia]. }
        pose proof (recv_cb_body q1 Hpr Hno Hnz) as Hstep.
        rewrite Hget, Htls in Hstep.
        cbn [app].
        rewrite (rx_feed_cons NNG_OK c bchunks q _ _ Hc Hle Hstep).
        cbn [existsb is_rx_submit orb].
        match goal with |- context [rx_feed NNG_OK bchunks true ?s] => set (q2 := s) end.
        destruct (rx_feed_body NNG_OK bchunks q2 aio rest []
                    [] (repeat x00 (length payload))
                    (Z.of_nat (length payload)) 0)
          as (q' & Hrun & Hm' & Hq').
        { unfold q2, after_prefix. destruct q1; exact Hrq1. }
        { unfold q2, after_prefix, msg_of_size. rewrite Nat2Z.id.
          destruct q1; reflexivity. }
        { reflexivity. }
        { rewrite repeat_length. lia. }
        { unfold q2, after_prefix. rewrite Z.sub_0_r. destruct q1; reflexivity. }
        { destruct payload; [congruence|discriminate]. }
        { exact Hbne. }
        { rewrite repeat_length, Hb. reflexivity. }
        rewrite Hrun. rewrite Hb. cbn [app].
        replace (p_tls q2) with (p_tls q)
          by (unfold q2; rewrite Hq1; destruct q; reflexivity).
        replace (p_npipe q2) with (p_npipe q)
          by (unfold q2; rewrite Hq1; destruct q; reflexivity).
        exists q'. split; [reflexivity|]. split; assumption.
Qed.

(** X7: A frame that arrives in pieces -- the 8-byte prefix and the
    payload each cut up in any way, every piece being the completion
    of the read that is outstanding at that moment -- makes the
    receive callback issue exactly these calls, provided the payload
    fits the receive limit and the message is allocated: after each
    short completion the read is resumed for the bytes still missing;
    when the prefix is complete the payload is read into the new
    message; when the payload is complete the prefix of the next frame
    is read if a further receive is queued, and the message, whose
    body is the payload, is handed to the head of the receive queue,
    which is completed successfully with the payload's length.  No
    other call is made, in particular no error completion. *)
Theorem recv_frame_any_chunking
  (q : tlstran_pipe) (aio : user_aio) (rest : list user_aio)
  (payload : list byte) (hchunks bchunks : list (list byte)) :
  p_recvq q = aio :: rest ->
  p_rxmsg q = None ->
  length (p_rxlen q) = 8%nat ->
  a_iov (p_rxaio q) = [mk_iov buf_rxlen 0 8] ->
  Z.of_nat (length payload) < uint64_max ->
  ~ (Z.of_nat (length payload) > p_rcvmax q /\ p_rcvmax q > 0) ->
  Forall (fun c => c <> []) hchunks ->
  Forall (fun c => c <> []) bchunks ->
  concat hchunks = NNI_PUT64 (Z.of_nat (length payload)) ->
  concat bchunks = payload ->
  exists q',
    rx_feed NNG_OK (hchunks ++ bchunks) true q =
      Some (tt, q',
            frame_recv_calls (p_tls q) (p_npipe q) aio rest payload hchunks bchunks)
    /\ p_rxmsg q' = None
    /\ p_recvq q' = rest.
Proof.
  intros Hq Hm Hlen Hiov Hsz Hmax Hh Hb Hhc Hbc.
  apply (rx_feed_frame hchunks q aio rest [] (p_rxlen q) payload bchunks 0);
    try assumption.
  - reflexivity.
  - reflexivity.
  - rewrite Hlen. reflexivity.
  - intros Hnil. rewrite Hnil in Hlen. discriminate.
  - rewrite Hhc, Hlen. apply NNI_PUT64_length.
Qed.

(** X8: What the send side puts on the wire for the message at the
    head of its queue -- provided its size does not wrap, fits the
    receiver's limit and is allocated there -- makes a receiving pipe
    with a receive queued, however the stream cuts the bytes up, issue
    exactly the calls of one frame's reception and hand over one
    message whose body is the sent header followed by the sent body. *)
Theorem frame_round_trip
  (ps : tlstran_pipe) (a : user_aio) (srest : list user_aio)
  (q : tlstran_pipe) (aio : user_aio) (rest : list user_aio) :
  p_sendq ps = a :: srest ->
  frame_len a - 8 < uint64_max ->
  p_recvq q = aio :: rest ->
  p_rxmsg q = None ->
  length (p_rxlen q) = 8%nat ->
  a_iov (p_rxaio q) = [mk_iov buf_rxlen 0 8] ->
  ~ (frame_len a - 8 > p_rcvmax q /\ p_rcvmax q > 0) ->
  exists ps' v,
    tlstran_pipe_send_start ps =
      Some (tt, ps', [c_nng_stream_send (p_tls ps) TXAIO v])
    /\ forall hchunks bchunks : list (list byte),
         Forall (fun c => c <> []) hchunks ->
         Forall (fun c => c <> []) bchunks ->
         length (concat hchunks) = 8%nat ->
         concat hchunks ++ concat bchunks = gather ps' v ->
         exists q',
           rx_feed NNG_OK (hchunks ++ bchunks) true q =
             Some (tt, q',
                   frame_recv_calls (p_tls q) (p_npipe q) aio rest
                     (msg_header (ua_msg a) ++ msg_body (ua_msg a))
                     hchunks bchunks)
           /\ p_rxmsg q' = None
           /\ p_recvq q' = rest.
Proof.
  intros Hsq Hfit Hq Hm Hlen Hiov Hmax.
  rewrite (send_start_head ps a srest Hsq).
  eexists _, _. split; [reflexivity|].
  intros hchunks bchunks Hh Hb Hh8 Hwire.
  rewrite gather_frame with (rest := srest) in Hwire; cycle 1.
  { destruct ps; exact Hsq. }
  { destruct ps; reflexivity. }
  replace (p_txlen _) with
    (NNI_PUT64 (size_add (nni_msg_len (ua_msg a)) (nni_msg_header_len (ua_msg a))))
    in Hwire by (destruct ps; reflexivity).
  apply app_inj_1 in Hwire as [Hhc Hbc]; [|now rewrite Hh8, NNI_PUT64_length].
  assert (Hsize : size_add (nni_msg_len (ua_msg a)) (nni_msg_header_len (ua_msg a))
                  = Z.of_nat (length (msg_header (ua_msg a) ++ msg_body (ua_msg a)))).
  { unfold size_add, frame_len, nni_msg_len, nni_msg_header_len in *.
    rewrite length_app. rewrite Z.mod_small by lia. lia. }
  rewrite Hsize in Hhc.
  assert (Hpl : Z.of_nat (length (msg_header (ua_msg a) ++ msg_body (ua_msg a)))
                = frame_len a - 8).
  { unfold frame_len, nni_msg_len, nni_msg_header_len. rewrite length_app. lia. }
  apply (rx_feed_frame hchunks q aio rest [] (p_rxlen q) _ bchunks 0); try assumption.
  - reflexivity.
  - reflexivity.
  - rewrite Hlen. reflexivity.
  - intros Hnil. rewrite Hnil in Hlen. discriminate.
  - now rewrite Hh8, Hlen.
  - now rewrite Hpl.
  - now rewrite Hpl.
Qed.


(** ** Posting and cancelling on a pipe *)

Lemma list_active_ids (aio : user_aio) (q : list user_aio) :
  ua_id aio ∉ queue_ids q -> nni_aio_list_active aio q = false.
Proof.
  unfold nni_aio_list_active, queue_ids. induction q as [|a q IH]; intros H.
  - reflexivity.
  - cbn in *. apply not_elem_of_cons in H as [Hne Hq].
    rewrite bool_decide_eq_false_2 by congruence. cbn. auto.
Qed.

Lemma list_active_member (aio : user_aio) (l1 l2 : list user_aio) :
  nni_aio_list_active aio (l1 ++ aio :: l2) = true.
Proof.
  unfold nni_aio_list_active. rewrite existsb_app. cbn.
  rewrite bool_decide_eq_true_2 by reflexivity. cbn. apply orb_true_r.
Qed.

Lemma aio_list_remove_middle (aio : user_aio) (l1 l2 : list user_aio) :
  ua_id aio ∉ queue_ids l1 ->
  nni_aio_list_remove aio (l1 ++ aio :: l2) = l1 ++ l2.
Proof.
  unfold queue_ids. induction l1 as [|a l1 IH]; intros H.
  - apply aio_list_remove_head.
  - cbn [map] in H. apply not_elem_of_cons in H as [Hne Hq].
    cbn [app]. rewrite aio_list_remove_other by congruence.
    now rewrite IH.
Qed.

Lemma is_first_snoc (aio : user_aio) (q : list user_aio) :
  ua_id aio ∉ queue_ids q ->
  is_first aio (q ++ [aio]) = bool_decide (q = []).
Proof.
  intros H. destruct q as [|a q].
  - unfold is_first. cbn. now rewrite bool_decide_eq_true_2.
  - rewrite is_first_snoc_nonempty.
    + symmetry. now apply bool_decide_eq_false_2.
    + unfold queue_ids in H. cbn in H. apply not_elem_of_cons in H as [Hne _].
      congruence.
Qed.

(** X3: An accepted send joins the tail of the queue and completes nothing.
    On an idle pipe its frame is submitted at once; on a busy pipe the
    transfer in progress is left alone. *)
Theorem pipe_send_queues_in_order (p : tlstran_pipe) (aio : user_aio) :
  nni_aio_begin aio = NNG_OK ->
  nni_aio_schedule aio = NNG_OK ->
  ua_id aio ∉ queue_ids (p_sendq p) ->
  exists p' t,
    tlstran_pipe_send aio p = Some (tt, p', t)
    /\ p_sendq p' = p_sendq p ++ [aio]
    /\ completions t = []
    /\ (p_sendq p = [] ->
        t = [c_nng_stream_send (p_tls p) TXAIO (frame_iov aio)]
        /\ a_iov (p_txaio p') = frame_iov aio)
    /\ (p_sendq p <> [] ->
        t = [] /\ p_txaio p' = p_txaio p /\ p_txlen p' = p_txlen p).
Proof.
  intros Hb Hs Hid. unfold tlstran_pipe_send.
  rewrite decide_False by (rewrite Hb; intros H; now apply H).
  rewrite decide_False by (rewrite Hs; intros H; now apply H).
  unfold bind at 1. unfold modify at 1. unfold bind at 1. unfold get at 1.
  set (p1 := set_p_sendq (p_sendq p ++ [aio]) p).
  assert (Hq1 : p_sendq p1 = p_sendq p ++ [aio]) by (destruct p; reflexivity).
  rewrite Hq1, (is_first_snoc aio _ Hid).
  destruct (p_sendq p) as [|h q] eqn:Hq.
  - rewrite bool_decide_eq_true_2 by reflexivity.
    rewrite (send_start_head p1 aio []) by exact Hq1.
    eexists _, _. split; [reflexivity|].
    split; [destruct p; cbn in *; now subst|].
    split; [reflexivity|].
    split; [|congruence].
    intros _. split; [destruct p; reflexivity|destruct p; reflexivity].
  - rewrite bool_decide_eq_false_2 by discriminate.
    eexists _, _. split; [reflexivity|].
    split; [exact Hq1|].
    split; [reflexivity|].
    split; [discriminate|].
    intros _. repeat split; destruct p; reflexivity.
Qed.

(** X4: A send the aio framework refuses leaves the pipe as it was and
    submits nothing: when the aio cannot begin, its message is freed and
    the aio is not completed; when it cannot be scheduled, the aio is
    completed with that error. *)
Theorem pipe_send_rejected (p : tlstran_pipe) (aio : user_aio) :
  nni_aio_begin aio <> NNG_OK \/ nni_aio_schedule aio <> NNG_OK ->
  exists t,
    tlstran_pipe_send aio p = Some (tt, p, t)
    /\ existsb is_stream_send t = false
    /\ (nni_aio_begin aio <> NNG_OK ->
        t = [c_nni_msg_free (Some (ua_msg aio)); c_nni_aio_set_msg (ua_id aio) None])
    /\ (nni_aio_begin aio = NNG_OK ->
        t = [c_nni_aio_finish_error (ua_id aio) (nni_aio_schedule aio)]).
Proof.
  intros H. unfold tlstran_pipe_send.
  destruct (decide (nni_aio_begin aio <> NNG_OK)) as [Hb|Hb].
  - eexists. split; [reflexivity|]. split; [reflexivity|].
    split; [reflexivity|]. intros Hok. congruence.
  - destruct H as [H|H]; [contradiction|].
    rewrite decide_True by exact H.
    eexists. split; [reflexivity|]. split; [reflexivity|].
    split; [intros Hn; contradiction|reflexivity].
Qed.

(** X5: Cancelling a send that is queued behind the head unlinks exactly
    that aio, keeps the others in order, completes it with the given
    error, and does not touch the transfer in progress. *)
Theorem send_cancel_queued (p : tlstran_pipe) (h aio : user_aio)
  (l1 l2 : list user_aio) (rv : nng_err) :
  p_sendq p = h :: l1 ++ aio :: l2 ->
  ua_id aio ∉ queue_ids (h :: l1) ->
  tlstran_pipe_send_cancel aio rv p =
    Some (tt, set_p_sendq (h :: l1 ++ l2) p,
          [c_nni_aio_finish_error (ua_id aio) rv]).
Proof.
  intros Hq Hid. unfold tlstran_pipe_send_cancel. munfold.
  rewrite Hq.
  change (h :: l1 ++ aio :: l2) with ((h :: l1) ++ aio :: l2).
  rewrite list_active_member. cbn [negb].
  rewrite aio_list_remove_middle by exact Hid.
  unfold is_first. cbn [app nni_list_first head].
  unfold queue_ids in Hid. cbn [map] in Hid.
  apply not_elem_of_cons in Hid as [Hne _].
  rewrite bool_decide_eq_false_2 by congruence.
  reflexivity.
Qed.

(** Cancelling an aio that is not on the send queue does nothing. *)
Lemma send_cancel_inactive (p : tlstran_pipe) (aio : user_aio) (rv : nng_err) :
  ua_id aio ∉ queue_ids (p_sendq p) ->
  tlstran_pipe_send_cancel aio rv p = Some (tt, p, []).
Proof.
  intros Hid. unfold tlstran_pipe_send_cancel. munfold.
  now rewrite (list_active_ids aio _ Hid).
Qed.

Lemma send_cancel_head (p : tlstran_pipe) (aio : user_aio) (rest : list user_aio)
  (rv : nng_err) :
  p_sendq p = aio :: rest ->
  tlstran_pipe_send_cancel aio rv p = Some (tt, p, [c_nni_aio_abort TXAIO rv]).
Proof.
  intros Hq. unfold tlstran_pipe_send_cancel. munfold. rewrite Hq.
  pose proof (list_active_member aio [] rest) as Hact. cbn [app] in Hact.
  rewrite Hact. cbn [negb].
  unfold is_first. cbn. now rewrite bool_decide_eq_true_2.
Qed.

(** X6: Cancelling the send at the head of the queue only aborts the
    transfer; the aio is completed, once, when the transfer's failure
    is reported, and the sends queued behind it are not started. *)
Theorem send_cancel_head_completes_once (p : tlstran_pipe) (aio : user_aio)
  (rest : list user_aio) (rv : nng_err) :
  p_sendq p = aio :: rest ->
  rv <> NNG_OK ->
  exists p',
    (tlstran_pipe_send_cancel aio rv >> tx_failed rv) p =
      Some (tt, p',
            [c_nni_aio_abort TXAIO rv;
             c_nni_aio_finish_error (ua_id aio) rv;
             c_nni_pipe_bump_error (p_npipe p) rv])
    /\ p_sendq p' = rest
    /\ p_txlen p' = p_txlen p.
Proof.
  intros Hq Hrv. unfold bind at 1.
  rewrite (send_cancel_head p aio rest rv Hq).
  unfold tx_failed, bind at 1, modify at 1.
  set (p1 := set_p_txaio _ p).
  rewrite (send_cb_failure p1 aio rest); cycle 1.
  { destruct p; exact Hq. }
  { destruct p; exact Hrv. }
  eexists. split; [destruct p; reflexivity|].
  split; destruct p; reflexivity.
Qed.

(** X9: An accepted receive joins the tail of the queue and completes
    nothing.  On an idle pipe the read of the 8-byte prefix is submitted
    at once; on a busy pipe the read in progress is left alone. *)
Theorem pipe_recv_queues_in_order (p : tlstran_pipe) (aio : user_aio) :
  nni_aio_begin aio = NNG_OK ->
  nni_aio_schedule aio = NNG_OK ->
  ua_id aio ∉ queue_ids (p_recvq p) ->
  (p_recvq p = [] -> p_rxmsg p = None) ->
  exists p' t,
    tlstran_pipe_recv aio p = Some (tt, p', t)
    /\ p_recvq p' = p_recvq p ++ [aio]
    /\ completions t = []
    /\ (p_recvq p = [] ->
        t = [c_nng_stream_recv (p_tls p) RXAIO [mk_iov buf_rxlen 0 8]]
        /\ a_iov (p_rxaio p') = [mk_iov buf_rxlen 0 8])
    /\ (p_recvq p <> [] ->
        t = [] /\ p_rxaio p' = p_rxaio p /\ p_rxmsg p' = p_rxmsg p).
Proof.
  intros Hb Hs Hid Hidle. unfold tlstran_pipe_recv.
  rewrite decide_False by (rewrite Hb; intros H; now apply H).
  rewrite decide_False by (rewrite Hs; intros H; now apply H).
  unfold bind at 1. unfold modify at 1. unfold bind at 1. unfold get at 1.
  set (p1 := set_p_recvq (p_recvq p ++ [aio]) p).
  assert (Hq1 : p_recvq p1 = p_recvq p ++ [aio]) by (destruct p; reflexivity).
  rewrite Hq1, (is_first_snoc aio _ Hid).
  destruct (p_recvq p) as [|h q] eqn:Hq.
  - rewrite bool_decide_eq_true_2 by reflexivity.
    rewrite (recv_start_ok p1) by (destruct p; cbn in *; auto).
    eexists _, _. split; [reflexivity|].
    split; [destruct p; cbn in *; now subst|].
    split; [reflexivity|].
    split; [|congruence].
    intros _. split; [destruct p; reflexivity|destruct p; reflexivity].
  - rewrite bool_decide_eq_false_2 by discriminate.
    eexists _, _. split; [reflexivity|].
    split; [exact Hq1|].
    split; [reflexivity|].
    split; [discriminate|].
    intros _. repeat split; destruct p; reflexivity.
Qed.

(** X10: Cancelling a receive that is queued behind the head unlinks exactly
    that aio, keeps the others in order, completes it with the given
    error, and does not touch the read in progress. *)
Theorem recv_cancel_queued (p : tlstran_pipe) (h aio : user_aio)
  (l1 l2 : list user_aio) (rv : nng_err) :
  p_recvq p = h :: l1 ++ aio :: l2 ->
  ua_id aio ∉ queue_ids (h :: l1) ->
  tlstran_pipe_recv_cancel aio rv p =
    Some (tt, set_p_recvq (h :: l1 ++ l2) p,
          [c_nni_aio_finish_error (ua_id aio) rv]).
Proof.
  intros Hq Hid. unfold tlstran_pipe_recv_cancel. munfold.
  rewrite Hq.
  change (h :: l1 ++ aio :: l2) with ((h :: l1) ++ aio :: l2).
  rewrite list_active_member. cbn [negb].
  rewrite aio_list_remove_middle by exact Hid.
  unfold is_first. cbn [app nni_list_first head].
  unfold queue_ids in Hid. cbn [map] in Hid.
  apply not_elem_of_cons in Hid as [Hne _].
  rewrite bool_decide_eq_false_2 by congruence.
  reflexivity.
Qed.

Lemma recv_cancel_head (p : tlstran_pipe) (aio : user_aio) (rest : list user_aio)
  (rv : nng_err) :
  p_recvq p = aio :: rest ->
  tlstran_pipe_recv_cancel aio rv p = Some (tt, p, [c_nni_aio_abort RXAIO rv]).
Proof.
  intros Hq. unfold tlstran_pipe_recv_cancel. munfold. rewrite Hq.
  pose proof (list_active_member aio [] rest) as Hact. cbn [app] in Hact.
  rewrite Hact. cbn [negb].
  unfold is_first. cbn. now rewrite bool_decide_eq_true_2.
Qed.

(** X11: Cancelling the receive at the head of the queue only aborts the
    read; when the read's failure is reported the aio is completed,
    once, with that error, a partly received message is freed, and no
    further read is started. *)
Theorem recv_cancel_head_completes_once (p : tlstran_pipe) (aio : user_aio)
  (rest : list user_aio) (rv alloc_rv : nng_err) :
  p_recvq p = aio :: rest ->
  rv <> NNG_OK ->
  exists p',
    (tlstran_pipe_recv_cancel aio rv >> rx_failed rv alloc_rv) p =
      Some (tt, p',
            [c_nni_aio_abort RXAIO rv;
             c_nni_pipe_bump_error (p_npipe p) rv;
             c_nni_msg_free (p_rxmsg p);
             c_nni_aio_finish_error (ua_id aio) rv])
    /\ p_recvq p' = rest
    /\ p_rxmsg p' = None.
Proof.
  intros Hq Hrv. unfold bind at 1.
  rewrite (recv_cancel_head p aio rest rv Hq).
  unfold rx_failed, bind at 1, modify at 1.
  set (p1 := stream_recv_done rv [] p).
  assert (Hp1 : p1 = set_p_rxaio (aio_complete rv 0 None (p_rxaio p)) p).
  { unfold p1, stream_recv_done. now rewrite decide_True. }
  rewrite (recv_cb_failure alloc_rv p1 aio rest); cycle 1.
  { rewrite Hp1. destruct p; exact Hq. }
  { rewrite Hp1. destruct p; exact Hrv. }
  rewrite Hp1.
  eexists. split; [destruct p; reflexivity|].
  split; destruct p; reflexivity.
Qed.


(** ** No routine crashes in a reachable state *)

Lemma ep_match_total (w : tlstran_world) :
  (forall p, p ∈ ep_waitpipes (w_ep w) -> is_Some (w_pipes w !! p)) ->
  exists w' t, tlstran_ep_match w = Some (tt, w', t).
Proof.
  intros Hlive.
  destruct (ep_useraio (w_ep w)) as [u|] eqn:Hu.
  - destruct (ep_waitpipes (w_ep w)) as [|p rest] eqn:Hw.
    + rewrite ep_match_noop by auto. eauto.
    + destruct (Hlive p) as [pp Hp]; [rewrite ?Hw; left|].
      rewrite (ep_match_go w u p rest pp Hu Hw Hp). eauto.
  - rewrite ep_match_noop by auto. eauto.
Qed.

Lemma ep_connect_total (aio : user_aio) (w : tlstran_world) :
  exists w' t, tlstran_ep_connect aio w = Some (tt, w', t).
Proof.
  unfold tlstran_ep_connect. munfold.
  repeat (case_decide || case_match); cbn; eauto.
Qed.

Lemma ep_accept_total (aio : user_aio) (w : tlstran_world) :
  (forall p, p ∈ ep_waitpipes (w_ep w) -> is_Some (w_pipes w !! p)) ->
  exists w' t, tlstran_ep_accept aio w = Some (tt, w', t).
Proof.
  intros Hlive. unfold tlstran_ep_accept.
  case_decide; [unfold ret; eauto|].
  unfold bind at 1, get_ep at 1.
  destruct (ep_closed (w_ep w)); [unfold emit; eauto|].
  destruct (bool_decide (ep_useraio (w_ep w) <> None)); [unfold emit; eauto|].
  case_decide; [unfold emit; eauto|].
  rewrite after_modify_ep.
  destruct (ep_started (w_ep w)); cbn [negb].
  - assert (Hm : exists w' t,
              tlstran_ep_match (set_w_ep (set_ep_useraio (Some aio) (w_ep w)) w)
              = Some (tt, w', t)).
    { apply ep_match_total.
      intros p Hp. destruct w as [e ps f]; destruct e; cbn in *. auto. }
    destruct Hm as (w' & t & ->). eauto.
  - munfold. cbn. eauto.
Qed.

Lemma ep_cancel_total (aio : user_aio) (rv : nng_err) (w : tlstran_world) :
  exists w' t, tlstran_ep_cancel aio rv w = Some (tt, w', t).
Proof.
  unfold tlstran_ep_cancel. munfold.
  repeat (case_decide || case_match); cbn; eauto.
Qed.

Lemma world_step_total (w : tlstran_world) (e : world_event) :
  world_wf w -> world_callable e w ->
  exists w' t, world_routine e w = Some (tt, w', t).
Proof.
  intros Hwf [[Hfr Hen] Hcall].
  assert (Hwait : forall p, p ∈ ep_waitpipes (w_ep w) -> is_Some (w_pipes w !! p)).
  { intros p Hp. apply (wf_live w Hwf). unfold ep_all_pipes.
    rewrite !elem_of_app. auto. }
  destruct e as [aio | aio | aio rv | | | copyin val | rv conn env | rv conn env
                 | rv | p rv count rxlen | p | p f]; cbn [world_routine].
  - apply ep_connect_total.
  - now apply ep_accept_total.
  - apply ep_cancel_total.
  - destruct (ep_close_eq w (wf_live w Hwf)) as [t Ht]. eauto.
  - rewrite ep_fini_eq. eauto.
  - unfold tlstran_ep_set_recvmaxsz. munfold. case_decide; cbn; eauto.
  - (* the listener's accept completes *)
    rewrite after_modify_ep.
    set (w0 := set_w_ep _ w).
    assert (Hps0 : w_pipes w0 = w_pipes w) by (destruct w; reflexivity).
    clearbody w0.
    destruct (decide (a_result (ep_connaio (w_ep w0)) = NNG_OK)) as [Hok|Herr].
    2:{ rewrite (accept_cb_aio_error env w0 Herr). eauto. }
    destruct (new_struct env) as [q|] eqn:Hs.
    2:{ destruct (accept_cb_alloc_error env w0 Hok) as (t2 & rv2 & Heq & _); auto.
        { intros q Hq. rewrite Hs in Hq. discriminate. }
        rewrite Heq. eauto. }
    assert (Hfresh : w_pipes w0 !! q = None) by (rewrite Hps0; now apply Hen).
    destruct (decide (new_aio_rv env = NNG_OK)) as [Ha|Ha].
    2:{ destruct (accept_cb_alloc_error env w0 Hok) as (t2 & rv2 & Heq & _); auto.
        { intros q' Hq'. rewrite Hs in Hq'. injection Hq' as <-. exact Hfresh. }
        rewrite Heq. eauto. }
    destruct (ep_closed (w_ep w0)) eqn:Hc.
    + rewrite (accept_cb_closed env w0 q Hok Hs Ha Hfresh Hc). eauto.
    + rewrite (accept_cb_started env w0 q Hok Hs Ha Hc). eauto.
  - (* the dialer's connect completes *)
    rewrite after_modify_ep.
    set (w0 := set_w_ep _ w).
    assert (Hps0 : w_pipes w0 = w_pipes w) by (destruct w; reflexivity).
    clearbody w0.
    destruct (decide (a_result (ep_connaio (w_ep w0)) = NNG_OK)) as [Hok|Herr].
    2:{ destruct (dial_cb_aio_error env w0 Herr) as [t2 Heq]. rewrite Heq. eauto. }
    destruct (new_struct env) as [q|] eqn:Hs.
    2:{ destruct (dial_cb_alloc_error env w0 Hok) as (t2 & Heq); auto.
        { intros q Hq. rewrite Hs in Hq. discriminate. }
        rewrite Heq. eauto. }
    assert (Hfresh : w_pipes w0 !! q = None) by (rewrite Hps0; now apply Hen).
    destruct (decide (new_aio_rv env = NNG_OK)) as [Ha|Ha].
    2:{ destruct (dial_cb_alloc_error env w0 Hok) as (t2 & Heq); auto.
        { intros q' Hq'. rewrite Hs in Hq'. injection Hq' as <-. exact Hfresh. }
        rewrite Heq. eauto. }
    destruct (ep_closed (w_ep w0)) eqn:Hc.
    + destruct (dial_cb_closed env w0 q Hok Hs Ha Hfresh Hc) as [t2 Heq].
      rewrite Heq. eauto.
    + rewrite (dial_cb_started env w0 q Hok Hs Ha Hc). eauto.
  - (* the back-off sleep completes *)
    rewrite after_modify_ep. rewrite timer_cb_eq. eauto.
  - (* the negotiation aio of a pipe completes *)
    destruct Hen as [Hin Hlen].
    assert (Hall : p ∈ ep_all_pipes (w_ep w)).
    { unfold ep_all_pipes. rewrite !elem_of_app. auto. }
    destruct (wf_live w Hwf p Hall) as [pp Hp].
    pose proof (wf_backref w Hwf p pp Hp) as Hep.
    rewrite (after_modify_pipe p _ _ w pp Hp).
    set (pp0 := set_p_rxlen rxlen _).
    set (w0 := set_w_pipes _ w).
    assert (Hep0 : p_ep pp0 = Some the_ep).
    { rewrite <- Hep. unfold pp0. destruct pp; reflexivity. }
    assert (Hw0 : w0 = mk_world (w_ep w) (<[p := pp0]> (w_pipes w)) false).
    { unfold w0. destruct w; cbn in *. now subst. }
    assert (Hwf0 : world_wf w0).
    { rewrite Hw0. apply (wf_pipe_update w p pp pp0); assumption. }
    assert (Hp0 : w_pipes w0 !! p = Some pp0).
    { rewrite Hw0. cbn. apply lookup_insert_eq. }
    assert (Hin0 : p ∈ ep_negopipes (w_ep w0)) by (rewrite Hw0; exact Hin).
    clear Hw0. clearbody w0 pp0.
    destruct (decide (a_result (p_negoaio pp0) = NNG_OK)) as [Hok|Herr].
    2:{ rewrite (nego_cb_aio_error w0 p pp0 Hp0 Hep0 Herr).
        rewrite (nego_error_eq w0 p pp0 _ Hp0). eauto. }
    destruct (decide (p_gottxhead (nego_count pp0) < p_wanttxhead (nego_count pp0)))
      as [Htx|Htx].
    { destruct (nego_cb_partial w0 p pp0 Hp0 Hep0 Hok) as (pp' & t' & Heq & Hep').
      { intros [H _]. tauto. }
      rewrite Heq. eauto. }
    destruct (decide (p_gotrxhead (nego_count pp0) < p_wantrxhead (nego_count pp0)))
      as [Hrx|Hrx].
    { destruct (nego_cb_partial w0 p pp0 Hp0 Hep0 Hok) as (pp' & t' & Heq & Hep').
      { intros [_ H]. tauto. }
      rewrite Heq. eauto. }
    assert (Hdone : nego_headers_done pp0) by (split; assumption).
    destruct (nego_header_bad (p_rxlen pp0)) eqn:Hbad.
    + rewrite (nego_cb_bad_header w0 p pp0 Hp0 Hep0 Hok Hdone Hbad). eauto.
    + rewrite (nego_cb_good_header w0 p pp0 Hp0 Hep0 Hok Hdone Hbad).
      apply ep_match_total. cbn.
      intros q Hq. destruct (decide (q = p)) as [->|Hne].
      * rewrite lookup_insert_eq. eauto.
      * rewrite lookup_insert_ne by congruence.
        apply (wf_live w0 Hwf0). unfold ep_all_pipes. rewrite !elem_of_app.
        right. left.
        destruct (w_ep w0); cbn in *. apply elem_of_app in Hq as [Hq|Hq]; [exact Hq|].
        apply list_elem_of_singleton in Hq. congruence.
  - (* a pipe is destroyed *)
    destruct Hcall as [pp Hp]. rewrite (pipe_fini_eq w p pp Hp). eauto.
  - (* activity confined to one pipe *)
    destruct Hcall as [pp Hp]. unfold modify_pipe, on_pipe, modify. rewrite Hp.
    eauto.
Qed.

(** X12: In every state the endpoint can reach and while it is not
    freed, each routine that is called as the transport's callers do
    -- connect and the dial callback on a dialer; accept and the
    accept and timer callbacks on a listener; cancel, close, fini and
    the setting of the receive limit on either; the negotiation
    callback for a pipe on the negotiation list; the destruction of an
    allocated pipe -- runs to completion: every pipe it takes from the
    endpoint's lists or from the user is allocated, and the endpoint
    pointer it reads from a pipe is set.  Calls into the aio and
    stream layers are recorded, not interpreted. *)
Theorem reachable_no_crash (w : tlstran_world) (e : world_event) :
  reachable w -> world_callable e w ->
  exists w' t, world_routine e w = Some (tt, w', t).
Proof.
  intros Hr Hc.
  exact (world_step_total w e (reachable_wf w Hr) Hc).
Qed.


(** ** Invariants of the endpoint and its pipes *)

(** X13: A pipe is on at most one of the endpoint's three lists, and there
    at most once; every listed pipe is allocated and refers back to
    the endpoint. *)
Theorem reachable_pipe_lists (w : tlstran_world) :
  reachable w ->
  NoDup (ep_negopipes (w_ep w) ++ ep_waitpipes (w_ep w) ++ ep_busypipes (w_ep w))
  /\ forall p,
       p ∈ ep_negopipes (w_ep w) ++ ep_waitpipes (w_ep w) ++ ep_busypipes (w_ep w) ->
       exists pp, w_pipes w !! p = Some pp /\ p_ep pp = Some the_ep.
Proof.
  intros Hr. pose proof (reachable_wf w Hr) as Hwf.
  split; [exact (wf_nodup w Hwf)|].
  intros p Hp. destruct (wf_live w Hwf p Hp) as [pp Hpp].
  exists pp. split; [exact Hpp|exact (wf_backref w Hwf p pp Hpp)].
Qed.

(** X14: The endpoint's reference count is the number of pipe structures
    that exist: it is raised when a pipe is started and lowered when a
    pipe is destroyed, and a pipe that is allocated but never started
    is destroyed within the same callback. *)
Theorem reachable_refcnt_counts_pipes (w : tlstran_world) :
  reachable w ->
  ep_refcnt (w_ep w) = Z.of_nat (size (w_pipes w))
  /\ forall p pp, w_pipes w !! p = Some pp -> p_ep pp = Some the_ep.
Proof.
  intros Hr. pose proof (reachable_wf w Hr) as Hwf.
  split; [exact (wf_refcnt w Hwf)|exact (wf_backref w Hwf)].
Qed.

(** X15: The endpoint structure is freed only after its last pipe is gone:
    once it is freed no pipe structure is left to refer to it. *)
Theorem reachable_freed_no_pipes (w : tlstran_world) :
  reachable w ->
  w_ep_freed w = true ->
  w_pipes w = ∅ /\ ep_all_pipes (w_ep w) = [] /\ ep_fini (w_ep w) = true.
Proof.
  intros Hr Hf. pose proof (reachable_wf w Hr) as Hwf.
  destruct (wf_freed w Hwf Hf) as [Hfini Hrc].
  pose proof (wf_refcnt w Hwf) as Hsz.
  assert (Hempty : w_pipes w = ∅).
  { apply map_size_empty_inv. lia. }
  split; [exact Hempty|]. split; [|exact Hfini].
  destruct (ep_all_pipes (w_ep w)) as [|p l] eqn:Hl; [reflexivity|].
  destruct (wf_live w Hwf p) as [pp Hpp]; [rewrite Hl; left|].
  rewrite Hempty, lookup_empty in Hpp. discriminate.
Qed.

(** ** What no routine takes back *)

Lemma ep_flags_kept_refl (e : tlstran_ep) : ep_flags_kept e e.
Proof. unfold ep_flags_kept. tauto. Qed.

Lemma ep_match_flags (w w' : tlstran_world) (t : list call) :
  tlstran_ep_match w = Some (tt, w', t) ->
  ep_flags_kept (w_ep w) (w_ep w').
Proof.
  intros Hrun.
  destruct (ep_useraio (w_ep w)) as [u|] eqn:Hu.
  2:{ rewrite ep_match_noop in Hrun by auto. injection Hrun as <- <-.
      apply ep_flags_kept_refl. }
  destruct (ep_waitpipes (w_ep w)) as [|p rest] eqn:Hw.
  { rewrite ep_match_noop in Hrun by auto. injection Hrun as <- <-.
    apply ep_flags_kept_refl. }
  destruct (w_pipes w !! p) as [pp|] eqn:Hp.
  - rewrite (ep_match_go w u p rest pp Hu Hw Hp) in Hrun.
    injection Hrun as <- <-. unfold ep_flags_kept.
    destruct (w_ep w); cbn. tauto.
  - exfalso. unfold tlstran_ep_match in Hrun. munfold.
    destruct w as [e ps f]; destruct e; cbn in *. subst. cbn in Hrun.
    rewrite Hp in Hrun. discriminate.
Qed.

Ltac flags_explicit :=
  unfold ep_flags_kept;
  match goal with w : tlstran_world |- _ => destruct w as [[] ? ?] end;
  cbn in *; tauto.

Lemma world_step_flags (w w' : tlstran_world) (e : world_event) (t : list call) :
  world_wf w -> world_enabled e w ->
  world_routine e w = Some (tt, w', t) ->
  ep_flags_kept (w_ep w) (w_ep w').
Proof.
  intros Hwf [Hfr Hen] Hrun.
  destruct e as [aio | aio | aio rv | | | copyin val | rv conn env | rv conn env
                 | rv | p rv count rxlen | p | p f]; cbn [world_routine] in Hrun.
  - apply ep_connect_effect in Hrun as [->|[Hc ->]];
      [apply ep_flags_kept_refl|flags_explicit].
  - apply ep_accept_effect in Hrun as [->|[Hc [->|[t' Hm]]]];
      [apply ep_flags_kept_refl|flags_explicit|].
    apply ep_match_flags in Hm. revert Hm. flags_explicit.
  - apply ep_cancel_effect in Hrun as [->| ->];
      [apply ep_flags_kept_refl|flags_explicit].
  - destruct (ep_close_eq w (wf_live w Hwf)) as [t' Ht'].
    rewrite Ht' in Hrun. injection Hrun as <- <-. flags_explicit.
  - rewrite ep_fini_eq in Hrun. injection Hrun as <- <-.
    case_decide; flags_explicit.
  - unfold tlstran_ep_set_recvmaxsz, modify_ep, on_ep, bind, ret, modify in Hrun.
    case_decide; cbn in Hrun; injection Hrun as <- <-; flags_explicit.
  - (* the listener's accept completes *)
    rewrite after_modify_ep in Hrun.
    set (w0 := set_w_ep _ w) in Hrun.
    assert (Hk0 : ep_flags_kept (w_ep w) (w_ep w0)) by (unfold w0; flags_explicit).
    assert (Hps0 : w_pipes w0 = w_pipes w) by (destruct w; reflexivity).
    rename Hrun into Hcb. clearbody w0.
    assert (Hgoal : ep_flags_kept (w_ep w0) (w_ep w')).
    2:{ unfold ep_flags_kept in *. destruct Hk0 as (?&?&?&?&?&?).
        destruct Hgoal as (?&?&?&?&?&?). repeat split; auto; congruence. }
    clear Hk0.
    destruct (decide (a_result (ep_connaio (w_ep w0)) = NNG_OK)) as [Hok|Herr].
    2:{ rewrite (accept_cb_aio_error env w0 Herr) in Hcb. injection Hcb as <- <-.
        clear -w0. flags_explicit. }
    destruct (new_struct env) as [q|] eqn:Hs.
    2:{ destruct (accept_cb_alloc_error env w0 Hok) as (t2 & rv2 & Heq & _); auto.
        { intros q Hq. rewrite Hs in Hq. discriminate. }
        rewrite Heq in Hcb. injection Hcb as <- <-. clear. flags_explicit. }
    assert (Hfresh : w_pipes w0 !! q = None) by (rewrite Hps0; now apply Hen).
    destruct (decide (new_aio_rv env = NNG_OK)) as [Ha|Ha].
    2:{ destruct (accept_cb_alloc_error env w0 Hok) as (t2 & rv2 & Heq & _); auto.
        { intros q' Hq'. rewrite Hs in Hq'. injection Hq' as <-. exact Hfresh. }
        rewrite Heq in Hcb. injection Hcb as <- <-. clear. flags_explicit. }
    destruct (ep_closed (w_ep w0)) eqn:Hc.
    + rewrite (accept_cb_closed env w0 q Hok Hs Ha Hfresh Hc) in Hcb.
      injection Hcb as <- <-. clear. flags_explicit.
    + rewrite (accept_cb_started env w0 q Hok Hs Ha Hc) in Hcb.
      injection Hcb as <- <-. clear. flags_explicit.
  - (* the dialer's connect completes *)
    rewrite after_modify_ep in Hrun.
    set (w0 := set_w_ep _ w) in Hrun.
    assert (Hk0 : ep_flags_kept (w_ep w) (w_ep w0)) by (unfold w0; flags_explicit).
    assert (Hps0 : w_pipes w0 = w_pipes w) by (destruct w; reflexivity).
    rename Hrun into Hcb. clearbody w0.
    assert (Hgoal : ep_flags_kept (w_ep w0) (w_ep w')).
    2:{ unfold ep_flags_kept in *. destruct Hk0 as (?&?&?&?&?&?).
        destruct Hgoal as (?&?&?&?&?&?). repeat split; auto; congruence. }
    clear Hk0.
    destruct (decide (a_result (ep_connaio (w_ep w0)) = NNG_OK)) as [Hok|Herr].
    2:{ destruct (dial_cb_aio_error env w0 Herr) as [t2 Heq].
        rewrite Heq in Hcb. injection Hcb as <- <-. clear. flags_explicit. }
    destruct (new_struct env) as [q|] eqn:Hs.
    2:{ destruct (dial_cb_alloc_error env w0 Hok) as (t2 & Heq); auto.
        { intros q Hq. rewrite Hs in Hq. discriminate. }
        rewrite Heq in Hcb. injection Hcb as <- <-. clear. flags_explicit. }
    assert (Hfresh : w_pipes w0 !! q = None) by (rewrite Hps0; now apply Hen).
    destruct (decide (new_aio_rv env = NNG_OK)) as [Ha|Ha].
    2:{ destruct (dial_cb_alloc_error env w0 Hok) as (t2 & Heq); auto.
        { intros q' Hq'. rewrite Hs in Hq'. injection Hq' as <-. exact Hfresh. }
        rewrite Heq in Hcb. injection Hcb as <- <-. clear. flags_explicit. }
    destruct (ep_closed (w_ep w0)) eqn:Hc.
    + destruct (dial_cb_closed env w0 q Hok Hs Ha Hfresh Hc) as [t2 Heq].
      rewrite Heq in Hcb. injection Hcb as <- <-. clear. flags_explicit.
    + rewrite (dial_cb_started env w0 q Hok Hs Ha Hc) in Hcb.
      injection Hcb as <- <-. clear. flags_explicit.
  - (* the back-off sleep completes *)
    rewrite after_modify_ep in Hrun.
    rewrite timer_cb_eq in Hrun. injection Hrun as <- <-. flags_explicit.
  - (* the negotiation aio of a pipe completes *)
    destruct Hen as [Hin Hlen].
    assert (Hall : p ∈ ep_all_pipes (w_ep w)).
    { unfold ep_all_pipes. rewrite !elem_of_app. auto. }
    destruct (wf_live w Hwf p Hall) as [pp Hp].
    pose proof (wf_backref w Hwf p pp Hp) as Hep.
    rewrite (after_modify_pipe p _ _ w pp Hp) in Hrun.
    set (pp0 := set_p_rxlen rxlen _) in Hrun.
    set (w0 := set_w_pipes _ w) in Hrun.
    assert (Hep0 : p_ep pp0 = Some the_ep).
    { rewrite <- Hep. unfold pp0. destruct pp; reflexivity. }
    assert (He0 : w_ep w0 = w_ep w) by (destruct w; reflexivity).
    assert (Hp0 : w_pipes w0 !! p = Some pp0).
    { unfold w0. destruct w; cbn. apply lookup_insert_eq. }
    rewrite <- He0.
    rename Hrun into Hcb. clear He0. clearbody w0 pp0.
    destruct (decide (a_result (p_negoaio pp0) = NNG_OK)) as [Hok|Herr].
    2:{ rewrite (nego_cb_aio_error w0 p pp0 Hp0 Hep0 Herr) in Hcb.
        rewrite (nego_error_eq w0 p pp0 _ Hp0) in Hcb. injection Hcb as <- <-.
        clear. flags_explicit. }
    destruct (decide (p_gottxhead (nego_count pp0) < p_wanttxhead (nego_count pp0)))
      as [Htx|Htx].
    { destruct (nego_cb_partial w0 p pp0 Hp0 Hep0 Hok) as (pp' & t' & Heq & Hep').
      { intros [H _]. tauto. }
      rewrite Heq in Hcb. injection Hcb as <- <-. clear. flags_explicit. }
    destruct (decide (p_gotrxhead (nego_count pp0) < p_wantrxhead (nego_count pp0)))
      as [Hrx|Hrx].
    { destruct (nego_cb_partial w0 p pp0 Hp0 Hep0 Hok) as (pp' & t' & Heq & Hep').
      { intros [_ H]. tauto. }
      rewrite Heq in Hcb. injection Hcb as <- <-. clear. flags_explicit. }
    assert (Hdone : nego_headers_done pp0) by (split; assumption).
    destruct (nego_header_bad (p_rxlen pp0)) eqn:Hbad.
    + rewrite (nego_cb_bad_header w0 p pp0 Hp0 Hep0 Hok Hdone Hbad) in Hcb.
      injection Hcb as <- <-. clear. flags_explicit.
    + rewrite (nego_cb_good_header w0 p pp0 Hp0 Hep0 Hok Hdone Hbad) in Hcb.
      apply ep_match_flags in Hcb. revert Hcb. clear. flags_explicit.
  - (* a pipe is destroyed *)
    destruct (w_pipes w !! p) as [pp|] eqn:Hp.
    2:{ unfold tlstran_pipe_fini, on_pipe, bind in Hrun. rewrite Hp in Hrun.
        discriminate. }
    rewrite (pipe_fini_eq w p pp Hp) in Hrun. injection Hrun as <- <-.
    destruct (p_ep pp); [|flags_explicit].
    unfold nni_list_node_remove. clear. flags_explicit.
  - (* activity confined to one pipe *)
    unfold modify_pipe, on_pipe, modify in Hrun.
    destruct (w_pipes w !! p) as [pp|] eqn:Hp; [|discriminate].
    injection Hrun as <- <-. flags_explicit.
Qed.

(** X16: No routine reopens a closed endpoint, clears its fini or started
    flag, or changes its protocol id or its kind (dialer or listener). *)
Theorem flags_never_reset (w w' : tlstran_world) (e : world_event) (t : list call) :
  reachable w -> world_enabled e w ->
  world_routine e w = Some (tt, w', t) ->
  ep_flags_kept (w_ep w) (w_ep w').
Proof.
  intros Hr He Hrun. exact (world_step_flags w w' e t (reachable_wf w Hr) He Hrun).
Qed.


(** ** Closing the endpoint *)

Lemma foreach_close_calls (l : list nat) (w : tlstran_world) :
  (forall p, p ∈ l -> is_Some (w_pipes w !! p)) ->
  NNI_LIST_FOREACH l (fun p => on_pipe p tlstran_pipe_close) w =
    Some (tt, w, flat_map (pipe_close_calls (w_pipes w)) l).
Proof.
  induction l as [|p l IH]; intros Hlive.
  - reflexivity.
  - destruct (Hlive p ltac:(left)) as [pp Hp].
    cbn [NNI_LIST_FOREACH flat_map]. unfold bind at 1.
    rewrite (on_pipe_close w p pp Hp).
    rewrite IH by (intros q Hq; apply Hlive; now right).
    assert (Hc : pipe_close_calls (w_pipes w) p =
                 map (c_on_pipe p)
                   [c_nni_aio_close RXAIO; c_nni_aio_close TXAIO;
                    c_nni_aio_close NEGOAIO; c_nng_stream_close (p_tls pp)]).
    { unfold pipe_close_calls. now rewrite Hp. }
    rewrite Hc. reflexivity.
Qed.

Lemma ep_close_trace (w : tlstran_world) :
  (forall p, p ∈ ep_all_pipes (w_ep w) -> is_Some (w_pipes w !! p)) ->
  tlstran_ep_close w =
    Some (tt, set_w_ep (set_ep_useraio None (set_ep_closed true (w_ep w))) w,
          ep_close_calls w).
Proof.
  intros Hlive. unfold tlstran_ep_close, ep_close_calls, ep_all_pipes.
  rewrite !flat_map_app.
  set (w1 := set_w_ep (set_ep_closed true (w_ep w)) w).
  assert (Hps : w_pipes w1 = w_pipes w) by (destruct w; reflexivity).
  assert (Hl1 : forall l : list nat,
                (forall p, p ∈ l -> p ∈ ep_all_pipes (w_ep w)) ->
                forall p, p ∈ l -> is_Some (w_pipes w1 !! p)).
  { intros l Hsub p Hp. rewrite Hps. auto. }
  pose proof (foreach_close_calls (ep_negopipes (w_ep w)) w1) as H1.
  pose proof (foreach_close_calls (ep_waitpipes (w_ep w)) w1) as H2.
  pose proof (foreach_close_calls (ep_busypipes (w_ep w)) w1) as H3.
  rewrite Hps in H1, H2, H3.
  specialize (H1 ltac:(intros p Hp; apply Hlive; unfold ep_all_pipes;
                       rewrite !elem_of_app; auto)).
  specialize (H2 ltac:(intros p Hp; apply Hlive; unfold ep_all_pipes;
                       rewrite !elem_of_app; auto)).
  specialize (H3 ltac:(intros p Hp; apply Hlive; unfold ep_all_pipes;
                       rewrite !elem_of_app; auto)).
  unfold modify_ep, get_ep, on_ep, bind, ret, modify, emit.
  change (set_w_ep (set_ep_closed true (w_ep w)) w) with w1.
  assert (He : w_ep w1 = set_ep_closed true (w_ep w)) by (destruct w; reflexivity).
  rewrite He.
  replace (ep_negopipes (set_ep_closed true (w_ep w))) with (ep_negopipes (w_ep w))
    by (destruct (w_ep w); reflexivity).
  replace (ep_waitpipes (set_ep_closed true (w_ep w))) with (ep_waitpipes (w_ep w))
    by (destruct (w_ep w); reflexivity).
  replace (ep_busypipes (set_ep_closed true (w_ep w))) with (ep_busypipes (w_ep w))
    by (destruct (w_ep w); reflexivity).
  replace (ep_useraio (set_ep_closed true (w_ep w))) with (ep_useraio (w_ep w))
    by (destruct (w_ep w); reflexivity).
  replace (ep_dialer (set_ep_closed true (w_ep w))) with (ep_dialer (w_ep w))
    by (destruct (w_ep w); reflexivity).
  replace (ep_listener (set_ep_closed true (w_ep w))) with (ep_listener (w_ep w))
    by (destruct (w_ep w); reflexivity).
  revert H1 H2 H3.
  generalize (flat_map (pipe_close_calls (w_pipes w)) (ep_negopipes (w_ep w))).
  generalize (flat_map (pipe_close_calls (w_pipes w)) (ep_waitpipes (w_ep w))).
  generalize (flat_map (pipe_close_calls (w_pipes w)) (ep_busypipes (w_ep w))).
  intros l3 l2 l1 H1 H2 H3.
  destruct (ep_dialer (w_ep w)); destruct (ep_listener (w_ep w));
    rewrite H1, H2, H3;
    destruct (ep_useraio (w_ep w)) as [u|] eqn:Hu;
    unfold w1; destruct w as [e ps f]; destruct e; cbn in *; subst;
    rewrite ?app_nil_r, <- ?app_assoc; reflexivity.
Qed.

Lemma completions_pipe_close (ps : gmap nat tlstran_pipe) (l : list nat) :
  completions (flat_map (pipe_close_calls ps) l) = [].
Proof.
  induction l as [|p l IH]; [reflexivity|].
  cbn [flat_map]. rewrite completions_app, IH, app_nil_r.
  unfold pipe_close_calls. destruct (ps !! p); reflexivity.
Qed.

(** X17: Closing an endpoint closes the stream of every pipe on its three
    lists and completes a pending user aio with the closed error; the
    pipes stay allocated and listed.  From then on a connect or an
    accept is completed with the closed error at once. *)
Theorem ep_close_shuts_everything (w : tlstran_world) :
  reachable w ->
  exists w',
    tlstran_ep_close w = Some (tt, w', ep_close_calls w)
    /\ ep_closed (w_ep w') = true
    /\ ep_useraio (w_ep w') = None
    /\ w_pipes w' = w_pipes w
    /\ ep_all_pipes (w_ep w') = ep_all_pipes (w_ep w)
    /\ completions (ep_close_calls w) =
         match ep_useraio (w_ep w) with
         | Some u => [(ua_id u, NNG_ECLOSED)]
         | None => []
         end
    /\ (forall p, p ∈ ep_all_pipes (w_ep w) ->
          exists pp, w_pipes w !! p = Some pp
                     /\ c_on_pipe p (c_nng_stream_close (p_tls pp)) ∈ ep_close_calls w)
    /\ (forall aio, nni_aio_begin aio = NNG_OK ->
          tlstran_ep_connect aio w' =
            Some (tt, w', [c_nni_aio_finish_error (ua_id aio) NNG_ECLOSED])
          /\ tlstran_ep_accept aio w' =
            Some (tt, w', [c_nni_aio_finish_error (ua_id aio) NNG_ECLOSED])).
Proof.
  intros Hr. pose proof (reachable_wf w Hr) as Hwf.
  rewrite (ep_close_trace w (wf_live w Hwf)).
  eexists. split; [reflexivity|].
  split; [destruct w as [[] ? ?]; reflexivity|].
  split; [destruct w as [[] ? ?]; reflexivity|].
  split; [destruct w as [[] ? ?]; reflexivity|].
  split; [destruct w as [[] ? ?]; reflexivity|].
  split.
  { unfold ep_close_calls. rewrite !completions_app, completions_pipe_close.
    destruct (ep_dialer (w_ep w)), (ep_listener (w_ep w)), (ep_useraio (w_ep w));
      reflexivity. }
  split.
  { intros p Hp. destruct (wf_live w Hwf p Hp) as [pp Hpp].
    exists pp. split; [exact Hpp|].
    unfold ep_close_calls. rewrite !elem_of_app. right. right. right. left.
    apply list_elem_of_In, in_flat_map. exists p.
    split; [now apply list_elem_of_In|]. apply list_elem_of_In.
    unfold pipe_close_calls. rewrite Hpp. cbn. rewrite !elem_of_cons. auto 10. }
  intros aio Hb.
  set (w' := set_w_ep _ w).
  assert (Hc : ep_closed (w_ep w') = true) by (destruct w as [[] ? ?]; reflexivity).
  clearbody w'.
  unfold tlstran_ep_connect, tlstran_ep_accept.
  destruct (decide (nni_aio_begin aio <> NNG_OK)) as [Hn|_]; [congruence|].
  unfold bind, get_ep. cbv beta iota. rewrite Hc. split; reflexivity.
Qed.

(** ** Cancelling the posted user aio *)

(** X18: Cancelling the user aio that is posted on the endpoint completes it
    with the given error and frees the slot, so that the next connect
    is accepted; cancelling any other aio does nothing. *)
Theorem ep_cancel_frees_slot (w : tlstran_world) (u aio other : user_aio)
  (rv : nng_err) :
  ep_useraio (w_ep w) = Some u ->
  ep_closed (w_ep w) = false ->
  nni_aio_begin aio = NNG_OK ->
  nni_aio_schedule aio = NNG_OK ->
  ua_id other <> ua_id u ->
  tlstran_ep_cancel other rv w = Some (tt, w, [])
  /\ tlstran_ep_cancel u rv w =
       Some (tt, set_w_ep (set_ep_useraio None (w_ep w)) w,
             [c_nni_aio_finish_error (ua_id u) rv])
  /\ (tlstran_ep_cancel u rv >> tlstran_ep_connect aio) w =
       Some (tt, set_w_ep (set_ep_useraio (Some aio) (w_ep w)) w,
             [c_nni_aio_finish_error (ua_id u) rv;
              c_nng_stream_dialer_dial CONNAIO]).
Proof.
  intros Hu Hc Hb Hs Hother.
  assert (Hcancel : tlstran_ep_cancel u rv w =
                    Some (tt, set_w_ep (set_ep_useraio None (w_ep w)) w,
                          [c_nni_aio_finish_error (ua_id u) rv])).
  { unfold tlstran_ep_cancel. munfold. rewrite Hu.
    rewrite decide_True by reflexivity. reflexivity. }
  split; [|split; [exact Hcancel|]].
  - unfold tlstran_ep_cancel. munfold. rewrite Hu.
    rewrite decide_False by congruence. reflexivity.
  - unfold bind at 1. rewrite Hcancel.
    unfold tlstran_ep_connect.
    rewrite !decide_False by (rewrite ?Hb, ?Hs; intros H; now apply H).
    munfold. destruct w as [[] ? ?]; cbn in *. subst. reflexivity.
Qed.

(** ** The receive limit *)

(** X19: A new receive limit reaches a pipe when the pipe is matched with a
    user aio: the pipe matched next carries the new value, the pipes
    handed out before keep theirs, and a value that fails validation
    changes nothing. *)
Theorem recvmaxsz_applies_at_match (w : tlstran_world) (u : user_aio)
  (p : nat) (rest : list nat) (pp : tlstran_pipe) (val : Z) (bad : nng_err) :
  ep_useraio (w_ep w) = Some u ->
  ep_waitpipes (w_ep w) = p :: rest ->
  w_pipes w !! p = Some pp ->
  bad <> NNG_OK ->
  tlstran_ep_set_recvmaxsz bad val w = Some (bad, w, [])
  /\ exists w' t,
       (tlstran_ep_set_recvmaxsz NNG_OK val >> tlstran_ep_match) w = Some (tt, w', t)
       /\ w_pipes w' = <[p := set_p_rcvmax val pp]> (w_pipes w)
       /\ ep_busypipes (w_ep w') = ep_busypipes (w_ep w) ++ [p]
       /\ ep_waitpipes (w_ep w') = rest
       /\ ep_rcvmax (w_ep w') = val.
Proof.
  intros Hu Hw Hp Hbad. split.
  - unfold tlstran_ep_set_recvmaxsz. munfold.
    rewrite decide_False by exact Hbad. reflexivity.
  - unfold tlstran_ep_set_recvmaxsz.
    rewrite decide_True by reflexivity.
    unfold bind at 1 2. unfold modify_ep at 1, on_ep at 1, modify at 1, ret at 1.
    cbn [fst snd].
    set (w1 := set_w_ep (set_ep_rcvmax val (w_ep w)) w).
    rewrite (ep_match_go w1 u p rest pp); cycle 1.
    { unfold w1. destruct w as [[] ? ?]; exact Hu. }
    { unfold w1. destruct w as [[] ? ?]; exact Hw. }
    { unfold w1. destruct w as [[] ? ?]; exact Hp. }
    eexists _, _. split; [reflexivity|].
    unfold w1. destruct w as [[] ? ?]; cbn in *. subst. repeat split; reflexivity.
Qed.

(** ** Allocation and reaping of pipes *)

(** X20: A pipe allocation that fails leaves no pipe behind: the set of
    allocated pipes and the endpoint are as before, and a structure
    that was obtained before the failure is freed again. *)
Theorem pipe_alloc_failure_clean (env : alloc_env) (w : tlstran_world) :
  (forall p, new_struct env = Some p -> w_pipes w !! p = None) ->
  new_struct env = None \/ new_aio_rv env <> NNG_OK ->
  exists rv t,
    tlstran_pipe_alloc env w = Some ((rv, None), w, t)
    /\ rv <> NNG_OK
    /\ (new_struct env = None -> rv = NNG_ENOMEM /\ t = [])
    /\ (forall p, new_struct env = Some p ->
          rv = new_aio_rv env /\ c_on_pipe p c_free_pipe ∈ t
          /\ c_nni_reap_ep ∉ t).
Proof.
  intros Hfresh Hfail.
  destruct (new_struct env) as [p|] eqn:Hs.
  - destruct Hfail as [|Ha]; [discriminate|].
    rewrite (pipe_alloc_aio_failure env w p Hs Ha (Hfresh p eq_refl)).
    eexists _, _. split; [reflexivity|]. split; [exact Ha|].
    split; [discriminate|]. intros ? [= <-].
    split; [reflexivity|]. unfold fini_unstarted_calls. cbn.
    split; [rewrite !elem_of_cons; auto 12|].
    rewrite !elem_of_cons. intros H.
    repeat (destruct H as [H|H]; [discriminate|]). inversion H.
  - rewrite (pipe_alloc_no_memory env w Hs).
    eexists _, _. split; [reflexivity|]. split; [discriminate|].
    split; [auto|discriminate].
Qed.

(** X21: A pipe is handed to the reaper at most once: the first reap closes
    its stream (if it has one) and queues it, a second reap does
    nothing. *)
Theorem pipe_reap_once (w : tlstran_world) (p : nat) (pp : tlstran_pipe) :
  w_pipes w !! p = Some pp ->
  exists w1,
    tlstran_pipe_reap p w = Some (tt, w1, reap_calls p pp)
    /\ tlstran_pipe_reap p w1 = Some (tt, w1, [])
    /\ (p_reaped pp = false -> c_nni_reap_pipe p ∈ reap_calls p pp)
    /\ (p_reaped pp = true -> reap_calls p pp = []).
Proof.
  intros Hp. rewrite (pipe_reap_eq w p pp Hp).
  eexists. split; [reflexivity|].
  split.
  - erewrite pipe_reap_eq by (cbn; apply lookup_insert_eq).
    cbn. rewrite insert_insert_eq.
    unfold reap_calls. destruct pp; reflexivity.
  - unfold reap_calls. split; intros ->; [|reflexivity].
    apply elem_of_app. right. left.
Qed.

(** ** A failed dial *)

(** X22: A dial that fails -- the connect itself, the allocation of the
    pipe, or because the endpoint was closed meanwhile -- is reported to
    the posted user aio once, leaves no pipe behind, frees a connection
    that was established, and is not retried. *)
Theorem dial_cb_failure (env : alloc_env) (w : tlstran_world) :
  (forall p, new_struct env = Some p -> w_pipes w !! p = None) ->
  a_result (ep_connaio (w_ep w)) <> NNG_OK \/ new_struct env = None
  \/ new_aio_rv env <> NNG_OK \/ ep_closed (w_ep w) = true ->
  exists rv t,
    tlstran_dial_cb env w =
      Some (tt, set_w_ep (set_ep_useraio None (w_ep w)) w,
            t ++ dial_error_calls rv (w_ep w))
    /\ rv <> NNG_OK
    /\ completions t = []
    /\ (c_nng_stream_dialer_dial CONNAIO ∉ t ++ dial_error_calls rv (w_ep w))
    /\ (a_result (ep_connaio (w_ep w)) = NNG_OK ->
        c_nng_stream_free (a_output (ep_connaio (w_ep w))) ∈ t).
Proof.
  intros Hfresh Hfail.
  assert (Hnodial : forall rv, c_nng_stream_dialer_dial CONNAIO
                               ∉ dial_error_calls rv (w_ep w)).
  { intros rv. unfold dial_error_calls. destruct (ep_useraio (w_ep w)).
    - rewrite elem_of_cons. intros [H|H]; [discriminate|inversion H].
    - apply not_elem_of_nil. }
  assert (Hfini : forall p, completions (fini_unstarted_calls p) = []
                  /\ c_nng_stream_dialer_dial CONNAIO ∉ fini_unstarted_calls p).
  { intros p. split; [reflexivity|]. unfold fini_unstarted_calls. cbn.
    rewrite !elem_of_cons. intros H.
    repeat (destruct H as [H|H]; [discriminate|]). inversion H. }
  unfold tlstran_dial_cb, get_ep, bind.
  destruct (decide (a_result (ep_connaio (w_ep w)) = NNG_OK)) as [Hok|Herr].
  2:{ rewrite decide_True by exact Herr. rewrite dial_error_eq.
      exists (a_result (ep_connaio (w_ep w))), [].
      split; [reflexivity|]. split; [exact Herr|]. split; [reflexivity|].
      split; [apply Hnodial|]. intros H. contradiction. }
  rewrite decide_False by (rewrite Hok; intros H; now apply H).
  destruct (new_struct env) as [p|] eqn:Hs.
  2:{ rewrite (pipe_alloc_no_memory env w Hs).
      cbn [fst snd]. rewrite decide_True by discriminate.
      unfold emit. rewrite dial_error_eq.
      exists NNG_ENOMEM, [c_nng_stream_free (a_output (ep_connaio (w_ep w)))].
      split; [reflexivity|]. split; [discriminate|]. split; [reflexivity|].
      split; [|intros _; left].
      rewrite elem_of_app, elem_of_cons. intros [[H|H]|H];
        [discriminate|inversion H|exact (Hnodial _ H)]. }
  destruct (decide (new_aio_rv env = NNG_OK)) as [Ha|Ha].
  2:{ rewrite (pipe_alloc_aio_failure env w p Hs Ha (Hfresh p eq_refl)).
      cbn [fst snd]. rewrite decide_True by exact Ha.
      unfold emit. rewrite dial_error_eq.
      exists (new_aio_rv env),
        (fini_unstarted_calls p ++ [c_nng_stream_free (a_output (ep_connaio (w_ep w)))]).
      split; [now rewrite <- app_assoc|]. split; [exact Ha|].
      split; [rewrite completions_app; reflexivity|].
      split; [|intros _; apply elem_of_app; right; left].
      rewrite !elem_of_app, elem_of_cons. intros [[H|[H|H]]|H];
        [exact (proj2 (Hfini p) H)|discriminate|inversion H|exact (Hnodial _ H)]. }
  destruct Hfail as [H|[H|[H|Hc]]]; try congruence.
  rewrite (pipe_alloc_ok env w p Hs Ha).
  cbn [fst snd]. rewrite decide_False by (intros H; now apply H).
  unfold deref, ret. rewrite Hc.
  rewrite (fini_fresh_pipe w p (Hfresh p eq_refl)).
  unfold emit. rewrite dial_error_eq.
  exists NNG_ECLOSED,
    (fini_unstarted_calls p ++ [c_nng_stream_free (a_output (ep_connaio (w_ep w)))]).
  split; [now rewrite <- app_assoc|]. split; [discriminate|].
  split; [rewrite completions_app; reflexivity|].
  split; [|intros _; apply elem_of_app; right; left].
  rewrite !elem_of_app, elem_of_cons. intros [[H|[H|H]]|H];
    [exact (proj2 (Hfini p) H)|discriminate|inversion H|exact (Hnodial _ H)].
Qed.

(** ** Accepting *)

(** X23: The first accept on a listener starts the accept loop and waits;
    a later accept never posts another stream accept: it takes the
    oldest waiting pipe at once if there is one, and waits otherwise. *)
Theorem ep_accept_starts_once (w : tlstran_world) (aio : user_aio) :
  reachable w ->
  nni_aio_begin aio = NNG_OK ->
  nni_aio_schedule aio = NNG_OK ->
  ep_closed (w_ep w) = false ->
  ep_useraio (w_ep w) = None ->
  (ep_started (w_ep w) = false ->
   tlstran_ep_accept aio w =
     Some (tt,
           set_w_ep (set_ep_started true (set_ep_useraio (Some aio) (w_ep w))) w,
           [c_nng_stream_listener_accept CONNAIO]))
  /\ (ep_started (w_ep w) = true -> ep_waitpipes (w_ep w) = [] ->
      tlstran_ep_accept aio w =
        Some (tt, set_w_ep (set_ep_useraio (Some aio) (w_ep w)) w, []))
  /\ (forall p rest,
        ep_started (w_ep w) = true -> ep_waitpipes (w_ep w) = p :: rest ->
        exists w',
          tlstran_ep_accept aio w =
            Some (tt, w',
                  [c_nni_aio_set_output (ua_id aio) 0 p;
                   c_nni_aio_finish (ua_id aio) NNG_OK 0])
          /\ ep_useraio (w_ep w') = None
          /\ ep_waitpipes (w_ep w') = rest
          /\ ep_busypipes (w_ep w') = ep_busypipes (w_ep w) ++ [p]).
Proof.
  intros Hr Hb Hs Hc Hu. pose proof (reachable_wf w Hr) as Hwf.
  assert (Hpre : tlstran_ep_accept aio w =
                 (if negb (ep_started (w_ep w))
                  then (modify_ep (set_ep_started true) >>
                        emit (c_nng_stream_listener_accept CONNAIO))%tls
                  else tlstran_ep_match)
                   (set_w_ep (set_ep_useraio (Some aio) (w_ep w)) w)).
  { unfold tlstran_ep_accept.
    destruct (decide (nni_aio_begin aio <> NNG_OK)) as [Hn|_]; [congruence|].
    unfold bind at 1, get_ep at 1. rewrite Hc, Hu.
    rewrite bool_decide_eq_false_2 by (intros H; now apply H).
    destruct (decide (nni_aio_schedule aio <> NNG_OK)) as [Hn|_]; [congruence|].
    rewrite after_modify_ep.
    destruct (_ (set_w_ep (set_ep_useraio (Some aio) (w_ep w)) w))
      as [[[[] ?] ?]|]; reflexivity. }
  rewrite Hpre. split; [|split].
  - intros Hst. rewrite Hst. cbn [negb]. munfold.
    destruct w as [[] ? ?]; reflexivity.
  - intros Hst Hw. rewrite Hst. cbn [negb].
    apply ep_match_noop. right. destruct w as [[] ? ?]; exact Hw.
  - intros p rest Hst Hw. rewrite Hst. cbn [negb].
    destruct (wf_live w Hwf p) as [pp Hp].
    { unfold ep_all_pipes. rewrite Hw, !elem_of_app. right. left. left. }
    rewrite (ep_match_go _ aio p rest pp); cycle 1.
    { destruct w as [[] ? ?]; reflexivity. }
    { destruct w as [[] ? ?]; exact Hw. }
    { destruct w as [[] ? ?]; exact Hp. }
    eexists. split; [reflexivity|].
    destruct w as [[] ? ?]; cbn in *. repeat split; reflexivity.
Qed.


(** ** The negotiation header *)

Lemma reachable_proto_range (w : tlstran_world) :
  reachable w -> 0 <= ep_proto (w_ep w) < uint16_max.
Proof.
  induction 1 as [proto dialer|w e w' t Hr IH He Hrun].
  - cbn. apply Z.mod_pos_bound. reflexivity.
  - destruct (world_step_flags w w' e t (reachable_wf w Hr) He Hrun)
      as (_ & _ & _ & Hp & _).
    now rewrite Hp.
Qed.

Lemma start_header_valid (proto : Z) :
  nego_header_valid ([x00; char_S; char_P; x00] ++ NNI_PUT16 proto ++ NNI_PUT16 0).
Proof. unfold nego_header_valid, NNI_PUT16. cbn. repeat split; reflexivity. Qed.

Lemma start_header_peer (proto : Z) :
  peer_word ([x00; char_S; char_P; x00] ++ NNI_PUT16 proto ++ NNI_PUT16 0)
  = proto mod uint16_max.
Proof.
  rewrite <- nego_peer_word by reflexivity.
  rewrite <- NNI_GET16_PUT16.
  unfold NNI_PUT16. cbn [app drop]. now rewrite !NNI_GET16_word.
Qed.

Lemma nego_cb_accepts (w : tlstran_world) (p : nat) (pp : tlstran_pipe) :
  world_wf w ->
  w_pipes w !! p = Some pp ->
  p ∈ ep_negopipes (w_ep w) ->
  length (p_rxlen pp) = 8%nat ->
  a_result (p_negoaio pp) = NNG_OK ->
  nego_headers_done pp ->
  nego_header_valid (p_rxlen pp) ->
  exists w' t,
    tlstran_pipe_nego_cb p w = Some (tt, w', t)
    /\ nego_succeeded p w'
    /\ p_peer <$> (w_pipes w' !! p) = Some (peer_word (p_rxlen pp))
    /\ Forall (fun c => is_error_completion c = false) t.
Proof.
  intros Hwf Hp Hin Hlen Hrv Hdone Hv.
  pose proof (wf_backref w Hwf p pp Hp) as Hep.
  destruct (wf_nego_only w p Hwf Hin) as (Hnd & Hnw & Hnb).
  assert (Hbad : nego_header_bad (p_rxlen pp) = false)
    by (now apply nego_header_bad_valid).
  rewrite (nego_cb_good_header w p pp Hp Hep Hrv Hdone Hbad).
  rewrite (nego_peer_word _ Hlen).
  set (pp1 := set_p_peer (peer_word (p_rxlen pp)) (nego_count pp)).
  set (w1 := mk_world _ _ _).
  assert (Hnot : p ∉ nni_list_remove p (ep_negopipes (w_ep w)))
    by (now apply nni_list_remove_notin).
  destruct (ep_useraio (w_ep w)) as [u|] eqn:Hu.
  - destruct (ep_waitpipes (w_ep w)) as [|q rest] eqn:Hw.
    + rewrite (ep_match_go w1 u p [] pp1); cycle 1.
      { unfold w1. destruct w as [e ps f]; destruct e; cbn in *. exact Hu. }
      { unfold w1. destruct w as [e ps f]; destruct e; cbn in *. reflexivity. }
      { unfold w1. cbn. apply lookup_insert_eq. }
      eexists _, _. split; [reflexivity|].
      split; [|split].
      * unfold nego_succeeded, w1.
        destruct w as [e ps f]; destruct e; cbn in *.
        split; [exact Hnot|]. right. apply elem_of_app. right. left.
      * unfold w1. cbn. rewrite lookup_insert_eq. unfold pp1.
        cbn. destruct (nego_count pp); reflexivity.
      * repeat constructor.
    + assert (Hq : q ∈ ep_all_pipes (w_ep w)).
      { unfold ep_all_pipes. rewrite ?Hw, !elem_of_app. right. left. left. }
      destruct (wf_live w Hwf q Hq) as [pq Hpq].
      assert (Hqp : q <> p).
      { intros ->. apply Hnw. rewrite ?Hw. left. }
      rewrite (ep_match_go w1 u q (rest ++ [p]) pq); cycle 1.
      { unfold w1. destruct w as [e ps f]; destruct e; cbn in *. exact Hu. }
      { unfold w1. destruct w as [e ps f]; destruct e; cbn in *. reflexivity. }
      { unfold w1. cbn. rewrite lookup_insert_ne by congruence. exact Hpq. }
      eexists _, _. split; [reflexivity|].
      split; [|split].
      * unfold nego_succeeded, w1.
        destruct w as [e ps f]; destruct e; cbn in *.
        split; [exact Hnot|]. left. apply elem_of_app. right. left.
      * unfold w1. cbn. rewrite lookup_insert_ne by exact Hqp.
        rewrite lookup_insert_eq. unfold pp1.
        cbn. destruct (nego_count pp); reflexivity.
      * repeat constructor.
  - rewrite (ep_match_noop w1); cycle 1.
    { left. unfold w1. destruct w as [e ps f]; destruct e; cbn in *. exact Hu. }
    eexists _, _. split; [reflexivity|].
    split; [|split].
    + unfold nego_succeeded, w1.
      destruct w as [e ps f]; destruct e; cbn in *.
      split; [exact Hnot|]. left. apply elem_of_app. right. left.
    + unfold w1. cbn. rewrite lookup_insert_eq. unfold pp1.
      cbn. destruct (nego_count pp); reflexivity.
    + constructor.
Qed.

(** X24: The pipe that [tlstran_accept_cb] and [tlstran_dial_cb] have
    just allocated -- zeroed, with its three aios, on no list of the
    endpoint -- is started like this: the endpoint's reference count
    goes up by one, the pipe gets the connection and the pointer to
    the endpoint, goes to the end of the negotiating list and
    submits on its negotiation aio, with a 10 second timeout, the
    8-byte header [00 'S' 'P' 00 hi lo 00 00] that carries the
    endpoint's protocol id; nothing else is called. *)
Theorem pipe_start_sends_header (w : tlstran_world) (env : alloc_env) (p : nat)
  (conn : option nat) :
  reachable w ->
  new_struct env = Some p ->
  new_aio_rv env = NNG_OK ->
  w_pipes w !! p = None ->
  exists w1 w' pp',
    tlstran_pipe_alloc env w = Some ((NNG_OK, Some p), w1, [])
    /\ tlstran_pipe_start p conn w1 =
      Some (tt, w', [c_on_pipe p (c_nng_stream_send conn NEGOAIO [mk_iov buf_txlen 0 8])])
    /\ w_pipes w' !! p = Some pp'
    /\ gather pp' [mk_iov buf_txlen 0 8] =
         [x00; char_S; char_P; x00] ++ NNI_PUT16 (ep_proto (w_ep w)) ++ [x00; x00]
    /\ NNI_GET16 (NNI_PUT16 (ep_proto (w_ep w))) = ep_proto (w_ep w)
    /\ a_timeout (p_negoaio pp') = Some 10000
    /\ p_ep pp' = Some the_ep
    /\ p_tls pp' = conn
    /\ (p ∉ ep_all_pipes (w_ep w))
    /\ ep_negopipes (w_ep w') = ep_negopipes (w_ep w) ++ [p]
    /\ ep_waitpipes (w_ep w') = ep_waitpipes (w_ep w)
    /\ ep_busypipes (w_ep w') = ep_busypipes (w_ep w)
    /\ ep_refcnt (w_ep w') = ep_refcnt (w_ep w) + 1.
Proof.
  intros Hr Hs Ha Hfresh.
  rewrite (pipe_alloc_ok env w p Hs Ha).
  assert (Hp : w_pipes (set_w_pipes (<[p := pipe_zero]> (w_pipes w)) w) !! p
               = Some pipe_zero).
  { destruct w; cbn. apply lookup_insert_eq. }
  exists (set_w_pipes (<[p := pipe_zero]> (w_pipes w)) w).
  rewrite (pipe_start_eq _ p pipe_zero conn Hp).
  eexists _, _. split; [reflexivity|]. split; [reflexivity|].
  split; [cbn; apply lookup_insert_eq|].
  split; [reflexivity|].
  split.
  { rewrite NNI_GET16_PUT16. apply Z.mod_small. now apply reachable_proto_range. }
  split; [reflexivity|].
  split; [reflexivity|].
  split; [reflexivity|].
  split.
  { intros Hin. destruct (wf_live w (reachable_wf w Hr) p Hin) as [pp Hpp].
    congruence. }
  repeat split; destruct w as [[] ? ?]; reflexivity.
Qed.

(** X25: Two endpoints running this transport agree: the header that
    one side submits when it starts a pipe it has just allocated is
    accepted by the other side's negotiation callback once it has
    arrived in full, which records the sender's protocol id as the
    peer of its pipe, moves the pipe off the negotiating list and
    reports no error. *)
Theorem handshake_interop
  (wa : tlstran_world) (env : alloc_env) (pa : nat) (conn : option nat)
  (wb : tlstran_world) (pb : nat) (ppb : tlstran_pipe) :
  reachable wa ->
  new_struct env = Some pa ->
  new_aio_rv env = NNG_OK ->
  reachable wb ->
  w_pipes wb !! pb = Some ppb ->
  pb ∈ ep_negopipes (w_ep wb) ->
  a_result (p_negoaio ppb) = NNG_OK ->
  nego_headers_done ppb ->
  exists wa1 wa' ppa' v,
    tlstran_pipe_alloc env wa = Some ((NNG_OK, Some pa), wa1, [])
    /\ tlstran_pipe_start pa conn wa1 =
         Some (tt, wa', [c_on_pipe pa (c_nng_stream_send conn NEGOAIO v)])
    /\ w_pipes wa' !! pa = Some ppa'
    /\ length (gather ppa' v) = 8%nat
    /\ (p_rxlen ppb = gather ppa' v ->
        exists wb' tb,
          tlstran_pipe_nego_cb pb wb = Some (tt, wb', tb)
          /\ nego_succeeded pb wb'
          /\ tlstran_pipe_peer <$> (w_pipes wb' !! pb) = Some (ep_proto (w_ep wa))
          /\ Forall (fun c => is_error_completion c = false) tb).
Proof.
  intros Hra Hs Ha Hrb Hpb Hin Hrv Hdone.
  rewrite (pipe_alloc_ok env wa pa Hs Ha).
  assert (Hp : w_pipes (set_w_pipes (<[pa := pipe_zero]> (w_pipes wa)) wa) !! pa
               = Some pipe_zero).
  { destruct wa; cbn. apply lookup_insert_eq. }
  exists (set_w_pipes (<[pa := pipe_zero]> (w_pipes wa)) wa).
  rewrite (pipe_start_eq _ pa pipe_zero conn Hp).
  eexists _, _, _. split; [reflexivity|]. split; [reflexivity|].
  split; [cbn; apply lookup_insert_eq|].
  split; [reflexivity|].
  intros Hrx.
  assert (Hh : p_rxlen ppb =
               [x00; char_S; char_P; x00] ++ NNI_PUT16 (ep_proto (w_ep wa))
               ++ NNI_PUT16 0).
  { rewrite Hrx. destruct wa as [[] ? ?]. reflexivity. }
  destruct (nego_cb_accepts wb pb ppb (reachable_wf wb Hrb) Hpb Hin)
    as (wb' & tb & Heq & Hs' & Hpeer & Hok); auto.
  { rewrite Hh. reflexivity. }
  { rewrite Hh. apply start_header_valid. }
  exists wb', tb. split; [exact Heq|]. split; [exact Hs'|]. split; [|exact Hok].
  change (tlstran_pipe_peer <$> w_pipes wb' !! pb) with (p_peer <$> w_pipes wb' !! pb).
  rewrite Hpeer, Hh, start_header_peer. f_equal.
  apply Z.mod_small. now apply reachable_proto_range.
Qed.


(** ** Examples *)

Lemma demo_world1_reachable : reachable demo_world1.
Proof.
  refine (reach_step demo_world0 (wev_connect demo_aio) demo_world1
            (calls_of (world_routine (wev_connect demo_aio)) demo_world0) _ _ _).
  - apply reach_init.
  - split; reflexivity.
  - vm_compute. reflexivity.
Qed.

Lemma demo_world2_reachable : reachable demo_world2.
Proof.
  refine (reach_step demo_world1 (wev_dial_done NNG_OK (Some 3%nat) demo_env)
            demo_world2
            (calls_of (world_routine (wev_dial_done NNG_OK (Some 3%nat) demo_env))
               demo_world1) _ _ _).
  - apply demo_world1_reachable.
  - split; [reflexivity|]. intros p [= <-]. reflexivity.
  - vm_compute. reflexivity.
Qed.

Lemma demo_world3_reachable : reachable demo_world3.
Proof.
  refine (reach_step demo_world2 (wev_nego_done 1 NNG_OK 8 demo_header)
            demo_world3
            (calls_of (world_routine (wev_nego_done 1 NNG_OK 8 demo_header))
               demo_world2) _ _ _).
  - apply demo_world2_reachable.
  - split; [reflexivity|]. split; [|reflexivity].
    vm_compute. constructor.
  - vm_compute. reflexivity.
Qed.

Lemma demo_freed_reachable : reachable demo_freed.
Proof.
  refine (reach_step demo_world0 wev_fini demo_freed
            (calls_of (world_routine wev_fini) demo_world0) _ _ _).
  - apply reach_init.
  - split; reflexivity.
  - vm_compute. reflexivity.
Qed.

Lemma send_partial_resubmits_rest_witness :
  iov_exact demo_tx_pipe (a_iov (p_txaio demo_tx_pipe))
  /\ 0 < 5 < iov_count (a_iov (p_txaio demo_tx_pipe))
  /\ exists p',
       tx_done 5 demo_tx_pipe =
         Some (tt, p', [c_nng_stream_send (p_tls demo_tx_pipe) TXAIO (a_iov (p_txaio p'))])
       /\ gather p' (a_iov (p_txaio p')) =
            drop (Z.to_nat 5) (gather demo_tx_pipe (a_iov (p_txaio demo_tx_pipe)))
       /\ iov_count (a_iov (p_txaio p')) = iov_count (a_iov (p_txaio demo_tx_pipe)) - 5
       /\ iov_exact p' (a_iov (p_txaio p'))
       /\ p_sendq p' = p_sendq demo_tx_pipe
       /\ p_txlen p' = p_txlen demo_tx_pipe.
Proof.
  assert (Hex : iov_exact demo_tx_pipe (a_iov (p_txaio demo_tx_pipe))).
  { repeat constructor; vm_compute; congruence. }
  assert (Hn : 0 < 5 < iov_count (a_iov (p_txaio demo_tx_pipe))).
  { vm_compute. split; reflexivity. }
  split; [exact Hex|]. split; [exact Hn|].
  exact (send_partial_resubmits_rest demo_tx_pipe 5 Hex Hn).
Defined.

Lemma send_queue_drains_in_order_witness :
  p_sendq demo_tx_pipe = [demo_aio; demo_aio2]
  /\ (forall a rest, [demo_aio; demo_aio2] = a :: rest ->
        a_iov (p_txaio demo_tx_pipe) = frame_iov a)
  /\ Forall2 (fun a cs => split_of (frame_len a) cs) [demo_aio; demo_aio2]
       [[5; 8]; [9]]
  /\ exists p' t,
       tx_run (concat [[5; 8]; [9]]) demo_tx_pipe = Some (tt, p', t)
       /\ completions t = map (fun a => (ua_id a, NNG_OK)) [demo_aio; demo_aio2]
       /\ p_sendq p' = [].
Proof.
  assert (H1 : p_sendq demo_tx_pipe = [demo_aio; demo_aio2]) by reflexivity.
  assert (H2 : forall a rest, [demo_aio; demo_aio2] = a :: rest ->
                 a_iov (p_txaio demo_tx_pipe) = frame_iov a).
  { intros a rest [= <- <-]. reflexivity. }
  assert (H3 : Forall2 (fun a cs => split_of (frame_len a) cs) [demo_aio; demo_aio2]
                 [[5; 8]; [9]]).
  { repeat constructor; vm_compute; congruence. }
  split; [exact H1|]. split; [exact H2|]. split; [exact H3|].
  exact (send_queue_drains_in_order [demo_aio; demo_aio2] demo_tx_pipe
           [[5; 8]; [9]] H1 H2 H3).
Defined.

Lemma pipe_send_queues_in_order_witness :
  nni_aio_begin demo_aio = NNG_OK
  /\ nni_aio_schedule demo_aio = NNG_OK
  /\ (ua_id demo_aio ∉ queue_ids (p_sendq demo_pipe))
  /\ exists p' t,
       tlstran_pipe_send demo_aio demo_pipe = Some (tt, p', t)
       /\ p_sendq p' = p_sendq demo_pipe ++ [demo_aio]
       /\ completions t = []
       /\ (p_sendq demo_pipe = [] ->
           t = [c_nng_stream_send (p_tls demo_pipe) TXAIO (frame_iov demo_aio)]
           /\ a_iov (p_txaio p') = frame_iov demo_aio)
       /\ (p_sendq demo_pipe <> [] ->
           t = [] /\ p_txaio p' = p_txaio demo_pipe /\ p_txlen p' = p_txlen demo_pipe).
Proof.
  assert (H3 : ua_id demo_aio ∉ queue_ids (p_sendq demo_pipe)).
  { vm_compute. intros H. inversion H. }
  split; [reflexivity|]. split; [reflexivity|]. split; [exact H3|].
  exact (pipe_send_queues_in_order demo_pipe demo_aio eq_refl eq_refl H3).
Defined.

Lemma pipe_send_rejected_witness :
  (nni_aio_begin demo_aio_refused <> NNG_OK
   \/ nni_aio_schedule demo_aio_refused <> NNG_OK)
  /\ exists t,
       tlstran_pipe_send demo_aio_refused demo_tx_pipe = Some (tt, demo_tx_pipe, t)
       /\ existsb is_stream_send t = false
       /\ (nni_aio_begin demo_aio_refused <> NNG_OK ->
           t = [c_nni_msg_free (Some (ua_msg demo_aio_refused));
                c_nni_aio_set_msg (ua_id demo_aio_refused) None])
       /\ (nni_aio_begin demo_aio_refused = NNG_OK ->
           t = [c_nni_aio_finish_error (ua_id demo_aio_refused)
                  (nni_aio_schedule demo_aio_refused)]).
Proof.
  assert (H : nni_aio_begin demo_aio_refused <> NNG_OK
              \/ nni_aio_schedule demo_aio_refused <> NNG_OK).
  { left. vm_compute. discriminate. }
  split; [exact H|].
  exact (pipe_send_rejected demo_tx_pipe demo_aio_refused H).
Defined.

Lemma send_cancel_queued_witness :
  p_sendq demo_tx_pipe = demo_aio :: [] ++ demo_aio2 :: []
  /\ (ua_id demo_aio2 ∉ queue_ids (demo_aio :: []))
  /\ tlstran_pipe_send_cancel demo_aio2 NNG_ECANCELED demo_tx_pipe =
       Some (tt, set_p_sendq (demo_aio :: [] ++ []) demo_tx_pipe,
             [c_nni_aio_finish_error (ua_id demo_aio2) NNG_ECANCELED]).
Proof.
  assert (H2 : ua_id demo_aio2 ∉ queue_ids (demo_aio :: [])).
  { apply not_elem_of_cons. split; [discriminate|apply not_elem_of_nil]. }
  split; [reflexivity|]. split; [exact H2|].
  exact (send_cancel_queued demo_tx_pipe demo_aio demo_aio2 [] [] NNG_ECANCELED
           eq_refl H2).
Defined.

Lemma send_cancel_head_completes_once_witness :
  p_sendq demo_tx_pipe = demo_aio :: [demo_aio2]
  /\ NNG_ECANCELED <> NNG_OK
  /\ exists p',
       (tlstran_pipe_send_cancel demo_aio NNG_ECANCELED >> tx_failed NNG_ECANCELED)
         demo_tx_pipe =
         Some (tt, p',
               [c_nni_aio_abort TXAIO NNG_ECANCELED;
                c_nni_aio_finish_error (ua_id demo_aio) NNG_ECANCELED;
                c_nni_pipe_bump_error (p_npipe demo_tx_pipe) NNG_ECANCELED])
       /\ p_sendq p' = [demo_aio2]
       /\ p_txlen p' = p_txlen demo_tx_pipe.
Proof.
  assert (H2 : NNG_ECANCELED <> NNG_OK) by discriminate.
  split; [reflexivity|]. split; [exact H2|].
  exact (send_cancel_head_completes_once demo_tx_pipe demo_aio [demo_aio2]
           NNG_ECANCELED eq_refl H2).
Defined.

Lemma recv_frame_any_chunking_witness :
  p_recvq (sys_pipe demo_sys2) = demo_aio :: [demo_aio2]
  /\ p_rxmsg (sys_pipe demo_sys2) = None
  /\ length (p_rxlen (sys_pipe demo_sys2)) = 8%nat
  /\ a_iov (p_rxaio (sys_pipe demo_sys2)) = [mk_iov buf_rxlen 0 8]
  /\ Z.of_nat (length [x0a; x0b; x0c]) < uint64_max
  /\ ~ (Z.of_nat (length [x0a; x0b; x0c]) > p_rcvmax (sys_pipe demo_sys2)
        /\ p_rcvmax (sys_pipe demo_sys2) > 0)
  /\ Forall (fun c => c <> []) [[x00; x00; x00]; [x00; x00; x00; x00; x03]]
  /\ Forall (fun c => c <> []) [[x0a]; [x0b; x0c]]
  /\ concat [[x00; x00; x00]; [x00; x00; x00; x00; x03]]
     = NNI_PUT64 (Z.of_nat (length [x0a; x0b; x0c]))
  /\ concat [[x0a]; [x0b; x0c]] = [x0a; x0b; x0c]
  /\ exists q',
       rx_feed NNG_OK ([[x00; x00; x00]; [x00; x00; x00; x00; x03]]
                       ++ [[x0a]; [x0b; x0c]]) true (sys_pipe demo_sys2)
       = Some (tt, q',
               frame_recv_calls (p_tls (sys_pipe demo_sys2))
                 (p_npipe (sys_pipe demo_sys2)) demo_aio [demo_aio2]
                 [x0a; x0b; x0c]
                 [[x00; x00; x00]; [x00; x00; x00; x00; x03]] [[x0a]; [x0b; x0c]])
       /\ p_rxmsg q' = None
       /\ p_recvq q' = [demo_aio2].
Proof.
  assert (H5 : Z.of_nat (length [x0a; x0b; x0c]) < uint64_max) by reflexivity.
  assert (H6 : ~ (Z.of_nat (length [x0a; x0b; x0c]) > p_rcvmax (sys_pipe demo_sys2)
                  /\ p_rcvmax (sys_pipe demo_sys2) > 0)).
  { intros [_ H]. vm_compute in H. discriminate. }
  assert (H7 : Forall (fun c : list byte => c <> [])
                 [[x00; x00; x00]; [x00; x00; x00; x00; x03]]).
  { repeat constructor; discriminate. }
  assert (H8 : Forall (fun c : list byte => c <> []) [[x0a]; [x0b; x0c]]).
  { repeat constructor; discriminate. }
  assert (H9 : concat [[x00; x00; x00]; [x00; x00; x00; x00; x03]]
               = NNI_PUT64 (Z.of_nat (length [x0a; x0b; x0c]))).
  { vm_compute. reflexivity. }
  repeat (split; [first [reflexivity | assumption]|]).
  exact (recv_frame_any_chunking (sys_pipe demo_sys2) demo_aio [demo_aio2]
           [x0a; x0b; x0c]
           [[x00; x00; x00]; [x00; x00; x00; x00; x03]] [[x0a]; [x0b; x0c]]
           eq_refl eq_refl eq_refl eq_refl H5 H6 H7 H8 H9 eq_refl).
Defined.

Lemma frame_round_trip_witness :
  p_sendq (set_p_sendq [demo_aio] demo_pipe) = demo_aio :: []
  /\ frame_len demo_aio - 8 < uint64_max
  /\ p_recvq demo_rx_posted = demo_aio :: []
  /\ p_rxmsg demo_rx_posted = None
  /\ length (p_rxlen demo_rx_posted) = 8%nat
  /\ a_iov (p_rxaio demo_rx_posted) = [mk_iov buf_rxlen 0 8]
  /\ ~ (frame_len demo_aio - 8 > p_rcvmax demo_rx_posted
        /\ p_rcvmax demo_rx_posted > 0)
  /\ exists ps' v,
       tlstran_pipe_send_start (set_p_sendq [demo_aio] demo_pipe) =
         Some (tt, ps',
               [c_nng_stream_send (p_tls (set_p_sendq [demo_aio] demo_pipe)) TXAIO v])
       /\ forall hchunks bchunks : list (list byte),
            Forall (fun c => c <> []) hchunks ->
            Forall (fun c => c <> []) bchunks ->
            length (concat hchunks) = 8%nat ->
            concat hchunks ++ concat bchunks = gather ps' v ->
            exists q',
              rx_feed NNG_OK (hchunks ++ bchunks) true demo_rx_posted =
                Some (tt, q',
                      frame_recv_calls (p_tls demo_rx_posted) (p_npipe demo_rx_posted)
                        demo_aio []
                        (msg_header (ua_msg demo_aio) ++ msg_body (ua_msg demo_aio))
                        hchunks bchunks)
              /\ p_rxmsg q' = None
              /\ p_recvq q' = [].
Proof.
  assert (H2 : frame_len demo_aio - 8 < uint64_max) by reflexivity.
  assert (H7 : ~ (frame_len demo_aio - 8 > p_rcvmax demo_rx_posted
                  /\ p_rcvmax demo_rx_posted > 0)).
  { intros [_ H]. vm_compute in H. discriminate. }
  repeat (split; [first [reflexivity | assumption]|]).
  exact (frame_round_trip (set_p_sendq [demo_aio] demo_pipe) demo_aio []
           demo_rx_posted demo_aio [] eq_refl H2 eq_refl eq_refl eq_refl eq_refl H7).
Defined.

Lemma pipe_recv_queues_in_order_witness :
  nni_aio_begin demo_aio = NNG_OK
  /\ nni_aio_schedule demo_aio = NNG_OK
  /\ (ua_id demo_aio ∉ queue_ids (p_recvq demo_pipe))
  /\ (p_recvq demo_pipe = [] -> p_rxmsg demo_pipe = None)
  /\ exists p' t,
       tlstran_pipe_recv demo_aio demo_pipe = Some (tt, p', t)
       /\ p_recvq p' = p_recvq demo_pipe ++ [demo_aio]
       /\ completions t = []
       /\ (p_recvq demo_pipe = [] ->
           t = [c_nng_stream_recv (p_tls demo_pipe) RXAIO [mk_iov buf_rxlen 0 8]]
           /\ a_iov (p_rxaio p') = [mk_iov buf_rxlen 0 8])
       /\ (p_recvq demo_pipe <> [] ->
           t = [] /\ p_rxaio p' = p_rxaio demo_pipe /\ p_rxmsg p' = p_rxmsg demo_pipe).
Proof.
  assert (H3 : ua_id demo_aio ∉ queue_ids (p_recvq demo_pipe)).
  { apply not_elem_of_nil. }
  assert (H4 : p_recvq demo_pipe = [] -> p_rxmsg demo_pipe = None).
  { intros _. reflexivity. }
  split; [reflexivity|]. split; [reflexivity|]. split; [exact H3|].
  split; [exact H4|].
  exact (pipe_recv_queues_in_order demo_pipe demo_aio eq_refl eq_refl H3 H4).
Defined.

Lemma recv_cancel_queued_witness :
  p_recvq (set_p_recvq [demo_aio; demo_aio2] demo_pipe)
  = demo_aio :: [] ++ demo_aio2 :: []
  /\ (ua_id demo_aio2 ∉ queue_ids (demo_aio :: []))
  /\ tlstran_pipe_recv_cancel demo_aio2 NNG_ETIMEDOUT
       (set_p_recvq [demo_aio; demo_aio2] demo_pipe) =
       Some (tt, set_p_recvq (demo_aio :: [] ++ [])
                   (set_p_recvq [demo_aio; demo_aio2] demo_pipe),
             [c_nni_aio_finish_error (ua_id demo_aio2) NNG_ETIMEDOUT]).
Proof.
  assert (H2 : ua_id demo_aio2 ∉ queue_ids (demo_aio :: [])).
  { apply not_elem_of_cons. split; [discriminate|apply not_elem_of_nil]. }
  split; [reflexivity|]. split; [exact H2|].
  exact (recv_cancel_queued (set_p_recvq [demo_aio; demo_aio2] demo_pipe)
           demo_aio demo_aio2 [] [] NNG_ETIMEDOUT eq_refl H2).
Defined.

Lemma recv_cancel_head_completes_once_witness :
  p_recvq demo_rx_posted = demo_aio :: []
  /\ NNG_ECANCELED <> NNG_OK
  /\ exists p',
       (tlstran_pipe_recv_cancel demo_aio NNG_ECANCELED
        >> rx_failed NNG_ECANCELED NNG_OK) demo_rx_posted =
         Some (tt, p',
               [c_nni_aio_abort RXAIO NNG_ECANCELED;
                c_nni_pipe_bump_error (p_npipe demo_rx_posted) NNG_ECANCELED;
                c_nni_msg_free (p_rxmsg demo_rx_posted);
                c_nni_aio_finish_error (ua_id demo_aio) NNG_ECANCELED])
       /\ p_recvq p' = []
       /\ p_rxmsg p' = None.
Proof.
  assert (H2 : NNG_ECANCELED <> NNG_OK) by discriminate.
  split; [reflexivity|]. split; [exact H2|].
  exact (recv_cancel_head_completes_once demo_rx_posted demo_aio []
           NNG_ECANCELED NNG_OK eq_refl H2).
Defined.

Lemma reachable_no_crash_witness :
  reachable demo_world3
  /\ world_callable (wev_nego_done 1 NNG_OK 8 demo_header) demo_world3
  /\ exists w' t,
       world_routine (wev_nego_done 1 NNG_OK 8 demo_header) demo_world3
       = Some (tt, w', t).
Proof.
  assert (H2 : world_callable (wev_nego_done 1 NNG_OK 8 demo_header) demo_world3).
  { split; [|exact I]. split; [reflexivity|]. split; [|reflexivity].
    vm_compute. constructor. }
  split; [exact demo_world3_reachable|]. split; [exact H2|].
  exact (reachable_no_crash demo_world3 (wev_nego_done 1 NNG_OK 8 demo_header)
           demo_world3_reachable H2).
Defined.

Lemma reachable_pipe_lists_witness :
  reachable demo_world2
  /\ NoDup (ep_negopipes (w_ep demo_world2) ++ ep_waitpipes (w_ep demo_world2)
            ++ ep_busypipes (w_ep demo_world2))
  /\ forall p,
       p ∈ ep_negopipes (w_ep demo_world2) ++ ep_waitpipes (w_ep demo_world2)
           ++ ep_busypipes (w_ep demo_world2) ->
       exists pp, w_pipes demo_world2 !! p = Some pp /\ p_ep pp = Some the_ep.
Proof.
  split; [exact demo_world2_reachable|].
  exact (reachable_pipe_lists demo_world2 demo_world2_reachable).
Defined.

Lemma reachable_refcnt_counts_pipes_witness :
  reachable demo_world2
  /\ ep_refcnt (w_ep demo_world2) = Z.of_nat (size (w_pipes demo_world2))
  /\ forall p pp, w_pipes demo_world2 !! p = Some pp -> p_ep pp = Some the_ep.
Proof.
  split; [exact demo_world2_reachable|].
  exact (reachable_refcnt_counts_pipes demo_world2 demo_world2_reachable).
Defined.

Lemma reachable_freed_no_pipes_witness :
  reachable demo_freed
  /\ w_ep_freed demo_freed = true
  /\ w_pipes demo_freed = ∅ /\ ep_all_pipes (w_ep demo_freed) = []
  /\ ep_fini (w_ep demo_freed) = true.
Proof.
  split; [exact demo_freed_reachable|]. split; [reflexivity|].
  exact (reachable_freed_no_pipes demo_freed demo_freed_reachable eq_refl).
Defined.

Lemma flags_never_reset_witness :
  reachable demo_world2
  /\ world_enabled wev_close demo_world2
  /\ world_routine wev_close demo_world2 =
       Some (tt, state_after (world_routine wev_close) demo_world2,
             calls_of (world_routine wev_close) demo_world2)
  /\ ep_flags_kept (w_ep demo_world2)
       (w_ep (state_after (world_routine wev_close) demo_world2)).
Proof.
  assert (H2 : world_enabled wev_close demo_world2) by (split; reflexivity).
  assert (H3 : world_routine wev_close demo_world2 =
               Some (tt, state_after (world_routine wev_close) demo_world2,
                     calls_of (world_routine wev_close) demo_world2)).
  { vm_compute. reflexivity. }
  split; [exact demo_world2_reachable|]. split; [exact H2|]. split; [exact H3|].
  exact (flags_never_reset demo_world2 _ wev_close _ demo_world2_reachable H2 H3).
Defined.

Lemma ep_close_shuts_everything_witness :
  reachable demo_world2
  /\ exists w',
       tlstran_ep_close demo_world2 = Some (tt, w', ep_close_calls demo_world2)
       /\ ep_closed (w_ep w') = true
       /\ ep_useraio (w_ep w') = None
       /\ w_pipes w' = w_pipes demo_world2
       /\ ep_all_pipes (w_ep w') = ep_all_pipes (w_ep demo_world2)
       /\ completions (ep_close_calls demo_world2) =
            match ep_useraio (w_ep demo_world2) with
            | Some u => [(ua_id u, NNG_ECLOSED)]
            | None => []
            end
       /\ (forall p, p ∈ ep_all_pipes (w_ep demo_world2) ->
             exists pp, w_pipes demo_world2 !! p = Some pp
                        /\ c_on_pipe p (c_nng_stream_close (p_tls pp))
                           ∈ ep_close_calls demo_world2)
       /\ (forall aio, nni_aio_begin aio = NNG_OK ->
             tlstran_ep_connect aio w' =
               Some (tt, w', [c_nni_aio_finish_error (ua_id aio) NNG_ECLOSED])
             /\ tlstran_ep_accept aio w' =
               Some (tt, w', [c_nni_aio_finish_error (ua_id aio) NNG_ECLOSED])).
Proof.
  split; [exact demo_world2_reachable|].
  exact (ep_close_shuts_everything demo_world2 demo_world2_reachable).
Defined.

Lemma ep_cancel_frees_slot_witness :
  ep_useraio (w_ep demo_world1) = Some demo_aio
  /\ ep_closed (w_ep demo_world1) = false
  /\ nni_aio_begin demo_aio2 = NNG_OK
  /\ nni_aio_schedule demo_aio2 = NNG_OK
  /\ ua_id demo_aio2 <> ua_id demo_aio
  /\ tlstran_ep_cancel demo_aio2 NNG_ECANCELED demo_world1 = Some (tt, demo_world1, [])
  /\ tlstran_ep_cancel demo_aio NNG_ECANCELED demo_world1 =
       Some (tt, set_w_ep (set_ep_useraio None (w_ep demo_world1)) demo_world1,
             [c_nni_aio_finish_error (ua_id demo_aio) NNG_ECANCELED])
  /\ (tlstran_ep_cancel demo_aio NNG_ECANCELED >> tlstran_ep_connect demo_aio2)
       demo_world1 =
       Some (tt, set_w_ep (set_ep_useraio (Some demo_aio2) (w_ep demo_world1))
                   demo_world1,
             [c_nni_aio_finish_error (ua_id demo_aio) NNG_ECANCELED;
              c_nng_stream_dialer_dial CONNAIO]).
Proof.
  assert (H5 : ua_id demo_aio2 <> ua_id demo_aio) by discriminate.
  do 5 (split; [first [reflexivity | assumption]|]).
  exact (ep_cancel_frees_slot demo_world1 demo_aio demo_aio2 demo_aio2 NNG_ECANCELED
           eq_refl eq_refl eq_refl eq_refl H5).
Defined.

Lemma recvmaxsz_applies_at_match_witness :
  ep_useraio (w_ep demo_wait_world) = Some demo_aio
  /\ ep_waitpipes (w_ep demo_wait_world) = 1%nat :: []
  /\ w_pipes demo_wait_world !! 1%nat = Some demo_pipe
  /\ NNG_EINVAL <> NNG_OK
  /\ tlstran_ep_set_recvmaxsz NNG_EINVAL 4096 demo_wait_world
     = Some (NNG_EINVAL, demo_wait_world, [])
  /\ exists w' t,
       (tlstran_ep_set_recvmaxsz NNG_OK 4096 >> tlstran_ep_match) demo_wait_world
       = Some (tt, w', t)
       /\ w_pipes w' = <[1%nat := set_p_rcvmax 4096 demo_pipe]> (w_pipes demo_wait_world)
       /\ ep_busypipes (w_ep w') = ep_busypipes (w_ep demo_wait_world) ++ [1%nat]
       /\ ep_waitpipes (w_ep w') = []
       /\ ep_rcvmax (w_ep w') = 4096.
Proof.
  assert (H3 : w_pipes demo_wait_world !! 1%nat = Some demo_pipe).
  { vm_compute. reflexivity. }
  assert (H4 : NNG_EINVAL <> NNG_OK) by discriminate.
  split; [reflexivity|]. split; [reflexivity|]. split; [exact H3|].
  split; [exact H4|].
  exact (recvmaxsz_applies_at_match demo_wait_world demo_aio 1 [] demo_pipe 4096
           NNG_EINVAL eq_refl eq_refl H3 H4).
Defined.

Lemma pipe_alloc_failure_clean_witness :
  (forall p, new_struct (mk_alloc (Some 1%nat) NNG_ENOMEM) = Some p ->
             w_pipes demo_world0 !! p = None)
  /\ (new_struct (mk_alloc (Some 1%nat) NNG_ENOMEM) = None
      \/ new_aio_rv (mk_alloc (Some 1%nat) NNG_ENOMEM) <> NNG_OK)
  /\ exists rv t,
       tlstran_pipe_alloc (mk_alloc (Some 1%nat) NNG_ENOMEM) demo_world0
       = Some ((rv, None), demo_world0, t)
       /\ rv <> NNG_OK
       /\ (new_struct (mk_alloc (Some 1%nat) NNG_ENOMEM) = None ->
           rv = NNG_ENOMEM /\ t = [])
       /\ (forall p, new_struct (mk_alloc (Some 1%nat) NNG_ENOMEM) = Some p ->
             rv = new_aio_rv (mk_alloc (Some 1%nat) NNG_ENOMEM)
             /\ c_on_pipe p c_free_pipe ∈ t
             /\ c_nni_reap_ep ∉ t).
Proof.
  assert (H1 : forall p, new_struct (mk_alloc (Some 1%nat) NNG_ENOMEM) = Some p ->
                         w_pipes demo_world0 !! p = None).
  { intros p _. reflexivity. }
  assert (H2 : new_struct (mk_alloc (Some 1%nat) NNG_ENOMEM) = None
               \/ new_aio_rv (mk_alloc (Some 1%nat) NNG_ENOMEM) <> NNG_OK).
  { right. discriminate. }
  split; [exact H1|]. split; [exact H2|].
  exact (pipe_alloc_failure_clean (mk_alloc (Some 1%nat) NNG_ENOMEM) demo_world0 H1 H2).
Defined.

Lemma pipe_reap_once_witness :
  w_pipes demo_wait_world !! 1%nat = Some demo_pipe
  /\ exists w1,
       tlstran_pipe_reap 1 demo_wait_world = Some (tt, w1, reap_calls 1 demo_pipe)
       /\ tlstran_pipe_reap 1 w1 = Some (tt, w1, [])
       /\ (p_reaped demo_pipe = false -> c_nni_reap_pipe 1 ∈ reap_calls 1 demo_pipe)
       /\ (p_reaped demo_pipe = true -> reap_calls 1 demo_pipe = []).
Proof.
  assert (H1 : w_pipes demo_wait_world !! 1%nat = Some demo_pipe).
  { vm_compute. reflexivity. }
  split; [exact H1|].
  exact (pipe_reap_once demo_wait_world 1 demo_pipe H1).
Defined.

Lemma dial_cb_failure_witness :
  (forall p, new_struct (mk_alloc None NNG_OK) = Some p ->
             w_pipes demo_world1 !! p = None)
  /\ (a_result (ep_connaio (w_ep demo_world1)) <> NNG_OK
      \/ new_struct (mk_alloc None NNG_OK) = None
      \/ new_aio_rv (mk_alloc None NNG_OK) <> NNG_OK
      \/ ep_closed (w_ep demo_world1) = true)
  /\ exists rv t,
       tlstran_dial_cb (mk_alloc None NNG_OK) demo_world1 =
         Some (tt, set_w_ep (set_ep_useraio None (w_ep demo_world1)) demo_world1,
               t ++ dial_error_calls rv (w_ep demo_world1))
       /\ rv <> NNG_OK
       /\ completions t = []
       /\ (c_nng_stream_dialer_dial CONNAIO
           ∉ t ++ dial_error_calls rv (w_ep demo_world1))
       /\ (a_result (ep_connaio (w_ep demo_world1)) = NNG_OK ->
           c_nng_stream_free (a_output (ep_connaio (w_ep demo_world1))) ∈ t).
Proof.
  assert (H1 : forall p, new_struct (mk_alloc None NNG_OK) = Some p ->
                         w_pipes demo_world1 !! p = None).
  { intros p H. discriminate H. }
  assert (H2 : a_result (ep_connaio (w_ep demo_world1)) <> NNG_OK
               \/ new_struct (mk_alloc None NNG_OK) = None
               \/ new_aio_rv (mk_alloc None NNG_OK) <> NNG_OK
               \/ ep_closed (w_ep demo_world1) = true).
  { right. left. reflexivity. }
  split; [exact H1|]. split; [exact H2|].
  exact (dial_cb_failure (mk_alloc None NNG_OK) demo_world1 H1 H2).
Defined.

Lemma pipe_start_sends_header_witness :
  reachable demo_world1
  /\ new_struct demo_env = Some 1%nat
  /\ new_aio_rv demo_env = NNG_OK
  /\ w_pipes demo_world1 !! 1%nat = None
  /\ exists w1 w' pp',
       tlstran_pipe_alloc demo_env demo_world1 = Some ((NNG_OK, Some 1%nat), w1, [])
       /\ tlstran_pipe_start 1 (Some 3%nat) w1 =
         Some (tt, w',
               [c_on_pipe 1 (c_nng_stream_send (Some 3%nat) NEGOAIO
                               [mk_iov buf_txlen 0 8])])
       /\ w_pipes w' !! 1%nat = Some pp'
       /\ gather pp' [mk_iov buf_txlen 0 8] =
            [x00; char_S; char_P; x00] ++ NNI_PUT16 (ep_proto (w_ep demo_world1))
            ++ [x00; x00]
       /\ NNI_GET16 (NNI_PUT16 (ep_proto (w_ep demo_world1)))
          = ep_proto (w_ep demo_world1)
       /\ a_timeout (p_negoaio pp') = Some 10000
       /\ p_ep pp' = Some the_ep
       /\ p_tls pp' = Some 3%nat
       /\ (1%nat ∉ ep_all_pipes (w_ep demo_world1))
       /\ ep_negopipes (w_ep w') = ep_negopipes (w_ep demo_world1) ++ [1%nat]
       /\ ep_waitpipes (w_ep w') = ep_waitpipes (w_ep demo_world1)
       /\ ep_busypipes (w_ep w') = ep_busypipes (w_ep demo_world1)
       /\ ep_refcnt (w_ep w') = ep_refcnt (w_ep demo_world1) + 1.
Proof.
  assert (H4 : w_pipes demo_world1 !! 1%nat = None).
  { vm_compute. reflexivity. }
  split; [exact demo_world1_reachable|]. split; [reflexivity|].
  split; [reflexivity|]. split; [exact H4|].
  exact (pipe_start_sends_header demo_world1 demo_env 1 (Some 3%nat)
           demo_world1_reachable eq_refl eq_refl H4).
Defined.

Lemma handshake_interop_witness :
  reachable demo_world1
  /\ new_struct demo_env = Some 1%nat
  /\ new_aio_rv demo_env = NNG_OK
  /\ reachable demo_world3
  /\ w_pipes demo_world3 !! 1%nat = Some (pipe_1 demo_world3)
  /\ 1%nat ∈ ep_negopipes (w_ep demo_world3)
  /\ a_result (p_negoaio (pipe_1 demo_world3)) = NNG_OK
  /\ nego_headers_done (pipe_1 demo_world3)
  /\ p_rxlen (pipe_1 demo_world3) =
       gather
         (pipe_1 (state_after (tlstran_pipe_start 1 (Some 3%nat))
                    (state_after (tlstran_pipe_alloc demo_env) demo_world1)))
         [mk_iov buf_txlen 0 8]
  /\ exists wa1 wa' ppa' v,
       tlstran_pipe_alloc demo_env demo_world1 = Some ((NNG_OK, Some 1%nat), wa1, [])
       /\ tlstran_pipe_start 1 (Some 3%nat) wa1 =
            Some (tt, wa', [c_on_pipe 1 (c_nng_stream_send (Some 3%nat) NEGOAIO v)])
       /\ w_pipes wa' !! 1%nat = Some ppa'
       /\ length (gather ppa' v) = 8%nat
       /\ (p_rxlen (pipe_1 demo_world3) = gather ppa' v ->
           exists wb' tb,
             tlstran_pipe_nego_cb 1 demo_world3 = Some (tt, wb', tb)
             /\ nego_succeeded 1 wb'
             /\ tlstran_pipe_peer <$> (w_pipes wb' !! 1%nat)
                = Some (ep_proto (w_ep demo_world1))
             /\ Forall (fun c => is_error_completion c = false) tb).
Proof.
  assert (H4 : w_pipes demo_world3 !! 1%nat = Some (pipe_1 demo_world3)).
  { vm_compute. reflexivity. }
  assert (H5 : 1%nat ∈ ep_negopipes (w_ep demo_world3)).
  { vm_compute. constructor. }
  assert (H6 : a_result (p_negoaio (pipe_1 demo_world3)) = NNG_OK).
  { vm_compute. reflexivity. }
  assert (H7 : nego_headers_done (pipe_1 demo_world3)).
  { split; vm_compute; discriminate. }
  split; [exact demo_world1_reachable|]. split; [reflexivity|].
  split; [reflexivity|].
  split; [exact demo_world3_reachable|]. split; [exact H4|].
  split; [exact H5|]. split; [exact H6|]. split; [exact H7|].
  split; [vm_compute; reflexivity|].
  exact (handshake_interop demo_world1 demo_env 1 (Some 3%nat)
           demo_world3 1 (pipe_1 demo_world3)
           demo_world1_reachable eq_refl eq_refl demo_world3_reachable H4 H5 H6 H7).
Defined.


(** ** A negotiation under partial transfers *)

Lemma nego_cb_send_more (w : tlstran_world) (p : nat) (pp : tlstran_pipe) :
  w_pipes w !! p = Some pp ->
  p_ep pp = Some the_ep ->
  a_result (p_negoaio pp) = NNG_OK ->
  p_gottxhead pp < p_wanttxhead pp ->
  size_add (p_gottxhead pp) (a_count (p_negoaio pp)) < p_wanttxhead pp ->
  let g := size_add (p_gottxhead pp) (a_count (p_negoaio pp)) in
  let iov := mk_iov buf_txlen g (size_sub (p_wanttxhead pp) g) in
  tlstran_pipe_nego_cb p w =
    Some (tt,
          set_w_pipes
            (<[p := set_p_negoaio (nni_aio_set_iov [iov] (p_negoaio pp))
                      (set_p_gottxhead g pp)]> (w_pipes w)) w,
          [c_on_pipe p (c_nng_stream_send (p_tls pp) NEGOAIO [iov])]).
Proof.
  intros Hp Hep Hrv Htx Hmore g iov. unfold tlstran_pipe_nego_cb.
  unfold modify_pipe, on_pipe, get_pipe, bind, deref, ret, modify, emit.
  rewrite Hp, Hep.
  rewrite decide_False by (rewrite Hrv; intros H; now apply H).
  cbn. rewrite Hp. cbn. rewrite lookup_insert_eq.
  assert (Hnc : nego_count pp = set_p_gottxhead g pp).
  { unfold nego_count. now rewrite decide_True by exact Htx. }
  rewrite !Hnc.
  replace (p_gottxhead (set_p_gottxhead g pp)) with g by (destruct pp; reflexivity).
  replace (p_wanttxhead (set_p_gottxhead g pp)) with (p_wanttxhead pp)
    by (destruct pp; reflexivity).
  rewrite decide_True by exact Hmore.
  cbn. rewrite lookup_insert_eq. cbn. rewrite insert_insert_eq.
  subst iov. destruct pp; reflexivity.
Qed.

Lemma nego_cb_sent_now_recv (w : tlstran_world) (p : nat) (pp : tlstran_pipe) :
  w_pipes w !! p = Some pp ->
  p_ep pp = Some the_ep ->
  a_result (p_negoaio pp) = NNG_OK ->
  p_gottxhead pp < p_wanttxhead pp ->
  ~ size_add (p_gottxhead pp) (a_count (p_negoaio pp)) < p_wanttxhead pp ->
  p_gotrxhead pp < p_wantrxhead pp ->
  let g := size_add (p_gottxhead pp) (a_count (p_negoaio pp)) in
  let iov := mk_iov buf_rxlen (p_gotrxhead pp)
               (size_sub (p_wantrxhead pp) (p_gotrxhead pp)) in
  tlstran_pipe_nego_cb p w =
    Some (tt,
          set_w_pipes
            (<[p := set_p_negoaio (nni_aio_set_iov [iov] (p_negoaio pp))
                      (set_p_gottxhead g pp)]> (w_pipes w)) w,
          [c_on_pipe p (c_nng_stream_recv (p_tls pp) NEGOAIO [iov])]).
Proof.
  intros Hp Hep Hrv Htx Hdone Hrx g iov. unfold tlstran_pipe_nego_cb.
  unfold modify_pipe, on_pipe, get_pipe, bind, deref, ret, modify, emit.
  rewrite Hp, Hep.
  rewrite decide_False by (rewrite Hrv; intros H; now apply H).
  cbn. rewrite Hp. cbn. rewrite lookup_insert_eq.
  assert (Hnc : nego_count pp = set_p_gottxhead g pp).
  { unfold nego_count. now rewrite decide_True by exact Htx. }
  rewrite !Hnc.
  replace (p_gottxhead (set_p_gottxhead g pp)) with g by (destruct pp; reflexivity).
  replace (p_wanttxhead (set_p_gottxhead g pp)) with (p_wanttxhead pp)
    by (destruct pp; reflexivity).
  rewrite decide_False by exact Hdone.
  replace (p_gotrxhead (set_p_gottxhead g pp)) with (p_gotrxhead pp)
    by (destruct pp; reflexivity).
  replace (p_wantrxhead (set_p_gottxhead g pp)) with (p_wantrxhead pp)
    by (destruct pp; reflexivity).
  rewrite decide_True by exact Hrx.
  cbn. rewrite lookup_insert_eq. cbn. rewrite insert_insert_eq.
  subst iov. destruct pp; reflexivity.
Qed.

Lemma nego_cb_recv_more (w : tlstran_world) (p : nat) (pp : tlstran_pipe) :
  w_pipes w !! p = Some pp ->
  p_ep pp = Some the_ep ->
  a_result (p_negoaio pp) = NNG_OK ->
  ~ p_gottxhead pp < p_wanttxhead pp ->
  p_gotrxhead pp < p_wantrxhead pp ->
  size_add (p_gotrxhead pp) (a_count (p_negoaio pp)) < p_wantrxhead pp ->
  let r := size_add (p_gotrxhead pp) (a_count (p_negoaio pp)) in
  let iov := mk_iov buf_rxlen r (size_sub (p_wantrxhead pp) r) in
  tlstran_pipe_nego_cb p w =
    Some (tt,
          set_w_pipes
            (<[p := set_p_negoaio (nni_aio_set_iov [iov] (p_negoaio pp))
                      (set_p_gotrxhead r pp)]> (w_pipes w)) w,
          [c_on_pipe p (c_nng_stream_recv (p_tls pp) NEGOAIO [iov])]).
Proof.
  intros Hp Hep Hrv Htx Hrx Hmore r iov. unfold tlstran_pipe_nego_cb.
  unfold modify_pipe, on_pipe, get_pipe, bind, deref, ret, modify, emit.
  rewrite Hp, Hep.
  rewrite decide_False by (rewrite Hrv; intros H; now apply H).
  cbn. rewrite Hp. cbn. rewrite lookup_insert_eq.
  assert (Hnc : nego_count pp = set_p_gotrxhead r pp).
  { unfold nego_count. rewrite decide_False by exact Htx.
    now rewrite decide_True by exact Hrx. }
  rewrite !Hnc.
  replace (p_gottxhead (set_p_gotrxhead r pp)) with (p_gottxhead pp)
    by (destruct pp; reflexivity).
  replace (p_wanttxhead (set_p_gotrxhead r pp)) with (p_wanttxhead pp)
    by (destruct pp; reflexivity).
  rewrite decide_False by exact Htx.
  replace (p_gotrxhead (set_p_gotrxhead r pp)) with r by (destruct pp; reflexivity).
  replace (p_wantrxhead (set_p_gotrxhead r pp)) with (p_wantrxhead pp)
    by (destruct pp; reflexivity).
  rewrite decide_True by exact Hmore.
  cbn. rewrite lookup_insert_eq. cbn. rewrite insert_insert_eq.
  subst iov. destruct pp; reflexivity.
Qed.

Lemma nego_event_eq (w : tlstran_world) (p : nat) (pp : tlstran_pipe)
  (n : Z) (buf : list byte) :
  w_pipes w !! p = Some pp ->
  world_routine (wev_nego_done p NNG_OK n buf) w =
    tlstran_pipe_nego_cb p
      (set_w_pipes
         (<[p := set_p_rxlen buf
                   (set_p_negoaio (aio_complete NNG_OK n None (p_negoaio pp)) pp)]>
            (w_pipes w)) w).
Proof.
  intros Hp. cbn [world_routine].
  now rewrite (after_modify_pipe p _ _ w pp Hp).
Qed.

Lemma nego_run_cons (p : nat) (n : Z) (buf : list byte)
  (rest : list (Z * list byte)) (w w1 : tlstran_world) (t1 : list call) :
  world_routine (wev_nego_done p NNG_OK n buf) w = Some (tt, w1, t1) ->
  nego_run p ((n, buf) :: rest) w =
    match nego_run p rest w1 with
    | Some (y, w2, t2) => Some (y, w2, t1 ++ t2)
    | None => None
    end.
Proof. intros H. cbn [nego_run]. unfold bind. now rewrite H. Qed.

Lemma nego_run_app (p : nat) (s1 s2 : list (Z * list byte)) (w : tlstran_world) :
  nego_run p (s1 ++ s2) w = (nego_run p s1 >> nego_run p s2) w.
Proof.
  revert w. induction s1 as [|[n buf] s1 IH]; intros w.
  - cbn. unfold bind, ret. destruct (nego_run p s2 w) as [[[[] ?] ?]|]; reflexivity.
  - cbn [app nego_run]. unfold bind.
    destruct (world_routine (wev_nego_done p NNG_OK n buf) w) as [[[[] w1] t1]|];
      [|reflexivity].
    rewrite IH. unfold bind.
    destruct (nego_run p s1 w1) as [[[[] w2] t2]|]; [|reflexivity].
    destruct (nego_run p s2 w2) as [[[[] w3] t3]|]; [|reflexivity].
    now rewrite app_assoc.
Qed.

Lemma sum_pos_nonneg (l : list Z) :
  Forall (fun n => 0 < n) l -> 0 <= fold_right Z.add 0 l.
Proof. induction 1; cbn; lia. Qed.

Lemma sum_pos_nil (l : list Z) :
  Forall (fun n => 0 < n) l -> fold_right Z.add 0 l = 0 -> l = [].
Proof.
  intros H Hs. destruct H as [|n l Hn Hl]; [reflexivity|].
  pose proof (sum_pos_nonneg l Hl). cbn in Hs. lia.
Qed.

Lemma small_mod (x : Z) : 0 <= x <= 8 -> x mod uint64_max = x.
Proof. intros H. apply Z.mod_small. unfold uint64_max. lia. Qed.

(** The sending half: each short completion resumes the send where it
    stopped; the completion that brings the count to 8 submits the read
    of the peer's header. *)
Lemma nego_run_tx (p : nat) (steps : list (Z * list byte)) :
  forall (w : tlstran_world) (pp : tlstran_pipe) (g : Z),
  w_pipes w !! p = Some pp ->
  p_ep pp = Some the_ep ->
  p_gottxhead pp = g -> p_wanttxhead pp = 8 ->
  p_gotrxhead pp = 0 -> p_wantrxhead pp = 8 ->
  0 <= g < 8 ->
  Forall (fun n => 0 < n) (map fst steps) ->
  g + fold_right Z.add 0 (map fst steps) = 8 ->
  exists pp',
    nego_run p steps w =
      Some (tt, set_w_pipes (<[p := pp']> (w_pipes w)) w,
            map (fun iov => c_on_pipe p (c_nng_stream_send (p_tls pp) NEGOAIO [iov]))
              (resume_iovs buf_txlen g (map fst steps))
            ++ [c_on_pipe p (c_nng_stream_recv (p_tls pp) NEGOAIO
                               [mk_iov buf_rxlen 0 8])])
    /\ p_ep pp' = Some the_ep
    /\ p_gottxhead pp' = 8 /\ p_wanttxhead pp' = 8
    /\ p_gotrxhead pp' = 0 /\ p_wantrxhead pp' = 8
    /\ p_tls pp' = p_tls pp.
Proof.
  induction steps as [|[n buf] rest IH];
    intros w pp g Hp Hep Hg Hwt Hgr Hwr Hrange Hpos Hsum.
  - cbn in Hsum. lia.
  - cbn [map fst] in Hpos, Hsum. apply Forall_cons in Hpos as [Hn Hrest].
    cbn [fold_right] in Hsum.
    pose proof (sum_pos_nonneg _ Hrest) as Hnn.
    set (pp0 := set_p_rxlen buf
                  (set_p_negoaio (aio_complete NNG_OK n None (p_negoaio pp)) pp)).
    set (w0 := set_w_pipes (<[p := pp0]> (w_pipes w)) w).
    assert (Hp0 : w_pipes w0 !! p = Some pp0).
    { unfold w0. destruct w; cbn. apply lookup_insert_eq. }
    assert (Hep0 : p_ep pp0 = Some the_ep) by (rewrite <- Hep; destruct pp; reflexivity).
    assert (Hrv0 : a_result (p_negoaio pp0) = NNG_OK) by (destruct pp; reflexivity).
    assert (Hcnt0 : a_count (p_negoaio pp0) = n) by (destruct pp; reflexivity).
    assert (Hg0 : p_gottxhead pp0 = g) by (rewrite <- Hg; destruct pp; reflexivity).
    assert (Hwt0 : p_wanttxhead pp0 = 8) by (rewrite <- Hwt; destruct pp; reflexivity).
    assert (Hgr0 : p_gotrxhead pp0 = 0) by (rewrite <- Hgr; destruct pp; reflexivity).
    assert (Hwr0 : p_wantrxhead pp0 = 8) by (rewrite <- Hwr; destruct pp; reflexivity).
    assert (Htls0 : p_tls pp0 = p_tls pp) by (destruct pp; reflexivity).
    assert (Hadd : size_add (p_gottxhead pp0) (a_count (p_negoaio pp0)) = g + n).
    { rewrite Hg0, Hcnt0. unfold size_add. apply small_mod. lia. }
    cbn [map fst resume_iovs].
    destruct (decide (g + n < 8)) as [Hlt|Hge].
    + (* the header is not out yet: resume the send *)
      pose proof (nego_cb_send_more w0 p pp0 Hp0 Hep0 Hrv0) as Hstep.
      cbv zeta in Hstep. rewrite Hadd, Hwt0, Hg0, Htls0 in Hstep.
      specialize (Hstep ltac:(lia) Hlt).
      replace (size_sub 8 (g + n)) with (8 - (g + n)) in Hstep
        by (unfold size_sub; symmetry; apply small_mod; lia).
      set (pp1 := set_p_negoaio _ _) in Hstep.
      rewrite (nego_run_cons p n buf rest w _ _
                 (eq_trans (nego_event_eq w p pp n buf Hp) Hstep)).
      destruct (IH (set_w_pipes (<[p := pp1]> (w_pipes w0)) w0) pp1 (g + n))
        as (pp' & Hrun & Hf1 & Hf2 & Hf3 & Hf4 & Hf5 & Hf6).
      { destruct w; cbn. apply lookup_insert_eq. }
      { rewrite <- Hep0. unfold pp1. destruct pp0; reflexivity. }
      { unfold pp1. destruct pp0; reflexivity. }
      { rewrite <- Hwt0. unfold pp1. destruct pp0; reflexivity. }
      { rewrite <- Hgr0. unfold pp1. destruct pp0; reflexivity. }
      { rewrite <- Hwr0. unfold pp1. destruct pp0; reflexivity. }
      { lia. }
      { exact Hrest. }
      { lia. }
      rewrite Hrun. exists pp'.
      assert (Htls1 : p_tls pp1 = p_tls pp).
      { rewrite <- Htls0. unfold pp1. destruct pp0; reflexivity. }
      rewrite Htls1 in *.
      split; [|repeat split; assumption].
      f_equal. f_equal.
      unfold w0. destruct w; cbn. now rewrite !insert_insert_eq.
    + (* the last byte of the header is out: read the peer's *)
      assert (Hrest_nil : rest = []).
      { assert (Hm : map fst rest = []) by (apply sum_pos_nil; [exact Hrest|lia]).
        now apply map_eq_nil in Hm. }
      subst rest. cbn in Hsum.
      pose proof (nego_cb_sent_now_recv w0 p pp0 Hp0 Hep0 Hrv0) as Hstep.
      cbv zeta in Hstep. rewrite Hadd, Hwt0, Hg0, Hgr0, Hwr0, Htls0 in Hstep.
      specialize (Hstep ltac:(lia) Hge ltac:(lia)).
      replace (size_sub 8 0) with 8 in Hstep by reflexivity.
      set (pp1 := set_p_negoaio _ _) in Hstep.
      rewrite (nego_run_cons p n buf [] w _ _
                 (eq_trans (nego_event_eq w p pp n buf Hp) Hstep)).
      cbn [nego_run]. unfold ret. exists pp1.
      split.
      { cbn. f_equal. f_equal.
        unfold w0. destruct w; cbn. now rewrite !insert_insert_eq. }
      assert (Hgn : g + n = 8) by lia.
      unfold pp1. rewrite Hgn.
      split; [rewrite <- Hep0; destruct pp0; reflexivity|].
      split; [destruct pp0; reflexivity|].
      split; [rewrite <- Hwt0; destruct pp0; reflexivity|].
      split; [rewrite <- Hgr0; destruct pp0; reflexivity|].
      split; [rewrite <- Hwr0; destruct pp0; reflexivity|].
      rewrite <- Htls0; destruct pp0; reflexivity.
Qed.

(** The receiving half: each short completion resumes the read where
    it stopped; the completion that brings the count to 8 checks the
    header and, the header being the expected one, ends the
    negotiation with success. *)
Lemma nego_run_rx (p : nat) (steps : list (Z * list byte)) :
  forall (w : tlstran_world) (pp : tlstran_pipe) (r : Z) (h : list byte),
  world_wf w -> w_ep_freed w = false ->
  p ∈ ep_negopipes (w_ep w) ->
  w_pipes w !! p = Some pp ->
  p_gottxhead pp = 8 -> p_wanttxhead pp = 8 ->
  p_gotrxhead pp = r -> p_wantrxhead pp = 8 ->
  0 <= r < 8 ->
  Forall (fun n => 0 < n) (map fst steps) ->
  r + fold_right Z.add 0 (map fst steps) = 8 ->
  snd <$> last steps = Some h ->
  length h = 8%nat ->
  nego_header_valid h ->
  exists w' tm,
    nego_run p steps w =
      Some (tt, w',
            map (fun iov => c_on_pipe p (c_nng_stream_recv (p_tls pp) NEGOAIO [iov]))
              (resume_iovs buf_rxlen r (map fst steps))
            ++ tm)
    /\ nego_succeeded p w'
    /\ tlstran_pipe_peer <$> (w_pipes w' !! p) = Some (peer_word h)
    /\ Forall (fun c => is_error_completion c = false) tm.
Proof.
  induction steps as [|[n buf] rest IH];
    intros w pp r h Hwf Hfr Hin Hp Hgt Hwt Hgr Hwr Hrange Hpos Hsum Hlast Hlen Hv.
  - cbn in Hsum. lia.
  - cbn [map fst] in Hpos, Hsum. apply Forall_cons in Hpos as [Hn Hrest].
    cbn [fold_right] in Hsum.
    pose proof (sum_pos_nonneg _ Hrest) as Hnn.
    pose proof (wf_backref w Hwf p pp Hp) as Hep.
    set (pp0 := set_p_rxlen buf
                  (set_p_negoaio (aio_complete NNG_OK n None (p_negoaio pp)) pp)).
    set (w0 := set_w_pipes (<[p := pp0]> (w_pipes w)) w).
    assert (Hep0 : p_ep pp0 = Some the_ep) by (rewrite <- Hep; destruct pp; reflexivity).
    assert (Hw0 : w0 = mk_world (w_ep w) (<[p := pp0]> (w_pipes w)) false).
    { unfold w0. destruct w; cbn in *. now subst. }
    assert (Hwf0 : world_wf w0).
    { rewrite Hw0. apply (wf_pipe_update w p pp pp0); assumption. }
    assert (Hp0 : w_pipes w0 !! p = Some pp0).
    { rewrite Hw0. cbn. apply lookup_insert_eq. }
    assert (Hin0 : p ∈ ep_negopipes (w_ep w0)) by (rewrite Hw0; exact Hin).
    assert (Hrv0 : a_result (p_negoaio pp0) = NNG_OK) by (destruct pp; reflexivity).
    assert (Hcnt0 : a_count (p_negoaio pp0) = n) by (destruct pp; reflexivity).
    assert (Hgt0 : p_gottxhead pp0 = 8) by (rewrite <- Hgt; destruct pp; reflexivity).
    assert (Hwt0 : p_wanttxhead pp0 = 8) by (rewrite <- Hwt; destruct pp; reflexivity).
    assert (Hgr0 : p_gotrxhead pp0 = r) by (rewrite <- Hgr; destruct pp; reflexivity).
    assert (Hwr0 : p_wantrxhead pp0 = 8) by (rewrite <- Hwr; destruct pp; reflexivity).
    assert (Htls0 : p_tls pp0 = p_tls pp) by (destruct pp; reflexivity).
    assert (Hbuf0 : p_rxlen pp0 = buf) by (destruct pp; reflexivity).
    assert (Hadd : size_add (p_gotrxhead pp0) (a_count (p_negoaio pp0)) = r + n).
    { rewrite Hgr0, Hcnt0. unfold size_add. apply small_mod. lia. }
    cbn [map fst resume_iovs].
    destruct (decide (r + n < 8)) as [Hlt|Hge].
    + (* the peer's header is not in yet: resume the read *)
      pose proof (nego_cb_recv_more w0 p pp0 Hp0 Hep0 Hrv0) as Hstep.
      cbv zeta in Hstep. rewrite Hadd, Hwt0, Hgt0, Hgr0, Hwr0, Htls0 in Hstep.
      specialize (Hstep ltac:(lia) ltac:(lia) Hlt).
      replace (size_sub 8 (r + n)) with (8 - (r + n)) in Hstep
        by (unfold size_sub; symmetry; apply small_mod; lia).
      set (pp1 := set_p_negoaio _ _) in Hstep.
      rewrite (nego_run_cons p n buf rest w _ _
                 (eq_trans (nego_event_eq w p pp n buf Hp) Hstep)).
      assert (Hrest_ne : rest <> []).
      { intros ->. cbn in Hsum. lia. }
      assert (Hlast' : snd <$> last rest = Some h).
      { destruct rest as [|s rest']; [congruence|]. exact Hlast. }
      assert (Hep1 : p_ep pp1 = Some the_ep).
      { rewrite <- Hep0. unfold pp1. destruct pp0; reflexivity. }
      assert (Hw1 : set_w_pipes (<[p := pp1]> (w_pipes w0)) w0
                    = mk_world (w_ep w0) (<[p := pp1]> (w_pipes w0)) false).
      { rewrite Hw0. reflexivity. }
      assert (Ewf : world_wf (set_w_pipes (<[p := pp1]> (w_pipes w0)) w0)).
      { rewrite Hw1. apply (wf_pipe_update w0 p pp0 pp1); assumption. }
      assert (Efr : w_ep_freed (set_w_pipes (<[p := pp1]> (w_pipes w0)) w0) = false).
      { rewrite Hw1. reflexivity. }
      assert (Ein : p ∈ ep_negopipes (w_ep (set_w_pipes (<[p := pp1]> (w_pipes w0)) w0))).
      { rewrite Hw1. exact Hin0. }
      assert (Ep : w_pipes (set_w_pipes (<[p := pp1]> (w_pipes w0)) w0) !! p = Some pp1).
      { rewrite Hw1. cbn. apply lookup_insert_eq. }
      assert (Egt : p_gottxhead pp1 = 8).
      { rewrite <- Hgt0. unfold pp1. destruct pp0; reflexivity. }
      assert (Ewt : p_wanttxhead pp1 = 8).
      { rewrite <- Hwt0. unfold pp1. destruct pp0; reflexivity. }
      assert (Egr : p_gotrxhead pp1 = r + n).
      { unfold pp1. destruct pp0; reflexivity. }
      assert (Ewr : p_wantrxhead pp1 = 8).
      { rewrite <- Hwr0. unfold pp1. destruct pp0; reflexivity. }
      destruct (IH (set_w_pipes (<[p := pp1]> (w_pipes w0)) w0) pp1 (r + n) h
                  Ewf Efr Ein Ep Egt Ewt Egr Ewr ltac:(lia) Hrest ltac:(lia)
                  Hlast' Hlen Hv)
        as (w' & tm & Hrun & Hs & Hpeer & Hok).
      rewrite Hrun.
      assert (Htls1 : p_tls pp1 = p_tls pp).
      { rewrite <- Htls0. unfold pp1. destruct pp0; reflexivity. }
      rewrite Htls1.
      exists w', tm. split; [reflexivity|].
      split; [exact Hs|]. split; [exact Hpeer|exact Hok].
    + (* the last byte of the peer's header is in: check it *)
      assert (Hrest_nil : rest = []).
      { assert (Hm : map fst rest = []) by (apply sum_pos_nil; [exact Hrest|lia]).
        now apply map_eq_nil in Hm. }
      subst rest. cbn in Hsum, Hlast. injection Hlast as ->.
      assert (Hdone : nego_headers_done pp0).
      { assert (Hnc : nego_count pp0 = set_p_gotrxhead (r + n) pp0).
        { unfold nego_count. rewrite decide_False by lia.
          rewrite decide_True by lia. now rewrite Hadd. }
        unfold nego_headers_done. rewrite Hnc.
        replace (p_gottxhead (set_p_gotrxhead (r + n) pp0)) with 8
          by (rewrite <- Hgt0; destruct pp0; reflexivity).
        replace (p_wanttxhead (set_p_gotrxhead (r + n) pp0)) with 8
          by (rewrite <- Hwt0; destruct pp0; reflexivity).
        replace (p_gotrxhead (set_p_gotrxhead (r + n) pp0)) with (r + n)
          by (destruct pp0; reflexivity).
        replace (p_wantrxhead (set_p_gotrxhead (r + n) pp0)) with 8
          by (rewrite <- Hwr0; destruct pp0; reflexivity).
        lia. }
      assert (Elen : length (p_rxlen pp0) = 8%nat) by (now rewrite Hbuf0).
      assert (Ev : nego_header_valid (p_rxlen pp0)) by (now rewrite Hbuf0).
      destruct (nego_cb_accepts w0 p pp0 Hwf0 Hp0 Hin0 Elen Hrv0 Hdone Ev)
        as (w' & t & Heq & Hs & Hpeer & Hok).
      rewrite (nego_run_cons p n h [] w _ _
                 (eq_trans (nego_event_eq w p pp n h Hp) Heq)).
      cbn [nego_run]. unfold ret. rewrite app_nil_r.
      exists w', t. split; [reflexivity|].
      split; [exact Hs|]. split; [|exact Hok].
      rewrite Hbuf0 in Hpeer. exact Hpeer.
Qed.

(** X26: A negotiation whose transfers complete in pieces -- any split of
    the 8 bytes sent and of the 8 bytes received -- resumes each
    transfer where it stopped, sends its header completely before it
    reads, and, the peer's header being the expected one, ends with
    success and the peer's protocol id recorded. *)
Theorem handshake_survives_partial_io
  (w : tlstran_world) (p : nat) (pp : tlstran_pipe)
  (tx rx : list (Z * list byte)) (h : list byte) :
  reachable w ->
  w_pipes w !! p = Some pp ->
  p ∈ ep_negopipes (w_ep w) ->
  p_gottxhead pp = 0 -> p_wanttxhead pp = 8 ->
  p_gotrxhead pp = 0 -> p_wantrxhead pp = 8 ->
  split_of 8 (map fst tx) ->
  split_of 8 (map fst rx) ->
  snd <$> last rx = Some h ->
  length h = 8%nat ->
  nego_header_valid h ->
  exists w' tm,
    nego_run p (tx ++ rx) w =
      Some (tt, w',
            map (fun iov => c_on_pipe p (c_nng_stream_send (p_tls pp) NEGOAIO [iov]))
              (resume_iovs buf_txlen 0 (map fst tx))
            ++ [c_on_pipe p (c_nng_stream_recv (p_tls pp) NEGOAIO
                               [mk_iov buf_rxlen 0 8])]
            ++ map (fun iov => c_on_pipe p (c_nng_stream_recv (p_tls pp) NEGOAIO [iov]))
                 (resume_iovs buf_rxlen 0 (map fst rx))
            ++ tm)
    /\ nego_succeeded p w'
    /\ tlstran_pipe_peer <$> (w_pipes w' !! p) = Some (peer_word h)
    /\ Forall (fun c => is_error_completion c = false) tm.
Proof.
  intros Hr Hp Hin Hgt Hwt Hgr Hwr [Htxpos Htxsum] [Hrxpos Hrxsum] Hlast Hlen Hv.
  pose proof (reachable_wf w Hr) as Hwf.
  pose proof (wf_backref w Hwf p pp Hp) as Hep.
  assert (Hfr : w_ep_freed w = false).
  { destruct (w_ep_freed w) eqn:Hf; [|reflexivity].
    destruct (wf_freed w Hwf Hf) as [_ Hrc].
    pose proof (wf_refcnt w Hwf) as Hsz.
    assert (Hempty : w_pipes w = ∅) by (apply map_size_empty_inv; lia).
    rewrite Hempty, lookup_empty in Hp. discriminate. }
  destruct (nego_run_tx p tx w pp 0 Hp Hep Hgt Hwt Hgr Hwr ltac:(lia) Htxpos
              ltac:(lia))
    as (pp1 & Hrun1 & Hep1 & Hgt1 & Hwt1 & Hgr1 & Hwr1 & Htls1).
  set (w1 := set_w_pipes (<[p := pp1]> (w_pipes w)) w) in *.
  assert (Hw1 : w1 = mk_world (w_ep w) (<[p := pp1]> (w_pipes w)) false).
  { unfold w1. destruct w; cbn in *. now subst. }
  assert (Ewf : world_wf w1).
  { rewrite Hw1. apply (wf_pipe_update w p pp pp1); assumption. }
  assert (Efr : w_ep_freed w1 = false) by (rewrite Hw1; reflexivity).
  assert (Ein : p ∈ ep_negopipes (w_ep w1)) by (rewrite Hw1; exact Hin).
  assert (Ep : w_pipes w1 !! p = Some pp1).
  { rewrite Hw1. cbn. apply lookup_insert_eq. }
  destruct (nego_run_rx p rx w1 pp1 0 h Ewf Efr Ein Ep Hgt1 Hwt1 Hgr1 Hwr1
              ltac:(lia) Hrxpos ltac:(lia) Hlast Hlen Hv)
    as (w' & tm & Hrun2 & Hs & Hpeer & Hok).
  rewrite nego_run_app. unfold bind. rewrite Hrun1, Hrun2. rewrite Htls1.
  exists w', tm. split; [now rewrite <- !app_assoc|].
  split; [exact Hs|]. split; [exact Hpeer|exact Hok].
Qed.


(** ** Endpoint initialisation *)

Lemma strlen_zero (s : String.string) :
  (strlen s =? 0) = true <-> s = String.EmptyString.
Proof.
  unfold strlen. rewrite Z.eqb_eq. destruct s; cbn; split; intros H;
    try reflexivity; try discriminate; lia.
Qed.

Lemma streq_eq (a b : String.string) : streq a b = true <-> a = b.
Proof. apply String.eqb_eq. Qed.

Lemma path_check (url : nng_url) :
  negb (strlen (u_path url) =? 0) && negb (streq (u_path url) url_root) = false
  <-> (u_path url = String.EmptyString \/ u_path url = url_root).
Proof.
  rewrite andb_false_iff, !negb_false_iff, strlen_zero, streq_eq. tauto.
Qed.

Lemma parts_check (url : nng_url) :
  bool_decide (u_fragment url <> None) || bool_decide (u_userinfo url <> None)
  || bool_decide (u_query url <> None) = false
  <-> (u_fragment url = None /\ u_userinfo url = None /\ u_query url = None).
Proof.
  rewrite !orb_false_iff, !bool_decide_eq_false.
  destruct (u_fragment url), (u_userinfo url), (u_query url); split;
    intros H; try tauto; try (destruct H as ((H1 & H2) & H3); exfalso; auto);
    destruct H as (H1 & H2 & H3); discriminate.
Qed.

Lemma dialer_check (url : nng_url) :
  bool_decide (u_fragment url <> None) || bool_decide (u_userinfo url <> None)
  || bool_decide (u_query url <> None) || (strlen (u_hostname url) =? 0)
  || (u_port url =? 0) = false
  <-> (u_fragment url = None /\ u_userinfo url = None /\ u_query url = None
       /\ u_hostname url <> String.EmptyString /\ u_port url <> 0).
Proof.
  rewrite orb_false_iff, (orb_false_iff _ (strlen _ =? 0)), parts_check.
  assert (Hh : (strlen (u_hostname url) =? 0) = false
               <-> u_hostname url <> String.EmptyString).
  { rewrite <- not_true_iff_false. now rewrite strlen_zero. }
  rewrite Hh, Z.eqb_neq. tauto.
Qed.

Lemma init_fini_calls (rv : nng_err) (proto : Z)
  (r : option (option String.string * Z * nng_af)) :
  init_fini rv (tlstran_ep_init proto) r =
    mk_init_result rv None ep_teardown_calls r false.
Proof. reflexivity. Qed.

(** X27: A dialer is set up exactly for the URLs whose path is empty or "/",
    that carry no fragment, user info or query, and that name a host
    and a non-zero port; any other URL is refused as an invalid address
    before anything is allocated. *)
Theorem dialer_init_url (env : init_env) (url : nng_url) (proto : Z) :
  init_env_ok env ->
  (dialer_url_ok url <-> ir_rv (tlstran_ep_init_dialer env url proto) = NNG_OK)
  /\ (dialer_url_ok url ->
      tlstran_ep_init_dialer env url proto =
        mk_init_result NNG_OK (Some (world_init proto true)) [] None false)
  /\ (~ dialer_url_ok url ->
      forall env',
        tlstran_ep_init_dialer env' url proto =
          mk_init_result NNG_EADDRINVAL None [] None false).
Proof.
  intros (Hep & Hc & _ & _ & _ & Hs).
  assert (Hok : dialer_url_ok url ->
                tlstran_ep_init_dialer env url proto =
                  mk_init_result NNG_OK (Some (world_init proto true)) [] None false).
  { intros (Hpath & Hparts). unfold tlstran_ep_init_dialer.
    apply path_check in Hpath. rewrite Hpath.
    apply dialer_check in Hparts. rewrite Hparts.
    rewrite Hep. cbn [negb].
    rewrite !decide_False by (rewrite ?Hc, ?Hs; intros H; now apply H).
    reflexivity. }
  assert (Hbad : ~ dialer_url_ok url ->
                 forall env',
                   tlstran_ep_init_dialer env' url proto =
                     mk_init_result NNG_EADDRINVAL None [] None false).
  { intros Hn env'. unfold tlstran_ep_init_dialer.
    destruct (negb (strlen (u_path url) =? 0) && negb (streq (u_path url) url_root))
      eqn:Hpath; [reflexivity|].
    destruct (bool_decide (u_fragment url <> None)
              || bool_decide (u_userinfo url <> None)
              || bool_decide (u_query url <> None) || (strlen (u_hostname url) =? 0)
              || (u_port url =? 0)) eqn:Hparts; [reflexivity|].
    exfalso. apply Hn. split; [now apply path_check|now apply dialer_check]. }
  split; [|split; assumption].
  split.
  - intros H. now rewrite (Hok H).
  - intros Hrv.
    destruct (negb (strlen (u_path url) =? 0) && negb (streq (u_path url) url_root))
      eqn:Hpath.
    { unfold tlstran_ep_init_dialer in Hrv. rewrite Hpath in Hrv. discriminate. }
    destruct (bool_decide (u_fragment url <> None)
              || bool_decide (u_userinfo url <> None)
              || bool_decide (u_query url <> None) || (strlen (u_hostname url) =? 0)
              || (u_port url =? 0)) eqn:Hparts.
    { unfold tlstran_ep_init_dialer in Hrv. rewrite Hpath, Hparts in Hrv.
      discriminate. }
    split; [now apply path_check|now apply dialer_check].
Qed.

(** X28: When setting up a dialer fails after the URL was accepted, no
    endpoint is handed out.  A failure to allocate the dialer stream
    tears the new endpoint down again; a failure to allocate the
    connect aio returns with the endpoint structure still allocated. *)
Theorem dialer_init_failure (env : init_env) (url : nng_url) (proto : Z) :
  dialer_url_ok url ->
  ie_ep env = false \/ ie_connaio env <> NNG_OK \/ ie_stream env <> NNG_OK ->
  ir_rv (tlstran_ep_init_dialer env url proto) <> NNG_OK
  /\ ir_ep (tlstran_ep_init_dialer env url proto) = None
  /\ (ie_ep env = false ->
      tlstran_ep_init_dialer env url proto =
        mk_init_result NNG_ENOMEM None [] None false)
  /\ (ie_ep env = true -> ie_connaio env <> NNG_OK ->
      tlstran_ep_init_dialer env url proto =
        mk_init_result (ie_connaio env) None [] None true)
  /\ (ie_ep env = true -> ie_connaio env = NNG_OK ->
      tlstran_ep_init_dialer env url proto =
        mk_init_result (ie_stream env) None ep_teardown_calls None false).
Proof.
  intros (Hpath & Hparts) Hfail. unfold tlstran_ep_init_dialer.
  apply path_check in Hpath. rewrite Hpath.
  apply dialer_check in Hparts. rewrite Hparts.
  destruct (ie_ep env) eqn:Hep; cbn [negb].
  - destruct (decide (ie_connaio env <> NNG_OK)) as [Hc|Hc].
    + cbn. repeat split; intros; try tauto; try discriminate; try congruence.
    + destruct (decide (ie_stream env <> NNG_OK)) as [Hs|Hs].
      * rewrite init_fini_calls. cbn.
        repeat split; intros; try tauto; try discriminate; try congruence.
      * exfalso. destruct Hfail as [H|[H|H]]; [discriminate|tauto|tauto].
  - cbn. repeat split; intros; try tauto; try discriminate; try congruence.
Qed.

Lemma listener_af (ipv6 : bool) (url : nng_url) :
  (if streq (u_scheme url) scheme_tls_tcp then Some NNG_AF_UNSPEC
   else if streq (u_scheme url) scheme_tls_tcp4 then Some NNG_AF_INET
   else if ipv6 && streq (u_scheme url) scheme_tls_tcp6 then Some NNG_AF_INET6
   else None) =
  (if decide (u_scheme url = scheme_tls_tcp) then Some NNG_AF_UNSPEC
   else if decide (u_scheme url = scheme_tls_tcp4) then Some NNG_AF_INET
   else if decide (ipv6 = true /\ u_scheme url = scheme_tls_tcp6)
        then Some NNG_AF_INET6
   else None).
Proof.
  destruct (streq (u_scheme url) scheme_tls_tcp) eqn:H1.
  { apply streq_eq in H1. now rewrite decide_True. }
  rewrite decide_False by (intros H; apply streq_eq in H; congruence).
  destruct (streq (u_scheme url) scheme_tls_tcp4) eqn:H2.
  { apply streq_eq in H2. now rewrite decide_True. }
  rewrite decide_False by (intros H; apply streq_eq in H; congruence).
  destruct ipv6; cbn [andb].
  - destruct (streq (u_scheme url) scheme_tls_tcp6) eqn:H3.
    + apply streq_eq in H3. now rewrite decide_True.
    + rewrite decide_False; [reflexivity|].
      intros [_ H]. apply streq_eq in H. congruence.
  - rewrite decide_False; [reflexivity|]. intros [H _]. discriminate.
Qed.

(** X29: A listener is set up exactly for the URLs whose scheme is tls+tcp,
    tls+tcp4 or (in a build with IPv6) tls+tcp6, whose path is empty or
    "/", and that carry no fragment, user info or query.  The host may
    be empty and the port zero: the address is looked up for the family
    the scheme names, an empty host as no host at all. *)
Theorem listener_init_url (env : init_env) (url : nng_url) (proto : Z) :
  init_env_ok env ->
  (listener_url_ok (ie_ipv6 env) url
   <-> ir_rv (tlstran_ep_init_listener env url proto) = NNG_OK)
  /\ (listener_url_ok (ie_ipv6 env) url ->
      exists host af,
        tlstran_ep_init_listener env url proto =
          mk_init_result NNG_OK (Some (world_init proto false)) []
            (Some (host, u_port url, af)) false
        /\ (u_hostname url = String.EmptyString -> host = None)
        /\ (u_hostname url <> String.EmptyString -> host = Some (u_hostname url))
        /\ (u_scheme url = scheme_tls_tcp -> af = NNG_AF_UNSPEC)
        /\ (u_scheme url = scheme_tls_tcp4 -> af = NNG_AF_INET)
        /\ (u_scheme url = scheme_tls_tcp6 -> af = NNG_AF_INET6))
  /\ (~ listener_url_ok (ie_ipv6 env) url ->
      tlstran_ep_init_listener env url proto =
        mk_init_result NNG_EADDRINVAL None [] None false).
Proof.
  intros (Hep & Hc & Ht & Ha & Hr & Hs).
  assert (Hhost : exists host,
            (if strlen (u_hostname url) =? 0 then None else Some (u_hostname url))
            = host
            /\ (u_hostname url = String.EmptyString -> host = None)
            /\ (u_hostname url <> String.EmptyString -> host = Some (u_hostname url))).
  { destruct (strlen (u_hostname url) =? 0) eqn:H0.
    - exists None. apply strlen_zero in H0. repeat split; tauto.
    - exists (Some (u_hostname url)).
      assert (u_hostname url <> String.EmptyString).
      { intros H. apply strlen_zero in H. congruence. }
      repeat split; tauto. }
  destruct Hhost as (host & Hhosteq & Hh1 & Hh2).
  assert (Hok : listener_url_ok (ie_ipv6 env) url ->
            exists host af,
              tlstran_ep_init_listener env url proto =
                mk_init_result NNG_OK (Some (world_init proto false)) []
                  (Some (host, u_port url, af)) false
              /\ (u_hostname url = String.EmptyString -> host = None)
              /\ (u_hostname url <> String.EmptyString -> host = Some (u_hostname url))
              /\ (u_scheme url = scheme_tls_tcp -> af = NNG_AF_UNSPEC)
              /\ (u_scheme url = scheme_tls_tcp4 -> af = NNG_AF_INET)
              /\ (u_scheme url = scheme_tls_tcp6 -> af = NNG_AF_INET6)).
  { intros (Hsch & Hpath & Hparts). unfold tlstran_ep_init_listener.
    rewrite listener_af.
    apply path_check in Hpath. apply parts_check in Hparts.
    assert (Hrest : forall af,
              (if negb (strlen (u_path url) =? 0) && negb (streq (u_path url) url_root)
               then mk_init_result NNG_EADDRINVAL None [] None false
               else if bool_decide (u_fragment url <> None)
                       || bool_decide (u_userinfo url <> None)
                       || bool_decide (u_query url <> None)
               then mk_init_result NNG_EADDRINVAL None [] None false
               else if negb (ie_ep env)
               then mk_init_result NNG_ENOMEM None [] None false
               else
                 let ep := tlstran_ep_init proto in
                 if decide (ie_connaio env <> NNG_OK)
                 then mk_init_result (ie_connaio env) None [] None true
                 else if decide (ie_timeaio env <> NNG_OK)
                 then mk_init_result (ie_timeaio env) None [] None true
                 else
                   let host := if strlen (u_hostname url) =? 0 then None
                               else Some (u_hostname url) in
                   if decide (ie_aio env <> NNG_OK)
                   then init_fini (ie_aio env) ep None
                   else
                     let resolved := Some (host, u_port url, af) in
                     if decide (ie_resolv env <> NNG_OK)
                     then init_fini (ie_resolv env) ep resolved
                     else if decide (ie_stream env <> NNG_OK)
                     then init_fini (ie_stream env) ep resolved
                     else mk_init_result NNG_OK
                            (Some (mk_world (set_ep_listener true ep) ∅ false)) []
                            resolved false)
              = mk_init_result NNG_OK (Some (world_init proto false)) []
                  (Some (host, u_port url, af)) false).
    { intros af. rewrite Hpath, Hparts, Hep. cbn [negb]. cbv zeta.
      rewrite !decide_False
        by (rewrite ?Hc, ?Ht, ?Ha, ?Hr, ?Hs; intros H; now apply H).
      rewrite Hhosteq. reflexivity. }
    destruct (decide (u_scheme url = scheme_tls_tcp)) as [H1|H1].
    { exists host, NNG_AF_UNSPEC. rewrite Hrest.
      repeat split; auto; intros H; rewrite H in H1; discriminate. }
    destruct (decide (u_scheme url = scheme_tls_tcp4)) as [H2|H2].
    { exists host, NNG_AF_INET. rewrite Hrest.
      repeat split; auto; intros H; rewrite H in H2; discriminate. }
    destruct (decide (ie_ipv6 env = true /\ u_scheme url = scheme_tls_tcp6))
      as [H3|H3].
    { exists host, NNG_AF_INET6. rewrite Hrest.
      repeat split; auto; intros H; congruence. }
    exfalso. tauto. }
  assert (Hbad : ~ listener_url_ok (ie_ipv6 env) url ->
            tlstran_ep_init_listener env url proto =
              mk_init_result NNG_EADDRINVAL None [] None false).
  { intros Hn. unfold tlstran_ep_init_listener. rewrite listener_af.
    destruct (decide (u_scheme url = scheme_tls_tcp)) as [H1|H1];
      [|destruct (decide (u_scheme url = scheme_tls_tcp4)) as [H2|H2];
        [|destruct (decide (ie_ipv6 env = true /\ u_scheme url = scheme_tls_tcp6))
            as [H3|H3]; [|reflexivity]]].
    all: destruct (negb (strlen (u_path url) =? 0)
                   && negb (streq (u_path url) url_root)) eqn:Hpath;
      [reflexivity|].
    all: destruct (bool_decide (u_fragment url <> None)
                   || bool_decide (u_userinfo url <> None)
                   || bool_decide (u_query url <> None)) eqn:Hparts;
      [reflexivity|].
    all: exfalso; apply Hn; split;
      [tauto|split; [now apply path_check|now apply parts_check]]. }
  split; [|split; assumption].
  split.
  - intros H. destruct (Hok H) as (h & af & -> & _). reflexivity.
  - intros Hrv. unfold tlstran_ep_init_listener in Hrv. rewrite listener_af in Hrv.
    assert (Hsch : u_scheme url = scheme_tls_tcp \/ u_scheme url = scheme_tls_tcp4
                   \/ (ie_ipv6 env = true /\ u_scheme url = scheme_tls_tcp6)).
    { destruct (decide (u_scheme url = scheme_tls_tcp)); [tauto|].
      destruct (decide (u_scheme url = scheme_tls_tcp4)); [tauto|].
      destruct (decide (ie_ipv6 env = true /\ u_scheme url = scheme_tls_tcp6));
        [tauto|discriminate]. }
    split; [exact Hsch|].
    destruct (negb (strlen (u_path url) =? 0) && negb (streq (u_path url) url_root))
      eqn:Hpath.
    { exfalso. repeat case_decide; discriminate. }
    destruct (bool_decide (u_fragment url <> None)
              || bool_decide (u_userinfo url <> None)
              || bool_decide (u_query url <> None)) eqn:Hparts.
    { exfalso. repeat case_decide; discriminate. }
    split; [now apply path_check|now apply parts_check].
Qed.

(** X30: When setting up a listener fails after the URL was accepted, no
    endpoint is handed out.  A failure of the name lookup, of its aio
    or of the listener stream tears the new endpoint down again; a
    failure to allocate the accept aio or the timer aio returns with
    the endpoint structure still allocated. *)
Theorem listener_init_failure (env : init_env) (url : nng_url) (proto : Z) :
  listener_url_ok (ie_ipv6 env) url ->
  ie_ep env = true ->
  ie_connaio env <> NNG_OK \/ ie_timeaio env <> NNG_OK \/ ie_aio env <> NNG_OK
  \/ ie_resolv env <> NNG_OK \/ ie_stream env <> NNG_OK ->
  ir_rv (tlstran_ep_init_listener env url proto) <> NNG_OK
  /\ ir_ep (tlstran_ep_init_listener env url proto) = None
  /\ (ie_connaio env <> NNG_OK \/ ie_timeaio env <> NNG_OK ->
      ir_ep_left (tlstran_ep_init_listener env url proto) = true
      /\ ir_calls (tlstran_ep_init_listener env url proto) = [])
  /\ (ie_connaio env = NNG_OK -> ie_timeaio env = NNG_OK ->
      ir_ep_left (tlstran_ep_init_listener env url proto) = false
      /\ ir_calls (tlstran_ep_init_listener env url proto) = ep_teardown_calls).
Proof.
  intros (Hsch & Hpath & Hparts) Hep Hfail. unfold tlstran_ep_init_listener.
  rewrite listener_af.
  apply path_check in Hpath. apply parts_check in Hparts.
  assert (Haf : exists af,
            (if decide (u_scheme url = scheme_tls_tcp) then Some NNG_AF_UNSPEC
             else if decide (u_scheme url = scheme_tls_tcp4) then Some NNG_AF_INET
             else if decide (ie_ipv6 env = true /\ u_scheme url = scheme_tls_tcp6)
                  then Some NNG_AF_INET6
             else None) = Some af).
  { repeat case_decide; eauto. exfalso. tauto. }
  destruct Haf as [af ->].
  rewrite Hpath, Hparts, Hep. cbn [negb]. cbv zeta.
  destruct (decide (ie_connaio env <> NNG_OK)) as [Hc|Hc].
  { cbn. repeat split; intros; try tauto; try discriminate; try congruence. }
  destruct (decide (ie_timeaio env <> NNG_OK)) as [Ht|Ht].
  { cbn. repeat split; intros; try tauto; try discriminate; try congruence. }
  destruct (decide (ie_aio env <> NNG_OK)) as [Ha|Ha].
  { rewrite init_fini_calls. cbn.
    repeat split; intros; try tauto; try discriminate; try congruence. }
  destruct (decide (ie_resolv env <> NNG_OK)) as [Hr|Hr].
  { rewrite init_fini_calls. cbn.
    repeat split; intros; try tauto; try discriminate; try congruence. }
  destruct (decide (ie_stream env <> NNG_OK)) as [Hs|Hs].
  { rewrite init_fini_calls. cbn.
    repeat split; intros; try tauto; try discriminate; try congruence. }
  exfalso. tauto.
Qed.


Lemma handshake_survives_partial_io_witness :
  reachable demo_world2
  /\ w_pipes demo_world2 !! 1%nat = Some (pipe_1 demo_world2)
  /\ 1%nat ∈ ep_negopipes (w_ep demo_world2)
  /\ p_gottxhead (pipe_1 demo_world2) = 0
  /\ p_wanttxhead (pipe_1 demo_world2) = 8
  /\ p_gotrxhead (pipe_1 demo_world2) = 0
  /\ p_wantrxhead (pipe_1 demo_world2) = 8
  /\ split_of 8 (map fst [(3, repeat x00 8); (5, repeat x00 8)])
  /\ split_of 8 (map fst [(2, repeat x00 8); (6, demo_header)])
  /\ snd <$> last [(2, repeat x00 8); (6, demo_header)] = Some demo_header
  /\ length demo_header = 8%nat
  /\ nego_header_valid demo_header
  /\ exists w' tm,
       nego_run 1 ([(3, repeat x00 8); (5, repeat x00 8)]
                   ++ [(2, repeat x00 8); (6, demo_header)]) demo_world2 =
         Some (tt, w',
               map (fun iov => c_on_pipe 1
                      (c_nng_stream_send (p_tls (pipe_1 demo_world2)) NEGOAIO [iov]))
                 (resume_iovs buf_txlen 0
                    (map fst [(3, repeat x00 8); (5, repeat x00 8)]))
               ++ [c_on_pipe 1 (c_nng_stream_recv (p_tls (pipe_1 demo_world2)) NEGOAIO
                                  [mk_iov buf_rxlen 0 8])]
               ++ map (fun iov => c_on_pipe 1
                         (c_nng_stream_recv (p_tls (pipe_1 demo_world2)) NEGOAIO [iov]))
                    (resume_iovs buf_rxlen 0
                       (map fst [(2, repeat x00 8); (6, demo_header)]))
               ++ tm)
       /\ nego_succeeded 1 w'
       /\ tlstran_pipe_peer <$> (w_pipes w' !! 1%nat) = Some (peer_word demo_header)
       /\ Forall (fun c => is_error_completion c = false) tm.
Proof.
  assert (H2 : w_pipes demo_world2 !! 1%nat = Some (pipe_1 demo_world2)).
  { vm_compute. reflexivity. }
  assert (H3 : 1%nat ∈ ep_negopipes (w_ep demo_world2)).
  { vm_compute. constructor. }
  assert (H8 : split_of 8 (map fst [(3, repeat x00 8); (5, repeat x00 8)])).
  { split; [repeat constructor|reflexivity]. }
  assert (H9 : split_of 8 (map fst [(2, repeat x00 8); (6, demo_header)])).
  { split; [repeat constructor|reflexivity]. }
  assert (H12 : nego_header_valid demo_header).
  { repeat split; reflexivity. }
  split; [exact demo_world2_reachable|]. split; [exact H2|]. split; [exact H3|].
  do 4 (split; [vm_compute; reflexivity|]).
  split; [exact H8|]. split; [exact H9|].
  split; [reflexivity|]. split; [reflexivity|]. split; [exact H12|].
  exact (handshake_survives_partial_io demo_world2 1 (pipe_1 demo_world2)
           [(3, repeat x00 8); (5, repeat x00 8)]
           [(2, repeat x00 8); (6, demo_header)] demo_header
           demo_world2_reachable H2 H3 eq_refl eq_refl eq_refl eq_refl
           H8 H9 eq_refl eq_refl H12).
Defined.

Lemma ep_accept_starts_once_witness :
  reachable (world_init 16 false)
  /\ nni_aio_begin demo_aio = NNG_OK
  /\ nni_aio_schedule demo_aio = NNG_OK
  /\ ep_closed (w_ep (world_init 16 false)) = false
  /\ ep_useraio (w_ep (world_init 16 false)) = None
  /\ (ep_started (w_ep (world_init 16 false)) = false ->
      tlstran_ep_accept demo_aio (world_init 16 false) =
        Some (tt,
              set_w_ep (set_ep_started true
                          (set_ep_useraio (Some demo_aio)
                             (w_ep (world_init 16 false))))
                (world_init 16 false),
              [c_nng_stream_listener_accept CONNAIO]))
  /\ (ep_started (w_ep (world_init 16 false)) = true ->
      ep_waitpipes (w_ep (world_init 16 false)) = [] ->
      tlstran_ep_accept demo_aio (world_init 16 false) =
        Some (tt, set_w_ep (set_ep_useraio (Some demo_aio)
                              (w_ep (world_init 16 false)))
                    (world_init 16 false), []))
  /\ (forall p rest,
        ep_started (w_ep (world_init 16 false)) = true ->
        ep_waitpipes (w_ep (world_init 16 false)) = p :: rest ->
        exists w',
          tlstran_ep_accept demo_aio (world_init 16 false) =
            Some (tt, w',
                  [c_nni_aio_set_output (ua_id demo_aio) 0 p;
                   c_nni_aio_finish (ua_id demo_aio) NNG_OK 0])
          /\ ep_useraio (w_ep w') = None
          /\ ep_waitpipes (w_ep w') = rest
          /\ ep_busypipes (w_ep w') = ep_busypipes (w_ep (world_init 16 false)) ++ [p]).
Proof.
  split; [apply reach_init|].
  do 4 (split; [reflexivity|]).
  exact (ep_accept_starts_once (world_init 16 false) demo_aio (reach_init 16 false)
           eq_refl eq_refl eq_refl eq_refl).
Defined.

Lemma demo_init_env_ok : init_env_ok demo_init_env.
Proof. repeat split; reflexivity. Qed.

Lemma demo_url_ok : dialer_url_ok demo_url.
Proof.
  split; [right; reflexivity|]. repeat split; try reflexivity; discriminate.
Qed.

Lemma demo_wild_url_ok : listener_url_ok true demo_wild_url.
Proof.
  split; [right; left; reflexivity|]. split; [left; reflexivity|].
  repeat split; reflexivity.
Qed.

Lemma dialer_init_url_witness :
  init_env_ok demo_init_env
  /\ (dialer_url_ok demo_url
      <-> ir_rv (tlstran_ep_init_dialer demo_init_env demo_url 16) = NNG_OK)
  /\ (dialer_url_ok demo_url ->
      tlstran_ep_init_dialer demo_init_env demo_url 16 =
        mk_init_result NNG_OK (Some (world_init 16 true)) [] None false)
  /\ (~ dialer_url_ok demo_url ->
      forall env',
        tlstran_ep_init_dialer env' demo_url 16 =
          mk_init_result NNG_EADDRINVAL None [] None false).
Proof.
  split; [exact demo_init_env_ok|].
  exact (dialer_init_url demo_init_env demo_url 16 demo_init_env_ok).
Defined.

Lemma dialer_init_failure_witness :
  dialer_url_ok demo_url
  /\ (ie_ep demo_noaio_env = false \/ ie_connaio demo_noaio_env <> NNG_OK
      \/ ie_stream demo_noaio_env <> NNG_OK)
  /\ ir_rv (tlstran_ep_init_dialer demo_noaio_env demo_url 16) <> NNG_OK
  /\ ir_ep (tlstran_ep_init_dialer demo_noaio_env demo_url 16) = None
  /\ (ie_ep demo_noaio_env = false ->
      tlstran_ep_init_dialer demo_noaio_env demo_url 16 =
        mk_init_result NNG_ENOMEM None [] None false)
  /\ (ie_ep demo_noaio_env = true -> ie_connaio demo_noaio_env <> NNG_OK ->
      tlstran_ep_init_dialer demo_noaio_env demo_url 16 =
        mk_init_result (ie_connaio demo_noaio_env) None [] None true)
  /\ (ie_ep demo_noaio_env = true -> ie_connaio demo_noaio_env = NNG_OK ->
      tlstran_ep_init_dialer demo_noaio_env demo_url 16 =
        mk_init_result (ie_stream demo_noaio_env) None ep_teardown_calls None false).
Proof.
  assert (H2 : ie_ep demo_noaio_env = false \/ ie_connaio demo_noaio_env <> NNG_OK
               \/ ie_stream demo_noaio_env <> NNG_OK).
  { right. left. discriminate. }
  split; [exact demo_url_ok|]. split; [exact H2|].
  exact (dialer_init_failure demo_noaio_env demo_url 16 demo_url_ok H2).
Defined.

Lemma listener_init_url_witness :
  init_env_ok demo_init_env
  /\ (listener_url_ok (ie_ipv6 demo_init_env) demo_wild_url
      <-> ir_rv (tlstran_ep_init_listener demo_init_env demo_wild_url 16) = NNG_OK)
  /\ (listener_url_ok (ie_ipv6 demo_init_env) demo_wild_url ->
      exists host af,
        tlstran_ep_init_listener demo_init_env demo_wild_url 16 =
          mk_init_result NNG_OK (Some (world_init 16 false)) []
            (Some (host, u_port demo_wild_url, af)) false
        /\ (u_hostname demo_wild_url = String.EmptyString -> host = None)
        /\ (u_hostname demo_wild_url <> String.EmptyString ->
            host = Some (u_hostname demo_wild_url))
        /\ (u_scheme demo_wild_url = scheme_tls_tcp -> af = NNG_AF_UNSPEC)
        /\ (u_scheme demo_wild_url = scheme_tls_tcp4 -> af = NNG_AF_INET)
        /\ (u_scheme demo_wild_url = scheme_tls_tcp6 -> af = NNG_AF_INET6))
  /\ (~ listener_url_ok (ie_ipv6 demo_init_env) demo_wild_url ->
      tlstran_ep_init_listener demo_init_env demo_wild_url 16 =
        mk_init_result NNG_EADDRINVAL None [] None false).
Proof.
  split; [exact demo_init_env_ok|].
  exact (listener_init_url demo_init_env demo_wild_url 16 demo_init_env_ok).
Defined.

Lemma listener_init_failure_witness :
  listener_url_ok (ie_ipv6 demo_noresolv_env) demo_wild_url
  /\ ie_ep demo_noresolv_env = true
  /\ (ie_connaio demo_noresolv_env <> NNG_OK \/ ie_timeaio demo_noresolv_env <> NNG_OK
      \/ ie_aio demo_noresolv_env <> NNG_OK \/ ie_resolv demo_noresolv_env <> NNG_OK
      \/ ie_stream demo_noresolv_env <> NNG_OK)
  /\ ir_rv (tlstran_ep_init_listener demo_noresolv_env demo_wild_url 16) <> NNG_OK
  /\ ir_ep (tlstran_ep_init_listener demo_noresolv_env demo_wild_url 16) = None
  /\ (ie_connaio demo_noresolv_env <> NNG_OK \/ ie_timeaio demo_noresolv_env <> NNG_OK ->
      ir_ep_left (tlstran_ep_init_listener demo_noresolv_env demo_wild_url 16) = true
      /\ ir_calls (tlstran_ep_init_listener demo_noresolv_env demo_wild_url 16) = [])
  /\ (ie_connaio demo_noresolv_env = NNG_OK -> ie_timeaio demo_noresolv_env = NNG_OK ->
      ir_ep_left (tlstran_ep_init_listener demo_noresolv_env demo_wild_url 16) = false
      /\ ir_calls (tlstran_ep_init_listener demo_noresolv_env demo_wild_url 16)
         = ep_teardown_calls).
Proof.
  assert (H3 : ie_connaio demo_noresolv_env <> NNG_OK
               \/ ie_timeaio demo_noresolv_env <> NNG_OK
               \/ ie_aio demo_noresolv_env <> NNG_OK
               \/ ie_resolv demo_noresolv_env <> NNG_OK
               \/ ie_stream demo_noresolv_env <> NNG_OK).
  { right. right. right. left. discriminate. }
  split; [exact demo_wild_url_ok|]. split; [reflexivity|]. split; [exact H3|].
  exact (listener_init_failure demo_noresolv_env demo_wild_url 16
           demo_wild_url_ok eq_refl H3).
Defined.


(** ** The remaining rules of the specification *)

Lemma demo_listener1_reachable : reachable demo_listener1.
Proof.
  refine (reach_step demo_listener0 (wev_accept demo_aio) demo_listener1
            (calls_of (world_routine (wev_accept demo_aio)) demo_listener0) _ _ _).
  - apply reach_init.
  - split; reflexivity.
  - vm_compute. reflexivity.
Qed.

Lemma demo_fini_world_reachable : reachable demo_fini_world.
Proof.
  refine (reach_step demo_world2 wev_fini demo_fini_world
            (calls_of (world_routine wev_fini) demo_world2) _ _ _).
  - apply demo_world2_reachable.
  - split; reflexivity.
  - vm_compute. reflexivity.
Qed.

Lemma nego_cb_checks_header_witness :
  world_wf demo_world3
  /\ w_pipes demo_world3 !! 1%nat = Some (pipe_1 demo_world3)
  /\ 1%nat ∈ ep_negopipes (w_ep demo_world3)
  /\ length (p_rxlen (pipe_1 demo_world3)) = 8%nat
  /\ a_result (p_negoaio (pipe_1 demo_world3)) = NNG_OK
  /\ nego_headers_done (pipe_1 demo_world3)
  /\ nego_header_valid (p_rxlen (pipe_1 demo_world3))
  /\ exists w' t,
       tlstran_pipe_nego_cb 1 demo_world3 = Some (tt, w', t)
       /\ (nego_header_valid (p_rxlen (pipe_1 demo_world3)) <-> nego_succeeded 1 w')
       /\ (nego_header_valid (p_rxlen (pipe_1 demo_world3)) ->
           p_peer <$> (w_pipes w' !! 1%nat)
             = Some (peer_word (p_rxlen (pipe_1 demo_world3)))
           /\ Forall (fun c => is_error_completion c = false) t
           /\ c_nni_reap_pipe 1 ∉ t)
       /\ (~ nego_header_valid (p_rxlen (pipe_1 demo_world3)) ->
           nego_failed 1 NNG_EPROTO demo_world3 w' t).
Proof.
  assert (H1 : world_wf demo_world3) by exact (reachable_wf _ demo_world3_reachable).
  assert (H2 : w_pipes demo_world3 !! 1%nat = Some (pipe_1 demo_world3)).
  { vm_compute. reflexivity. }
  assert (H3 : 1%nat ∈ ep_negopipes (w_ep demo_world3)).
  { vm_compute. constructor. }
  assert (H4 : length (p_rxlen (pipe_1 demo_world3)) = 8%nat).
  { vm_compute. reflexivity. }
  assert (H5 : a_result (p_negoaio (pipe_1 demo_world3)) = NNG_OK).
  { vm_compute. reflexivity. }
  assert (H6 : nego_headers_done (pipe_1 demo_world3)).
  { split; vm_compute; discriminate. }
  assert (H7 : nego_header_valid (p_rxlen (pipe_1 demo_world3))).
  { vm_compute. repeat split; reflexivity. }
  split; [exact H1|]. split; [exact H2|]. split; [exact H3|]. split; [exact H4|].
  split; [exact H5|]. split; [exact H6|]. split; [exact H7|].
  exact (nego_cb_checks_header demo_world3 1 (pipe_1 demo_world3) H1 H2 H3 H4 H5 H6).
Defined.

Lemma ep_match_pairs_oldest_witness :
  ep_useraio (w_ep demo_wait_world) = Some demo_aio
  /\ ep_waitpipes (w_ep demo_wait_world) = 1%nat :: []
  /\ w_pipes demo_wait_world !! 1%nat = Some demo_pipe
  /\ exists w',
       tlstran_ep_match demo_wait_world =
         Some (tt, w',
               [c_nni_aio_set_output (ua_id demo_aio) 0 1;
                c_nni_aio_finish (ua_id demo_aio) NNG_OK 0])
       /\ ep_waitpipes (w_ep w') = []
       /\ ep_busypipes (w_ep w') = ep_busypipes (w_ep demo_wait_world) ++ [1%nat]
       /\ ep_negopipes (w_ep w') = ep_negopipes (w_ep demo_wait_world)
       /\ ep_useraio (w_ep w') = None
       /\ w_pipes w' =
            <[1%nat := set_p_rcvmax (ep_rcvmax (w_ep demo_wait_world)) demo_pipe]>
              (w_pipes demo_wait_world)
       /\ p_rcvmax <$> (w_pipes w' !! 1%nat) = Some (ep_rcvmax (w_ep demo_wait_world))
       /\ ep_rcvmax (w_ep w') = ep_rcvmax (w_ep demo_wait_world)
       /\ ep_refcnt (w_ep w') = ep_refcnt (w_ep demo_wait_world)
       /\ ep_closed (w_ep w') = ep_closed (w_ep demo_wait_world)
       /\ ep_fini (w_ep w') = ep_fini (w_ep demo_wait_world).
Proof.
  assert (H3 : w_pipes demo_wait_world !! 1%nat = Some demo_pipe).
  { vm_compute. reflexivity. }
  split; [reflexivity|]. split; [reflexivity|]. split; [exact H3|].
  exact (proj2 (ep_match_pairs_oldest demo_wait_world) demo_aio 1%nat [] demo_pipe
           eq_refl eq_refl H3).
Defined.

(** *** Errors of the negotiation *)

Lemma reap_calls_completions (p : nat) (pp : tlstran_pipe) :
  completions (reap_calls p pp) = [].
Proof.
  unfold reap_calls. destruct (p_reaped pp); [reflexivity|].
  destruct (bool_decide (p_tls pp <> None)); reflexivity.
Qed.

(** C3: when the negotiation aio of a negotiating pipe completes with
    an error while a user aio is posted on the endpoint, the callback
    closes the pipe's stream, completes the user aio and hands the
    pipe to the reaper, and calls nothing else; the user aio is
    completed with connection-shut if the error is the closed code and
    with the error itself otherwise, and the slot is left empty.  A
    header mismatch found by the callback itself is surfaced in the
    same way, as protocol-error. *)
Theorem nego_error_surfaced (w : tlstran_world) (p : nat) (u : user_aio)
  (rv : nng_err) (count : Z) (rxlen : list byte) :
  reachable w ->
  p ∈ ep_negopipes (w_ep w) ->
  ep_useraio (w_ep w) = Some u ->
  exists pp,
    w_pipes w !! p = Some pp
    /\ (rv <> NNG_OK ->
        exists w' rv',
          world_routine (wev_nego_done p rv count rxlen) w =
            Some (tt, w',
                  [c_nng_stream_close (p_tls pp);
                   c_nni_aio_finish_error (ua_id u) rv'] ++ reap_calls p pp)
          /\ (rv = NNG_ECLOSED -> rv' = NNG_ECONNSHUT)
          /\ (rv <> NNG_ECLOSED -> rv' = rv)
          /\ completions
               ([c_nng_stream_close (p_tls pp);
                 c_nni_aio_finish_error (ua_id u) rv'] ++ reap_calls p pp)
             = [(ua_id u, rv')]
          /\ ep_useraio (w_ep w') = None)
    /\ (rv = NNG_OK ->
        nego_headers_done
          (set_p_rxlen rxlen
             (set_p_negoaio (aio_complete rv count None (p_negoaio pp)) pp)) ->
        nego_header_bad rxlen = true ->
        exists w',
          world_routine (wev_nego_done p rv count rxlen) w =
            Some (tt, w',
                  [c_nng_stream_close (p_tls pp);
                   c_nni_aio_finish_error (ua_id u) NNG_EPROTO] ++ reap_calls p pp)
          /\ ep_useraio (w_ep w') = None).
Proof.
  intros Hr Hin Hu.
  pose proof (reachable_wf w Hr) as Hwf.
  assert (Hall : p ∈ ep_all_pipes (w_ep w)).
  { unfold ep_all_pipes. rewrite !elem_of_app. auto. }
  destruct (wf_live w Hwf p Hall) as [pp Hp].
  pose proof (wf_backref w Hwf p pp Hp) as Hep.
  exists pp. split; [exact Hp|].
  cbn [world_routine]. rewrite (after_modify_pipe p _ _ w pp Hp).
  set (pp0 := set_p_rxlen rxlen _).
  set (w0 := set_w_pipes _ w).
  assert (Hp0 : w_pipes w0 !! p = Some pp0).
  { unfold w0. destruct w; cbn. apply lookup_insert_eq. }
  assert (Hep0 : p_ep pp0 = Some the_ep).
  { rewrite <- Hep. unfold pp0. destruct pp; reflexivity. }
  assert (Hu0 : ep_useraio (w_ep w0) = Some u).
  { rewrite <- Hu. unfold w0. destruct w; reflexivity. }
  assert (Htls : p_tls pp0 = p_tls pp) by (unfold pp0; destruct pp; reflexivity).
  assert (Hreap : reap_calls p pp0 = reap_calls p pp).
  { unfold reap_calls, pp0. destruct pp; reflexivity. }
  split.
  - intros Hrv.
    assert (Hres : a_result (p_negoaio pp0) = rv).
    { unfold pp0. destruct pp; reflexivity. }
    rewrite (nego_cb_aio_error w0 p pp0 Hp0 Hep0) by (rewrite Hres; exact Hrv).
    rewrite (nego_error_eq w0 p pp0 _ Hp0).
    rewrite Hu0, Hres, Htls, Hreap.
    eexists _, (nego_surfaced rv). split; [reflexivity|].
    split; [|split; [|split]].
    + intros ->. reflexivity.
    + intros Hne. unfold nego_surfaced. now rewrite decide_False.
    + cbn. now rewrite reap_calls_completions.
    + reflexivity.
  - intros Hrv Hdone Hbad.
    assert (Hres : a_result (p_negoaio pp0) = NNG_OK).
    { unfold pp0. rewrite Hrv. destruct pp; reflexivity. }
    assert (Hrx : p_rxlen pp0 = rxlen) by (unfold pp0; destruct pp; reflexivity).
    rewrite (nego_cb_bad_header w0 p pp0 Hp0 Hep0 Hres Hdone)
      by (rewrite Hrx; exact Hbad).
    rewrite Hu0, Htls, Hreap.
    eexists. split; reflexivity.
Qed.

Lemma nego_error_surfaced_witness :
  reachable demo_world2
  /\ 1%nat ∈ ep_negopipes (w_ep demo_world2)
  /\ ep_useraio (w_ep demo_world2) = Some demo_aio
  /\ NNG_ECLOSED <> NNG_OK
  /\ exists pp,
       w_pipes demo_world2 !! 1%nat = Some pp
       /\ (NNG_ECLOSED <> NNG_OK ->
           exists w' rv',
             world_routine (wev_nego_done 1 NNG_ECLOSED 0 (repeat x00 8)) demo_world2 =
               Some (tt, w',
                     [c_nng_stream_close (p_tls pp);
                      c_nni_aio_finish_error (ua_id demo_aio) rv']
                     ++ reap_calls 1 pp)
             /\ (NNG_ECLOSED = NNG_ECLOSED -> rv' = NNG_ECONNSHUT)
             /\ (NNG_ECLOSED <> NNG_ECLOSED -> rv' = NNG_ECLOSED)
             /\ completions
                  ([c_nng_stream_close (p_tls pp);
                    c_nni_aio_finish_error (ua_id demo_aio) rv']
                   ++ reap_calls 1 pp)
                = [(ua_id demo_aio, rv')]
             /\ ep_useraio (w_ep w') = None)
       /\ (NNG_ECLOSED = NNG_OK ->
           nego_headers_done
             (set_p_rxlen (repeat x00 8)
                (set_p_negoaio (aio_complete NNG_ECLOSED 0 None (p_negoaio pp)) pp)) ->
           nego_header_bad (repeat x00 8) = true ->
           exists w',
             world_routine (wev_nego_done 1 NNG_ECLOSED 0 (repeat x00 8)) demo_world2 =
               Some (tt, w',
                     [c_nng_stream_close (p_tls pp);
                      c_nni_aio_finish_error (ua_id demo_aio) NNG_EPROTO]
                     ++ reap_calls 1 pp)
             /\ ep_useraio (w_ep w') = None).
Proof.
  assert (H2 : 1%nat ∈ ep_negopipes (w_ep demo_world2)).
  { vm_compute. constructor. }
  split; [exact demo_world2_reachable|]. split; [exact H2|].
  split; [reflexivity|]. split; [discriminate|].
  exact (nego_error_surfaced demo_world2 1 demo_aio NNG_ECLOSED 0 (repeat x00 8)
           demo_world2_reachable H2 eq_refl).
Defined.

(** *** One user aio per endpoint *)

(** C5 as stated does not hold: an aio that [nni_aio_begin] refuses is not
    completed by connect or accept at all, so it is not answered with
    busy although the slot is occupied. *)
Lemma busy_when_occupied_counterexample :
  reachable demo_world1
  /\ ep_useraio (w_ep demo_world1) = Some demo_aio
  /\ nni_aio_begin demo_aio_refused <> NNG_OK
  /\ tlstran_ep_connect demo_aio_refused demo_world1 = Some (tt, demo_world1, [])
  /\ tlstran_ep_accept demo_aio_refused demo_world1 = Some (tt, demo_world1, [])
  /\ ~ busy_whenever_occupied.
Proof.
  split; [exact demo_world1_reachable|]. split; [reflexivity|].
  split; [discriminate|]. split; [reflexivity|]. split; [reflexivity|].
  intros H.
  destruct (H demo_world1 demo_aio_refused demo_aio demo_world1_reachable eq_refl)
    as [Hc _].
  change (tlstran_ep_connect demo_aio_refused demo_world1)
    with (Some (tt, demo_world1, @nil call)) in Hc.
  discriminate Hc.
Qed.

(** C5 (amended): in every state the endpoint can reach, while a user
    aio occupies the useraio slot, a connect or an accept that is
    posted with an aio which [nni_aio_begin] admits completes that aio
    with busy and does nothing else: the endpoint, its pipes and the
    aio in the slot are as before.  With an aio which [nni_aio_begin]
    refuses, connect and accept return without completing it, and
    again nothing changes.  The slot holds at most one aio by
    construction. *)
Theorem busy_when_occupied (w : tlstran_world) (aio u : user_aio) :
  reachable w ->
  ep_useraio (w_ep w) = Some u ->
  (nni_aio_begin aio = NNG_OK ->
   tlstran_ep_connect aio w =
     Some (tt, w, [c_nni_aio_finish_error (ua_id aio) NNG_EBUSY])
   /\ tlstran_ep_accept aio w =
     Some (tt, w, [c_nni_aio_finish_error (ua_id aio) NNG_EBUSY]))
  /\ (nni_aio_begin aio <> NNG_OK ->
      tlstran_ep_connect aio w = Some (tt, w, [])
      /\ tlstran_ep_accept aio w = Some (tt, w, [])).
Proof.
  intros Hr Hu.
  assert (Hc : ep_closed (w_ep w) = false).
  { destruct (ep_closed (w_ep w)) eqn:Hc; [|reflexivity].
    pose proof (wf_closed w (reachable_wf w Hr) Hc) as Hn. congruence. }
  split.
  - intros Hb. split.
    + exact (ep_connect_busy aio u w Hb Hc Hu).
    + exact (ep_accept_busy aio u w Hb Hc Hu).
  - intros Hb. split.
    + exact (ep_connect_not_begun aio w Hb).
    + exact (ep_accept_not_begun aio w Hb).
Qed.

Lemma busy_when_occupied_witness :
  reachable demo_world1
  /\ ep_useraio (w_ep demo_world1) = Some demo_aio
  /\ nni_aio_begin demo_aio2 = NNG_OK
  /\ (nni_aio_begin demo_aio2 = NNG_OK ->
      tlstran_ep_connect demo_aio2 demo_world1 =
        Some (tt, demo_world1, [c_nni_aio_finish_error (ua_id demo_aio2) NNG_EBUSY])
      /\ tlstran_ep_accept demo_aio2 demo_world1 =
        Some (tt, demo_world1, [c_nni_aio_finish_error (ua_id demo_aio2) NNG_EBUSY]))
  /\ (nni_aio_begin demo_aio2 <> NNG_OK ->
      tlstran_ep_connect demo_aio2 demo_world1 = Some (tt, demo_world1, [])
      /\ tlstran_ep_accept demo_aio2 demo_world1 = Some (tt, demo_world1, [])).
Proof.
  split; [exact demo_world1_reachable|]. split; [reflexivity|].
  split; [reflexivity|].
  exact (busy_when_occupied demo_world1 demo_aio2 demo_aio
           demo_world1_reachable eq_refl).
Defined.

(** *** Errors of the accept *)

(** C7 as stated does not hold: when the accept fails for lack of memory
    while an accept of the consumer is posted, that user aio is
    completed with the error before the sleep is armed. *)
Lemma accept_backoff_counterexample :
  reachable demo_listener1
  /\ ep_listener (w_ep demo_listener1) = true
  /\ world_routine (wev_accept_done NNG_ENOMEM None demo_env) demo_listener1 =
       Some (tt, set_w_ep
                   (set_ep_useraio None
                      (set_ep_connaio
                         (aio_complete NNG_ENOMEM 0 None
                            (ep_connaio (w_ep demo_listener1)))
                         (w_ep demo_listener1)))
                   demo_listener1,
             [c_nni_aio_finish_error (ua_id demo_aio) NNG_ENOMEM;
              c_nng_sleep_aio 10 TIMEAIO])
  /\ ~ accept_backoff_silent.
Proof.
  assert (Hrun : world_routine (wev_accept_done NNG_ENOMEM None demo_env)
                   demo_listener1 =
       Some (tt, set_w_ep
                   (set_ep_useraio None
                      (set_ep_connaio
                         (aio_complete NNG_ENOMEM 0 None
                            (ep_connaio (w_ep demo_listener1)))
                         (w_ep demo_listener1)))
                   demo_listener1,
             [c_nni_aio_finish_error (ua_id demo_aio) NNG_ENOMEM;
              c_nng_sleep_aio 10 TIMEAIO])).
  { vm_compute. reflexivity. }
  split; [exact demo_listener1_reachable|]. split; [reflexivity|].
  split; [exact Hrun|].
  intros H.
  destruct (H demo_listener1 NNG_ENOMEM None demo_env demo_listener1_reachable
              eq_refl (or_introl eq_refl)) as (w' & t & Heq & Hc).
  rewrite Hrun in Heq. injection Heq as _ <-.
  vm_compute in Hc. discriminate Hc.
Qed.

(** C7 (amended): when the accept aio of a listener completes with an
    error, the accept callback first completes the user aio that is
    posted, if there is one, with that error and empties the slot --
    whatever the error.  Then, for out-of-memory and out-of-files, it
    arms a 10 ms sleep on the endpoint's timeaio and posts no accept;
    for any other error it posts the next accept at once unless the
    endpoint is closed, in which case it does nothing more.  When the
    sleep completes, the timer callback posts the accept if the sleep
    ended normally and does nothing if it was aborted. *)
Theorem accept_error_backoff (w : tlstran_world) (rv : nng_err)
  (conn : option nat) (env : alloc_env) :
  ep_listener (w_ep w) = true ->
  rv <> NNG_OK ->
  exists w' next,
    world_routine (wev_accept_done rv conn env) w =
      Some (tt, w',
            match ep_useraio (w_ep w) with
            | Some u => [c_nni_aio_finish_error (ua_id u) rv]
            | None => []
            end ++ next)
    /\ ep_useraio (w_ep w') = None
    /\ ep_closed (w_ep w') = ep_closed (w_ep w)
    /\ w_pipes w' = w_pipes w
    /\ (rv = NNG_ENOMEM \/ rv = NNG_ENOFILES ->
        next = [c_nng_sleep_aio 10 TIMEAIO])
    /\ (rv <> NNG_ENOMEM -> rv <> NNG_ENOFILES -> ep_closed (w_ep w) = false ->
        next = [c_nng_stream_listener_accept CONNAIO])
    /\ (rv <> NNG_ENOMEM -> rv <> NNG_ENOFILES -> ep_closed (w_ep w) = true ->
        next = [])
    /\ (forall rv2,
          world_routine (wev_timer_done rv2) w' =
            Some (tt,
                  set_w_ep
                    (set_ep_timeaio (aio_complete rv2 0 None (ep_timeaio (w_ep w')))
                       (w_ep w')) w',
                  if decide (rv2 = NNG_OK)
                  then [c_nng_stream_listener_accept CONNAIO] else [])).
Proof.
  intros Hl Hrv. cbn [world_routine]. rewrite after_modify_ep.
  set (w0 := set_w_ep _ w).
  assert (Hres : a_result (ep_connaio (w_ep w0)) = rv).
  { unfold w0. destruct w as [[] ? ?]; reflexivity. }
  assert (Hu0 : ep_useraio (w_ep w0) = ep_useraio (w_ep w)).
  { unfold w0. destruct w as [[] ? ?]; reflexivity. }
  assert (Hc0 : ep_closed (w_ep w0) = ep_closed (w_ep w)).
  { unfold w0. destruct w as [[] ? ?]; reflexivity. }
  assert (Hp0 : w_pipes w0 = w_pipes w).
  { unfold w0. destruct w as [[] ? ?]; reflexivity. }
  rewrite (accept_cb_aio_error env w0) by (rewrite Hres; exact Hrv).
  rewrite Hres. unfold accept_error_calls. rewrite Hu0, Hc0.
  clearbody w0.
  eexists _, _. split; [reflexivity|].
  split; [destruct w0 as [[] ? ?]; reflexivity|].
  split; [destruct w0 as [[] ? ?]; exact Hc0|].
  split; [destruct w0 as [[] ? ?]; exact Hp0|].
  split; [intros [-> | ->]; reflexivity|].
  split.
  { intros H1 H2 Hc. rewrite Hc. destruct rv; try reflexivity; congruence. }
  split.
  { intros H1 H2 Hc. rewrite Hc. destruct rv; try reflexivity; congruence. }
  intros rv2. cbn [world_routine]. rewrite after_modify_ep, timer_cb_eq.
  reflexivity.
Qed.

Lemma accept_error_backoff_witness :
  ep_listener (w_ep demo_listener1) = true
  /\ NNG_ENOFILES <> NNG_OK
  /\ ep_useraio (w_ep demo_listener1) = Some demo_aio
  /\ exists w' next,
       world_routine (wev_accept_done NNG_ENOFILES None demo_env) demo_listener1 =
         Some (tt, w',
               match ep_useraio (w_ep demo_listener1) with
               | Some u => [c_nni_aio_finish_error (ua_id u) NNG_ENOFILES]
               | None => []
               end ++ next)
       /\ ep_useraio (w_ep w') = None
       /\ ep_closed (w_ep w') = ep_closed (w_ep demo_listener1)
       /\ w_pipes w' = w_pipes demo_listener1
       /\ (NNG_ENOFILES = NNG_ENOMEM \/ NNG_ENOFILES = NNG_ENOFILES ->
           next = [c_nng_sleep_aio 10 TIMEAIO])
       /\ (NNG_ENOFILES <> NNG_ENOMEM -> NNG_ENOFILES <> NNG_ENOFILES ->
           ep_closed (w_ep demo_listener1) = false ->
           next = [c_nng_stream_listener_accept CONNAIO])
       /\ (NNG_ENOFILES <> NNG_ENOMEM -> NNG_ENOFILES <> NNG_ENOFILES ->
           ep_closed (w_ep demo_listener1) = true ->
           next = [])
       /\ (forall rv2,
             world_routine (wev_timer_done rv2) w' =
               Some (tt,
                     set_w_ep
                       (set_ep_timeaio
                          (aio_complete rv2 0 None (ep_timeaio (w_ep w')))
                          (w_ep w')) w',
                     if decide (rv2 = NNG_OK)
                     then [c_nng_stream_listener_accept CONNAIO] else [])).
Proof.
  split; [reflexivity|]. split; [discriminate|]. split; [reflexivity|].
  exact (accept_error_backoff demo_listener1 NNG_ENOFILES None demo_env
           eq_refl ltac:(discriminate)).
Defined.

(** *** The endpoint's reference count *)

(** C9: in every state the endpoint can reach, with a pipe allocated:
    the endpoint is not freed and its reference count is positive;
    [tlstran_ep_fini] sets the fini flag and, the count being
    positive, does nothing else (with a count of zero it tears the
    endpoint down and frees it); [tlstran_pipe_fini] takes the count
    down by one and hands the endpoint to the reaper exactly if the
    fini flag is set and the count has reached zero, and never frees
    the endpoint itself; starting a newly allocated pipe takes the
    count up by one. *)
Theorem ep_reaped_when_unreferenced (w : tlstran_world) (p : nat) (pp : tlstran_pipe) :
  reachable w ->
  w_pipes w !! p = Some pp ->
  (w_ep_freed w = false /\ 0 < ep_refcnt (w_ep w))
  /\ (forall w0 : tlstran_world,
        exists w' t,
          tlstran_ep_fini w0 = Some (tt, w', t)
          /\ ep_fini (w_ep w') = true
          /\ ep_refcnt (w_ep w') = ep_refcnt (w_ep w0)
          /\ (ep_refcnt (w_ep w0) = 0 ->
              t = ep_teardown_calls /\ w_ep_freed w' = true)
          /\ (ep_refcnt (w_ep w0) <> 0 ->
              t = [] /\ w' = set_w_ep (set_ep_fini true (w_ep w0)) w0))
  /\ (exists w' t,
        tlstran_pipe_fini p w = Some (tt, w', t)
        /\ ep_refcnt (w_ep w') = ep_refcnt (w_ep w) - 1
        /\ (c_nni_reap_ep ∈ t <->
            ep_fini (w_ep w) = true /\ ep_refcnt (w_ep w') = 0)
        /\ (c_free_ep ∉ t)
        /\ w_ep_freed w' = false)
  /\ (forall (env : alloc_env) (q : nat) (conn : option nat),
        new_struct env = Some q -> new_aio_rv env = NNG_OK ->
        exists w1 w2 t,
          tlstran_pipe_alloc env w = Some ((NNG_OK, Some q), w1, [])
          /\ ep_refcnt (w_ep w1) = ep_refcnt (w_ep w)
          /\ tlstran_pipe_start q conn w1 = Some (tt, w2, t)
          /\ ep_refcnt (w_ep w2) = ep_refcnt (w_ep w) + 1).
Proof.
  intros Hr Hp.
  pose proof (reachable_wf w Hr) as Hwf.
  pose proof (wf_backref w Hwf p pp Hp) as Hep.
  assert (Hpos : 0 < ep_refcnt (w_ep w)).
  { rewrite (wf_refcnt w Hwf).
    destruct (decide (size (w_pipes w) = 0%nat)) as [Hz|Hz]; [|lia].
    apply map_size_empty_inv in Hz. rewrite Hz in Hp.
    rewrite lookup_empty in Hp. discriminate. }
  assert (Hfr : w_ep_freed w = false).
  { destruct (w_ep_freed w) eqn:Hf; [|reflexivity].
    destruct (wf_freed w Hwf Hf) as [_ Hz]. lia. }
  split; [split; assumption|].
  split.
  { intros w0. rewrite ep_fini_eq.
    destruct (decide (ep_refcnt (w_ep w0) <> 0)) as [Hn|Hn].
    - eexists _, _. split; [reflexivity|].
      split; [destruct w0 as [[] ? ?]; reflexivity|].
      split; [destruct w0 as [[] ? ?]; reflexivity|].
      split; [intros Hz; congruence|].
      intros _. split; reflexivity.
    - eexists _, _. split; [reflexivity|].
      split; [destruct w0 as [[] ? ?]; reflexivity|].
      split; [destruct w0 as [[] ? ?]; reflexivity|].
      split; [intros _; split; reflexivity|].
      intros Hz. exfalso. exact (Hn Hz). }
  split.
  { rewrite (pipe_fini_eq w p pp Hp). rewrite Hep.
    eexists _, _. split; [reflexivity|].
    assert (Hrc : ep_refcnt
                    (set_ep_refcnt (ep_refcnt (w_ep w) - 1)
                       (nni_list_node_remove p (w_ep w)))
                  = ep_refcnt (w_ep w) - 1).
    { destruct w as [[] ? ?]; reflexivity. }
    cbn [w_ep w_ep_freed]. rewrite Hrc.
    split; [reflexivity|].
    split; [|split; [|exact Hfr]].
    - rewrite !elem_of_app.
      destruct (ep_fini (w_ep w)) eqn:Hf;
        destruct (bool_decide (ep_refcnt (w_ep w) - 1 = 0)) eqn:Hb; cbn [andb].
      + apply bool_decide_eq_true in Hb. split; [auto|].
        intros _. right. left. left.
      + apply bool_decide_eq_false in Hb. split; [|tauto].
        intros [H|[H|H]].
        * cbn in H. rewrite !elem_of_cons in H. rewrite elem_of_nil in H.
          intuition discriminate.
        * inversion H.
        * cbn in H. rewrite !elem_of_cons in H. rewrite elem_of_nil in H.
          intuition discriminate.
      + split; [|intros [H _]; discriminate].
        intros [H|[H|H]].
        * cbn in H. rewrite !elem_of_cons in H. rewrite elem_of_nil in H.
          intuition discriminate.
        * inversion H.
        * cbn in H. rewrite !elem_of_cons in H. rewrite elem_of_nil in H.
          intuition discriminate.
      + split; [|intros [H _]; discriminate].
        intros [H|[H|H]].
        * cbn in H. rewrite !elem_of_cons in H. rewrite elem_of_nil in H.
          intuition discriminate.
        * inversion H.
        * cbn in H. rewrite !elem_of_cons in H. rewrite elem_of_nil in H.
          intuition discriminate.
    - rewrite !elem_of_app. intros [H|[H|H]].
      + cbn in H. rewrite !elem_of_cons in H. rewrite elem_of_nil in H.
        intuition discriminate.
      + destruct (ep_fini (w_ep w) && bool_decide (ep_refcnt (w_ep w) - 1 = 0)).
        * apply list_elem_of_singleton in H. discriminate.
        * inversion H.
      + cbn in H. rewrite !elem_of_cons in H. rewrite elem_of_nil in H.
        intuition discriminate. }
  intros env q conn Hs Ha.
  rewrite (pipe_alloc_ok env w q Hs Ha).
  assert (Hq : w_pipes (set_w_pipes (<[q := pipe_zero]> (w_pipes w)) w) !! q
               = Some pipe_zero).
  { destruct w; cbn. apply lookup_insert_eq. }
  exists (set_w_pipes (<[q := pipe_zero]> (w_pipes w)) w).
  rewrite (pipe_start_eq _ q pipe_zero conn Hq).
  eexists _, _. split; [reflexivity|].
  split; [destruct w as [[] ? ?]; reflexivity|].
  split; [reflexivity|].
  destruct w as [[] ? ?]; reflexivity.
Qed.

Lemma ep_reaped_when_unreferenced_witness :
  reachable demo_fini_world
  /\ w_pipes demo_fini_world !! 1%nat = Some (pipe_1 demo_fini_world)
  /\ ep_fini (w_ep demo_fini_world) = true
  /\ ep_refcnt (w_ep demo_fini_world) = 1
  /\ (c_nni_reap_ep ∈ calls_of (tlstran_pipe_fini 1) demo_fini_world)
  /\ (w_ep_freed demo_fini_world = false /\ 0 < ep_refcnt (w_ep demo_fini_world))
  /\ (forall w0 : tlstran_world,
        exists w' t,
          tlstran_ep_fini w0 = Some (tt, w', t)
          /\ ep_fini (w_ep w') = true
          /\ ep_refcnt (w_ep w') = ep_refcnt (w_ep w0)
          /\ (ep_refcnt (w_ep w0) = 0 ->
              t = ep_teardown_calls /\ w_ep_freed w' = true)
          /\ (ep_refcnt (w_ep w0) <> 0 ->
              t = [] /\ w' = set_w_ep (set_ep_fini true (w_ep w0)) w0))
  /\ (exists w' t,
        tlstran_pipe_fini 1 demo_fini_world = Some (tt, w', t)
        /\ ep_refcnt (w_ep w') = ep_refcnt (w_ep demo_fini_world) - 1
        /\ (c_nni_reap_ep ∈ t <->
            ep_fini (w_ep demo_fini_world) = true /\ ep_refcnt (w_ep w') = 0)
        /\ (c_free_ep ∉ t)
        /\ w_ep_freed w' = false)
  /\ (forall (env : alloc_env) (q : nat) (conn : option nat),
        new_struct env = Some q -> new_aio_rv env = NNG_OK ->
        exists w1 w2 t,
          tlstran_pipe_alloc env demo_fini_world = Some ((NNG_OK, Some q), w1, [])
          /\ ep_refcnt (w_ep w1) = ep_refcnt (w_ep demo_fini_world)
          /\ tlstran_pipe_start q conn w1 = Some (tt, w2, t)
          /\ ep_refcnt (w_ep w2) = ep_refcnt (w_ep demo_fini_world) + 1).
Proof.
  assert (H2 : w_pipes demo_fini_world !! 1%nat = Some (pipe_1 demo_fini_world)).
  { vm_compute. reflexivity. }
  assert (H5 : c_nni_reap_ep ∈ calls_of (tlstran_pipe_fini 1) demo_fini_world).
  { match goal with
    | |- _ ∈ ?t => let t' := eval vm_compute in t in change (c_nni_reap_ep ∈ t')
    end.
    rewrite !elem_of_cons. auto 10. }
  split; [exact demo_fini_world_reachable|]. split; [exact H2|].
  split; [reflexivity|]. split; [reflexivity|]. split; [exact H5|].
  exact (ep_reaped_when_unreferenced demo_fini_world 1 (pipe_1 demo_fini_world)
           demo_fini_world_reachable H2).
Defined.
